(** * Sync_to_mp3: a shallow embedding of synch_to_mp3.py

    The script keeps an mp3 mirror (right side) in sync with a flac + mp3
    collection (left side).  This development embeds the tree scanner
    ([get_files_dirs]), the tag conversions ([get_id3_frame],
    [xx_total_correct], [copy_tag_dict_to_mp3], [id3_tags_as_dict]), the
    comparison done by [CompResult] and the order in which [synchronise]
    applies its stages, and proves properties of them.

    Conventions.
    - A Python [dict] is an insertion-ordered association list without
      duplicate keys ([PyDict]): assignment to an existing key keeps the
      position of the key, assignment to a new key appends.
    - A Python exception is the [Raise] branch of [result]; nothing in the
      modelled code catches one, except where it is written out.
    - [st_mtime] values are only compared with [!=] and [>]; they are
      modelled as integers.
    - Paths are strings and [os.path.join] is the POSIX one. *)

From Stdlib Require Import String Ascii List ZArith Bool Lia Arith Permutation.
Import ListNotations.
Open Scope string_scope.
Open Scope list_scope.

Set Implicit Arguments.
Set Warnings "-register-all".

(** ** Exceptions *)

Inductive exn : Type :=
| AssertionError (msg : string)
| KeyError (key : string)
| IndexError
| ValueError
| AttributeError
| FileExistsError
| OSError (msg : string)
| Exception (msg : string).

Inductive result (A : Type) : Type :=
| Ok (a : A)
| Raise (e : exn).

Arguments Ok {A} a.
Arguments Raise {A} e.

Definition bind {A B : Type} (m : result A) (k : A -> result B) : result B :=
  match m with
  | Ok a => k a
  | Raise e => Raise e
  end.

Notation "x <- m ;; k" := (bind m (fun x => k))
  (at level 61, m at next level, right associativity).

Definition is_ok {A : Type} (m : result A) : bool :=
  match m with Ok _ => true | Raise _ => false end.

(** [for x in xs: acc = body(x, acc)], stopping at the first exception. *)
Fixpoint for_each {A S : Type} (body : A -> S -> result S) (xs : list A) (s : S)
  : result S :=
  match xs with
  | [] => Ok s
  | x :: xs' => s' <- body x s ;; for_each body xs' s'
  end.

(** ** Python dictionaries with string keys *)

Module PyDict.
Section Dict.
Variable V : Type.

Definition t := list (string * V).

Definition empty : t := [].

(** [d.get(k)] *)
Fixpoint get (k : string) (d : t) : option V :=
  match d with
  | [] => None
  | (k', v) :: d' => if String.eqb k k' then Some v else get k d'
  end.

(** [k in d] *)
Definition mem (k : string) (d : t) : bool :=
  match get k d with Some _ => true | None => false end.

(** [d[k] = v] *)
Fixpoint set (k : string) (v : V) (d : t) : t :=
  match d with
  | [] => [(k, v)]
  | (k', v') :: d' =>
      if String.eqb k k' then (k', v) :: d' else (k', v') :: set k v d'
  end.

(** [del d[k]] for a key that may be absent *)
Fixpoint remove (k : string) (d : t) : t :=
  match d with
  | [] => []
  | (k', v') :: d' =>
      if String.eqb k k' then d' else (k', v') :: remove k d'
  end.

(** [d.update(d2)] *)
Definition update (d d2 : t) : t :=
  fold_left (fun acc kv => set (fst kv) (snd kv) acc) d2 d.

(** A dict display or comprehension: the items are assigned in order. *)
Definition of_items (kvs : list (string * V)) : t := update empty kvs.

(** [list(d)], the keys in insertion order *)
Definition keys (d : t) : list string := map fst d.

(** [d[k]] *)
Definition getitem (k : string) (d : t) : result V :=
  match get k d with
  | Some v => Ok v
  | None => Raise (KeyError k)
  end.
End Dict.
End PyDict.

Arguments PyDict.empty {V}.

(** Membership of a string in a list of strings, [x in xs]. *)
Definition str_in (x : string) (xs : list string) : bool :=
  existsb (String.eqb x) xs.

(** ** The comparison of the two sides (class CompResult) *)

(** A value of [music_files]: [{'ext': ext, 'last_mod': last_mod}]. *)
Record music_info : Type := MusicInfo { ext : string; last_mod : Z }.

Record CompResult : Type := mkCompResult {
  base_path_left : string;
  base_path_right : string;
  music_left : PyDict.t music_info;
  rest_left : PyDict.t Z;
  dirs_left : PyDict.t nat;
  music_right : PyDict.t music_info;
  rest_right : PyDict.t Z;
  dirs_right : PyDict.t nat;
  dirs_to_copy : PyDict.t nat;
  dirs_to_delete : PyDict.t nat;
  rest_to_copy : list string;
  rest_to_delete : list string;
  music_leftonly : list string;
  music_changed : list string;
  music_to_delete : PyDict.t music_info
}.

(** [{k: v for k, v in d.items() if k not in other}] *)
Definition dict_minus {V W : Type} (d : PyDict.t V) (other : PyDict.t W)
  : PyDict.t V :=
  PyDict.of_items (filter (fun kv => negb (PyDict.mem (fst kv) other)) d).

(** [_compare_files]: the set difference of the key views is kept as the
    list of its elements, here in the order of the right map (Python
    fixes no order for a set; the statements below are about membership
    and about the place of the whole stage, not about the order inside
    it). *)
Definition _compare_files (rest_left rest_right : PyDict.t Z)
  : list string * list string :=
  let files_to_delete :=
    filter (fun k => negb (PyDict.mem k rest_left)) (PyDict.keys rest_right) in
  let files_to_copy :=
    fold_left
      (fun acc x =>
         match PyDict.get x rest_right with
         | Some r =>
             match PyDict.get x rest_left with
             | Some l => if negb (Z.eqb l r) then acc ++ [x] else acc
             | None => acc
             end
         | None => acc ++ [x]
         end)
      (PyDict.keys rest_left) [] in
  (files_to_copy, files_to_delete).

(** [_compare_music] *)
Definition _compare_music (music_left music_right : PyDict.t music_info)
  : list string * list string * PyDict.t music_info :=
  let music_to_delete := dict_minus music_right music_left in
  let '(music_leftonly, music_changed) :=
    fold_left
      (fun acc x =>
         let '(lo, ch) := acc in
         match PyDict.get x music_right with
         | Some r =>
             match PyDict.get x music_left with
             | Some l =>
                 if Z.gtb (last_mod l) (last_mod r) then (lo, ch ++ [x])
                 else (lo, ch)
             | None => (lo, ch)
             end
         | None => (lo ++ [x], ch)
         end)
      (PyDict.keys music_left) ([], []) in
  (music_leftonly, music_changed, music_to_delete).

(** ** Strings *)

Definition sep : ascii := "/"%char.

Fixpoint contains_char (c : ascii) (s : string) : bool :=
  match s with
  | EmptyString => false
  | String a s' => Ascii.eqb a c || contains_char c s'
  end.

Fixpoint count_char (c : ascii) (s : string) : nat :=
  match s with
  | EmptyString => 0
  | String a s' => (if Ascii.eqb a c then 1 else 0) + count_char c s'
  end.

(** [s.split(c)] for a one-character separator *)
Fixpoint split_on (c : ascii) (s : string) : list string :=
  match s with
  | EmptyString => [""]
  | String a s' =>
      if Ascii.eqb a c then "" :: split_on c s'
      else match split_on c s' with
           | [] => [String a ""]
           | h :: t => String a h :: t
           end
  end.

Definition starts_with_char (c : ascii) (s : string) : bool :=
  match s with
  | String a _ => Ascii.eqb a c
  | EmptyString => false
  end.

Fixpoint ends_with_char (c : ascii) (s : string) : bool :=
  match s with
  | EmptyString => false
  | String a EmptyString => Ascii.eqb a c
  | String _ s' => ends_with_char c s'
  end.

(** [s.startswith(p)] *)
Definition startswith (p s : string) : bool := String.prefix p s.

(** [s[:n]] and [s[n:]] for [0 <= n] *)
Fixpoint take (n : nat) (s : string) : string :=
  match n, s with
  | S n', String a s' => String a (take n' s')
  | _, _ => ""
  end.

Fixpoint drop (n : nat) (s : string) : string :=
  match n, s with
  | S n', String _ s' => drop n' s'
  | _, _ => s
  end.

(** [s.rfind(c)]: the highest index of [c] in [s], or -1 *)
Fixpoint rfind (c : ascii) (s : string) : Z :=
  match s with
  | EmptyString => (-1)%Z
  | String a s' =>
      let r := rfind c s' in
      if (0 <=? r)%Z then (r + 1)%Z
      else if Ascii.eqb a c then 0%Z else (-1)%Z
  end.

Definition lower_char (a : ascii) : ascii :=
  let n := nat_of_ascii a in
  if ((65 <=? n) && (n <=? 90))%nat then ascii_of_nat (n + 32) else a.

(** [s.lower()], on ASCII letters *)
Fixpoint lower (s : string) : string :=
  match s with
  | EmptyString => EmptyString
  | String a s' => String (lower_char a) (lower s')
  end.

(** ** mutagen's ID3 frames

    A frame is known by its frame id, by the key under which a tag
    container stores it ([frame.HashKey]) and by the attributes its class
    has: [desc] is [None] when the class has no such attribute, so that
    reading it raises [AttributeError]; [text] is [None] likewise and
    holds otherwise the values [str(x) for x in frame.text]. *)

Record frame : Type := Frame {
  FrameID : string;
  HashKey : string;
  desc : option string;
  text : option (list string)
}.

(** The classes of the table [id3.Frames], by what the constructor makes
    of [frame_type(encoding=3, text=tag_value)]: a keyword the class does
    not have is dropped, an attribute that is not given takes its
    default. *)
Inductive frame_class : Type :=
| TextFrame          (* encoding, text; the values are kept as given *)
| TimeStampTextFrame (stamp : string -> string)
                     (* encoding, text; a value [v] is kept as a time
                        stamp, [str] of which is [stamp v] *)
| DescTextFrame      (* encoding, desc, text: TXXX *)
| LangDescTextFrame  (* encoding, lang, desc, text: COMM *)
| OtherFrame (make : list string -> result frame).
                     (* any other class, by its constructor *)

Definition new_frame (frame_name : string) (c : frame_class)
  (tag_value : list string) : result frame :=
  match c with
  | TextFrame => Ok (Frame frame_name frame_name None (Some tag_value))
  | TimeStampTextFrame stamp =>
      Ok (Frame frame_name frame_name None (Some (map stamp tag_value)))
  | DescTextFrame =>
      Ok (Frame frame_name (frame_name ++ ":") (Some "") (Some tag_value))
  | LangDescTextFrame =>
      Ok (Frame frame_name (frame_name ++ "::XXX") (Some "") (Some tag_value))
  | OtherFrame make => make tag_value
  end.

(** [id3.TXXX(encoding=3, desc=d, text=v)], [id3.TRCK(encoding=3, text=v)]
    and [id3.TPOS(encoding=3, text=v)] *)
Definition TXXX (d : string) (v : list string) : frame :=
  Frame "TXXX" ("TXXX:" ++ d) (Some d) (Some v).
Definition TRCK (v : list string) : frame := Frame "TRCK" "TRCK" None (Some v).
Definition TPOS (v : list string) : frame := Frame "TPOS" "TPOS" None (Some v).

(** *** Time stamps

    mutagen keeps a value of a time stamp frame as an [ID3TimeStamp]:
    the text is cut at [-], [T], [:], [/], [.] and at white space, the
    first six parts are read with [int] as year, month, day, hour, minute
    and second, and [str] writes the parts up to the first one that is no
    number, as [%04d-%02d-%02d %02d:%02d:%02d].  The text is taken here
    as ASCII. *)

Definition is_space (a : ascii) : bool :=
  let n := nat_of_ascii a in
  ((9 <=? n) && (n <=? 13))%nat || ((28 <=? n) && (n <=? 32))%nat.

Definition stamp_sep (a : ascii) : bool :=
  existsb (Ascii.eqb a) ["-"; "T"; ":"; "/"; "."]%char.

(** [re.compile('[-T:/.]|\s+').split(s)]; [in_space] says that the
    character before was white space. *)
Fixpoint stamp_split (in_space : bool) (s : string) : list string :=
  match s with
  | EmptyString => [""]
  | String a s' =>
      if stamp_sep a then "" :: stamp_split false s'
      else if is_space a then
        if in_space then stamp_split true s' else "" :: stamp_split true s'
      else match stamp_split false s' with
           | [] => [String a ""]
           | h :: t => String a h :: t
           end
  end.

Definition is_digit (a : ascii) : bool :=
  let n := nat_of_ascii a in ((48 <=? n) && (n <=? 57))%nat.

(** The digits of [int(s)] for digits that may hold single underscores
    between them; [after_digit] says that the character before was a
    digit. *)
Fixpoint int_digits (after_digit : bool) (s : string) : option string :=
  match s with
  | EmptyString => if after_digit then Some "" else None
  | String a s' =>
      if is_digit a then
        match int_digits true s' with
        | Some d => Some (String a d)
        | None => None
        end
      else if Ascii.eqb a "_"%char then
        if after_digit then int_digits false s' else None
      else None
  end.

Fixpoint strip_zeros (s : string) : string :=
  match s with
  | String "0" (String _ _ as s') => strip_zeros s'
  | _ => s
  end.

(** [int(s)] for a text without white space, as its decimal digits, or
    [None] where [int] raises [ValueError]. *)
Definition int_text (s : string) : option string :=
  let digits :=
    match s with
    | String "+" s' => int_digits false s'
    | _ => int_digits false s
    end in
  match digits with
  | Some d => Some (strip_zeros d)
  | None => None
  end.

(** ['%0wd' % n] for the digits of [n] *)
Fixpoint zero_pad (w : nat) (d : string) : string :=
  match (w - String.length d)%nat with
  | O => d
  | S _ => match w with
           | O => d
           | S w' => String "0" (zero_pad w' d)
           end
  end.

Fixpoint stamp_pieces (widths : list nat) (parts : list string) : list string :=
  match widths, parts with
  | w :: widths', p :: parts' =>
      match int_text p with
      | Some d => zero_pad w d :: stamp_pieces widths' parts'
      | None => []
      end
  | _, _ => []
  end.

Fixpoint stamp_join (seps pieces : list string) : string :=
  match pieces with
  | [] => ""
  | [p] => p
  | p :: pieces' =>
      match seps with
      | sp :: seps' => (p ++ sp ++ stamp_join seps' pieces')%string
      | [] => p
      end
  end.

(** [str(ID3TimeStamp(v))] *)
Definition ID3TimeStamp_text (v : string) : string :=
  stamp_join ["-"; "-"; " "; ":"; ":"]
    (stamp_pieces [4; 2; 2; 2; 2; 2]
       (firstn 6 (stamp_split false (v ++ ":::::")))).

(** ** Configuration

    The variables at the top of the script that the functions read, and
    [id3.Frames], the table of the frame classes of the installed mutagen:
    the table is not part of the script, it is a parameter here. *)

Record config : Type := Config {
  dirs_to_ignore : list string;
  vorbis_to_id3_map : PyDict.t string;
  id3_frames_to_ignore : list string;
  Frames : PyDict.t frame_class
}.

(** The text frames of ID3v2.3 and ID3v2.4 as mutagen has them in
    [id3.Frames]: the frames that keep their text as given, the time
    stamp frames, TXXX and COMM.  The frames of the other classes are left
    out; no example below maps a field to one of them. *)
Definition text_frames : PyDict.t frame_class :=
  map (fun i => (i, TextFrame))
    [ "TALB"; "TBPM"; "TCOM"; "TCON"; "TCOP"; "TCMP"; "TDAT"; "TDES"; "TKWD";
      "TCAT"; "MVNM"; "MVIN"; "GRP1"; "TDLY"; "TENC"; "TEXT"; "TFLT"; "TGID";
      "TIME"; "TIT1"; "TIT2"; "TIT3"; "TKEY"; "TLAN"; "TLEN"; "TMED"; "TMOO";
      "TOAL"; "TOFN"; "TOLY"; "TOPE"; "TORY"; "TOWN"; "TPE1"; "TPE2"; "TPE3";
      "TPE4"; "TPOS"; "TPRO"; "TPUB"; "TRCK"; "TRDA"; "TRSN"; "TRSO"; "TSIZ";
      "TSO2"; "TSOA"; "TSOC"; "TSOP"; "TSOT"; "TSRC"; "TSSE"; "TSST"; "TYER" ]
  ++ map (fun i => (i, TimeStampTextFrame ID3TimeStamp_text))
    [ "TDEN"; "TDOR"; "TDRC"; "TDRL"; "TDTG" ]
  ++ [ ("TXXX", DescTextFrame); ("COMM", LangDescTextFrame) ].

(** The variables as the script ships them. *)
Definition default_config : config := {|
  dirs_to_ignore := ["example-1"; "example-2"];
  vorbis_to_id3_map := PyDict.of_items
    [ ("artist", "TPE1"); ("title", "TIT2"); ("album", "TALB");
      ("albumartist", "TPE2"); ("tracknumber", "TRCK"); ("discnumber", "TPOS");
      ("composer", "TCOM"); ("conductor", "TPE3"); ("remixer", "TPE4");
      ("date", "TDRC"); ("comment", "COMM"); ("genre", "TCON");
      ("language", "TLAN"); ("bpm", "TBPM") ];
  id3_frames_to_ignore := ["TSSE"];
  Frames := text_frames
|}.

(** A tag container ([mutagen.id3.ID3]): the frames by hash key. *)
Definition ID3 : Type := PyDict.t frame.

(** [tags.add(frame)]: the frame replaces the one stored under its key. *)
Definition add (f : frame) (tags : ID3) : ID3 := PyDict.set (HashKey f) f tags.

(** [tags.delall(key)] *)
Definition delall (key : string) (tags : ID3) : ID3 :=
  if PyDict.mem key tags then PyDict.remove key tags
  else filter (fun kv => negb (startswith (key ++ ":")%string (fst kv))) tags.

(** A field dict: [{'tag_name': ['tag_value', ...]}]. *)
Definition tag_dict : Type := PyDict.t (list string).

(** [get_id3_frame] *)
Definition get_id3_frame (cfg : config) (tag_name : string)
  (tag_value : list string) : result frame :=
  match PyDict.get tag_name (vorbis_to_id3_map cfg) with
  | Some frame_name =>
      match PyDict.get frame_name (Frames cfg) with
      | None =>
          Raise (AssertionError
                   ("'" ++ frame_name ++
                    "' in vorbis_to_id3_map is not a valid frame type")%string)
      | Some frame_type => new_frame frame_name frame_type tag_value
      end
  | None => Ok (TXXX tag_name tag_value)
  end.

(** [frame.text[0]] *)
Definition text0 (f : frame) : result string :=
  match text f with
  | None => Raise AttributeError
  | Some [] => Raise IndexError
  | Some (v :: _) => Ok v
  end.

(** One block of the ID3 branch of [xx_total_correct]. *)
Definition merge_total (total_key number_key : string)
  (number_frame : list string -> frame) (tag_thing : ID3) : result ID3 :=
  if PyDict.mem total_key tag_thing && PyDict.mem number_key tag_thing then
    nf <- PyDict.getitem number_key tag_thing ;;
    track_numb <- text0 nf ;;
    tf <- PyDict.getitem total_key tag_thing ;;
    track_tot <- text0 tf ;;
    Ok (delall total_key
          (add (number_frame [(track_numb ++ "/" ++ track_tot)%string]) tag_thing))
  else Ok tag_thing.

(** One block of the dict branch of [xx_total_correct]. *)
Definition split_total (number_key total_key : string) (tag_thing : tag_dict)
  : result tag_dict :=
  match PyDict.get number_key tag_thing with
  | None => Ok tag_thing
  | Some [] => Raise IndexError
  | Some (v0 :: _) =>
      if contains_char sep v0 then
        match split_on sep v0 with
        | [numb; tot] =>
            Ok (PyDict.set total_key [tot]
                  (PyDict.set number_key [numb] tag_thing))
        | _ => Raise ValueError
        end
      else Ok tag_thing
  end.

(** The argument of [xx_total_correct] is told apart by its type. *)
Inductive tag_thing : Type :=
| ID3Tags (tags : ID3)
| DictTags (d : tag_dict)
| OtherThing.

(** [xx_total_correct] *)
Definition xx_total_correct (t : tag_thing) : result tag_thing :=
  match t with
  | ID3Tags tags =>
      tags1 <- merge_total "TXXX:tracktotal" "TRCK" TRCK tags ;;
      tags2 <- merge_total "TXXX:disctotal" "TPOS" TPOS tags1 ;;
      Ok (ID3Tags tags2)
  | DictTags d =>
      d1 <- split_total "tracknumber" "tracktotal" d ;;
      d2 <- split_total "discnumber" "disctotal" d1 ;;
      Ok (DictTags d2)
  | OtherThing => Raise (Exception "What is this thing?")
  end.

Definition as_ID3 (t : tag_thing) : result ID3 :=
  match t with
  | ID3Tags tags => Ok tags
  | _ => Raise AttributeError
  end.

Definition as_dict (t : tag_thing) : result tag_dict :=
  match t with
  | DictTags d => Ok d
  | _ => Raise AttributeError
  end.

(** The loop of [copy_tag_dict_to_mp3]. *)
Definition add_frames (cfg : config) (td : tag_dict) (tags : ID3) : result ID3 :=
  for_each
    (fun t tags =>
       frame_to_add <- get_id3_frame cfg (fst t) (snd t) ;;
       Ok (add frame_to_add tags))
    td tags.

(** [copy_tag_dict_to_mp3]: the result is the container that is saved. *)
Definition copy_tag_dict_to_mp3 (cfg : config) (tags : ID3) (td : tag_dict)
  : result ID3 :=
  tags1 <- add_frames cfg td tags ;;
  r <- xx_total_correct (ID3Tags tags1) ;;
  as_ID3 r.

(** A line printed by [id3_tags_as_dict]:
    [Ignored {t} frame in {id3_tags['TPE1']} - {id3_tags['TIT2']}]. *)
Record warning : Type := Ignored {
  ignored_key : string;
  in_artist : frame;
  in_title : frame
}.

Definition print_ignored (t : string) (id3_tags : ID3) : result warning :=
  a <- PyDict.getitem "TPE1" id3_tags ;;
  b <- PyDict.getitem "TIT2" id3_tags ;;
  Ok (Ignored t a b).

(** [{v: k for k, v in vorbis_to_id3_map.items()}] *)
Definition id3_to_vorbis_map (cfg : config) : PyDict.t string :=
  PyDict.of_items (map (fun kv => (snd kv, fst kv)) (vorbis_to_id3_map cfg)).

(** The body of the loop of [id3_tags_as_dict]; the state is the dict
    under construction and the lines printed so far. *)
Definition id3_tags_as_dict_step (cfg : config) (id3_tags : ID3) (t : string)
  (st : tag_dict * list warning) : result (tag_dict * list warning) :=
  let '(flac_like_dict, out) := st in
  f <- PyDict.getitem t id3_tags ;;
  let frame_id := FrameID f in
  let store (key : string) :=
    match text f with
    | Some val => Ok (PyDict.set key val flac_like_dict, out)
    | None => w <- print_ignored t id3_tags ;; Ok (flac_like_dict, out ++ [w])
    end in
  match PyDict.get frame_id (id3_to_vorbis_map cfg) with
  | Some key => store key
  | None =>
      if str_in frame_id (id3_frames_to_ignore cfg) then Ok st
      else
        match desc f with
        | Some key => store key
        | None =>
            w <- print_ignored t id3_tags ;; Ok (flac_like_dict, out ++ [w])
        end
  end.

(** [id3_tags_as_dict], with the lines it printed *)
Definition id3_tags_as_dict_out (cfg : config) (id3_tags : ID3)
  : result (tag_dict * list warning) :=
  st <- for_each (id3_tags_as_dict_step cfg id3_tags)
          (PyDict.keys id3_tags) (PyDict.empty, []) ;;
  r <- xx_total_correct (DictTags (fst st)) ;;
  d <- as_dict r ;;
  Ok (d, snd st).

Definition id3_tags_as_dict (cfg : config) (id3_tags : ID3) : result tag_dict :=
  r <- id3_tags_as_dict_out cfg id3_tags ;; Ok (fst r).

(** ** Paths *)

(** [os.path.join(a, b)] *)
Definition join (a b : string) : string :=
  if starts_with_char sep b then b
  else if String.eqb a "" || ends_with_char sep a then (a ++ b)%string
  else (a ++ String sep b)%string.

(** [os.path.splitext(p)] *)
Definition splitext (p : string) : string * string :=
  let sepIndex := rfind sep p in
  let dotIndex := rfind "."%char p in
  if (dotIndex >? sepIndex)%Z then
    let filenameIndex := Z.to_nat (sepIndex + 1) in
    let not_dot i :=
      match String.get i p with
      | Some c => negb (Ascii.eqb c "."%char)
      | None => true
      end in
    if existsb not_dot (seq filenameIndex (Z.to_nat dotIndex - filenameIndex))
    then (take (Z.to_nat dotIndex) p, drop (Z.to_nat dotIndex) p)
    else (p, "")
  else (p, "").

(** ** The tree scanner *)

(** What [scandir] yields: a directory with its own entries, a regular
    file with its modification time, or an entry that is neither. *)
Inductive entry : Type :=
| EDir (name : string) (children : list entry)
| EFile (name : string) (st_mtime : Z)
| EOther (name : string).

Definition entry_name (e : entry) : string :=
  match e with
  | EDir n _ => n
  | EFile n _ => n
  | EOther n => n
  end.

Record scan : Type := Scan {
  music_files : PyDict.t music_info;
  rest_files : PyDict.t Z;
  dir_dict : PyDict.t nat
}.

Definition empty_scan : scan := Scan PyDict.empty PyDict.empty PyDict.empty.

(** [{os.path.join(name, x): y for x, y in sub.items()}] *)
Definition join_keys {V : Type} (name : string) (sub : PyDict.t V) : PyDict.t V :=
  PyDict.of_items (map (fun xy => (join name (fst xy), snd xy)) sub).

(** The body of the loop of [get_files_dirs] for one entry. *)
Fixpoint scan_entry (cfg : config) (level : nat) (e : entry) (acc : scan)
  {struct e} : scan :=
  match e with
  | EDir name children =>
      if str_in name (dirs_to_ignore cfg) then acc
      else
        let dirs1 := PyDict.set name level (dir_dict acc) in
        let sub :=
          fold_left (fun a c => scan_entry cfg (S level) c a) children empty_scan in
        Scan (PyDict.update (music_files acc) (join_keys name (music_files sub)))
             (PyDict.update (rest_files acc) (join_keys name (rest_files sub)))
             (PyDict.update dirs1 (join_keys name (dir_dict sub)))
  | EFile name mtime =>
      let '(no_ext, e_ext) := splitext name in
      if str_in (lower e_ext) [".flac"; ".mp3"] then
        Scan (PyDict.set no_ext (MusicInfo e_ext mtime) (music_files acc))
             (rest_files acc) (dir_dict acc)
      else
        Scan (music_files acc) (PyDict.set name mtime (rest_files acc))
             (dir_dict acc)
  | EOther _ => acc
  end.

(** [get_files_dirs(path, level)], given the entries below [path] *)
Definition get_files_dirs (cfg : config) (entries : list entry) (level : nat)
  : scan :=
  fold_left (fun a e => scan_entry cfg level e a) entries empty_scan.

(** [CompResult.__init__] *)
Definition CompResult_init (cfg : config) (left right : string)
  (left_entries right_entries : list entry) : CompResult :=
  let l := get_files_dirs cfg left_entries 0 in
  let r := get_files_dirs cfg right_entries 0 in
  let '(files_to_copy, files_to_delete) :=
    _compare_files (rest_files l) (rest_files r) in
  let '(leftonly, changed, to_delete) :=
    _compare_music (music_files l) (music_files r) in
  {| base_path_left := left;
     base_path_right := right;
     music_left := music_files l;
     rest_left := rest_files l;
     dirs_left := dir_dict l;
     music_right := music_files r;
     rest_right := rest_files r;
     dirs_right := dir_dict r;
     dirs_to_copy := dict_minus (dir_dict l) (dir_dict r);
     dirs_to_delete := dict_minus (dir_dict r) (dir_dict l);
     rest_to_copy := files_to_copy;
     rest_to_delete := files_to_delete;
     music_leftonly := leftonly;
     music_changed := changed;
     music_to_delete := to_delete |}.

(** ** Applying the actions *)

(** The calls that leave the script: [os.makedirs], [shutil.copy2],
    [mp3_thing.save()] with the tags to save, [flac_to_mp3], [os.remove]
    and [os.rmdir]. *)
Inductive action : Type :=
| Makedirs (path : string)
| Copy2 (src dst : string)
| SaveTags (path : string) (tags : ID3)
| FlacToMp3 (input_path output_path : string) (tags : option tag_dict)
| Remove (path : string)
| Rmdir (path : string).

Fixpoint list_string_eqb (a b : list string) : bool :=
  match a, b with
  | [], [] => true
  | x :: a', y :: b' => String.eqb x y && list_string_eqb a' b'
  | _, _ => false
  end.

(** [d1 == d2] on field dicts: the same keys with the same value lists. *)
Definition tag_dict_eqb (d1 d2 : tag_dict) : bool :=
  Nat.eqb (List.length d1) (List.length d2) &&
  forallb (fun kv =>
             match PyDict.get (fst kv) d2 with
             | Some v => list_string_eqb (snd kv) v
             | None => false
             end) d1.

Section Apply.
(** The file systems and the files outside the script. *)
Variable world : Type.
(** [flac.FLAC(path).tags.as_dict()] *)
Variable FLAC_tags : string -> world -> result tag_dict.
(** [mp3.MP3(path).tags] *)
Variable MP3_tags : string -> world -> result ID3.
(** What a call does to the world, or the exception it raises. *)
Variable perform : action -> world -> result world.

Variable cfg : config.

(** A statement: from the world and the calls made so far to the world
    and the calls made then, and the exception that ended it, if any. *)
Definition state : Type := world * list action.
Definition cmd : Type := state -> state * option exn.

Definition skip : cmd := fun s => (s, None).

Definition seq (c1 c2 : cmd) : cmd :=
  fun s =>
    match c1 s with
    | (s1, None) => c2 s1
    | (s1, Some e) => (s1, Some e)
    end.

Definition raise (e : exn) : cmd := fun s => (s, Some e).

Definition call (a : action) : cmd :=
  fun s =>
    match perform a (fst s) with
    | Ok w => ((w, snd s ++ [a]), None)
    | Raise e => ((fst s, snd s ++ [a]), Some e)
    end.

(** [x = r] for a computation of the script that may raise *)
Definition eval {A : Type} (r : result A) (k : A -> cmd) : cmd :=
  match r with
  | Ok a => k a
  | Raise e => raise e
  end.

(** The same for a computation that reads the world. *)
Definition read {A : Type} (r : world -> result A) (k : A -> cmd) : cmd :=
  fun s => eval (r (fst s)) k s.

Fixpoint for_cmd {A : Type} (body : A -> cmd) (xs : list A) : cmd :=
  match xs with
  | [] => skip
  | x :: xs' => seq (body x) (for_cmd body xs')
  end.

Variable cr : CompResult.

(** [_copy_dirs]: [FileExistsError] is caught, the loop goes on. *)
Definition _copy_dirs : cmd :=
  for_cmd
    (fun d s =>
       let path := join (base_path_right cr) d in
       match call (Makedirs path) s with
       | (s1, Some FileExistsError) => (s1, None)
       | r => r
       end)
    (PyDict.keys (dirs_to_copy cr)).

(** [_copy_files] *)
Definition _copy_files : cmd :=
  for_cmd
    (fun f =>
       let path_source := join (base_path_left cr) f in
       let path_dest := join (base_path_right cr) f in
       call (Copy2 path_source path_dest))
    (rest_to_copy cr).

(** Reading the tags of the left file as a field dict. *)
Definition read_tags_left (ext_left full_path_left : string)
  : world -> result tag_dict :=
  fun w =>
    if String.eqb (lower ext_left) ".flac" then FLAC_tags full_path_left w
    else if String.eqb (lower ext_left) ".mp3" then
      music_thing_left <- MP3_tags full_path_left w ;;
      id3_tags_as_dict cfg music_thing_left
    else Raise (Exception "What is this thing?").

(** The body of the loop of [_copy_music_changed]. *)
Definition _copy_music_changed_body (x : string) : cmd :=
  eval (PyDict.getitem x (music_left cr)) (fun ml =>
  let ext_left := ext ml in
  let full_path_left := join (base_path_left cr) (x ++ ext_left)%string in
  read (read_tags_left ext_left full_path_left) (fun tags_left =>
  eval (PyDict.getitem x (music_right cr)) (fun mr =>
  let ext_right := ext mr in
  if negb (String.eqb ext_right ".mp3") then
    raise (AssertionError "Target file is not .mp3")
  else
  let full_path_right := join (base_path_right cr) (x ++ ext_right)%string in
  read (MP3_tags full_path_right) (fun music_thing_right =>
  eval (id3_tags_as_dict cfg music_thing_right) (fun tags_right =>
  if negb (tag_dict_eqb tags_left tags_right) then
    eval (copy_tag_dict_to_mp3 cfg music_thing_right tags_left) (fun saved =>
    call (SaveTags full_path_right saved))
  else if String.eqb (lower ext_left) ".flac" then
    call (FlacToMp3 full_path_left full_path_right (Some tags_left))
  else
    call (Copy2 full_path_left full_path_right)))))).

Definition _copy_music_changed : cmd :=
  for_cmd _copy_music_changed_body (music_changed cr).

(** [_copy_music_leftonly] *)
Definition _copy_music_leftonly : cmd :=
  for_cmd
    (fun x =>
       eval (PyDict.getitem x (music_left cr)) (fun ml =>
       let ext_left := ext ml in
       let full_path_left := join (base_path_left cr) (x ++ ext_left)%string in
       let destination_path := join (base_path_right cr) (x ++ ".mp3")%string in
       if String.eqb (lower ext_left) ".flac" then
         call (FlacToMp3 full_path_left destination_path None)
       else if String.eqb (lower ext_left) ".mp3" then
         call (Copy2 full_path_left destination_path)
       else raise (Exception ("What is this thing? - " ++ x ++ ext_left)%string)))
    (music_leftonly cr).

(** [_remove_music] *)
Definition _remove_music : cmd :=
  for_cmd
    (fun kv =>
       let full_path :=
         join (base_path_right cr) (fst kv ++ ext (snd kv))%string in
       call (Remove full_path))
    (music_to_delete cr).

(** [_remove_files] *)
Definition _remove_files : cmd :=
  for_cmd (fun f => call (Remove (join (base_path_right cr) f)))
    (rest_to_delete cr).

(** [_remove_dirs] *)
Definition _remove_dirs : cmd :=
  let dirs_aslist := PyDict.keys (dirs_to_delete cr) in
  for_cmd (fun d => call (Rmdir (join (base_path_right cr) d)))
    (rev dirs_aslist).

(** [synchronise] *)
Definition synchronise : cmd :=
  seq _copy_dirs
 (seq _copy_files
 (seq _copy_music_changed
 (seq _copy_music_leftonly
 (seq _remove_music
 (seq _remove_files
      _remove_dirs))))).
End Apply.

(** ** The tests of the comparison loops, for the statements below *)

(** The test of the loop of [_compare_files]. *)
Definition file_differs (rest_left rest_right : PyDict.t Z) (x : string) : bool :=
  match PyDict.get x rest_right with
  | Some r =>
      match PyDict.get x rest_left with
      | Some l => negb (Z.eqb l r)
      | None => false
      end
  | None => true
  end.

(** The test of the loop of [_compare_music]. *)
Definition music_newer (music_left music_right : PyDict.t music_info) (x : string)
  : bool :=
  match PyDict.get x music_right with
  | Some r =>
      match PyDict.get x music_left with
      | Some l => Z.gtb (last_mod l) (last_mod r)
      | None => false
      end
  | None => false
  end.

(** ** Inputs used in the examples *)

(** A text frame of class [TextFrame] as read from a file. *)
Definition text_frame (frame_id : string) (v : list string) : frame :=
  Frame frame_id frame_id None (Some v).

(** The configuration with [TCON] added to [id3_frames_to_ignore]. *)
Definition config_ignoring_genre : config := {|
  dirs_to_ignore := dirs_to_ignore default_config;
  vorbis_to_id3_map := vorbis_to_id3_map default_config;
  id3_frames_to_ignore := ["TSSE"; "TCON"];
  Frames := Frames default_config
|}.

(** The configuration with a field mapped to an id that is no frame type. *)
Definition config_bad_frame : config := {|
  dirs_to_ignore := dirs_to_ignore default_config;
  vorbis_to_id3_map := PyDict.set "mood" "TMOOD" (vorbis_to_id3_map default_config);
  id3_frames_to_ignore := id3_frames_to_ignore default_config;
  Frames := Frames default_config
|}.

(** The configuration with a second field, [trackno], mapped to TRCK. *)
Definition config_second_number : config := {|
  dirs_to_ignore := dirs_to_ignore default_config;
  vorbis_to_id3_map := PyDict.set "trackno" "TRCK" (vorbis_to_id3_map default_config);
  id3_frames_to_ignore := id3_frames_to_ignore default_config;
  Frames := Frames default_config
|}.

(** The keys of a container whose frame is not dropped by the ignore list. *)
Definition not_ignored (cfg : config) (id3_tags : ID3) (t : string) : bool :=
  match PyDict.get t id3_tags with
  | Some f =>
      negb (str_in (FrameID f) (id3_frames_to_ignore cfg)) ||
      PyDict.mem (FrameID f) (id3_to_vorbis_map cfg)
  | None => true
  end.

(** ** The constraints on the mapping table

    The comments of the script ask that ['tracktotal'] and ['disctotal']
    are not in [vorbis_to_id3_map]; the merge of number and total further
    relies on ['tracknumber'] and ['discnumber'] being the fields of TRCK
    and TPOS, and every entry has to name a frame type with a text. *)

Definition text_class (c : frame_class) : bool :=
  match c with
  | TextFrame | TimeStampTextFrame _ | DescTextFrame | LangDescTextFrame => true
  | OtherFrame _ => false
  end.

Definition plain_text_class (c : frame_class) : bool :=
  match c with
  | TextFrame => true
  | _ => false
  end.

Fixpoint nodupb (l : list string) : bool :=
  match l with
  | [] => true
  | x :: l' => negb (str_in x l') && nodupb l'
  end.

(** An entry of the table: [tracknumber] and nothing else goes to TRCK,
    [discnumber] and nothing else to TPOS, the totals are not in the
    table, and the frame id, of four characters, names a text frame class
    of [id3.Frames], for TRCK and TPOS the class that keeps the text as
    given. *)
Definition mapping_entry_ok (cfg : config) (kv : string * string) : bool :=
  Bool.eqb (String.eqb (fst kv) "tracknumber") (String.eqb (snd kv) "TRCK") &&
  Bool.eqb (String.eqb (fst kv) "discnumber") (String.eqb (snd kv) "TPOS") &&
  negb (String.eqb (fst kv) "tracktotal") &&
  negb (String.eqb (fst kv) "disctotal") &&
  Nat.eqb (String.length (snd kv)) 4 &&
  match PyDict.get (snd kv) (Frames cfg) with
  | Some c =>
      text_class c &&
      (plain_text_class c ||
       negb (String.eqb (snd kv) "TRCK" || String.eqb (snd kv) "TPOS"))
  | None => false
  end.

Definition mapping_ok (cfg : config) : bool :=
  nodupb (PyDict.keys (vorbis_to_id3_map cfg)) &&
  PyDict.mem "tracknumber" (vorbis_to_id3_map cfg) &&
  PyDict.mem "discnumber" (vorbis_to_id3_map cfg) &&
  forallb (mapping_entry_ok cfg) (vorbis_to_id3_map cfg).

(** A field dict as a dict (no key twice) in which every field has a
    value. *)
Definition fields_ok (td : tag_dict) : bool :=
  nodupb (PyDict.keys td) &&
  forallb (fun kv => match snd kv with [] => false | _ :: _ => true end) td.

Definition number_total_keys : list string :=
  ["TRCK"; "TPOS"; "TXXX:tracktotal"; "TXXX:disctotal"].

(** A container as a dict in which the number and total frames, if any,
    have a first text value. *)
Definition container_ok (tags : ID3) : bool :=
  nodupb (PyDict.keys tags) &&
  forallb (fun kv =>
             negb (str_in (fst kv) number_total_keys) ||
             is_ok (text0 (snd kv))) tags.

(** What one block of the merge makes of a container: with both frames,
    the number frame holds [N/M] and the total frame is gone; otherwise
    both keys are as before. *)
Definition merged (total_key number_key : string) (mk : list string -> frame)
  (before after : ID3) : Prop :=
  match PyDict.get number_key before, PyDict.get total_key before with
  | Some nf, Some tf =>
      exists N M,
        text0 nf = Ok N /\ text0 tf = Ok M /\
        PyDict.get number_key after = Some (mk [(N ++ "/" ++ M)%string]) /\
        PyDict.get total_key after = None
  | _, _ =>
      PyDict.get number_key after = PyDict.get number_key before /\
      PyDict.get total_key after = PyDict.get total_key before
  end.

(** The frames under the given keys have a first text value. *)
Definition texts_ok (ks : list string) (tags : ID3) : Prop :=
  forall k f, In k ks -> PyDict.get k tags = Some f -> exists x, text0 f = Ok x.


(** A number field and its total field that survive the way to frames
    and back: first values without separator when both are present, at
    most one separator in a number field without total field. *)
Definition number_total_ok (td : tag_dict) (number_field total_field : string)
  : bool :=
  match PyDict.get number_field td, PyDict.get total_field td with
  | Some (n :: _), Some (m :: _) =>
      negb (contains_char sep n) && negb (contains_char sep m)
  | Some (n :: _), None => (count_char sep n <=? 1)%nat
  | None, _ => true
  | _, _ => false
  end.

(** A container that holds only frames of the ignore list, as the
    encoder leaves it. *)
Definition only_ignored (cfg : config) (tags : ID3) : bool :=
  nodupb (PyDict.keys tags) &&
  forallb (fun kv =>
             str_in (FrameID (snd kv)) (id3_frames_to_ignore cfg) &&
             negb (PyDict.mem (FrameID (snd kv)) (id3_to_vorbis_map cfg)) &&
             negb (str_in (fst kv) number_total_keys)) tags.

(** The frames of a container made from a field dict: each is converted
    back without a warning, and the number frames are only under their
    own keys. *)
Definition frame_inv (cfg : config) (kv : string * frame) : Prop :=
  ((PyDict.mem (FrameID (snd kv)) (id3_to_vorbis_map cfg) = true /\
    text (snd kv) <> None) \/
   (PyDict.mem (FrameID (snd kv)) (id3_to_vorbis_map cfg) = false /\
    str_in (FrameID (snd kv)) (id3_frames_to_ignore cfg) = true) \/
   (PyDict.mem (FrameID (snd kv)) (id3_to_vorbis_map cfg) = false /\
    text (snd kv) <> None /\
    exists name, desc (snd kv) = Some name /\
                 PyDict.get name (vorbis_to_id3_map cfg) = None)) /\
  (FrameID (snd kv) = "TRCK" -> fst kv = "TRCK") /\
  (FrameID (snd kv) = "TPOS" -> fst kv = "TPOS").

(** Field dict to frames and back, through [copy_tag_dict_to_mp3] and
    [id3_tags_as_dict]. *)
Definition round_trip (cfg : config) (tags : ID3) (td : tag_dict)
  : result tag_dict :=
  saved <- copy_tag_dict_to_mp3 cfg tags td ;; id3_tags_as_dict cfg saved.

(** ** Trees with usable names, and the paths in them *)

(** A name as a file system gives it: not empty, without separator. *)
Definition name_ok (n : string) : bool :=
  negb (String.eqb n "") && negb (contains_char sep n).

Fixpoint entry_ok (e : entry) : bool :=
  name_ok (entry_name e) &&
  match e with
  | EDir _ children => forallb entry_ok children
  | _ => true
  end.

Definition names_ok (entries : list entry) : bool := forallb entry_ok entries.

(** The directories of a tree, ignored or not, each with its path
    relative to the root and its name. *)
Fixpoint dirs_of (e : entry) : list (string * string) :=
  match e with
  | EDir n children =>
      (n, n) :: map (fun pn => (join n (fst pn), snd pn)) (flat_map dirs_of children)
  | _ => []
  end.

Definition all_dirs (entries : list entry) : list (string * string) :=
  flat_map dirs_of entries.

(** [k] is a path strictly below the directory path [p]. *)
Definition beneath (p k : string) : Prop :=
  exists r, k = (p ++ String sep r)%string.

(** The path made of components, [os.path.join(c1, os.path.join(c2, ...))]. *)
Fixpoint join_path (cs : list string) : string :=
  match cs with
  | [] => ""
  | [c] => c
  | c :: cs' => join c (join_path cs')
  end.

(** In a list of paths, every path comes after the directories above it. *)
Definition ancestors_first (l : list string) : Prop :=
  forall l1 k l2, l = l1 ++ k :: l2 -> forall d, beneath d k -> In d l1.

(** The keys that one entry of a directory adds to the three maps. *)
Definition dir_key_from (cfg : config) (level : nat) (e : entry) (k : string)
  : Prop :=
  match e with
  | EDir n children =>
      str_in n (dirs_to_ignore cfg) = false /\
      (k = n \/
       exists k', In k' (PyDict.keys (dir_dict (get_files_dirs cfg children (S level))))
                  /\ k = join n k')
  | _ => False
  end.

Definition music_key_from (cfg : config) (level : nat) (e : entry) (k : string)
  : Prop :=
  match e with
  | EDir n children =>
      str_in n (dirs_to_ignore cfg) = false /\
      exists k', In k' (PyDict.keys (music_files (get_files_dirs cfg children (S level))))
                 /\ k = join n k'
  | EFile name _ =>
      str_in (lower (snd (splitext name))) [".flac"; ".mp3"] = true /\
      k = fst (splitext name)
  | EOther _ => False
  end.

Definition rest_key_from (cfg : config) (level : nat) (e : entry) (k : string)
  : Prop :=
  match e with
  | EDir n children =>
      str_in n (dirs_to_ignore cfg) = false /\
      exists k', In k' (PyDict.keys (rest_files (get_files_dirs cfg children (S level))))
                 /\ k = join n k'
  | EFile name _ =>
      str_in (lower (snd (splitext name))) [".flac"; ".mp3"] = false /\ k = name
  | EOther _ => False
  end.

(** The path [p] ends with the name [n]. *)
Definition ends_with_name (p n : string) : Prop :=
  p = n \/ exists q, p = (q ++ String sep n)%string.

(** ** The calls of a run, stage by stage *)

(** The calls that a statement adds, with the exception that ended it,
    have the shape [S]. *)
Definition calls_in {world : Type} (c : cmd world)
  (S : list action -> option exn -> Prop) : Prop :=
  forall s, exists t, snd (fst (c s)) = snd s ++ t /\ S t (snd (c s)).

(** The calls are a prefix of the plan, and the whole plan when no
    exception was raised. *)
Definition planned (plan t : list action) (r : option exn) : Prop :=
  (exists rest, plan = t ++ rest) /\ (r = None -> t = plan).

(** Every call is one of [P]. *)
Definition only (P : action -> Prop) (t : list action) (r : option exn) : Prop :=
  Forall P t.

(** The calls of a first stage, then, only when the first stage raised no
    exception, those of the stages after it. *)
Definition staged (S1 S2 : list action -> option exn -> Prop)
  (t : list action) (r : option exn) : Prop :=
  exists t1 t2,
    t = t1 ++ t2 /\
    ((S1 t1 None /\ S2 t2 r) \/
     (exists e, S1 t1 (Some e) /\ t2 = [] /\ r = Some e)).

Definition plan_copy_dirs (cr : CompResult) : list action :=
  map (fun d => Makedirs (join (base_path_right cr) d))
    (PyDict.keys (dirs_to_copy cr)).

Definition plan_copy_files (cr : CompResult) : list action :=
  map (fun f => Copy2 (join (base_path_left cr) f) (join (base_path_right cr) f))
    (rest_to_copy cr).

(** A call of [_copy_music_changed]: for a key of [music_changed], on
    the paths of its two files, a tag write, an encode or a copy. *)
Definition music_changed_call (cr : CompResult) (a : action) : Prop :=
  exists x ml mr,
    In x (music_changed cr) /\
    PyDict.get x (music_left cr) = Some ml /\
    PyDict.get x (music_right cr) = Some mr /\
    let full_path_left := join (base_path_left cr) (x ++ ext ml)%string in
    let full_path_right := join (base_path_right cr) (x ++ ext mr)%string in
    (exists saved, a = SaveTags full_path_right saved) \/
    (exists tags, a = FlacToMp3 full_path_left full_path_right (Some tags)) \/
    a = Copy2 full_path_left full_path_right.

(** A call of [_copy_music_leftonly]. *)
Definition music_leftonly_call (cr : CompResult) (a : action) : Prop :=
  exists x ml,
    In x (music_leftonly cr) /\
    PyDict.get x (music_left cr) = Some ml /\
    let full_path_left := join (base_path_left cr) (x ++ ext ml)%string in
    let destination_path := join (base_path_right cr) (x ++ ".mp3")%string in
    a = FlacToMp3 full_path_left destination_path None \/
    a = Copy2 full_path_left destination_path.

Definition plan_remove_music (cr : CompResult) : list action :=
  map (fun kv => Remove (join (base_path_right cr) (fst kv ++ ext (snd kv))%string))
    (music_to_delete cr).

Definition plan_remove_files (cr : CompResult) : list action :=
  map (fun f => Remove (join (base_path_right cr) f)) (rest_to_delete cr).

Definition plan_remove_dirs (cr : CompResult) : list action :=
  map (fun d => Rmdir (join (base_path_right cr) d))
    (rev (PyDict.keys (dirs_to_delete cr))).

(** The shape of the calls of [synchronise]. *)
Definition synchronise_stages (cr : CompResult)
  : list action -> option exn -> Prop :=
  staged (planned (plan_copy_dirs cr))
 (staged (planned (plan_copy_files cr))
 (staged (only (music_changed_call cr))
 (staged (only (music_leftonly_call cr))
 (staged (planned (plan_remove_music cr))
 (staged (planned (plan_remove_files cr))
         (planned (plan_remove_dirs cr))))))).

(** A world in which every call succeeds and no file has a tag. *)
Definition quiet_perform (a : action) (w : unit) : result unit := Ok w.
Definition no_tags (path : string) (w : unit) : result tag_dict := Ok [].
Definition no_frames (path : string) (w : unit) : result ID3 := Ok [].

(** In [l], [x] comes at a place before the place of [y]. *)
Definition before {A : Type} (l : list A) (x y : A) : Prop :=
  exists l1 l2 l3, l = l1 ++ x :: l2 ++ y :: l3.

(** A reader of a lossless file that holds one title. *)
Definition titled (path : string) (w : unit) : result tag_dict :=
  Ok [("title", ["Song"])].

(** ** The calls of the stage of the audio files of the left side only *)

(** The call of [_copy_music_leftonly] for a key and its entry. *)
Definition leftonly_action (cr : CompResult) (x : string) (ml : music_info)
  : action :=
  let full_path_left := join (base_path_left cr) (x ++ ext ml)%string in
  let destination_path := join (base_path_right cr) (x ++ ".mp3")%string in
  if String.eqb (lower (ext ml)) ".flac"
  then FlacToMp3 full_path_left destination_path None
  else Copy2 full_path_left destination_path.

(** A key of [music_leftonly] and its call. *)
Definition leftonly_call (cr : CompResult) (x : string) (a : action) : Prop :=
  exists ml,
    PyDict.get x (music_left cr) = Some ml /\
    (lower (ext ml) = ".flac" \/ lower (ext ml) = ".mp3") /\
    a = leftonly_action cr x ml.

(** A world in which every directory to create is there already. *)
Definition dirs_exist (a : action) (w : unit) : result unit :=
  match a with
  | Makedirs _ => Raise FileExistsError
  | _ => Ok w
  end.

(** The regular files of a tree, ignored or not, each with its path
    relative to the root. *)
Fixpoint files_of (e : entry) : list string :=
  match e with
  | EDir n children => map (join n) (flat_map files_of children)
  | EFile n _ => [n]
  | EOther _ => []
  end.

Definition all_files (entries : list entry) : list string :=
  flat_map files_of entries.

(** ** The field that the conversion back stores for a frame *)

(** What the body of the loop of [id3_tags_as_dict] stores for a frame:
    the field of the frame id in the reverse table, or, for a frame id
    that is neither in the table nor ignored, the description; nothing for
    a frame without text or without the key. *)
Definition field_of (cfg : config) (f : frame) : option (string * list string) :=
  match PyDict.get (FrameID f) (id3_to_vorbis_map cfg) with
  | Some key =>
      match text f with
      | Some val => Some (key, val)
      | None => None
      end
  | None =>
      if str_in (FrameID f) (id3_frames_to_ignore cfg) then None
      else
        match desc f, text f with
        | Some key, Some val => Some (key, val)
        | _, _ => None
        end
  end.

Definition put_field (o : option (string * list string)) (d : tag_dict)
  : tag_dict :=
  match o with
  | Some (key, val) => PyDict.set key val d
  | None => d
  end.

(** The dict that the loop builds from the frames of a container. *)
Definition fields_of (cfg : config) (frames : ID3) (d : tag_dict) : tag_dict :=
  fold_left (fun d kv => put_field (field_of cfg (snd kv)) d) frames d.

(** A mapping table in which no frame id is the frame of two fields, and
    in which [TXXX], the frame of the fields that are not in the table, is
    neither the frame of a field nor ignored. *)
Definition mapping_injective (cfg : config) : bool :=
  nodupb (map snd (vorbis_to_id3_map cfg)) &&
  negb (str_in "TXXX" (map snd (vorbis_to_id3_map cfg))) &&
  negb (str_in "TXXX" (id3_frames_to_ignore cfg)).

(** The values of the fields that go to time stamp frames are time
    stamps as the frame writes them back. *)
Definition stamps_kept (cfg : config) (td : tag_dict) : bool :=
  forallb
    (fun kv =>
       match PyDict.get (fst kv) (vorbis_to_id3_map cfg) with
       | Some i =>
           match PyDict.get i (Frames cfg) with
           | Some (TimeStampTextFrame stamp) =>
               forallb (fun x => String.eqb (stamp x) x) (snd kv)
           | _ => true
           end
       | None => true
       end) td.

(** The four fields of the numbers and totals. *)
Definition number_total_fields : list string :=
  ["tracknumber"; "tracktotal"; "discnumber"; "disctotal"].

(** A field dict as a dict (no key twice) in which the number and total
    fields, if any, have a value. *)
Definition numbers_ok (td : tag_dict) : bool :=
  nodupb (PyDict.keys td) &&
  forallb (fun name => match PyDict.get name td with
                       | Some [] => false
                       | _ => true
                       end) number_total_fields.

(** An entry of a container after a tag copy: a frame that was there, the
    frame of a field of the dict under its hash key, or a merged number
    frame. *)
Definition made_from (cfg : config) (tags : ID3) (td : tag_dict)
  (kv : string * frame) : Prop :=
  In kv tags \/
  (exists name v, In (name, v) td /\
                  get_id3_frame cfg name v = Ok (snd kv) /\
                  fst kv = HashKey (snd kv)) \/
  (exists v, kv = ("TRCK", TRCK v)) \/
  (exists v, kv = ("TPOS", TPOS v)).

(** A number field and its total field that come back as they are: both
    with one value without separator, or a number without total whose
    first value holds no separator, or no number. *)
Definition numbers_clean (td : tag_dict) (number_field total_field : string)
  : bool :=
  match PyDict.get number_field td, PyDict.get total_field td with
  | Some [n], Some [m] => negb (contains_char sep n) && negb (contains_char sep m)
  | Some (n :: _), None => negb (contains_char sep n)
  | None, _ => true
  | _, _ => false
  end.

(** The path that a call writes, creates or removes; the other path of a
    copy or of the encoder is only read. *)
Definition written_path (a : action) : string :=
  match a with
  | Makedirs path => path
  | Copy2 _ dst => dst
  | SaveTags path _ => path
  | FlacToMp3 _ output_path _ => output_path
  | Remove path => path
  | Rmdir path => path
  end.

(** A path made of the right base path and a relative path. *)
Definition below_right (cr : CompResult) (a : action) : Prop :=
  exists k, starts_with_char sep k = false /\
            written_path a = join (base_path_right cr) k.

(** A file system as the paths that exist: [os.remove] and [os.rmdir]
    take a path away, [os.rmdir] raises [OSError] for a directory with a
    path below it; the other calls succeed and add nothing here. *)
Definition fs_perform (a : action) (w : list string) : result (list string) :=
  match a with
  | Remove path => Ok (filter (fun q => negb (String.eqb q path)) w)
  | Rmdir path =>
      if existsb (startswith (path ++ "/")) w
      then Raise (OSError "Directory not empty")
      else Ok (filter (fun q => negb (String.eqb q path)) w)
  | _ => Ok w
  end.

Definition no_tags_fs (path : string) (w : list string) : result tag_dict := Ok [].
Definition no_frames_fs (path : string) (w : list string) : result ID3 := Ok [].

(** ** The order of the entries of a directory *)

(** What tells two entries of one directory apart in the maps: the name
    of a directory, the name without extension of an audio file, the name
    of another file. *)
Definition entry_tag (e : entry) : list string :=
  match e with
  | EDir n _ => [String "D" n]
  | EFile n _ =>
      let '(no_ext, e_ext) := splitext n in
      if str_in (lower e_ext) [".flac"; ".mp3"] then [String "M" no_ext]
      else [String "R" n]
  | EOther _ => []
  end.

(** In every directory, no two directories and no two other files have
    one name, and no two audio files have one name without extension. *)
Fixpoint keys_distinct_in (e : entry) : bool :=
  match e with
  | EDir _ children =>
      nodupb (flat_map entry_tag children) && forallb keys_distinct_in children
  | _ => true
  end.

Definition keys_distinct (entries : list entry) : bool :=
  nodupb (flat_map entry_tag entries) && forallb keys_distinct_in entries.

(** The same tree with the entries of the directories in another order. *)
Inductive shuffled : list entry -> list entry -> Prop :=
| shuffled_nil : shuffled [] []
| shuffled_dir (n : string) (children children' es es' : list entry) :
    shuffled children children' -> shuffled es es' ->
    shuffled (EDir n children :: es) (EDir n children' :: es')
| shuffled_file (n : string) (m : Z) (es es' : list entry) :
    shuffled es es' -> shuffled (EFile n m :: es) (EFile n m :: es')
| shuffled_other (n : string) (es es' : list entry) :
    shuffled es es' -> shuffled (EOther n :: es) (EOther n :: es')
| shuffled_swap (e1 e2 : entry) (es : list entry) :
    shuffled (e1 :: e2 :: es) (e2 :: e1 :: es)
| shuffled_trans (es1 es2 es3 : list entry) :
    shuffled es1 es2 -> shuffled es2 es3 -> shuffled es1 es3.

(** Two scans with the same lookups. *)
Definition same_lookups (a b : scan) : Prop :=
  forall k,
    PyDict.get k (music_files a) = PyDict.get k (music_files b) /\
    PyDict.get k (rest_files a) = PyDict.get k (rest_files b) /\
    PyDict.get k (dir_dict a) = PyDict.get k (dir_dict b).

(** ** A run as steps

    What [synchronise] amounts to: steps made one after the other, each
    of them at most one call that leaves the script. *)

Section Steps.
Variable world : Type.
Variable FLAC_tags : string -> world -> result tag_dict.
Variable MP3_tags : string -> world -> result ID3.
Variable perform : action -> world -> result world.
Variable cfg : config.
Variable cr : CompResult.

(** A step: whether [FileExistsError] of its call is caught, and, in the
    world as it is, the call to make or the exception raised before a
    call. *)
Definition step : Type := bool * (world -> result action).

Definition always (a : action) : step := (false, fun _ => Ok a).
Definition tolerant (a : action) : step := (true, fun _ => Ok a).

(** The steps one after the other: an exception ends the run, the steps
    after it are not made. *)
Fixpoint run_steps (steps : list step) (s : state world)
  : state world * option exn :=
  match steps with
  | [] => (s, None)
  | (caught, next) :: steps' =>
      match next (fst s) with
      | Raise e => (s, Some e)
      | Ok a =>
          match perform a (fst s) with
          | Ok w => run_steps steps' (w, snd s ++ [a])
          | Raise e =>
              let s' := (fst s, snd s ++ [a]) in
              match e with
              | FileExistsError =>
                  if caught then run_steps steps' s' else (s', Some e)
              | _ => (s', Some e)
              end
          end
      end
  end.

(** The call for a key of [music_changed]: a tag write when the tags of
    the two files differ, else the encoder or a copy. *)
Definition music_changed_step (x : string) (w : world) : result action :=
  ml <- PyDict.getitem x (music_left cr) ;;
  let full_path_left := join (base_path_left cr) (x ++ ext ml)%string in
  tags_left <- read_tags_left FLAC_tags MP3_tags cfg (ext ml) full_path_left w ;;
  mr <- PyDict.getitem x (music_right cr) ;;
  if negb (String.eqb (ext mr) ".mp3") then
    Raise (AssertionError "Target file is not .mp3")
  else
    let full_path_right := join (base_path_right cr) (x ++ ext mr)%string in
    music_thing_right <- MP3_tags full_path_right w ;;
    tags_right <- id3_tags_as_dict cfg music_thing_right ;;
    if negb (tag_dict_eqb tags_left tags_right) then
      saved <- copy_tag_dict_to_mp3 cfg music_thing_right tags_left ;;
      Ok (SaveTags full_path_right saved)
    else if String.eqb (lower (ext ml)) ".flac" then
      Ok (FlacToMp3 full_path_left full_path_right (Some tags_left))
    else Ok (Copy2 full_path_left full_path_right).

(** The call for a key of [music_leftonly]. *)
Definition music_leftonly_step (x : string) (w : world) : result action :=
  ml <- PyDict.getitem x (music_left cr) ;;
  let full_path_left := join (base_path_left cr) (x ++ ext ml)%string in
  let destination_path := join (base_path_right cr) (x ++ ".mp3")%string in
  if String.eqb (lower (ext ml)) ".flac" then
    Ok (FlacToMp3 full_path_left destination_path None)
  else if String.eqb (lower (ext ml)) ".mp3" then
    Ok (Copy2 full_path_left destination_path)
  else Raise (Exception ("What is this thing? - " ++ x ++ ext ml)%string).

(** The steps of the seven stages, in their order. *)
Definition sync_steps : list step :=
  map tolerant (plan_copy_dirs cr) ++
  map always (plan_copy_files cr) ++
  map (fun x => (false, music_changed_step x)) (music_changed cr) ++
  map (fun x => (false, music_leftonly_step x)) (music_leftonly cr) ++
  map always (plan_remove_music cr) ++
  map always (plan_remove_files cr) ++
  map always (plan_remove_dirs cr).
End Steps.

Arguments always {world} a.
Arguments tolerant {world} a.

(** The comparison with the files to delete in the order [order]: they
    are a set, and Python fixes no order for the elements of a set. *)
Definition with_rest_to_delete (order : list string) (cr : CompResult)
  : CompResult :=
  {| base_path_left := base_path_left cr;
     base_path_right := base_path_right cr;
     music_left := music_left cr;
     rest_left := rest_left cr;
     dirs_left := dirs_left cr;
     music_right := music_right cr;
     rest_right := rest_right cr;
     dirs_right := dirs_right cr;
     dirs_to_copy := dirs_to_copy cr;
     dirs_to_delete := dirs_to_delete cr;
     rest_to_copy := rest_to_copy cr;
     rest_to_delete := order;
     music_leftonly := music_leftonly cr;
     music_changed := music_changed cr;
     music_to_delete := music_to_delete cr |}.

(** The calls [t] begin the plan. *)
Definition begins {A : Type} (t plan : list A) : Prop :=
  exists rest, plan = t ++ rest.

(** A call that a step can make. *)
Definition may_call {world : Type} (st : step world) (a : action) : Prop :=
  exists w, snd st w = Ok a.

(** A call that removes nothing. *)
Definition no_removal (a : action) : Prop :=
  match a with
  | Remove _ | Rmdir _ => False
  | _ => True
  end.

(** ** The tags that are compared *)

(** The canonical form of a field dict: a combined value [N/M] of a
    number field split into number and total, as [id3_tags_as_dict]
    leaves the dict of a container. *)
Definition canonical_fields (d : tag_dict) : result tag_dict :=
  r <- xx_total_correct (DictTags d) ;; as_dict r.

(** The configuration with a second field, [performer], mapped to TPE1. *)
Definition config_second_artist : config := {|
  dirs_to_ignore := dirs_to_ignore default_config;
  vorbis_to_id3_map :=
    PyDict.set "performer" "TPE1" (vorbis_to_id3_map default_config);
  id3_frames_to_ignore := id3_frames_to_ignore default_config;
  Frames := Frames default_config
|}.

(** Readers of files with the given tags; a path that is not listed is
    not a file that the reader can open. *)
Definition tags_at (files : PyDict.t tag_dict) (path : string) (w : unit)
  : result tag_dict :=
  match PyDict.get path files with
  | Some d => Ok d
  | None => Raise (OSError "No such file or directory")
  end.

Definition frames_at (files : PyDict.t ID3) (path : string) (w : unit)
  : result ID3 :=
  match PyDict.get path files with
  | Some t => Ok t
  | None => Raise (OSError "No such file or directory")
  end.

(** * Properties *)

(** ** Dictionaries *)

Module PyDictFacts.
Section Facts.
Variable V : Type.
Implicit Types (d : PyDict.t V) (k : string) (v : V).

Lemma get_set_same k v d : PyDict.get k (PyDict.set k v d) = Some v.
Proof.
  induction d as [|[k' v'] d IH]; simpl.
  - now rewrite String.eqb_refl.
  - destruct (String.eqb k k') eqn:E; simpl; rewrite E; auto.
Qed.

Lemma get_set_other k k' v d :
  k <> k' -> PyDict.get k' (PyDict.set k v d) = PyDict.get k' d.
Proof.
  intros N. induction d as [|[k0 v0] d IH]; simpl.
  - destruct (String.eqb_spec k' k); congruence.
  - destruct (String.eqb_spec k k0); simpl.
    + subst. destruct (String.eqb_spec k' k0); congruence.
    + now rewrite IH.
Qed.

Lemma get_set k k' v d :
  PyDict.get k' (PyDict.set k v d) =
  if String.eqb k k' then Some v else PyDict.get k' d.
Proof.
  destruct (String.eqb_spec k k').
  - subst. apply get_set_same.
  - now apply get_set_other.
Qed.

Lemma get_In_keys k d : PyDict.get k d <> None <-> In k (PyDict.keys d).
Proof.
  induction d as [|[k' v'] d IH]; simpl.
  - tauto.
  - destruct (String.eqb_spec k k').
    + subst. split; auto. congruence.
    + rewrite IH. split; auto. intros [?|?]; congruence.
Qed.

Lemma mem_In_keys k d : PyDict.mem k d = true <-> In k (PyDict.keys d).
Proof.
  rewrite <- get_In_keys. unfold PyDict.mem.
  destruct (PyDict.get k d); split; congruence.
Qed.

Lemma mem_false_keys k d : PyDict.mem k d = false <-> ~ In k (PyDict.keys d).
Proof.
  rewrite <- mem_In_keys. destruct (PyDict.mem k d); split; congruence.
Qed.

Lemma get_None_keys k d : PyDict.get k d = None <-> ~ In k (PyDict.keys d).
Proof.
  rewrite <- get_In_keys. destruct (PyDict.get k d); split; try congruence.
  intros H. exfalso. apply H. congruence.
Qed.

Lemma keys_set k v d :
  PyDict.keys (PyDict.set k v d) =
  if PyDict.mem k d then PyDict.keys d else PyDict.keys d ++ [k].
Proof.
  unfold PyDict.mem. induction d as [|[k' v'] d IH]; simpl; auto.
  destruct (String.eqb k k') eqn:E; simpl; auto.
  rewrite IH. now destruct (PyDict.get k d).
Qed.

Lemma In_keys_set k k' v d :
  In k' (PyDict.keys (PyDict.set k v d)) <-> k' = k \/ In k' (PyDict.keys d).
Proof.
  rewrite keys_set. destruct (PyDict.mem k d) eqn:E.
  - apply mem_In_keys in E. split; auto. intros [->|]; auto.
  - rewrite in_app_iff. simpl. intuition.
Qed.

Lemma In_keys_update k d d2 :
  In k (PyDict.keys (PyDict.update d d2)) <->
  In k (PyDict.keys d) \/ In k (PyDict.keys d2).
Proof.
  unfold PyDict.update. revert d.
  induction d2 as [|[k2 v2] d2 IH]; intros d; simpl.
  - tauto.
  - rewrite IH, In_keys_set. simpl. intuition.
Qed.

Lemma In_keys_of_items k (kvs : list (string * V)) :
  In k (PyDict.keys (PyDict.of_items kvs)) <-> In k (map fst kvs).
Proof.
  unfold PyDict.of_items. rewrite In_keys_update. simpl. tauto.
Qed.

Lemma NoDup_keys_set k v d :
  NoDup (PyDict.keys d) -> NoDup (PyDict.keys (PyDict.set k v d)).
Proof.
  intros H. rewrite keys_set. destruct (PyDict.mem k d) eqn:E; auto.
  apply mem_false_keys in E.
  apply NoDup_app; auto.
  - constructor; auto. constructor.
  - intros x Hx [<-|[]]. contradiction.
Qed.
End Facts.
End PyDictFacts.

Import PyDictFacts.

Lemma In_keys_dict_minus {V W : Type} (d : PyDict.t V) (other : PyDict.t W) k :
  In k (PyDict.keys (dict_minus d other)) <->
  In k (PyDict.keys d) /\ ~ In k (PyDict.keys other).
Proof.
  unfold dict_minus. rewrite In_keys_of_items.
  rewrite in_map_iff. split.
  - intros [[k' v] [<- H]]. apply filter_In in H. destruct H as [H1 H2].
    simpl in *. split.
    + unfold PyDict.keys. apply in_map_iff. now exists (k', v).
    + apply mem_false_keys. now destruct (PyDict.mem k' other).
  - intros [H1 H2]. unfold PyDict.keys in H1. apply in_map_iff in H1.
    destruct H1 as [[k' v] [<- H1]]. exists (k', v). split; auto.
    apply filter_In. split; auto. simpl in *.
    apply mem_false_keys in H2. now rewrite H2.
Qed.

(** An appending loop is a filter. *)
Lemma fold_left_append_filter {A : Type} (p : A -> bool) (xs acc : list A) :
  fold_left (fun acc x => if p x then acc ++ [x] else acc) xs acc =
  acc ++ filter p xs.
Proof.
  revert acc. induction xs as [|x xs IH]; intros acc; simpl.
  - now rewrite app_nil_r.
  - rewrite IH. destruct (p x); auto. now rewrite <- app_assoc.
Qed.

(** ** The comparison of plain files *)

Lemma files_to_copy_filter (rest_left rest_right : PyDict.t Z) :
  fst (_compare_files rest_left rest_right) =
  filter (file_differs rest_left rest_right) (PyDict.keys rest_left).
Proof.
  unfold _compare_files. simpl.
  set (f := fun (acc : list string) (x : string) => _).
  assert (H : forall xs acc,
             fold_left f xs acc =
             acc ++ filter (file_differs rest_left rest_right) xs).
  { induction xs as [|x xs IH]; intros acc; simpl.
    - now rewrite app_nil_r.
    - rewrite IH. unfold f, file_differs.
      destruct (PyDict.get x rest_right); simpl.
      + destruct (PyDict.get x rest_left); simpl; auto.
        destruct (negb _); auto. now rewrite <- app_assoc.
      + now rewrite <- app_assoc. }
  now rewrite H.
Qed.

(** C2. For a key of the left [rest] map, the key is in [files_to_copy]
    exactly when it is absent from the right map or has another
    modification time there, also when the right file is the newer one; a
    key is in [files_to_delete] exactly when it is a key of the right map
    and not of the left map. *)
Theorem compare_files_decision (rest_left rest_right : PyDict.t Z) (x : string) :
  let '(files_to_copy, files_to_delete) := _compare_files rest_left rest_right in
  (forall l, PyDict.get x rest_left = Some l ->
     (In x files_to_copy <->
      PyDict.get x rest_right = None \/
      exists r, PyDict.get x rest_right = Some r /\ r <> l) /\
     (forall r, PyDict.get x rest_right = Some r -> (l < r)%Z ->
                In x files_to_copy)) /\
  (In x files_to_delete <->
   In x (PyDict.keys rest_right) /\ ~ In x (PyDict.keys rest_left)).
Proof.
  pose proof (files_to_copy_filter rest_left rest_right) as Hc.
  destruct (_compare_files rest_left rest_right) as [files_to_copy files_to_delete] eqn:E.
  simpl in Hc. subst files_to_copy.
  assert (Hd : files_to_delete =
               filter (fun k => negb (PyDict.mem k rest_left)) (PyDict.keys rest_right)).
  { unfold _compare_files in E. now inversion E. }
  clear E. split.
  - intros l Hl.
    assert (Hk : In x (PyDict.keys rest_left)).
    { apply get_In_keys. congruence. }
    assert (Hiff : In x (filter (file_differs rest_left rest_right) (PyDict.keys rest_left)) <->
                   PyDict.get x rest_right = None \/
                   exists r, PyDict.get x rest_right = Some r /\ r <> l).
    { rewrite filter_In. unfold file_differs. rewrite Hl.
      destruct (PyDict.get x rest_right) as [r|].
      - destruct (Z.eqb_spec l r); simpl; split.
        + intros [_ ?]; discriminate.
        + intros [?|[r' [Hr Hne]]]; [discriminate|]. inversion Hr; subst.
          congruence.
        + intros _. right. exists r. split; auto.
        + auto.
      - split; auto. }
    split; auto.
    intros r Hr Hlt. apply Hiff. right. exists r. split; auto. lia.
  - subst files_to_delete. rewrite filter_In, <- mem_false_keys.
    destruct (PyDict.mem x rest_left); simpl; intuition congruence.
Qed.

(** Scenario E: the right file is newer, it is still copied from the left. *)
Example scenario_E :
  _compare_files [("cover.jpg", 100%Z)] [("cover.jpg", 200%Z)] = (["cover.jpg"], []).
Proof. reflexivity. Qed.

(** ** The comparison of audio files *)

Lemma compare_music_filter (music_left music_right : PyDict.t music_info) :
  _compare_music music_left music_right =
  (filter (fun x => negb (PyDict.mem x music_right)) (PyDict.keys music_left),
   filter (music_newer music_left music_right) (PyDict.keys music_left),
   dict_minus music_right music_left).
Proof.
  unfold _compare_music.
  set (f := fun (acc : list string * list string) (x : string) => _).
  assert (H : forall xs lo ch,
             fold_left f xs (lo, ch) =
             (lo ++ filter (fun x => negb (PyDict.mem x music_right)) xs,
              ch ++ filter (music_newer music_left music_right) xs)).
  { induction xs as [|x xs IH]; intros lo ch; simpl.
    - now rewrite !app_nil_r.
    - unfold music_newer, PyDict.mem.
      destruct (PyDict.get x music_right) as [r|]; simpl.
      + destruct (PyDict.get x music_left) as [l|]; simpl.
        * destruct (Z.gtb (last_mod l) (last_mod r)); rewrite IH; auto.
          now rewrite <- app_assoc.
        * now rewrite IH.
      + rewrite IH. now rewrite <- app_assoc. }
  now rewrite H.
Qed.

(** C3. For a key of both audio maps, the key is in [music_changed]
    exactly when the left modification time is strictly greater than the
    right one; when it is not, the key is in none of the three audio
    collections ([music_leftonly], [music_changed], [music_to_delete]).
    Tags are not an input of the comparison. *)
Theorem compare_music_decision (music_left music_right : PyDict.t music_info)
  (x : string) (l r : music_info) :
  PyDict.get x music_left = Some l ->
  PyDict.get x music_right = Some r ->
  let '(music_leftonly, music_changed, music_to_delete) :=
    _compare_music music_left music_right in
  (In x music_changed <-> (last_mod l > last_mod r)%Z) /\
  ((last_mod r >= last_mod l)%Z ->
   ~ In x music_leftonly /\ ~ In x music_changed /\
   ~ In x (PyDict.keys music_to_delete)).
Proof.
  intros Hl Hr. rewrite compare_music_filter.
  assert (Hkl : In x (PyDict.keys music_left)) by (apply get_In_keys; congruence).
  assert (Hkr : In x (PyDict.keys music_right)) by (apply get_In_keys; congruence).
  assert (Hch : In x (filter (music_newer music_left music_right) (PyDict.keys music_left))
                <-> (last_mod l > last_mod r)%Z).
  { rewrite filter_In. unfold music_newer. rewrite Hl, Hr.
    rewrite Z.gtb_ltb, Z.ltb_lt. intuition lia. }
  split; auto.
  intros Hge. repeat split.
  - rewrite filter_In. intros [_ H]. apply mem_In_keys in Hkr.
    rewrite Hkr in H. discriminate.
  - rewrite Hch. lia.
  - rewrite In_keys_dict_minus. tauto.
Qed.

Lemma compare_music_decision_witness :
  let ml := [("Artist/Album/01 Track", MusicInfo ".flac" 5)] in
  let mr := [("Artist/Album/01 Track", MusicInfo ".mp3" 5)] in
  let '(music_leftonly, music_changed, music_to_delete) := _compare_music ml mr in
  (In "Artist/Album/01 Track" music_changed <-> (5 > 5)%Z) /\
  ((5 >= 5)%Z ->
   ~ In "Artist/Album/01 Track" music_leftonly /\
   ~ In "Artist/Album/01 Track" music_changed /\
   ~ In "Artist/Album/01 Track" (PyDict.keys music_to_delete)).
Proof.
  exact (@compare_music_decision
           [("Artist/Album/01 Track", MusicInfo ".flac" 5)]
           [("Artist/Album/01 Track", MusicInfo ".mp3" 5)]
           "Artist/Album/01 Track" (MusicInfo ".flac" 5) (MusicInfo ".mp3" 5)
           eq_refl eq_refl).
Defined.

(** ** Splitting a combined number *)

Lemma split_on_length (c : ascii) (s : string) :
  List.length (split_on c s) = S (count_char c s).
Proof.
  induction s as [|a s IH]; simpl; auto.
  destruct (Ascii.eqb a c); simpl.
  - now rewrite IH.
  - destruct (split_on c s); simpl in *; lia.
Qed.

Lemma split_total_two_separators (number_key total_key : string) (d : tag_dict)
  (v : string) (vs : list string) :
  PyDict.get number_key d = Some (v :: vs) ->
  2 <= count_char sep v ->
  split_total number_key total_key d = Raise ValueError.
Proof.
  intros Hg Hc. unfold split_total. rewrite Hg.
  assert (Hs : contains_char sep v = true).
  { clear Hg. induction v as [|a v IH]; simpl in *; [lia|].
    destruct (Ascii.eqb a sep); simpl; auto. }
  rewrite Hs. pose proof (split_on_length sep v) as Hl.
  destruct (split_on sep v) as [|a [|b [|c l]]]; simpl in Hl; auto; lia.
Qed.

Lemma split_total_get_other (number_key total_key k : string) (d d' : tag_dict) :
  k <> number_key -> k <> total_key ->
  split_total number_key total_key d = Ok d' ->
  PyDict.get k d' = PyDict.get k d.
Proof.
  intros N1 N2. unfold split_total.
  destruct (PyDict.get number_key d) as [[|v0 vs]|]; try congruence.
  destruct (contains_char sep v0); try congruence.
  destruct (split_on sep v0) as [|a [|b [|c l]]]; try congruence.
  intros H. inversion H; subst.
  rewrite !get_set_other; auto.
Qed.

(** C10. When the first value of ['tracknumber'] or of ['discnumber'] of a
    field dict holds two or more ['/'], the dict branch of
    [xx_total_correct] raises instead of returning a field dict; and so
    does [id3_tags_as_dict] on a container whose frames yield such a
    dict. *)
Theorem xx_total_correct_two_separators (d : tag_dict) (k v : string)
  (vs : list string) :
  k = "tracknumber" \/ k = "discnumber" ->
  PyDict.get k d = Some (v :: vs) ->
  2 <= count_char sep v ->
  (exists e, xx_total_correct (DictTags d) = Raise e) /\
  (k = "tracknumber" -> xx_total_correct (DictTags d) = Raise ValueError) /\
  (forall cfg id3_tags out,
     for_each (id3_tags_as_dict_step cfg id3_tags) (PyDict.keys id3_tags)
       (PyDict.empty, []) = Ok (d, out) ->
     exists e, id3_tags_as_dict cfg id3_tags = Raise e).
Proof.
  intros Hk Hg Hc.
  assert (Ht : k = "tracknumber" -> xx_total_correct (DictTags d) = Raise ValueError).
  { intros ->. simpl.
    now rewrite (split_total_two_separators "tracknumber" "tracktotal" d Hg Hc). }
  assert (He : exists e, xx_total_correct (DictTags d) = Raise e).
  { destruct Hk as [->| ->].
    - eexists. now apply Ht.
    - simpl. destruct (split_total "tracknumber" "tracktotal" d) as [d1|e] eqn:E1.
      + simpl.
        assert (Hg1 : PyDict.get "discnumber" d1 = Some (v :: vs)).
        { rewrite <- Hg.
          apply (@split_total_get_other "tracknumber" "tracktotal" "discnumber" d d1);
            [discriminate | discriminate | exact E1]. }
        rewrite (split_total_two_separators "discnumber" "disctotal" d1 Hg1 Hc).
        simpl. eauto.
      + simpl. eauto. }
  repeat split; auto.
  intros cfg id3_tags out Hloop. destruct He as [e He].
  exists e. unfold id3_tags_as_dict, id3_tags_as_dict_out.
  rewrite Hloop. unfold bind. simpl fst. rewrite He. reflexivity.
Qed.

Lemma xx_total_correct_two_separators_witness :
  (exists e, xx_total_correct (DictTags [("tracknumber", ["1/2/3"])]) = Raise e) /\
  ("tracknumber" = "tracknumber" ->
   xx_total_correct (DictTags [("tracknumber", ["1/2/3"])]) = Raise ValueError) /\
  (forall cfg id3_tags out,
     for_each (id3_tags_as_dict_step cfg id3_tags) (PyDict.keys id3_tags)
       (PyDict.empty, []) = Ok ([("tracknumber", ["1/2/3"])], out) ->
     exists e, id3_tags_as_dict cfg id3_tags = Raise e).
Proof.
  apply (@xx_total_correct_two_separators
           [("tracknumber", ["1/2/3"])] "tracknumber" "1/2/3" []).
  - now left.
  - reflexivity.
  - simpl. lia.
Defined.

(** A TRCK frame read from a file with the text [1/2/3]. *)
Example id3_tags_as_dict_1_2_3 :
  id3_tags_as_dict default_config [("TRCK", TRCK ["1/2/3"])] = Raise ValueError.
Proof. reflexivity. Qed.

(** ** Errors of the tag layer *)

Lemma for_each_raise {A S : Type} (body : A -> S -> result S) (xs : list A) (x : A) :
  In x xs -> (forall s, exists e, body x s = Raise e) ->
  forall s, exists e, for_each body xs s = Raise e.
Proof.
  intros Hin Hx. induction xs as [|y xs IH]; [destruct Hin|].
  intros s. simpl. destruct Hin as [->|Hin].
  - destruct (Hx s) as [e ->]. simpl. eauto.
  - destruct (body y s) as [s'|e]; simpl; eauto.
Qed.

(** X1. A table entry that names no frame type: [get_id3_frame] raises for
    every value, and so does [copy_tag_dict_to_mp3] for every field dict
    that holds the field. *)
Theorem invalid_frame_type_aborts (cfg : config) (tag_name frame_name : string) :
  PyDict.get tag_name (vorbis_to_id3_map cfg) = Some frame_name ->
  PyDict.get frame_name (Frames cfg) = None ->
  (forall tag_value, exists msg,
     get_id3_frame cfg tag_name tag_value = Raise (AssertionError msg)) /\
  (forall tags td, In tag_name (PyDict.keys td) ->
     exists e, copy_tag_dict_to_mp3 cfg tags td = Raise e).
Proof.
  intros Hm Hf.
  assert (H1 : forall tag_value, exists msg,
             get_id3_frame cfg tag_name tag_value = Raise (AssertionError msg)).
  { intros v. unfold get_id3_frame. rewrite Hm, Hf. eauto. }
  split; auto.
  intros tags td Hin. unfold PyDict.keys in Hin. apply in_map_iff in Hin.
  destruct Hin as [[k v] [Hk Hin]]. simpl in Hk. subst k.
  unfold copy_tag_dict_to_mp3, add_frames.
  destruct (for_each_raise
              (fun t tags => frame_to_add <- get_id3_frame cfg (fst t) (snd t) ;;
                             Ok (add frame_to_add tags))
              td (tag_name, v) Hin) with (s := tags) as [e He].
  - intros s. simpl. destruct (H1 v) as [msg ->]. simpl. eauto.
  - rewrite He. simpl. eauto.
Qed.

Lemma invalid_frame_type_aborts_witness :
  (forall tag_value, exists msg,
     get_id3_frame config_bad_frame "mood" tag_value = Raise (AssertionError msg)) /\
  (forall tags td, In "mood" (PyDict.keys td) ->
     exists e, copy_tag_dict_to_mp3 config_bad_frame tags td = Raise e).
Proof.
  exact (@invalid_frame_type_aborts config_bad_frame "mood" "TMOOD" eq_refl eq_refl).
Defined.

(** X2. A frame without [desc] or without [text], in a container that holds
    a TPE1 and a TIT2 frame: the frame is skipped, one line is printed and
    the dict under construction is unchanged. *)
Theorem frame_without_accessor_skipped (cfg : config) (id3_tags : ID3)
  (t : string) (f a b : frame) (d : tag_dict) (out : list warning) :
  PyDict.get t id3_tags = Some f ->
  PyDict.get "TPE1" id3_tags = Some a ->
  PyDict.get "TIT2" id3_tags = Some b ->
  str_in (FrameID f) (id3_frames_to_ignore cfg) = false ->
  text f = None \/
  (PyDict.get (FrameID f) (id3_to_vorbis_map cfg) = None /\ desc f = None) ->
  id3_tags_as_dict_step cfg id3_tags t (d, out) = Ok (d, out ++ [Ignored t a b]).
Proof.
  intros Ht Ha Hb Hi Hacc. unfold id3_tags_as_dict_step, PyDict.getitem.
  rewrite Ht. simpl.
  assert (Hp : print_ignored t id3_tags = Ok (Ignored t a b)).
  { unfold print_ignored, PyDict.getitem. now rewrite Ha, Hb. }
  rewrite Hp. simpl. rewrite Hi.
  destruct Hacc as [Htx | [Hm Hd]].
  - rewrite Htx. destruct (PyDict.get (FrameID f) (id3_to_vorbis_map cfg)); auto.
    destruct (desc f); auto.
  - rewrite Hm, Hd. reflexivity.
Qed.

Lemma frame_without_accessor_skipped_witness :
  let tags := [("TPE1", text_frame "TPE1" ["Artist"]);
               ("TIT2", text_frame "TIT2" ["Title"]);
               ("TPUB", text_frame "TPUB" ["Label"])] in
  id3_tags_as_dict_step default_config tags "TPUB" ([("artist", ["Artist"])], []) =
  Ok ([("artist", ["Artist"])],
      [] ++ [Ignored "TPUB" (text_frame "TPE1" ["Artist"]) (text_frame "TIT2" ["Title"])]).
Proof.
  exact (@frame_without_accessor_skipped default_config
           [("TPE1", text_frame "TPE1" ["Artist"]);
            ("TIT2", text_frame "TIT2" ["Title"]);
            ("TPUB", text_frame "TPUB" ["Label"])]
           "TPUB" (text_frame "TPUB" ["Label"])
           (text_frame "TPE1" ["Artist"]) (text_frame "TIT2" ["Title"])
           [("artist", ["Artist"])] []
           eq_refl eq_refl eq_refl eq_refl (or_intror (conj eq_refl eq_refl))).
Defined.

(** C9, at the failing input. A container with an album and a publisher
    frame and neither TPE1 nor TIT2: the publisher frame has no [desc],
    the line to print reads [id3_tags['TPE1']], and the conversion raises
    [KeyError] instead of skipping the frame. *)
Theorem id3_tags_as_dict_warning_raises :
  id3_tags_as_dict default_config
    [("TALB", text_frame "TALB" ["Album"]); ("TPUB", text_frame "TPUB" ["Label"])]
  = Raise (KeyError "TPE1").
Proof. reflexivity. Qed.

(** ** The ignore list of frames *)

(** A frame whose id is in [id3_frames_to_ignore] and is not an id of the
    mapping table leaves the dict under construction and the output as
    they are. *)
Lemma ignored_frame_step (cfg : config) (id3_tags : ID3) (t : string) (f : frame)
  (st : tag_dict * list warning) :
  PyDict.get t id3_tags = Some f ->
  str_in (FrameID f) (id3_frames_to_ignore cfg) = true ->
  PyDict.mem (FrameID f) (id3_to_vorbis_map cfg) = false ->
  id3_tags_as_dict_step cfg id3_tags t st = Ok st.
Proof.
  intros Ht Hi Hm. unfold id3_tags_as_dict_step, PyDict.getitem.
  destruct st as [d out]. rewrite Ht. simpl.
  unfold PyDict.mem in Hm.
  destruct (PyDict.get (FrameID f) (id3_to_vorbis_map cfg)); [discriminate|].
  now rewrite Hi.
Qed.

(** X3. When no id of the ignore list is an id of the mapping table, the
    conversion is the conversion of the frames that are not ignored: the
    loop over all keys is the loop over the keys of the other frames. *)
Theorem ignored_frames_dropped (cfg : config) (id3_tags : ID3) :
  (forall i, str_in i (id3_frames_to_ignore cfg) = true ->
             PyDict.mem i (id3_to_vorbis_map cfg) = false) ->
  forall ts st,
    for_each (id3_tags_as_dict_step cfg id3_tags) ts st =
    for_each (id3_tags_as_dict_step cfg id3_tags)
      (filter (not_ignored cfg id3_tags) ts) st.
Proof.
  intros Hdisj ts. induction ts as [|t ts IH]; intros st; simpl; auto.
  unfold not_ignored at 1.
  destruct (PyDict.get t id3_tags) as [f|] eqn:Ht.
  - destruct (str_in (FrameID f) (id3_frames_to_ignore cfg)) eqn:Hi; simpl.
    + rewrite (Hdisj _ Hi). rewrite (ignored_frame_step cfg id3_tags t st Ht Hi (Hdisj _ Hi)).
      simpl. apply IH.
    + destruct (id3_tags_as_dict_step cfg id3_tags t st); simpl; auto.
  - simpl. destruct (id3_tags_as_dict_step cfg id3_tags t st); simpl; auto.
Qed.

Lemma default_config_ignore_disjoint i :
  str_in i (id3_frames_to_ignore default_config) = true ->
  PyDict.mem i (id3_to_vorbis_map default_config) = false.
Proof.
  simpl. rewrite orb_false_r. intros H. apply String.eqb_eq in H. now subst.
Qed.

Lemma ignored_frames_dropped_witness :
  for_each (id3_tags_as_dict_step default_config [("TSSE", text_frame "TSSE" ["LAME"])])
    ["TSSE"] ([], []) =
  for_each (id3_tags_as_dict_step default_config [("TSSE", text_frame "TSSE" ["LAME"])])
    (filter (not_ignored default_config [("TSSE", text_frame "TSSE" ["LAME"])]) ["TSSE"])
    ([], []).
Proof.
  exact (@ignored_frames_dropped default_config
           [("TSSE", text_frame "TSSE" ["LAME"])] default_config_ignore_disjoint
           ["TSSE"] ([], [])).
Defined.

(** C6, at the failing input. With TCON in the ignore list, a TCON frame
    is still converted: its id is an id of the mapping table, which is
    looked up first. *)
Theorem ignored_mapped_frame_kept :
  id3_tags_as_dict config_ignoring_genre [("TCON", text_frame "TCON" ["Rock"])]
  = Ok [("genre", ["Rock"])].
Proof. reflexivity. Qed.

(** With the ignore list of the script, the TSSE frame is dropped. *)
Example tsse_dropped :
  id3_tags_as_dict default_config
    [("TIT2", text_frame "TIT2" ["Title"]); ("TSSE", text_frame "TSSE" ["LAME 3.100"])]
  = Ok [("title", ["Title"])].
Proof. reflexivity. Qed.

(** ** More on dictionaries *)

Lemma str_in_In (x : string) (xs : list string) : str_in x xs = true <-> In x xs.
Proof.
  unfold str_in. rewrite existsb_exists. split.
  - intros [y [Hy E]]. apply String.eqb_eq in E. now subst.
  - intros H. exists x. split; auto. apply String.eqb_refl.
Qed.

Lemma nodupb_NoDup (l : list string) : nodupb l = true -> NoDup l.
Proof.
  induction l as [|x l IH]; simpl; intros H; constructor.
  - apply andb_prop in H. destruct H as [H _].
    intros Hin. apply str_in_In in Hin. rewrite Hin in H. discriminate.
  - apply IH. apply andb_prop in H. tauto.
Qed.

Lemma get_Some_In {V : Type} (k : string) (v : V) (d : PyDict.t V) :
  PyDict.get k d = Some v -> In (k, v) d.
Proof.
  induction d as [|[k' v'] d IH]; simpl; [discriminate|].
  destruct (String.eqb_spec k k').
  - intros H. inversion H; subst. now left.
  - intros H. right. auto.
Qed.

Lemma In_get_Some {V : Type} (k : string) (v : V) (d : PyDict.t V) :
  NoDup (PyDict.keys d) -> In (k, v) d -> PyDict.get k d = Some v.
Proof.
  induction d as [|[k' v'] d IH]; simpl; [tauto|].
  intros Hnd [H|H].
  - inversion H; subst. now rewrite String.eqb_refl.
  - inversion Hnd; subst. destruct (String.eqb_spec k k').
    + subst. exfalso. apply H2. unfold PyDict.keys. apply in_map_iff.
      now exists (k', v).
    + auto.
Qed.

Lemma get_remove_same {V : Type} (k : string) (d : PyDict.t V) :
  NoDup (PyDict.keys d) -> PyDict.get k (PyDict.remove k d) = None.
Proof.
  induction d as [|[k' v'] d IH]; simpl; auto.
  intros Hnd. inversion Hnd; subst. destruct (String.eqb_spec k k').
  - subst. now apply get_None_keys.
  - simpl. destruct (String.eqb_spec k k'); [contradiction|]. auto.
Qed.

Lemma get_remove_other {V : Type} (k k' : string) (d : PyDict.t V) :
  k <> k' -> PyDict.get k' (PyDict.remove k d) = PyDict.get k' d.
Proof.
  intros N. induction d as [|[k0 v0] d IH]; simpl; auto.
  destruct (String.eqb_spec k k0).
  - subst. destruct (String.eqb_spec k' k0); congruence.
  - simpl. now rewrite IH.
Qed.

Lemma In_keys_remove {V : Type} (k k' : string) (d : PyDict.t V) :
  In k' (PyDict.keys (PyDict.remove k d)) -> In k' (PyDict.keys d).
Proof.
  induction d as [|[k0 v0] d IH]; simpl; auto.
  destruct (String.eqb k k0); simpl; intuition.
Qed.

Lemma NoDup_keys_remove {V : Type} (k : string) (d : PyDict.t V) :
  NoDup (PyDict.keys d) -> NoDup (PyDict.keys (PyDict.remove k d)).
Proof.
  induction d as [|[k0 v0] d IH]; simpl; auto.
  intros Hnd. inversion Hnd; subst.
  destruct (String.eqb k k0); simpl; auto.
  constructor; auto. intros Hin. apply H1. eapply In_keys_remove; eauto.
Qed.

(** ** Hash keys of the frames made from fields *)

Lemma mapping_ok_entry (cfg : config) (name i : string) :
  mapping_ok cfg = true ->
  PyDict.get name (vorbis_to_id3_map cfg) = Some i ->
  mapping_entry_ok cfg (name, i) = true.
Proof.
  unfold mapping_ok. intros H Hg. apply andb_prop in H. destruct H as [_ H].
  rewrite forallb_forall in H. apply H. now apply get_Some_In.
Qed.

(** What an entry of a table that fulfils the constraints says. *)
Lemma mapping_entry_ok_spec (cfg : config) (name i : string) :
  mapping_entry_ok cfg (name, i) = true ->
  (name = "tracknumber" <-> i = "TRCK") /\
  (name = "discnumber" <-> i = "TPOS") /\
  name <> "tracktotal" /\ name <> "disctotal" /\
  String.length i = 4 /\
  exists c, PyDict.get i (Frames cfg) = Some c /\ text_class c = true /\
            (i = "TRCK" \/ i = "TPOS" -> c = TextFrame).
Proof.
  unfold mapping_entry_ok. cbn [fst snd]. intros H.
  apply andb_prop in H. destruct H as [H Hc].
  apply andb_prop in H. destruct H as [H Hl].
  apply andb_prop in H. destruct H as [H Hd].
  apply andb_prop in H. destruct H as [H Ht].
  apply andb_prop in H. destruct H as [H1 H2].
  apply Bool.eqb_prop in H1. apply Bool.eqb_prop in H2.
  apply negb_true_iff in Ht. apply negb_true_iff in Hd.
  apply Nat.eqb_eq in Hl.
  split.
  { destruct (String.eqb_spec name "tracknumber"), (String.eqb_spec i "TRCK");
      intuition congruence. }
  split.
  { destruct (String.eqb_spec name "discnumber"), (String.eqb_spec i "TPOS");
      intuition congruence. }
  split.
  { intros ->. discriminate. }
  split.
  { intros ->. discriminate. }
  split; auto.
  destruct (PyDict.get i (Frames cfg)) as [c|]; [|discriminate].
  exists c. apply andb_prop in Hc. destruct Hc as [Hc1 Hc2].
  split; auto. split; auto.
  intros Hi. destruct c; auto; simpl in Hc2;
    destruct Hi as [-> | ->]; discriminate.
Qed.

Lemma mapping_ok_number (cfg : config) :
  mapping_ok cfg = true ->
  PyDict.get "tracknumber" (vorbis_to_id3_map cfg) = Some "TRCK" /\
  PyDict.get "discnumber" (vorbis_to_id3_map cfg) = Some "TPOS" /\
  PyDict.get "tracktotal" (vorbis_to_id3_map cfg) = None /\
  PyDict.get "disctotal" (vorbis_to_id3_map cfg) = None.
Proof.
  intros H.
  assert (He : forall n i, PyDict.get n (vorbis_to_id3_map cfg) = Some i ->
                           mapping_entry_ok cfg (n, i) = true).
  { intros n i. now apply mapping_ok_entry. }
  unfold mapping_ok in H.
  repeat (apply andb_prop in H; destruct H as [H ?]).
  unfold PyDict.mem in *.
  repeat split.
  - destruct (PyDict.get "tracknumber" (vorbis_to_id3_map cfg)) as [i|] eqn:E;
      [|discriminate].
    apply He, mapping_entry_ok_spec in E. destruct E as (E & _).
    f_equal. now apply E.
  - destruct (PyDict.get "discnumber" (vorbis_to_id3_map cfg)) as [i|] eqn:E;
      [|discriminate].
    apply He, mapping_entry_ok_spec in E. destruct E as (_ & E & _).
    f_equal. now apply E.
  - destruct (PyDict.get "tracktotal" (vorbis_to_id3_map cfg)) as [i|] eqn:E; auto.
    apply He, mapping_entry_ok_spec in E. destruct E as (_ & _ & E & _).
    congruence.
  - destruct (PyDict.get "disctotal" (vorbis_to_id3_map cfg)) as [i|] eqn:E; auto.
    apply He, mapping_entry_ok_spec in E. destruct E as (_ & _ & _ & E & _).
    congruence.
Qed.

Lemma length_append (a b : string) :
  String.length (a ++ b) = String.length a + String.length b.
Proof. induction a; simpl; auto. Qed.

(** The frame of a text frame class. *)
Lemma new_frame_text_class (i : string) (c : frame_class) (v : list string) :
  text_class c = true ->
  exists f,
    new_frame i c v = Ok f /\ FrameID f = i /\
    (exists v', text f = Some v') /\
    (c = TextFrame -> f = Frame i i None (Some v)) /\
    (HashKey f = i \/ HashKey f = (i ++ ":")%string \/
     HashKey f = (i ++ "::XXX")%string) /\
    (HashKey f = i -> c = TextFrame \/ exists stamp, c = TimeStampTextFrame stamp).
Proof.
  intros Hc. destruct c; try discriminate; cbn [new_frame];
    eexists; (split; [reflexivity|]); cbn [FrameID HashKey text];
    (split; [reflexivity|]); (split; [eauto|]);
    (split; [intros E; try discriminate E; reflexivity|]);
    (split; [auto|]); intros E; eauto.
  - exfalso. apply (f_equal String.length) in E.
    rewrite length_append in E. simpl in E. lia.
  - exfalso. apply (f_equal String.length) in E.
    rewrite length_append in E. simpl in E. lia.
Qed.

(** What [get_id3_frame] yields under a table that fulfils the
    constraints: a frame with a text, stored under the key of the number
    frame exactly for the number field and under the key of the TXXX total
    frame exactly for the total field. *)
Lemma get_id3_frame_ok (cfg : config) (name : string) (v : list string) :
  mapping_ok cfg = true ->
  exists f,
    get_id3_frame cfg name v = Ok f /\ (exists v', text f = Some v') /\
    (HashKey f = "TRCK" <-> name = "tracknumber") /\
    (HashKey f = "TPOS" <-> name = "discnumber") /\
    (HashKey f = "TXXX:tracktotal" <-> name = "tracktotal") /\
    (HashKey f = "TXXX:disctotal" <-> name = "disctotal") /\
    (name = "tracknumber" -> f = TRCK v) /\
    (name = "discnumber" -> f = TPOS v) /\
    (name = "tracktotal" -> f = TXXX "tracktotal" v) /\
    (name = "disctotal" -> f = TXXX "disctotal" v).
Proof.
  intros Hok. destruct (mapping_ok_number cfg Hok) as (Htn & Hdn & Htt & Hdt).
  unfold get_id3_frame.
  destruct (PyDict.get name (vorbis_to_id3_map cfg)) as [i|] eqn:Hm.
  - pose proof (mapping_ok_entry cfg name Hok Hm) as He.
    apply mapping_entry_ok_spec in He.
    destruct He as (E1 & E2 & Nt & Nd & Hl & c & Hf & Hc & Hplain).
    rewrite Hf.
    destruct (@new_frame_text_class i c v Hc)
      as (f & Hnew & Hid & Htx & Hp & Hk & Hki).
    exists f. split; auto. split; auto.
    assert (K : forall k, (String.length k <> 4 /\ String.length k <> 5 /\
                           String.length k <> 9) -> HashKey f <> k).
    { intros k (L4 & L5 & L9) E. subst k.
      destruct Hk as [Hk|[Hk|Hk]]; rewrite Hk in *;
        rewrite ?length_append in *; simpl in *; lia. }
    assert (T : forall k, String.length k = 4 -> (HashKey f = k -> i = k)).
    { intros k L E. destruct Hk as [Hk|[Hk|Hk]]; rewrite Hk in E; auto;
        apply (f_equal String.length) in E;
        rewrite ?length_append in E; simpl in E; lia. }
    clear Hid.
    repeat split.
    + intros E. apply T in E; auto. now apply E1.
    + intros E. apply E1 in E.
      rewrite (Hp (Hplain (or_introl E))). exact E.
    + intros E. apply T in E; auto. now apply E2.
    + intros E. apply E2 in E.
      rewrite (Hp (Hplain (or_intror E))). exact E.
    + intros E. exfalso. revert E. apply K. simpl. lia.
    + intros E. contradiction.
    + intros E. exfalso. revert E. apply K. simpl. lia.
    + intros E. contradiction.
    + intros E. apply E1 in E.
      rewrite (Hp (Hplain (or_introl E))). now rewrite E.
    + intros E. apply E2 in E.
      rewrite (Hp (Hplain (or_intror E))). now rewrite E.
    + intros E. contradiction.
    + intros E. contradiction.
  - exists (TXXX name v). split; auto. split; [cbn; eauto|].
    assert (N1 : name <> "tracknumber") by (intros ->; congruence).
    assert (N2 : name <> "discnumber") by (intros ->; congruence).
    cbn [TXXX HashKey].
    repeat split; try (intros E; discriminate E); try contradiction;
      try (intros E; inversion E; reflexivity);
      try (intros ->; reflexivity).
Qed.

(** The frame of a field that is in the table. *)
Lemma get_id3_frame_mapped (cfg : config) (name i : string) (v : list string) :
  mapping_ok cfg = true ->
  PyDict.get name (vorbis_to_id3_map cfg) = Some i ->
  exists c f,
    PyDict.get i (Frames cfg) = Some c /\ text_class c = true /\
    get_id3_frame cfg name v = Ok f /\ new_frame i c v = Ok f /\
    FrameID f = i /\ (exists v', text f = Some v').
Proof.
  intros Hok Hm. pose proof (mapping_ok_entry cfg name Hok Hm) as He.
  apply mapping_entry_ok_spec in He.
  destruct He as (_ & _ & _ & _ & _ & c & Hf & Hc & _).
  destruct (@new_frame_text_class i c v Hc) as (f & Hnew & Hid & Htx & _).
  exists c, f. unfold get_id3_frame. rewrite Hm, Hf. repeat split; auto.
Qed.

(** ** The loop of [copy_tag_dict_to_mp3] *)

Section AddFrames.
Variable cfg : config.
Hypothesis Hok : mapping_ok cfg = true.

(** A hash key [hk] that is the key of the frame of the field [name]
    and of no other field. *)
Variables (hk name : string) (mk : list string -> frame).
Hypothesis Hkey : forall n v f,
    get_id3_frame cfg n v = Ok f ->
    (HashKey f = hk <-> n = name) /\ (n = name -> f = mk v).

Lemma add_frames_lookup (td : tag_dict) :
  NoDup (PyDict.keys td) ->
  forall tags, NoDup (PyDict.keys tags) ->
  exists tags1,
    add_frames cfg td tags = Ok tags1 /\
    NoDup (PyDict.keys tags1) /\
    PyDict.get hk tags1 =
    match PyDict.get name td with
    | Some v => Some (mk v)
    | None => PyDict.get hk tags
    end.
Proof.
  unfold add_frames.
  induction td as [|[n v] td IH]; intros Hnd tags Hnt; simpl.
  - eauto.
  - inversion Hnd as [|? ? Hn Hnd']; subst.
    destruct (get_id3_frame_ok cfg n v Hok) as (f & Hf & _).
    rewrite Hf. simpl.
    destruct (IH Hnd' (add f tags)) as (tags1 & H1 & H2 & H3).
    { now apply NoDup_keys_set. }
    exists tags1. split; auto. split; auto.
    rewrite H3. destruct (Hkey n v Hf) as [Hk1 Hk2].
    unfold add. destruct (String.eqb_spec name n).
    + subst n. apply get_None_keys in Hn. rewrite Hn.
      rewrite (proj2 Hk1 eq_refl), get_set_same. now rewrite Hk2.
    + destruct (PyDict.get name td); auto.
      apply get_set_other. intros E. apply Hk1 in E. congruence.
Qed.
End AddFrames.

(** ** One block of the merge of number and total *)

Lemma merge_total_both (total_key number_key : string)
  (mk : list string -> frame) (tags : ID3) (nf tf : frame) (N M : string) :
  NoDup (PyDict.keys tags) ->
  number_key <> total_key ->
  (forall v, HashKey (mk v) = number_key) ->
  PyDict.get number_key tags = Some nf ->
  PyDict.get total_key tags = Some tf ->
  text0 nf = Ok N -> text0 tf = Ok M ->
  exists tags2,
    merge_total total_key number_key mk tags = Ok tags2 /\
    NoDup (PyDict.keys tags2) /\
    PyDict.get number_key tags2 = Some (mk [(N ++ "/" ++ M)%string]) /\
    PyDict.get total_key tags2 = None /\
    (forall k, k <> number_key -> k <> total_key ->
               PyDict.get k tags2 = PyDict.get k tags).
Proof.
  intros Hnd Hne Hmk Hn Ht HN HM. unfold merge_total, PyDict.mem, PyDict.getitem.
  rewrite Hn, Ht. cbn [andb bind]. rewrite HN. cbn [bind]. rewrite HM. cbn [bind].
  eexists. split; [reflexivity|].
  unfold delall, add. rewrite Hmk.
  assert (Hmem : PyDict.mem total_key
                   (PyDict.set number_key (mk [(N ++ "/" ++ M)%string]) tags) = true).
  { unfold PyDict.mem. rewrite get_set_other, Ht; auto. }
  rewrite Hmem.
  assert (Hnd' : NoDup (PyDict.keys
                          (PyDict.set number_key (mk [(N ++ "/" ++ M)%string]) tags)))
    by now apply NoDup_keys_set.
  repeat split.
  - now apply NoDup_keys_remove.
  - rewrite get_remove_other, get_set_same; auto.
  - now apply get_remove_same.
  - intros k K1 K2. rewrite get_remove_other, get_set_other; auto.
Qed.

Lemma merge_total_not_both (total_key number_key : string)
  (mk : list string -> frame) (tags : ID3) :
  PyDict.get number_key tags = None \/ PyDict.get total_key tags = None ->
  merge_total total_key number_key mk tags = Ok tags.
Proof.
  intros H. unfold merge_total, PyDict.mem.
  destruct H as [-> | ->]; auto.
  now rewrite andb_false_r.
Qed.
Lemma merge_total_spec (total_key number_key : string)
  (mk : list string -> frame) (tags : ID3) :
  NoDup (PyDict.keys tags) ->
  number_key <> total_key ->
  (forall v, HashKey (mk v) = number_key) ->
  texts_ok [number_key; total_key] tags ->
  exists tags2,
    merge_total total_key number_key mk tags = Ok tags2 /\
    NoDup (PyDict.keys tags2) /\
    merged total_key number_key mk tags tags2 /\
    (forall k, k <> number_key -> k <> total_key ->
               PyDict.get k tags2 = PyDict.get k tags).
Proof.
  intros Hnd Hne Hmk Htx. unfold merged.
  destruct (PyDict.get number_key tags) as [nf|] eqn:Hn.
  - destruct (PyDict.get total_key tags) as [tf|] eqn:Ht.
    + destruct (Htx number_key nf) as [N HN]; simpl; auto.
      destruct (Htx total_key tf) as [M HM]; simpl; auto.
      destruct (@merge_total_both total_key number_key mk tags nf tf N M
                  Hnd Hne Hmk Hn Ht HN HM)
        as (tags2 & H1 & H2 & H3 & H4 & H5).
      exists tags2. split; [exact H1|]. split; [exact H2|].
      split; [exists N, M; auto | exact H5].
    + exists tags. rewrite merge_total_not_both by auto. auto.
  - exists tags. rewrite merge_total_not_both by auto. auto.
Qed.

(** The ID3 branch of [xx_total_correct] on a container whose number and
    total frames have a first text value. *)
Lemma xx_total_correct_ID3_spec (tags : ID3) :
  NoDup (PyDict.keys tags) ->
  texts_ok number_total_keys tags ->
  exists tags3,
    xx_total_correct (ID3Tags tags) = Ok (ID3Tags tags3) /\
    NoDup (PyDict.keys tags3) /\
    merged "TXXX:tracktotal" "TRCK" TRCK tags tags3 /\
    merged "TXXX:disctotal" "TPOS" TPOS tags tags3 /\
    (forall k, ~ In k number_total_keys ->
               PyDict.get k tags3 = PyDict.get k tags).
Proof.
  intros Hnd Htx.
  destruct (@merge_total_spec "TXXX:tracktotal" "TRCK" TRCK tags)
    as (tags2 & H1 & Hnd2 & Hm1 & Ho1); auto.
  { discriminate. }
  { intros k f [<-|[<-|[]]]; apply Htx; simpl; auto. }
  destruct (@merge_total_spec "TXXX:disctotal" "TPOS" TPOS tags2)
    as (tags3 & H2 & Hnd3 & Hm2 & Ho2); auto.
  { discriminate. }
  { intros k f [<-|[<-|[]]]; rewrite Ho1 by discriminate;
      apply Htx; simpl; auto. }
  exists tags3. simpl. rewrite H1. simpl. rewrite H2. simpl.
  repeat split; auto.
  - unfold merged in *.
    rewrite !(Ho2 "TRCK"), !(Ho2 "TXXX:tracktotal") by discriminate.
    exact Hm1.
  - unfold merged in *.
    rewrite !(Ho1 "TPOS"), !(Ho1 "TXXX:disctotal") in Hm2 by discriminate.
    exact Hm2.
  - intros k Hk. simpl in Hk. rewrite Ho2, Ho1; auto; intros E; subst; tauto.
Qed.
Lemma add_frames_spec (cfg : config) (td : tag_dict) (tags : ID3) :
  mapping_ok cfg = true ->
  NoDup (PyDict.keys td) -> NoDup (PyDict.keys tags) ->
  exists tags1,
    add_frames cfg td tags = Ok tags1 /\
    NoDup (PyDict.keys tags1) /\
    (forall hk name mk,
        In (hk, name, mk)
          [("TRCK", "tracknumber", TRCK); ("TPOS", "discnumber", TPOS);
           ("TXXX:tracktotal", "tracktotal", TXXX "tracktotal");
           ("TXXX:disctotal", "disctotal", TXXX "disctotal")] ->
        PyDict.get hk tags1 =
        match PyDict.get name td with
        | Some v => Some (mk v)
        | None => PyDict.get hk tags
        end).
Proof.
  intros Hok Hnd Hnt.
  assert (Hkey : forall hk name mk,
             In (hk, name, mk)
               [("TRCK", "tracknumber", TRCK); ("TPOS", "discnumber", TPOS);
                ("TXXX:tracktotal", "tracktotal", TXXX "tracktotal");
                ("TXXX:disctotal", "disctotal", TXXX "disctotal")] ->
             forall n v f, get_id3_frame cfg n v = Ok f ->
                           (HashKey f = hk <-> n = name) /\ (n = name -> f = mk v)).
  { intros hk name mk Hin n v f Hf.
    destruct (get_id3_frame_ok cfg n v Hok) as (f' & Hf' & _ & A & B & C & D & E & F & G & H).
    rewrite Hf in Hf'. inversion Hf'; subst f'.
    simpl in Hin.
    destruct Hin as [X|[X|[X|[X|[]]]]]; inversion X; subst; auto. }
  destruct (@add_frames_lookup cfg Hok "TRCK" "tracknumber" TRCK
              (Hkey _ _ _ (or_introl eq_refl)) td Hnd tags Hnt)
    as (tags1 & H1 & H2 & _).
  exists tags1. split; auto. split; auto.
  intros hk name mk Hin.
  destruct (@add_frames_lookup cfg Hok hk name mk (Hkey _ _ _ Hin) td Hnd tags Hnt)
    as (tags1' & H1' & _ & H3).
  rewrite H1 in H1'. inversion H1'; subst. exact H3.
Qed.

Lemma fields_ok_spec (td : tag_dict) :
  fields_ok td = true ->
  NoDup (PyDict.keys td) /\
  (forall k v, PyDict.get k td = Some v -> exists x xs, v = x :: xs).
Proof.
  unfold fields_ok. intros H. apply andb_prop in H. destruct H as [H1 H2].
  split; [now apply nodupb_NoDup|].
  intros k v Hg. apply get_Some_In in Hg.
  rewrite forallb_forall in H2. apply H2 in Hg. simpl in Hg.
  destruct v; [discriminate|eauto].
Qed.

Lemma numbers_ok_spec (td : tag_dict) :
  numbers_ok td = true ->
  NoDup (PyDict.keys td) /\
  (forall k v, In k number_total_fields -> PyDict.get k td = Some v ->
               exists x xs, v = x :: xs).
Proof.
  unfold numbers_ok. intros H. apply andb_prop in H. destruct H as [H1 H2].
  split; [now apply nodupb_NoDup|].
  intros k v Hin Hg. rewrite forallb_forall in H2. apply H2 in Hin.
  rewrite Hg in Hin. destruct v; [discriminate|eauto].
Qed.

Lemma fields_ok_numbers_ok (td : tag_dict) :
  fields_ok td = true -> numbers_ok td = true.
Proof.
  intros H. destruct (fields_ok_spec td H) as [_ Hne].
  unfold fields_ok in H. apply andb_prop in H. destruct H as [H1 _].
  unfold numbers_ok. rewrite H1. cbn [andb]. apply forallb_forall.
  intros name _. destruct (PyDict.get name td) as [v|] eqn:E; auto.
  destruct (Hne _ _ E) as (x & xs & ->). reflexivity.
Qed.

Lemma container_ok_spec (tags : ID3) :
  container_ok tags = true ->
  NoDup (PyDict.keys tags) /\ texts_ok number_total_keys tags.
Proof.
  unfold container_ok. intros H. apply andb_prop in H. destruct H as [H1 H2].
  split; [now apply nodupb_NoDup|].
  intros k f Hin Hg. apply get_Some_In in Hg.
  rewrite forallb_forall in H2. apply H2 in Hg. cbn [fst snd] in Hg.
  apply str_in_In in Hin. rewrite Hin in Hg. simpl in Hg.
  destruct (text0 f); [eauto|discriminate].
Qed.

(** The container after the loop, for a field dict and a container that
    are well formed. *)
Lemma add_frames_texts_ok (cfg : config) (td : tag_dict) (tags tags1 : ID3) :
  mapping_ok cfg = true -> numbers_ok td = true -> container_ok tags = true ->
  add_frames cfg td tags = Ok tags1 ->
  texts_ok number_total_keys tags1.
Proof.
  intros Hok Hf Hc H1.
  destruct (numbers_ok_spec td Hf) as [Hnd Hne].
  destruct (container_ok_spec tags Hc) as [Hnt Htx].
  destruct (@add_frames_spec cfg td tags Hok Hnd Hnt) as (tags1' & H1' & _ & Hl).
  rewrite H1 in H1'. inversion H1'; subst tags1'.
  assert (G : forall hk name mk,
             In (hk, name, mk)
               [("TRCK", "tracknumber", TRCK); ("TPOS", "discnumber", TPOS);
                ("TXXX:tracktotal", "tracktotal", TXXX "tracktotal");
                ("TXXX:disctotal", "disctotal", TXXX "disctotal")] ->
             In hk number_total_keys ->
             (forall x xs, text0 (mk (x :: xs)) = Ok x) ->
             forall f, PyDict.get hk tags1 = Some f -> exists x, text0 f = Ok x).
  { intros hk name mk Hin Hk Hmk f Hg. rewrite (Hl _ _ _ Hin) in Hg.
    destruct (PyDict.get name td) as [v|] eqn:E.
    - assert (Hn : In name number_total_fields).
      { simpl in Hin. destruct Hin as [X|[X|[X|[X|[]]]]]; inversion X;
          simpl; auto. }
      destruct (Hne _ _ Hn E) as (x & xs & ->). inversion Hg; subst. eauto.
    - eapply Htx; eauto. }
  intros k f Hin Hg. simpl in Hin.
  destruct Hin as [<-|[<-|[<-|[<-|[]]]]].
  - eapply (G "TRCK"); simpl; eauto.
  - eapply (G "TPOS"); simpl; eauto 6.
  - eapply (G "TXXX:tracktotal"); simpl; eauto 6.
  - eapply (G "TXXX:disctotal"); simpl; eauto 6.
Qed.

(** ** Field to frame conversion of number and total *)




(** ** The reverse mapping table *)

Lemma get_update_In {V : Type} (k : string) (v : V) (d2 d : PyDict.t V) :
  PyDict.get k (PyDict.update d d2) = Some v ->
  In (k, v) d2 \/ PyDict.get k d = Some v.
Proof.
  unfold PyDict.update. revert d.
  induction d2 as [|[k2 v2] d2 IH]; intros d; simpl; auto.
  intros H. apply IH in H. destruct H as [H|H]; auto.
  rewrite get_set in H. destruct (String.eqb_spec k2 k); auto.
  inversion H; subst. auto.
Qed.

Lemma get_of_items_In {V : Type} (k : string) (v : V) (kvs : list (string * V)) :
  PyDict.get k (PyDict.of_items kvs) = Some v -> In (k, v) kvs.
Proof.
  unfold PyDict.of_items. intros H. apply get_update_In in H.
  destruct H as [H|H]; auto. discriminate.
Qed.

Lemma id3_to_vorbis_map_In (cfg : config) (i name : string) :
  PyDict.get i (id3_to_vorbis_map cfg) = Some name ->
  In (name, i) (vorbis_to_id3_map cfg).
Proof.
  unfold id3_to_vorbis_map. intros H. apply get_of_items_In in H.
  apply in_map_iff in H. destruct H as [[n j] [E H]]. simpl in E.
  inversion E; subst. exact H.
Qed.

Lemma id3_to_vorbis_map_mem (cfg : config) (i name : string) :
  In (name, i) (vorbis_to_id3_map cfg) ->
  PyDict.mem i (id3_to_vorbis_map cfg) = true.
Proof.
  intros H. apply mem_In_keys. unfold id3_to_vorbis_map.
  apply In_keys_of_items. rewrite map_map. simpl.
  apply in_map_iff. exists (name, i). auto.
Qed.

Lemma mapping_ok_In (cfg : config) (name i : string) :
  mapping_ok cfg = true -> In (name, i) (vorbis_to_id3_map cfg) ->
  mapping_entry_ok cfg (name, i) = true.
Proof.
  unfold mapping_ok. intros H Hin. apply andb_prop in H. destruct H as [_ H].
  rewrite forallb_forall in H. now apply H.
Qed.

(** The reverse table sends TRCK and TPOS, and nothing else, to the number
    fields. *)
Lemma id3_to_vorbis_map_number (cfg : config) :
  mapping_ok cfg = true ->
  PyDict.get "TRCK" (id3_to_vorbis_map cfg) = Some "tracknumber" /\
  PyDict.get "TPOS" (id3_to_vorbis_map cfg) = Some "discnumber" /\
  (forall i, PyDict.get i (id3_to_vorbis_map cfg) = Some "tracknumber" -> i = "TRCK") /\
  (forall i, PyDict.get i (id3_to_vorbis_map cfg) = Some "discnumber" -> i = "TPOS").
Proof.
  intros Hok. destruct (mapping_ok_number cfg Hok) as (Htn & Hdn & _).
  assert (A : forall name i, In (name, i) (vorbis_to_id3_map cfg) ->
                (name = "tracknumber" <-> i = "TRCK") /\
                (name = "discnumber" <-> i = "TPOS")).
  { intros name i Hin. pose proof (mapping_ok_In cfg name i Hok Hin) as He.
    apply mapping_entry_ok_spec in He. tauto. }
  assert (B : forall name i, PyDict.get name (vorbis_to_id3_map cfg) = Some i ->
                exists name', PyDict.get i (id3_to_vorbis_map cfg) = Some name').
  { intros name i Hg. apply get_Some_In in Hg.
    apply id3_to_vorbis_map_mem in Hg. unfold PyDict.mem in Hg.
    destruct (PyDict.get i (id3_to_vorbis_map cfg)); [eauto|discriminate]. }
  repeat split.
  - destruct (B _ _ Htn) as [n Hn]. rewrite Hn. f_equal.
    apply id3_to_vorbis_map_In in Hn. now apply (A n "TRCK").
  - destruct (B _ _ Hdn) as [n Hn]. rewrite Hn. f_equal.
    apply id3_to_vorbis_map_In in Hn. now apply (A n "TPOS").
  - intros i Hi. apply id3_to_vorbis_map_In in Hi. now apply (A "tracknumber" i).
  - intros i Hi. apply id3_to_vorbis_map_In in Hi. now apply (A "discnumber" i).
Qed.
(** ** The frames of a container made from a field dict *)

Lemma Forall_set {V : Type} (P : string * V -> Prop) (k : string) (v : V)
  (d : PyDict.t V) :
  Forall P d -> P (k, v) -> Forall P (PyDict.set k v d).
Proof.
  intros Hd Hk. induction d as [|[k' v'] d IH]; simpl.
  - constructor; auto.
  - inversion Hd; subst. destruct (String.eqb_spec k k').
    + subst. constructor; auto.
    + constructor; auto.
Qed.

Lemma Forall_remove {V : Type} (P : string * V -> Prop) (k : string)
  (d : PyDict.t V) :
  Forall P d -> Forall P (PyDict.remove k d).
Proof.
  intros Hd. induction d as [|[k' v'] d IH]; simpl; auto.
  inversion Hd; subst. destruct (String.eqb k k'); auto.
Qed.

Lemma Forall_delall (P : string * frame -> Prop) (k : string) (tags : ID3) :
  Forall P tags -> Forall P (delall k tags).
Proof.
  intros H. unfold delall. destruct (PyDict.mem k tags).
  - now apply Forall_remove.
  - apply Forall_forall. intros x Hx. apply filter_In in Hx.
    rewrite Forall_forall in H. now apply H.
Qed.

Lemma get_id3_frame_inv (cfg : config) (name : string) (v : list string)
  (f : frame) :
  mapping_ok cfg = true -> get_id3_frame cfg name v = Ok f ->
  frame_inv cfg (HashKey f, f).
Proof.
  intros Hok Hf.
  destruct (get_id3_frame_ok cfg name v Hok)
    as (f' & Hf' & Htx & A & B & _ & _ & E & F & _).
  rewrite Hf in Hf'. inversion Hf'; subst f'. clear Hf'.
  unfold get_id3_frame in Hf.
  destruct (PyDict.get name (vorbis_to_id3_map cfg)) as [i|] eqn:Hm.
  - destruct (@get_id3_frame_mapped cfg name i v Hok Hm)
      as (c & f' & Hc & Hcl & Hg & Hnew & Hid & _).
    unfold get_id3_frame in Hg. rewrite Hm in Hg. rewrite Hg in Hf.
    inversion Hf; subst f'. clear Hf.
    pose proof (mapping_ok_entry cfg name Hok Hm) as He.
    apply mapping_entry_ok_spec in He. destruct He as (E1 & E2 & _).
    unfold frame_inv. cbn [fst snd]. rewrite Hid. repeat split.
    + left. split.
      * apply get_Some_In in Hm. eapply id3_to_vorbis_map_mem; eauto.
      * destruct Htx as [v' Htx]. congruence.
    + intros ->. apply A. now apply E1.
    + intros ->. apply B. now apply E2.
  - inversion Hf; subst f. clear Hf.
    unfold frame_inv. cbn [fst snd TXXX FrameID text desc]. repeat split.
    + destruct (PyDict.mem "TXXX" (id3_to_vorbis_map cfg)) eqn:Hx.
      * left. split; auto. discriminate.
      * destruct (str_in "TXXX" (id3_frames_to_ignore cfg)) eqn:Hi.
        -- right. left. auto.
        -- right. right. split; auto. split; [discriminate|]. eauto.
    + discriminate.
    + discriminate.
Qed.

Lemma add_frames_inv (cfg : config) (td : tag_dict) :
  mapping_ok cfg = true ->
  forall tags tags1,
    Forall (frame_inv cfg) tags ->
    add_frames cfg td tags = Ok tags1 ->
    Forall (frame_inv cfg) tags1.
Proof.
  intros Hok. unfold add_frames.
  induction td as [|[n v] td IH]; intros tags tags1 Hinv; simpl.
  - intros H. inversion H; subst. auto.
  - destruct (get_id3_frame cfg n v) as [f|] eqn:Hf; simpl; [|discriminate].
    apply IH. unfold add. apply Forall_set; auto.
    eapply get_id3_frame_inv; eauto.
Qed.

Lemma merge_total_inv (cfg : config) (total_key number_key : string)
  (mk : list string -> frame) (tags tags2 : ID3) :
  (forall v, frame_inv cfg (HashKey (mk v), mk v)) ->
  Forall (frame_inv cfg) tags ->
  merge_total total_key number_key mk tags = Ok tags2 ->
  Forall (frame_inv cfg) tags2.
Proof.
  intros Hmk Hinv. unfold merge_total.
  destruct (PyDict.mem total_key tags && PyDict.mem number_key tags).
  - destruct (PyDict.getitem number_key tags); simpl; [|discriminate].
    destruct (text0 a); simpl; [|discriminate].
    destruct (PyDict.getitem total_key tags); simpl; [|discriminate].
    destruct (text0 a1); simpl; [|discriminate].
    intros H. inversion H; subst.
    apply Forall_delall. unfold add. apply Forall_set; auto.
  - intros H. inversion H; subst. auto.
Qed.

Lemma number_frame_inv (cfg : config) :
  mapping_ok cfg = true ->
  (forall v, frame_inv cfg (HashKey (TRCK v), TRCK v)) /\
  (forall v, frame_inv cfg (HashKey (TPOS v), TPOS v)).
Proof.
  intros Hok. destruct (id3_to_vorbis_map_number cfg Hok) as (A & B & _).
  split; intros v; unfold frame_inv; cbn; repeat split; auto; try discriminate;
    left; unfold PyDict.mem; rewrite ?A, ?B; split; auto; discriminate.
Qed.

Lemma copy_tag_dict_to_mp3_inv (cfg : config) (tags saved : ID3) (td : tag_dict) :
  mapping_ok cfg = true ->
  Forall (frame_inv cfg) tags ->
  copy_tag_dict_to_mp3 cfg tags td = Ok saved ->
  Forall (frame_inv cfg) saved.
Proof.
  intros Hok Hinv. unfold copy_tag_dict_to_mp3.
  destruct (add_frames cfg td tags) as [tags1|] eqn:H1; simpl; [|discriminate].
  pose proof (@add_frames_inv cfg td Hok tags tags1 Hinv H1) as Hinv1.
  destruct (number_frame_inv cfg Hok) as [Ft Fd].
  destruct (merge_total "TXXX:tracktotal" "TRCK" TRCK tags1) as [tags2|] eqn:H2;
    simpl; [|discriminate].
  pose proof (@merge_total_inv cfg _ _ _ tags1 tags2 Ft Hinv1 H2) as Hinv2.
  destruct (merge_total "TXXX:disctotal" "TPOS" TPOS tags2) as [tags3|] eqn:H3;
    simpl; [|discriminate].
  pose proof (@merge_total_inv cfg _ _ _ tags2 tags3 Fd Hinv2 H3) as Hinv3.
  intros H. inversion H; subst. auto.
Qed.
(** ** The loop of [id3_tags_as_dict] on such a container *)

Section BackLoop.
Variable cfg : config.
Variable id3_tags : ID3.
(** A number field [K] and the id [idK] of its frame. *)
Variables K idK : string.
Hypothesis HK1 : PyDict.get idK (id3_to_vorbis_map cfg) = Some K.
Hypothesis HK2 : forall i, PyDict.get i (id3_to_vorbis_map cfg) = Some K -> i = idK.
Hypothesis HK3 : PyDict.get K (vorbis_to_id3_map cfg) <> None.
Hypothesis Hc : forall kv, frame_inv cfg kv -> FrameID (snd kv) = idK -> fst kv = idK.

Lemma step_other (t : string) (f : frame) (d : tag_dict) (out : list warning) :
  PyDict.get t id3_tags = Some f -> frame_inv cfg (t, f) -> t <> idK ->
  exists d' out',
    id3_tags_as_dict_step cfg id3_tags t (d, out) = Ok (d', out') /\
    PyDict.get K d' = PyDict.get K d.
Proof.
  intros Ht Hinv Hne.
  assert (Hid : FrameID f <> idK).
  { intros E. apply Hne. now apply (@Hc (t, f)). }
  unfold id3_tags_as_dict_step, PyDict.getitem. rewrite Ht. cbn [bind].
  destruct Hinv as [[[Hm Htx]|[[Hm Hi]|(Hm & Htx & name & Hd & Hn)]] _];
    cbn [fst snd] in *; unfold PyDict.mem in Hm.
  - destruct (PyDict.get (FrameID f) (id3_to_vorbis_map cfg)) as [key|] eqn:Hr;
      [|discriminate].
    destruct (text f) as [val|]; [|congruence].
    eexists _, _. split; [reflexivity|].
    apply get_set_other. intros ->. apply Hid. now apply HK2.
  - destruct (PyDict.get (FrameID f) (id3_to_vorbis_map cfg)); [discriminate|].
    rewrite Hi. eauto.
  - destruct (PyDict.get (FrameID f) (id3_to_vorbis_map cfg)); [discriminate|].
    destruct (str_in (FrameID f) (id3_frames_to_ignore cfg)); [eauto|].
    rewrite Hd. destruct (text f) as [val|]; [|congruence].
    eexists _, _. split; [reflexivity|].
    apply get_set_other. intros ->. contradiction.
Qed.

Lemma step_number (f : frame) (v : list string) (d : tag_dict)
  (out : list warning) :
  PyDict.get idK id3_tags = Some f -> FrameID f = idK -> text f = Some v ->
  id3_tags_as_dict_step cfg id3_tags idK (d, out) = Ok (PyDict.set K v d, out).
Proof.
  intros Ht Hid Htx. unfold id3_tags_as_dict_step, PyDict.getitem.
  rewrite Ht. cbn [bind]. rewrite Hid, HK1, Htx. reflexivity.
Qed.

Lemma back_loop (v0 : list string) (ts : list string) :
  NoDup ts ->
  (forall t, In t ts ->
             exists f, PyDict.get t id3_tags = Some f /\ frame_inv cfg (t, f)) ->
  (In idK ts ->
   exists f0, PyDict.get idK id3_tags = Some f0 /\ FrameID f0 = idK /\
              text f0 = Some v0) ->
  forall d out,
  exists d' out',
    for_each (id3_tags_as_dict_step cfg id3_tags) ts (d, out) = Ok (d', out') /\
    PyDict.get K d' = if str_in idK ts then Some v0 else PyDict.get K d.
Proof.
  induction ts as [|t ts IH]; intros Hnd Hall Hk d out.
  - simpl. eauto.
  - inversion Hnd as [|? ? Hnt Hnd']; subst.
    cbn [for_each].
    change (str_in idK (t :: ts)) with (String.eqb idK t || str_in idK ts).
    destruct (String.eqb_spec idK t) as [<-|Hne].
    + destruct Hk as (f0 & H0 & Hid & Htx); [now left|].
      rewrite (step_number d out H0 Hid Htx). cbn [bind orb].
      destruct (IH Hnd') with (d := PyDict.set K v0 d) (out := out)
        as (d' & out' & H1 & H2).
      { intros t Ht. apply Hall. now right. }
      { intros Hin. contradiction. }
      exists d', out'. split; auto. rewrite H2.
      assert (Hf : str_in idK ts = false).
      { destruct (str_in idK ts) eqn:E; auto. apply str_in_In in E.
        contradiction. }
      rewrite Hf. apply get_set_same.
    + destruct (Hall t) as (f & Ht & Hinv); [now left|].
      destruct (step_other d out Ht Hinv) as (d1 & out1 & H1 & H2); [congruence|].
      rewrite H1. cbn [bind orb].
      destruct (IH Hnd') with (d := d1) (out := out1) as (d' & out' & H3 & H4).
      { intros t' Ht'. apply Hall. now right. }
      { intros Hin. apply Hk. now right. }
      exists d', out'. split; auto. rewrite H4.
      now rewrite H2.
Qed.
End BackLoop.

(** ** The dict branch of [xx_total_correct] *)

Lemma contains_char_count (c : ascii) (s : string) :
  contains_char c s = false <-> count_char c s = 0.
Proof.
  induction s as [|a s IH]; simpl; [tauto|].
  destruct (Ascii.eqb a c); simpl; [split; discriminate|exact IH].
Qed.

Lemma count_char_append (c : ascii) (a b : string) :
  count_char c (a ++ b) = count_char c a + count_char c b.
Proof. induction a as [|x a IH]; simpl; auto. rewrite IH. lia. Qed.

Lemma split_on_no_sep (c : ascii) (s : string) :
  contains_char c s = false -> split_on c s = [s].
Proof.
  induction s as [|a s IH]; simpl; auto.
  destruct (Ascii.eqb a c); simpl; [discriminate|].
  intros H. now rewrite IH.
Qed.

Lemma split_on_append_sep (c : ascii) (a b : string) :
  contains_char c a = false ->
  split_on c (a ++ String c b) = a :: split_on c b.
Proof.
  induction a as [|x a IH]; simpl.
  - now rewrite Ascii.eqb_refl.
  - destruct (Ascii.eqb x c); simpl; [discriminate|].
    intros H. now rewrite IH.
Qed.

Lemma split_on_number_total (N M : string) :
  contains_char sep N = false -> contains_char sep M = false ->
  split_on sep (N ++ "/" ++ M) = [N; M].
Proof.
  intros HN HM. change ("/" ++ M)%string with (String sep M).
  now rewrite split_on_append_sep, split_on_no_sep.
Qed.

(** One block on a dict whose number field is absent or has a first
    value with at most one separator. *)
Lemma split_total_ok (number_key total_key : string) (d : tag_dict) :
  number_key <> total_key ->
  (PyDict.get number_key d = None \/
   exists v vs, PyDict.get number_key d = Some (v :: vs) /\ count_char sep v <= 1) ->
  exists d1,
    split_total number_key total_key d = Ok d1 /\
    (forall k, k <> number_key -> k <> total_key ->
               PyDict.get k d1 = PyDict.get k d) /\
    (forall N M vs,
        PyDict.get number_key d = Some ((N ++ "/" ++ M)%string :: vs) ->
        contains_char sep N = false -> contains_char sep M = false ->
        PyDict.get number_key d1 = Some [N] /\ PyDict.get total_key d1 = Some [M]).
Proof.
  intros Hne H. unfold split_total.
  destruct H as [H|(v & vs & H & Hc)]; rewrite H.
  - exists d. repeat split; auto; discriminate.
  - destruct (contains_char sep v) eqn:Hs.
    + pose proof (split_on_length sep v) as Hl.
      assert (Hc1 : count_char sep v = 1).
      { destruct (count_char sep v) as [|[|n]] eqn:E; try lia.
        apply contains_char_count in E. congruence. }
      rewrite Hc1 in Hl.
      destruct (split_on sep v) as [|a [|b [|c l]]] eqn:Esp; try discriminate.
      eexists. split; [reflexivity|]. split.
      * intros k K1 K2. rewrite !get_set_other; auto.
      * intros N M vs' E HN HM. inversion E; subst.
        pose proof (split_on_number_total N M HN HM) as X. simpl in X.
        rewrite X in Esp. inversion Esp; subst.
        rewrite get_set_other, !get_set_same; auto.
    + exists d. split; auto. split; auto.
      intros N M vs' E HN HM. inversion E; subst.
      apply contains_char_count in Hs. rewrite count_char_append in Hs.
      simpl in Hs. lia.
Qed.
(** ** The way to frames and back *)

Lemma only_ignored_spec (cfg : config) (tags : ID3) :
  mapping_ok cfg = true -> only_ignored cfg tags = true ->
  NoDup (PyDict.keys tags) /\ Forall (frame_inv cfg) tags /\
  container_ok tags = true /\
  (forall k, In k number_total_keys -> PyDict.get k tags = None).
Proof.
  intros Hok H. unfold only_ignored in H. apply andb_prop in H.
  destruct H as [Hnd Hall]. rewrite forallb_forall in Hall.
  destruct (id3_to_vorbis_map_number cfg Hok) as (A & B & _).
  assert (Hk : forall k f, In (k, f) tags ->
                 str_in (FrameID f) (id3_frames_to_ignore cfg) = true /\
                 PyDict.mem (FrameID f) (id3_to_vorbis_map cfg) = false /\
                 str_in k number_total_keys = false).
  { intros k f Hin. apply Hall in Hin. cbn [fst snd] in Hin.
    repeat (apply andb_prop in Hin; destruct Hin as [Hin ?]).
    repeat split; auto.
    - now destruct (PyDict.mem (FrameID f) (id3_to_vorbis_map cfg)).
    - now destruct (str_in k number_total_keys). }
  repeat split.
  - now apply nodupb_NoDup.
  - apply Forall_forall. intros [k f] Hin. destruct (Hk k f Hin) as (H1 & H2 & H3).
    unfold frame_inv. cbn [fst snd]. repeat split; auto.
    + intros E. rewrite E in H2. unfold PyDict.mem in H2. rewrite A in H2.
      discriminate.
    + intros E. rewrite E in H2. unfold PyDict.mem in H2. rewrite B in H2.
      discriminate.
  - unfold container_ok. rewrite Hnd. cbn [andb]. apply forallb_forall.
    intros [k f] Hin. destruct (Hk k f Hin) as (_ & _ & H3).
    cbn [fst snd]. now rewrite H3.
  - intros k Hin. destruct (PyDict.get k tags) as [f|] eqn:E; auto.
    apply get_Some_In in E. destruct (Hk k f E) as (_ & _ & H3).
    apply str_in_In in Hin. congruence.
Qed.

(** The number frame that is saved, for one pair of fields, when the
    container had no number and no total frame. *)
Lemma saved_number_frame (total_key number_key : string)
  (mk : list string -> frame) (total_field number_field : string)
  (mkt : list string -> frame) (td : tag_dict) (tags tags1 saved : ID3) :
  (forall k v, k = number_field \/ k = total_field ->
               PyDict.get k td = Some v -> exists x xs, v = x :: xs) ->
  (forall x xs, text0 (mk (x :: xs)) = Ok x) ->
  (forall x xs, text0 (mkt (x :: xs)) = Ok x) ->
  PyDict.get number_key tags = None -> PyDict.get total_key tags = None ->
  PyDict.get number_key tags1 =
    match PyDict.get number_field td with
    | Some v => Some (mk v)
    | None => PyDict.get number_key tags
    end ->
  PyDict.get total_key tags1 =
    match PyDict.get total_field td with
    | Some v => Some (mkt v)
    | None => PyDict.get total_key tags
    end ->
  merged total_key number_key mk tags1 saved ->
  PyDict.get number_key saved =
  match PyDict.get number_field td, PyDict.get total_field td with
  | Some (n :: _), Some (m :: _) => Some (mk [(n ++ "/" ++ m)%string])
  | Some v, _ => Some (mk v)
  | None, _ => None
  end.
Proof.
  intros Hne Hmk Hmkt Hn0 Ht0 Hn1 Ht1 Hm. unfold merged in Hm.
  rewrite Hn1, Ht1 in Hm.
  destruct (PyDict.get number_field td) as [v|] eqn:En.
  - destruct (Hne _ _ (or_introl eq_refl) En) as (n & ns & ->).
    destruct (PyDict.get total_field td) as [w|] eqn:Et.
    + destruct (Hne _ _ (or_intror eq_refl) Et) as (m & ms & ->).
      destruct Hm as (N & M & HN & HM & A & _).
      rewrite Hmk in HN. rewrite Hmkt in HM. inversion HN; inversion HM; subst.
      exact A.
    + rewrite Ht0 in Hm. destruct Hm as [A _]. rewrite A. congruence.
  - rewrite Hn0 in Hm. destruct Hm as [A _]. rewrite A. congruence.
Qed.

Lemma copy_tag_dict_to_mp3_spec (cfg : config) (tags : ID3) (td : tag_dict) :
  mapping_ok cfg = true -> container_ok tags = true -> numbers_ok td = true ->
  exists tags1 saved,
    add_frames cfg td tags = Ok tags1 /\
    copy_tag_dict_to_mp3 cfg tags td = Ok saved /\
    NoDup (PyDict.keys saved) /\
    (forall hk name mk,
        In (hk, name, mk)
          [("TRCK", "tracknumber", TRCK); ("TPOS", "discnumber", TPOS);
           ("TXXX:tracktotal", "tracktotal", TXXX "tracktotal");
           ("TXXX:disctotal", "disctotal", TXXX "disctotal")] ->
        PyDict.get hk tags1 =
        match PyDict.get name td with
        | Some v => Some (mk v)
        | None => PyDict.get hk tags
        end) /\
    merged "TXXX:tracktotal" "TRCK" TRCK tags1 saved /\
    merged "TXXX:disctotal" "TPOS" TPOS tags1 saved.
Proof.
  intros Hok Hc Hf.
  destruct (numbers_ok_spec td Hf) as [Hnd _].
  destruct (container_ok_spec tags Hc) as [Hnt _].
  destruct (@add_frames_spec cfg td tags Hok Hnd Hnt) as (tags1 & H1 & Hnd1 & Hl).
  pose proof (@add_frames_texts_ok cfg td tags tags1 Hok Hf Hc H1) as Htx1.
  destruct (@xx_total_correct_ID3_spec tags1 Hnd1 Htx1)
    as (saved & H3 & Hnd3 & Mt & Md & _).
  exists tags1, saved. unfold copy_tag_dict_to_mp3. rewrite H1. cbn [bind].
  rewrite H3. cbn [bind as_ID3]. repeat split; auto.
Qed.

Lemma back_number (cfg : config) (saved : ID3) (K idK : string)
  (x : option (list string)) (mk : list string -> frame) :
  PyDict.get idK (id3_to_vorbis_map cfg) = Some K ->
  (forall i, PyDict.get i (id3_to_vorbis_map cfg) = Some K -> i = idK) ->
  PyDict.get K (vorbis_to_id3_map cfg) <> None ->
  (forall kv, frame_inv cfg kv -> FrameID (snd kv) = idK -> fst kv = idK) ->
  (forall v, FrameID (mk v) = idK /\ text (mk v) = Some v) ->
  NoDup (PyDict.keys saved) -> Forall (frame_inv cfg) saved ->
  PyDict.get idK saved = option_map mk x ->
  exists d out,
    for_each (id3_tags_as_dict_step cfg saved) (PyDict.keys saved)
      (PyDict.empty, []) = Ok (d, out) /\
    PyDict.get K d = x.
Proof.
  intros HK1 HK2 HK3 Hc Hmk Hnd Hinv Hx.
  destruct (@back_loop cfg saved K idK HK1 HK2 HK3 Hc
              (match x with Some v => v | None => [] end)
              (PyDict.keys saved) Hnd) with (d := @PyDict.empty (list string))
                                            (out := @nil warning)
    as (d & out & H1 & H2).
  - intros t Ht. apply get_In_keys in Ht.
    destruct (PyDict.get t saved) as [f|] eqn:E; [|congruence].
    exists f. split; auto. rewrite Forall_forall in Hinv. apply Hinv.
    now apply get_Some_In.
  - intros Hin. apply get_In_keys in Hin. rewrite Hx in *.
    destruct x as [v|]; simpl in *; [|congruence].
    exists (mk v). destruct (Hmk v). auto.
  - exists d, out. split; auto. rewrite H2.
    destruct (str_in idK (PyDict.keys saved)) eqn:E.
    + apply str_in_In, get_In_keys in E. rewrite Hx in E.
      destruct x; simpl in *; congruence.
    + assert (N : ~ In idK (PyDict.keys saved)).
      { intros Hin. apply str_in_In in Hin. congruence. }
      apply get_None_keys in N. rewrite Hx in N.
      destruct x; simpl in *; congruence.
Qed.

(** What the dict under construction holds for a number field, and that
    it can be split. *)
Lemma number_total_ok_split (td d : tag_dict) (number_field total_field K : string) :
  number_total_ok td number_field total_field = true ->
  PyDict.get K d =
    match PyDict.get number_field td, PyDict.get total_field td with
    | Some (n :: _), Some (m :: _) => Some [(n ++ "/" ++ m)%string]
    | Some v, _ => Some v
    | None, _ => None
    end ->
  (PyDict.get K d = None \/
   exists v vs, PyDict.get K d = Some (v :: vs) /\ count_char sep v <= 1) /\
  (forall N M,
      PyDict.get number_field td = Some [N] ->
      PyDict.get total_field td = Some [M] ->
      PyDict.get K d = Some [(N ++ "/" ++ M)%string] /\
      contains_char sep N = false /\ contains_char sep M = false).
Proof.
  unfold number_total_ok. intros Hok Hd.
  destruct (PyDict.get number_field td) as [[|n ns]|];
    destruct (PyDict.get total_field td) as [[|m ms]|];
    try discriminate.
  - apply andb_prop in Hok. destruct Hok as [Hn Hm].
    apply negb_true_iff in Hn. apply negb_true_iff in Hm. split.
    + right. exists (n ++ "/" ++ m)%string, []. split; auto.
      rewrite !count_char_append. apply contains_char_count in Hn, Hm.
      rewrite Hn, Hm. simpl. lia.
    + intros N M E1 E2. inversion E1; inversion E2; subst. auto.
  - split.
    + right. exists n, ns. split; auto. now apply Nat.leb_le.
    + intros N M _ E2. discriminate.
  - split; auto. intros N M E1. discriminate.
  - split; auto. intros N M E1. discriminate.
  - split; auto. intros N M E1. discriminate.
Qed.




(** ** The scanner *)

Lemma entry_ind2 (P : entry -> Prop) :
  (forall n children, Forall P children -> P (EDir n children)) ->
  (forall n m, P (EFile n m)) ->
  (forall n, P (EOther n)) ->
  forall e, P e.
Proof.
  intros Hd Hf Ho. fix IH 1. intros [n children|n m|n].
  - apply Hd. revert children. fix IHc 1. intros [|c children].
    + constructor.
    + constructor; [apply IH | apply IHc].
  - apply Hf.
  - apply Ho.
Qed.

Lemma entries_ind (P : list entry -> Prop) :
  P [] ->
  (forall n children es, P children -> P es -> P (EDir n children :: es)) ->
  (forall n m es, P es -> P (EFile n m :: es)) ->
  (forall n es, P es -> P (EOther n :: es)) ->
  forall es, P es.
Proof.
  intros Hnil Hd Hf Ho es.
  assert (H : Forall (fun e => match e with
                               | EDir _ children => P children
                               | _ => True
                               end) es /\ P es).
  { induction es as [|e es [IH1 IH2]].
    - split; auto.
    - assert (He : match e with EDir _ children => P children | _ => True end).
      { clear IH1 IH2. induction e as [n children IHc| |] using entry_ind2; auto.
        induction children as [|c children IHl]; auto.
        inversion IHc; subst. specialize (IHl H2).
        destruct c as [n' ch'|n' m'|n']; auto. }
      split; [constructor; auto|].
      destruct e; auto. }
  tauto.
Qed.

Lemma scan_entry_dir (cfg : config) (level : nat) (n : string)
  (children : list entry) (acc : scan) :
  scan_entry cfg level (EDir n children) acc =
  if str_in n (dirs_to_ignore cfg) then acc
  else
    let sub := get_files_dirs cfg children (S level) in
    Scan (PyDict.update (music_files acc) (join_keys n (music_files sub)))
         (PyDict.update (rest_files acc) (join_keys n (rest_files sub)))
         (PyDict.update (PyDict.set n level (dir_dict acc))
            (join_keys n (dir_dict sub))).
Proof. reflexivity. Qed.

Lemma get_files_dirs_cons (cfg : config) (level : nat) (e : entry)
  (es : list entry) (acc : scan) :
  fold_left (fun a e => scan_entry cfg level e a) (e :: es) acc =
  fold_left (fun a e => scan_entry cfg level e a) es (scan_entry cfg level e acc).
Proof. reflexivity. Qed.

Lemma In_keys_join_keys {V : Type} (n k : string) (sub : PyDict.t V) :
  In k (PyDict.keys (join_keys n sub)) <->
  exists k', In k' (PyDict.keys sub) /\ k = join n k'.
Proof.
  unfold join_keys. rewrite In_keys_of_items, map_map. simpl.
  unfold PyDict.keys. rewrite !in_map_iff. split.
  - intros [[k' v] [E H]]. simpl in E. exists k'. split; auto.
    apply in_map_iff. now exists (k', v).
  - intros [k' [H E]]. apply in_map_iff in H. destruct H as [[k0 v] [E0 H]].
    simpl in E0. exists (k0, v). split; auto. simpl. congruence.
Qed.

Lemma scan_entry_dir_keys (cfg : config) (level : nat) (e : entry) (acc : scan)
  (k : string) :
  In k (PyDict.keys (dir_dict (scan_entry cfg level e acc))) <->
  In k (PyDict.keys (dir_dict acc)) \/ dir_key_from cfg level e k.
Proof.
  destruct e as [n children|n m|n].
  - rewrite scan_entry_dir. unfold dir_key_from.
    destruct (str_in n (dirs_to_ignore cfg)).
    + split; auto. intros [H|[H _]]; [auto|discriminate].
    + cbn [dir_dict]. rewrite In_keys_update, In_keys_set, In_keys_join_keys.
      intuition.
  - unfold dir_key_from. cbn [scan_entry].
    destruct (splitext n) as [no_ext e_ext].
    destruct (str_in (lower e_ext) [".flac"; ".mp3"]); cbn [dir_dict]; tauto.
  - simpl. tauto.
Qed.

Lemma scan_entry_music_keys (cfg : config) (level : nat) (e : entry) (acc : scan)
  (k : string) :
  In k (PyDict.keys (music_files (scan_entry cfg level e acc))) <->
  In k (PyDict.keys (music_files acc)) \/ music_key_from cfg level e k.
Proof.
  destruct e as [n children|n m|n].
  - rewrite scan_entry_dir. unfold music_key_from.
    destruct (str_in n (dirs_to_ignore cfg)).
    + split; auto. intros [H|[H _]]; [auto|discriminate].
    + cbn [music_files]. rewrite In_keys_update, In_keys_join_keys.
      intuition.
  - unfold music_key_from. cbn [scan_entry].
    destruct (splitext n) as [no_ext e_ext]. cbn [fst snd].
    destruct (str_in (lower e_ext) [".flac"; ".mp3"]); cbn [music_files].
    + rewrite In_keys_set. intuition.
    + intuition. discriminate.
  - simpl. tauto.
Qed.

Lemma scan_entry_rest_keys (cfg : config) (level : nat) (e : entry) (acc : scan)
  (k : string) :
  In k (PyDict.keys (rest_files (scan_entry cfg level e acc))) <->
  In k (PyDict.keys (rest_files acc)) \/ rest_key_from cfg level e k.
Proof.
  destruct e as [n children|n m|n].
  - rewrite scan_entry_dir. unfold rest_key_from.
    destruct (str_in n (dirs_to_ignore cfg)).
    + split; auto. intros [H|[H _]]; [auto|discriminate].
    + cbn [rest_files]. rewrite In_keys_update, In_keys_join_keys.
      intuition.
  - unfold rest_key_from. cbn [scan_entry].
    destruct (splitext n) as [no_ext e_ext]. cbn [fst snd].
    destruct (str_in (lower e_ext) [".flac"; ".mp3"]); cbn [rest_files].
    + intuition. discriminate.
    + rewrite In_keys_set. intuition.
  - simpl. tauto.
Qed.

Section ScanKeys.
Variable cfg : config.
Variable level : nat.
(** One of the three maps, with the keys an entry adds to it. *)
Variable V : Type.
Variable proj : scan -> PyDict.t V.
Variable key_from : entry -> string -> Prop.
Hypothesis Hstep : forall e acc k,
    In k (PyDict.keys (proj (scan_entry cfg level e acc))) <->
    In k (PyDict.keys (proj acc)) \/ key_from e k.

Lemma fold_scan_keys (es : list entry) (acc : scan) (k : string) :
  In k (PyDict.keys (proj (fold_left (fun a e => scan_entry cfg level e a) es acc)))
  <-> In k (PyDict.keys (proj acc)) \/ exists e, In e es /\ key_from e k.
Proof.
  revert acc. induction es as [|e es IH]; intros acc.
  - simpl. split; auto. intros [H|[e [[] _]]]. auto.
  - rewrite get_files_dirs_cons, IH, Hstep. simpl. split.
    + intros [[H|H]|[e' [H1 H2]]]; eauto.
    + intros [H|[e' [[<-|H1] H2]]]; eauto.
Qed.
End ScanKeys.

Lemma get_files_dirs_dir_keys (cfg : config) (es : list entry) (level : nat)
  (k : string) :
  In k (PyDict.keys (dir_dict (get_files_dirs cfg es level))) <->
  exists e, In e es /\ dir_key_from cfg level e k.
Proof.
  unfold get_files_dirs.
  rewrite (@fold_scan_keys cfg level _ dir_dict (dir_key_from cfg level)
             (scan_entry_dir_keys cfg level)).
  simpl. tauto.
Qed.

Lemma get_files_dirs_music_keys (cfg : config) (es : list entry) (level : nat)
  (k : string) :
  In k (PyDict.keys (music_files (get_files_dirs cfg es level))) <->
  exists e, In e es /\ music_key_from cfg level e k.
Proof.
  unfold get_files_dirs.
  rewrite (@fold_scan_keys cfg level _ music_files (music_key_from cfg level)
             (scan_entry_music_keys cfg level)).
  simpl. tauto.
Qed.

Lemma get_files_dirs_rest_keys (cfg : config) (es : list entry) (level : nat)
  (k : string) :
  In k (PyDict.keys (rest_files (get_files_dirs cfg es level))) <->
  exists e, In e es /\ rest_key_from cfg level e k.
Proof.
  unfold get_files_dirs.
  rewrite (@fold_scan_keys cfg level _ rest_files (rest_key_from cfg level)
             (scan_entry_rest_keys cfg level)).
  simpl. tauto.
Qed.

(** ** Paths as strings *)

Lemma name_ok_spec (n : string) :
  name_ok n = true -> n <> "" /\ contains_char sep n = false.
Proof.
  unfold name_ok. intros H. apply andb_prop in H. destruct H as [H1 H2].
  apply negb_true_iff in H1. apply negb_true_iff in H2. split; auto.
  intros ->. discriminate.
Qed.

Lemma contains_char_append (c : ascii) (a b : string) :
  contains_char c (a ++ b) = contains_char c a || contains_char c b.
Proof.
  induction a as [|x a IH]; simpl; auto. rewrite IH. now rewrite orb_assoc.
Qed.

Lemma no_sep_append (a b : string) :
  contains_char sep (a ++ String sep b) = true.
Proof.
  rewrite contains_char_append.
  change (contains_char sep (String sep b)) with true.
  apply orb_true_r.
Qed.

Lemma no_sep_not_beneath (n d : string) :
  contains_char sep n = false -> ~ beneath d n.
Proof.
  intros H [r E]. subst. rewrite no_sep_append in H. discriminate.
Qed.

Lemma no_sep_ends (n : string) :
  contains_char sep n = false -> ends_with_char sep n = false.
Proof.
  induction n as [|a n IH]; simpl; auto.
  intros H. apply orb_false_iff in H. destruct H as [H1 H2].
  destruct n; auto.
Qed.

Lemma no_sep_starts (n : string) :
  contains_char sep n = false -> starts_with_char sep n = false.
Proof.
  destruct n as [|a n]; simpl; auto.
  intros H. apply orb_false_iff in H. tauto.
Qed.

Lemma join_ok (n x : string) :
  name_ok n = true -> starts_with_char sep x = false ->
  join n x = (n ++ String sep x)%string.
Proof.
  intros Hn Hx. destruct (name_ok_spec n Hn) as [H1 H2]. unfold join.
  rewrite Hx, (no_sep_ends n H2).
  destruct (String.eqb_spec n ""); [contradiction|reflexivity].
Qed.

Lemma starts_append (n x : string) :
  n <> "" -> starts_with_char sep (n ++ x) = starts_with_char sep n.
Proof. destruct n; simpl; congruence. Qed.

Lemma join_starts (n x : string) :
  name_ok n = true -> starts_with_char sep x = false ->
  starts_with_char sep (join n x) = false.
Proof.
  intros Hn Hx. rewrite join_ok by auto.
  destruct (name_ok_spec n Hn) as [H1 H2].
  rewrite starts_append by auto. now apply no_sep_starts.
Qed.

(** Two ways to cut a path at a separator, the first after a name. *)
Lemma sep_split (c x d r : string) :
  contains_char sep c = false ->
  (c ++ String sep x)%string = (d ++ String sep r)%string ->
  (d = c /\ x = r) \/
  (exists d', d = (c ++ String sep d')%string /\ x = (d' ++ String sep r)%string).
Proof.
  revert d. induction c as [|a c IH]; intros d Hc E; simpl in *.
  - destruct d as [|b d]; simpl in E.
    + inversion E. auto.
    + inversion E; subst. right. exists d. auto.
  - apply orb_false_iff in Hc. destruct Hc as [Ha Hc].
    destruct d as [|b d]; simpl in E.
    + inversion E; subst. rewrite Ascii.eqb_refl in Ha. discriminate.
    + inversion E; subst. destruct (IH d Hc H1) as [[-> ->]|[d' [-> ->]]].
      * auto.
      * right. exists d'. auto.
Qed.

Lemma append_assoc (a b c : string) : ((a ++ b) ++ c = a ++ (b ++ c))%string.
Proof. induction a as [|x a IH]; simpl; auto. now rewrite IH. Qed.

Lemma ends_with_name_join (n0 p n : string) :
  ends_with_name p n -> ends_with_name (n0 ++ String sep p) n.
Proof.
  intros [->|[q ->]]; right.
  - now exists n0.
  - exists (n0 ++ String sep q)%string. rewrite append_assoc. reflexivity.
Qed.

(** A path that ends with a name, cut after a first name. *)
Lemma ends_with_name_split (n0 p' n : string) :
  contains_char sep n0 = false -> contains_char sep n = false ->
  ends_with_name (n0 ++ String sep p') n -> ends_with_name p' n.
Proof.
  intros H0 Hn [E|[q E]].
  - rewrite <- E in Hn. rewrite no_sep_append in Hn. discriminate.
  - destruct (sep_split n0 p' q n H0 E) as [[-> ->]|[d' [-> ->]]].
    + now left.
    + right. now exists d'.
Qed.

Lemma take_drop (n : nat) (s : string) : (take n s ++ drop n s)%string = s.
Proof.
  revert s. induction n as [|n IH]; intros [|a s]; simpl; auto.
  now rewrite IH.
Qed.

Lemma no_sep_take (n : nat) (s : string) :
  contains_char sep s = false -> contains_char sep (take n s) = false.
Proof.
  intros H. rewrite <- (take_drop n s), contains_char_append in H.
  apply orb_false_iff in H. tauto.
Qed.

Lemma splitext_fst (p : string) :
  fst (splitext p) = p \/ exists n, fst (splitext p) = take n p.
Proof.
  unfold splitext. destruct (rfind "." p >? rfind sep p)%Z; auto.
  match goal with |- context [if ?b then _ else _] => destruct b end; simpl; eauto.
Qed.

Lemma splitext_no_sep (p : string) :
  contains_char sep p = false -> contains_char sep (fst (splitext p)) = false.
Proof.
  intros H. destruct (splitext_fst p) as [->|[n ->]]; auto.
  now apply no_sep_take.
Qed.
(** ** The keys of the scanner as paths *)

Lemma names_ok_cons (e : entry) (es : list entry) :
  names_ok (e :: es) = true <-> entry_ok e = true /\ names_ok es = true.
Proof. unfold names_ok. simpl. apply andb_true_iff. Qed.

Lemma entry_ok_dir (n : string) (children : list entry) :
  entry_ok (EDir n children) = true <->
  name_ok n = true /\ names_ok children = true.
Proof. unfold names_ok. simpl. apply andb_true_iff. Qed.

Lemma entry_ok_name (e : entry) : entry_ok e = true -> name_ok (entry_name e) = true.
Proof. destruct e; simpl; intros H; apply andb_prop in H; tauto. Qed.

(** The three maps of a scan seen at once: [k] is a key of one of them. *)
Lemma scan_key_origin (cfg : config) (es : list entry) (level : nat) (k : string) :
  In k (PyDict.keys (dir_dict (get_files_dirs cfg es level))) \/
  In k (PyDict.keys (music_files (get_files_dirs cfg es level))) \/
  In k (PyDict.keys (rest_files (get_files_dirs cfg es level))) <->
  exists e, In e es /\
            (dir_key_from cfg level e k \/ music_key_from cfg level e k \/
             rest_key_from cfg level e k).
Proof.
  rewrite get_files_dirs_dir_keys, get_files_dirs_music_keys,
    get_files_dirs_rest_keys.
  split.
  - intros [[e [? ?]]|[[e [? ?]]|[e [? ?]]]]; eauto.
  - intros [e [Hin [H|[H|H]]]]; eauto 6.
Qed.

(** The keys that a directory entry adds: its name, or a key of its own
    scan below its name. *)
Lemma dir_entry_keys (cfg : config) (level : nat) (n : string)
  (children : list entry) (k : string) :
  dir_key_from cfg level (EDir n children) k \/
  music_key_from cfg level (EDir n children) k \/
  rest_key_from cfg level (EDir n children) k ->
  str_in n (dirs_to_ignore cfg) = false /\
  (k = n \/
   exists k',
     (In k' (PyDict.keys (dir_dict (get_files_dirs cfg children (S level)))) \/
      In k' (PyDict.keys (music_files (get_files_dirs cfg children (S level)))) \/
      In k' (PyDict.keys (rest_files (get_files_dirs cfg children (S level))))) /\
     k = join n k').
Proof.
  simpl.
  intros [[Hi [->|(k' & Hk' & ->)]]|[(Hi & k' & Hk' & ->)|(Hi & k' & Hk' & ->)]];
    split; auto; right; exists k'; auto.
Qed.

(** The keys that a file entry adds have no separator. *)
Lemma file_entry_keys (cfg : config) (level : nat) (n : string) (m : Z)
  (k : string) :
  contains_char sep n = false ->
  dir_key_from cfg level (EFile n m) k \/
  music_key_from cfg level (EFile n m) k \/
  rest_key_from cfg level (EFile n m) k ->
  contains_char sep k = false.
Proof.
  intros Hn. simpl. intros [[]|[[_ ->]|[_ ->]]]; auto.
  now apply splitext_no_sep.
Qed.

(** No key of the scanner starts with a separator. *)
Lemma scan_keys_start (cfg : config) (es : list entry) :
  names_ok es = true ->
  forall level k,
    In k (PyDict.keys (dir_dict (get_files_dirs cfg es level))) \/
    In k (PyDict.keys (music_files (get_files_dirs cfg es level))) \/
    In k (PyDict.keys (rest_files (get_files_dirs cfg es level))) ->
    starts_with_char sep k = false.
Proof.
  induction es as [|n children es IHc IHe|n m es IHe|n es IHe] using entries_ind;
    intros Hok level k H; apply scan_key_origin in H; destruct H as (e & Hin & H).
  - destruct Hin.
  - apply names_ok_cons in Hok. destruct Hok as [He Hes].
    apply entry_ok_dir in He. destruct He as [Hn Hch].
    destruct (name_ok_spec n Hn) as [Hne Hns].
    destruct Hin as [<-|Hin].
    + apply dir_entry_keys in H. destruct H as [_ [->|(k' & Hk' & ->)]].
      * now apply no_sep_starts.
      * apply join_starts; auto. eapply IHc; eauto.
    + eapply IHe; eauto. apply scan_key_origin. eauto.
  - apply names_ok_cons in Hok. destruct Hok as [He Hes].
    apply entry_ok_name in He. simpl in He.
    destruct (name_ok_spec n He) as [Hne Hns].
    destruct Hin as [<-|Hin].
    + apply no_sep_starts. eapply file_entry_keys; eauto.
    + eapply IHe; eauto. apply scan_key_origin. eauto.
  - apply names_ok_cons in Hok. destruct Hok as [He Hes].
    destruct Hin as [<-|Hin].
    + simpl in H. tauto.
    + eapply IHe; eauto. apply scan_key_origin. eauto.
Qed.

Lemma dir_keys_tail (cfg : config) (e0 : entry) (es : list entry) (level : nat)
  (d : string) :
  In d (PyDict.keys (dir_dict (get_files_dirs cfg es level))) ->
  In d (PyDict.keys (dir_dict (get_files_dirs cfg (e0 :: es) level))).
Proof.
  rewrite !get_files_dirs_dir_keys. intros (e' & Hin' & Hd).
  exists e'. split; auto. now right.
Qed.

(** A key of a scan below the path [d]: [d] is a key of the directory
    map of the scan. *)
Lemma scan_key_closure (cfg : config) (es : list entry) :
  names_ok es = true ->
  forall level k d,
    In k (PyDict.keys (dir_dict (get_files_dirs cfg es level))) \/
    In k (PyDict.keys (music_files (get_files_dirs cfg es level))) \/
    In k (PyDict.keys (rest_files (get_files_dirs cfg es level))) ->
    beneath d k ->
    In d (PyDict.keys (dir_dict (get_files_dirs cfg es level))).
Proof.
  induction es as [|n children es IHc IHe|n m es IHe|n es IHe] using entries_ind;
    intros Hok level k d H Hb; apply scan_key_origin in H;
    destruct H as (e & Hin & H).
  - destruct Hin.
  - apply names_ok_cons in Hok. destruct Hok as [He Hes].
    apply entry_ok_dir in He. destruct He as [Hn Hch].
    destruct (name_ok_spec n Hn) as [Hne Hns].
    destruct Hin as [<-|Hin].
    + apply dir_entry_keys in H. destruct H as [Hig [->|(k' & Hk' & ->)]].
      * exfalso. eapply no_sep_not_beneath; eauto.
      * assert (Hst : starts_with_char sep k' = false)
          by (apply (@scan_keys_start cfg children Hch (S level) k' Hk')).
        rewrite join_ok in Hb by auto.
        destruct Hb as [r E].
        destruct (sep_split n k' d r Hns E) as [[-> _]|[d' [-> ->]]].
        -- apply get_files_dirs_dir_keys. exists (EDir n children).
           split; [now left|]. simpl. auto.
        -- assert (Hd' : In d' (PyDict.keys
                                  (dir_dict (get_files_dirs cfg children (S level))))).
           { eapply IHc; eauto. now exists r. }
           apply get_files_dirs_dir_keys. exists (EDir n children).
           split; [now left|]. simpl. split; auto. right. exists d'. split; auto.
           rewrite join_ok; auto.
           apply (@scan_keys_start cfg children Hch (S level) d'). auto.
    + apply dir_keys_tail. eapply IHe; eauto. apply scan_key_origin. eauto.
  - apply names_ok_cons in Hok. destruct Hok as [He Hes].
    apply entry_ok_name in He. simpl in He.
    destruct (name_ok_spec n He) as [Hne Hns].
    destruct Hin as [<-|Hin].
    + exfalso. eapply no_sep_not_beneath; [|exact Hb].
      eapply file_entry_keys; eauto.
    + apply dir_keys_tail. eapply IHe; eauto. apply scan_key_origin. eauto.
  - apply names_ok_cons in Hok. destruct Hok as [He Hes].
    destruct Hin as [<-|Hin].
    + simpl in H. tauto.
    + apply dir_keys_tail. eapply IHe; eauto. apply scan_key_origin. eauto.
Qed.

(** ** Ignored directories *)

(** No key of a scan is below a path that ends with an ignored name. *)
Lemma scan_not_beneath_ignored (cfg : config) (es : list entry) :
  names_ok es = true ->
  forall level k p n,
    In k (PyDict.keys (dir_dict (get_files_dirs cfg es level))) \/
    In k (PyDict.keys (music_files (get_files_dirs cfg es level))) \/
    In k (PyDict.keys (rest_files (get_files_dirs cfg es level))) ->
    contains_char sep n = false ->
    str_in n (dirs_to_ignore cfg) = true ->
    ends_with_name p n ->
    ~ beneath p k.
Proof.
  induction es as [|n0 children es IHc IHe|n0 m es IHe|n0 es IHe] using entries_ind;
    intros Hok level k p n H Hn Hig Hend Hb; apply scan_key_origin in H;
    destruct H as (e & Hin & H).
  - destruct Hin.
  - apply names_ok_cons in Hok. destruct Hok as [He Hes].
    apply entry_ok_dir in He. destruct He as [Hn0 Hch].
    destruct (name_ok_spec n0 Hn0) as [Hne Hns].
    destruct Hin as [<-|Hin].
    + apply dir_entry_keys in H. destruct H as [Hig0 [->|(k' & Hk' & ->)]].
      * eapply no_sep_not_beneath; eauto.
      * assert (Hst : starts_with_char sep k' = false)
          by (apply (@scan_keys_start cfg children Hch (S level) k' Hk')).
        rewrite join_ok in Hb by auto.
        destruct Hb as [r E].
        destruct (sep_split n0 k' p r Hns E) as [[-> _]|[p' [-> ->]]].
        -- destruct Hend as [->|[q ->]].
           ++ congruence.
           ++ rewrite no_sep_append in Hns. discriminate.
        -- apply ends_with_name_split in Hend; auto.
           apply (IHc Hch (S level) (p' ++ String sep r)%string p' n); auto.
           now exists r.
    + apply (IHe Hes level k p n); auto. apply scan_key_origin. eauto.
  - apply names_ok_cons in Hok. destruct Hok as [He Hes].
    apply entry_ok_name in He. simpl in He.
    destruct (name_ok_spec n0 He) as [Hne Hns].
    destruct Hin as [<-|Hin].
    + eapply no_sep_not_beneath; [|exact Hb]. eapply file_entry_keys; eauto.
    + apply (IHe Hes level k p n); auto. apply scan_key_origin. eauto.
  - apply names_ok_cons in Hok. destruct Hok as [He Hes].
    destruct Hin as [<-|Hin].
    + simpl in H. tauto.
    + apply (IHe Hes level k p n); auto. apply scan_key_origin. eauto.
Qed.

(** No key of the directory map ends with an ignored name. *)
Lemma scan_dir_not_ignored (cfg : config) (es : list entry) :
  names_ok es = true ->
  forall level k n,
    In k (PyDict.keys (dir_dict (get_files_dirs cfg es level))) ->
    contains_char sep n = false ->
    str_in n (dirs_to_ignore cfg) = true ->
    ~ ends_with_name k n.
Proof.
  induction es as [|n0 children es IHc IHe|n0 m es IHe|n0 es IHe] using entries_ind;
    intros Hok level k n H Hn Hig Hend; apply get_files_dirs_dir_keys in H;
    destruct H as (e & Hin & H).
  - destruct Hin.
  - apply names_ok_cons in Hok. destruct Hok as [He Hes].
    apply entry_ok_dir in He. destruct He as [Hn0 Hch].
    destruct (name_ok_spec n0 Hn0) as [Hne Hns].
    destruct Hin as [<-|Hin].
    + simpl in H. destruct H as [Hig0 [->|(k' & Hk' & ->)]].
      * destruct Hend as [->|[q ->]].
        -- congruence.
        -- rewrite no_sep_append in Hns. discriminate.
      * assert (Hst : starts_with_char sep k' = false).
        { apply (@scan_keys_start cfg children Hch (S level) k'). auto. }
        rewrite join_ok in Hend by auto.
        apply ends_with_name_split in Hend; auto.
        apply (IHc Hch (S level) k' n); auto.
    + apply (IHe Hes level k n); auto. apply get_files_dirs_dir_keys. eauto.
  - apply names_ok_cons in Hok. destruct Hok as [He Hes].
    destruct Hin as [<-|Hin].
    + simpl in H. tauto.
    + apply (IHe Hes level k n); auto. apply get_files_dirs_dir_keys. eauto.
  - apply names_ok_cons in Hok. destruct Hok as [He Hes].
    destruct Hin as [<-|Hin].
    + simpl in H. tauto.
    + apply (IHe Hes level k n); auto. apply get_files_dirs_dir_keys. eauto.
Qed.

Lemma all_dirs_cons_dir (n0 : string) (children es : list entry) :
  all_dirs (EDir n0 children :: es) =
  (n0, n0) :: map (fun pn => (join n0 (fst pn), snd pn)) (all_dirs children)
  ++ all_dirs es.
Proof. reflexivity. Qed.

(** The path of a directory of a tree ends with the name of the
    directory. *)
Lemma all_dirs_spec (es : list entry) :
  names_ok es = true ->
  forall p n, In (p, n) (all_dirs es) ->
              ends_with_name p n /\ name_ok n = true /\
              starts_with_char sep p = false.
Proof.
  induction es as [|n0 children es IHc IHe|n0 m es IHe|n0 es IHe] using entries_ind;
    intros Hok p n Hin.
  - destruct Hin.
  - apply names_ok_cons in Hok. destruct Hok as [He Hes].
    apply entry_ok_dir in He. destruct He as [Hn0 Hch].
    destruct (name_ok_spec n0 Hn0) as [Hne Hns].
    rewrite all_dirs_cons_dir in Hin. destruct Hin as [E|Hin].
    + inversion E; subst. repeat split; auto.
      * now left.
      * now apply no_sep_starts.
    + apply in_app_iff in Hin. destruct Hin as [Hin|Hin]; [|auto].
      apply in_map_iff in Hin. destruct Hin as [[p' n'] [E Hin]].
      simpl in E. inversion E; subst.
      destruct (IHc Hch p' n Hin) as (H1 & H2 & H3).
      rewrite join_ok by auto. repeat split; auto.
      * now apply ends_with_name_join.
      * rewrite starts_append by auto. now apply no_sep_starts.
  - apply names_ok_cons in Hok. destruct Hok as [He Hes]. auto.
  - apply names_ok_cons in Hok. destruct Hok as [He Hes]. auto.
Qed.

(** The fields of a [CompResult]. *)
Lemma CompResult_init_fields (cfg : config) (left right : string)
  (le re : list entry) :
  let cr := CompResult_init cfg left right le re in
  let l := get_files_dirs cfg le 0 in
  let r := get_files_dirs cfg re 0 in
  base_path_left cr = left /\ base_path_right cr = right /\
  music_left cr = music_files l /\ rest_left cr = rest_files l /\
  dirs_left cr = dir_dict l /\
  music_right cr = music_files r /\ rest_right cr = rest_files r /\
  dirs_right cr = dir_dict r /\
  dirs_to_copy cr = dict_minus (dir_dict l) (dir_dict r) /\
  dirs_to_delete cr = dict_minus (dir_dict r) (dir_dict l) /\
  (rest_to_copy cr, rest_to_delete cr) = _compare_files (rest_files l) (rest_files r) /\
  (music_leftonly cr, music_changed cr, music_to_delete cr) =
  _compare_music (music_files l) (music_files r).
Proof.
  cbv zeta. unfold CompResult_init.
  destruct (_compare_files _ _) as [a b].
  destruct (_compare_music _ _) as [[c d] e].
  repeat split.
Qed.
(** C7. For trees whose names are not empty and hold no separator: a
    directory whose name is in the ignore list, at any depth of the left
    or of the right tree, is not a key of the directory map of either
    side, and no key of any of the six maps of the two scans is a path
    below it; so neither the directory nor anything below it is in
    [dirs_to_copy] or [dirs_to_delete].  (An audio file next to the
    directory may have the name of the directory as its key; that key is
    the file.) *)
Theorem ignored_dirs_excluded (cfg : config) (left right : string)
  (le re : list entry) (p n : string) :
  names_ok le = true -> names_ok re = true ->
  In (p, n) (all_dirs le) \/ In (p, n) (all_dirs re) ->
  str_in n (dirs_to_ignore cfg) = true ->
  let cr := CompResult_init cfg left right le re in
  ~ In p (PyDict.keys (dirs_left cr)) /\
  ~ In p (PyDict.keys (dirs_right cr)) /\
  (forall k, beneath p k ->
             ~ In k (PyDict.keys (music_left cr)) /\
             ~ In k (PyDict.keys (rest_left cr)) /\
             ~ In k (PyDict.keys (dirs_left cr)) /\
             ~ In k (PyDict.keys (music_right cr)) /\
             ~ In k (PyDict.keys (rest_right cr)) /\
             ~ In k (PyDict.keys (dirs_right cr))) /\
  ~ In p (PyDict.keys (dirs_to_copy cr)) /\
  ~ In p (PyDict.keys (dirs_to_delete cr)) /\
  (forall k, beneath p k ->
             ~ In k (PyDict.keys (dirs_to_copy cr)) /\
             ~ In k (PyDict.keys (dirs_to_delete cr))).
Proof.
  intros Hl Hr Hin Hig cr.
  destruct (CompResult_init_fields cfg left right le re)
    as (_ & _ & Eml & Erl & Edl & Emr & Err & Edr & Ec & Ed & _).
  fold cr in Eml, Erl, Edl, Emr, Err, Edr, Ec, Ed.
  rewrite Eml, Erl, Edl, Emr, Err, Edr, Ec, Ed.
  assert (Hp : ends_with_name p n /\ name_ok n = true).
  { destruct Hin as [Hin|Hin].
    - destruct (all_dirs_spec le Hl p n Hin) as (A & B & _). auto.
    - destruct (all_dirs_spec re Hr p n Hin) as (A & B & _). auto. }
  destruct Hp as [Hend Hn]. destruct (name_ok_spec n Hn) as [_ Hns].
  assert (Dl : ~ In p (PyDict.keys (dir_dict (get_files_dirs cfg le 0)))).
  { intros H. exact (@scan_dir_not_ignored cfg le Hl 0 p n H Hns Hig Hend). }
  assert (Dr : ~ In p (PyDict.keys (dir_dict (get_files_dirs cfg re 0)))).
  { intros H. exact (@scan_dir_not_ignored cfg re Hr 0 p n H Hns Hig Hend). }
  assert (Bl : forall k, beneath p k ->
                 ~ In k (PyDict.keys (music_files (get_files_dirs cfg le 0))) /\
                 ~ In k (PyDict.keys (rest_files (get_files_dirs cfg le 0))) /\
                 ~ In k (PyDict.keys (dir_dict (get_files_dirs cfg le 0)))).
  { intros k Hb. repeat split; intros H;
      apply (@scan_not_beneath_ignored cfg le Hl 0 k p n); auto. }
  assert (Br : forall k, beneath p k ->
                 ~ In k (PyDict.keys (music_files (get_files_dirs cfg re 0))) /\
                 ~ In k (PyDict.keys (rest_files (get_files_dirs cfg re 0))) /\
                 ~ In k (PyDict.keys (dir_dict (get_files_dirs cfg re 0)))).
  { intros k Hb. repeat split; intros H;
      apply (@scan_not_beneath_ignored cfg re Hr 0 k p n); auto. }
  split; auto. split; auto. split.
  { intros k Hb. destruct (Bl k Hb) as (A & B & C).
    destruct (Br k Hb) as (D & E & F). tauto. }
  split.
  { rewrite In_keys_dict_minus. tauto. }
  split.
  { rewrite In_keys_dict_minus. tauto. }
  intros k Hb. rewrite !In_keys_dict_minus.
  destruct (Bl k Hb) as (A & B & C). destruct (Br k Hb) as (D & E & F). tauto.
Qed.

Lemma ignored_dirs_excluded_witness :
  let cr := CompResult_init default_config "left" "right"
              [EDir "Artist" [EDir "example-1" [EFile "x.flac" 1];
                              EFile "a.flac" 2]]
              [EDir "example-2" [EFile "y.mp3" 3]] in
  ~ In "Artist/example-1" (PyDict.keys (dirs_left cr)) /\
  ~ In "Artist/example-1" (PyDict.keys (dirs_right cr)) /\
  (forall k, beneath "Artist/example-1" k ->
             ~ In k (PyDict.keys (music_left cr)) /\
             ~ In k (PyDict.keys (rest_left cr)) /\
             ~ In k (PyDict.keys (dirs_left cr)) /\
             ~ In k (PyDict.keys (music_right cr)) /\
             ~ In k (PyDict.keys (rest_right cr)) /\
             ~ In k (PyDict.keys (dirs_right cr))) /\
  ~ In "Artist/example-1" (PyDict.keys (dirs_to_copy cr)) /\
  ~ In "Artist/example-1" (PyDict.keys (dirs_to_delete cr)) /\
  (forall k, beneath "Artist/example-1" k ->
             ~ In k (PyDict.keys (dirs_to_copy cr)) /\
             ~ In k (PyDict.keys (dirs_to_delete cr))).
Proof.
  exact (@ignored_dirs_excluded default_config "left" "right"
           [EDir "Artist" [EDir "example-1" [EFile "x.flac" 1];
                           EFile "a.flac" 2]]
           [EDir "example-2" [EFile "y.mp3" 3]]
           "Artist/example-1" "example-1" eq_refl eq_refl
           (or_introl (or_intror (or_introl eq_refl))) eq_refl).
Defined.

(** The scan of a tree with an ignored directory below [Artist]. *)
Example scan_with_ignored_dir :
  get_files_dirs default_config
    [EDir "Artist" [EDir "example-1" [EFile "x.flac" 1];
                    EDir "Album" [EFile "01 Track.FLAC" 5; EFile "cover.jpg" 6];
                    EFile "a.flac" 2]] 0
  = Scan [("Artist/Album/01 Track", MusicInfo ".FLAC" 5);
          ("Artist/a", MusicInfo ".flac" 2)]
         [("Artist/Album/cover.jpg", 6%Z)]
         [("Artist", 0); ("Artist/Album", 1)].
Proof. reflexivity. Qed.

(** ** The order of the directory map *)

Lemma snoc_split {A : Type} (l l1 l2 : list A) (k k' : A) :
  l ++ [k] = l1 ++ k' :: l2 ->
  (exists l2', l = l1 ++ k' :: l2' /\ l2 = l2' ++ [k]) \/
  (l1 = l /\ k' = k /\ l2 = []).
Proof.
  revert l. induction l1 as [|a l1 IH]; intros l E; simpl in E.
  - destruct l as [|b l]; simpl in E.
    + inversion E; subst. right. auto.
    + inversion E; subst. left. exists l. auto.
  - destruct l as [|b l]; simpl in E.
    + inversion E. destruct l1; discriminate.
    + inversion E; subst. destruct (IH l H1) as [[l2' [-> ->]]|(-> & -> & ->)].
      * left. exists l2'. auto.
      * right. auto.
Qed.

Lemma ancestors_first_nil : ancestors_first [].
Proof. intros l1 k l2 E. destruct l1; discriminate. Qed.

Lemma ancestors_first_snoc (l : list string) (k : string) :
  ancestors_first l -> (forall d, beneath d k -> In d l) ->
  ancestors_first (l ++ [k]).
Proof.
  intros Hl Hk l1 k' l2 E d Hb.
  destruct (snoc_split l l1 l2 k k' E) as [[l2' [-> _]]|(-> & -> & _)].
  - eapply Hl; eauto.
  - auto.
Qed.

Lemma ancestors_first_set {V : Type} (k : string) (v : V) (d : PyDict.t V) :
  ancestors_first (PyDict.keys d) ->
  (forall a, beneath a k -> In a (PyDict.keys d)) ->
  ancestors_first (PyDict.keys (PyDict.set k v d)).
Proof.
  intros Hd Hk. rewrite keys_set. destruct (PyDict.mem k d); auto.
  now apply ancestors_first_snoc.
Qed.

Lemma ancestors_first_update {V : Type} (l : list (string * V)) :
  forall d : PyDict.t V,
    ancestors_first (PyDict.keys d) ->
    (forall l1 kv l2, l = l1 ++ kv :: l2 ->
                      forall a, beneath a (fst kv) ->
                                In a (PyDict.keys d) \/ In a (map fst l1)) ->
    ancestors_first (PyDict.keys (PyDict.update d l)).
Proof.
  unfold PyDict.update.
  induction l as [|[k v] l IH]; intros d Hd Hl; simpl; auto.
  apply IH.
  - apply ancestors_first_set; auto.
    intros a Ha. destruct (Hl [] (k, v) l eq_refl a Ha) as [H|[]]. exact H.
  - intros l1 kv l2 E a Ha.
    destruct (Hl ((k, v) :: l1) kv l2) with (a := a) as [H|H]; auto.
    + simpl. now rewrite E.
    + left. apply In_keys_set. auto.
    + simpl in H. destruct H as [<-|H]; auto.
      left. apply In_keys_set. auto.
Qed.

Lemma set_fresh {V : Type} (k : string) (v : V) (d : PyDict.t V) :
  ~ In k (PyDict.keys d) -> PyDict.set k v d = d ++ [(k, v)].
Proof.
  induction d as [|[k' v'] d IH]; simpl; auto.
  intros H. destruct (String.eqb_spec k k').
  - exfalso. apply H. auto.
  - rewrite IH; auto.
Qed.

Lemma update_fresh {V : Type} (l d : PyDict.t V) :
  NoDup (PyDict.keys d ++ map fst l) -> PyDict.update d l = d ++ l.
Proof.
  unfold PyDict.update. revert d.
  induction l as [|[k v] l IH]; intros d H; simpl.
  - now rewrite app_nil_r.
  - assert (Hk : ~ In k (PyDict.keys d)).
    { apply NoDup_remove_2 in H. intros Hin. apply H.
      apply in_app_iff. auto. }
    rewrite set_fresh by auto. rewrite IH.
    + now rewrite <- app_assoc.
    + unfold PyDict.keys in *. rewrite map_app. simpl.
      rewrite <- app_assoc. exact H.
Qed.

Lemma of_items_nodup {V : Type} (l : list (string * V)) :
  NoDup (map fst l) -> PyDict.of_items l = l.
Proof. intros H. unfold PyDict.of_items. now rewrite update_fresh. Qed.

Lemma NoDup_keys_update {V : Type} (l d : PyDict.t V) :
  NoDup (PyDict.keys d) -> NoDup (PyDict.keys (PyDict.update d l)).
Proof.
  unfold PyDict.update. revert d.
  induction l as [|[k v] l IH]; intros d H; simpl; auto.
  apply IH. now apply NoDup_keys_set.
Qed.

(** The keys of the directory map of a scan are distinct. *)
Lemma scan_dirs_nodup (cfg : config) (es : list entry) (level : nat) :
  NoDup (PyDict.keys (dir_dict (get_files_dirs cfg es level))).
Proof.
  unfold get_files_dirs.
  assert (H : forall acc, NoDup (PyDict.keys (dir_dict acc)) ->
                NoDup (PyDict.keys (dir_dict
                  (fold_left (fun a e => scan_entry cfg level e a) es acc)))).
  { induction es as [|e es IH]; intros acc Hacc; simpl; auto.
    apply IH. destruct e as [n children|n m|n].
    - rewrite scan_entry_dir.
      destruct (str_in n (dirs_to_ignore cfg)); auto.
      cbn [dir_dict]. apply NoDup_keys_update. now apply NoDup_keys_set.
    - cbn [scan_entry]. destruct (splitext n) as [no_ext e_ext].
      destruct (str_in (lower e_ext) [".flac"; ".mp3"]); auto.
    - auto. }
  apply H. constructor.
Qed.

Lemma append_inj_l (n a b : string) : (n ++ a = n ++ b)%string -> a = b.
Proof. induction n as [|x n IH]; simpl; auto. intros E. inversion E. auto. Qed.

Lemma NoDup_map_in {A B : Type} (f : A -> B) (l : list A) :
  (forall x y, In x l -> In y l -> f x = f y -> x = y) ->
  NoDup l -> NoDup (map f l).
Proof.
  intros Hinj H. induction H as [|x l Hx Hl IH]; simpl; constructor.
  - intros Hin. apply in_map_iff in Hin. destruct Hin as [y [E Hy]].
    assert (y = x) by (apply Hinj; simpl; auto). subst. contradiction.
  - apply IH. intros a b Ha Hb. apply Hinj; simpl; auto.
Qed.

(** The sub-directories of a directory, as they enter its map. *)
Lemma join_keys_dirs (cfg : config) (n : string) (children : list entry)
  (level : nat) :
  name_ok n = true -> names_ok children = true ->
  join_keys n (dir_dict (get_files_dirs cfg children level)) =
  map (fun xy => ((n ++ String sep (fst xy))%string, snd xy))
    (dir_dict (get_files_dirs cfg children level)).
Proof.
  intros Hn Hch. unfold join_keys.
  assert (E : map (fun xy => (join n (fst xy), snd xy))
                (dir_dict (get_files_dirs cfg children level)) =
              map (fun xy => ((n ++ String sep (fst xy))%string, snd xy))
                (dir_dict (get_files_dirs cfg children level))).
  { apply map_ext_in. intros [k v] Hin. cbn [fst snd]. f_equal.
    apply join_ok; auto. apply (@scan_keys_start cfg children Hch level k).
    left. unfold PyDict.keys. apply in_map_iff. now exists (k, v). }
  rewrite E. apply of_items_nodup. rewrite map_map. cbn [fst].
  pose proof (scan_dirs_nodup cfg children level) as Hnd.
  unfold PyDict.keys in Hnd.
  rewrite <- (map_map fst (fun k => (n ++ String sep k)%string)).
  apply NoDup_map_in; auto.
  intros x y _ _ Exy. apply append_inj_l in Exy. now inversion Exy.
Qed.

(** In the directory map of a scan every directory comes after the
    directories above it. *)
Lemma scan_dirs_ancestors_first (cfg : config) (es : list entry) :
  names_ok es = true ->
  forall level acc,
    ancestors_first (PyDict.keys (dir_dict acc)) ->
    ancestors_first
      (PyDict.keys (dir_dict (fold_left (fun a e => scan_entry cfg level e a) es acc))).
Proof.
  induction es as [|n children es IHc IHe|n m es IHe|n es IHe] using entries_ind;
    intros Hok level acc Hacc.
  - exact Hacc.
  - apply names_ok_cons in Hok. destruct Hok as [He Hes].
    apply entry_ok_dir in He. destruct He as [Hn Hch].
    destruct (name_ok_spec n Hn) as [Hne Hns].
    rewrite get_files_dirs_cons. apply IHe; auto.
    rewrite scan_entry_dir. destruct (str_in n (dirs_to_ignore cfg)); auto.
    cbn [dir_dict]. rewrite join_keys_dirs by auto.
    assert (Hsub : ancestors_first
                     (PyDict.keys (dir_dict (get_files_dirs cfg children (S level))))).
    { apply (IHc Hch (S level) empty_scan). apply ancestors_first_nil. }
    apply ancestors_first_update.
    + apply ancestors_first_set; auto.
      intros a Ha. exfalso. eapply no_sep_not_beneath; eauto.
    + intros l1 kv l2 E a Ha.
      apply map_eq_app in E. destruct E as (s1 & s2' & Es & El1 & E2).
      destruct s2' as [|[k' v'] s2]; [discriminate|].
      simpl in E2. inversion E2; subst kv l2 l1. clear E2. cbn [fst] in Ha.
      destruct Ha as [r Er].
      destruct (sep_split n k' a r Hns Er) as [[-> _]|[a' [-> ->]]].
      * left. apply In_keys_set. auto.
      * right. rewrite map_map. cbn [fst].
        assert (Ha' : In a' (map fst s1)).
        { apply (Hsub (map fst s1) (a' ++ String sep r)%string (map fst s2)).
          - unfold PyDict.keys. rewrite Es, map_app. reflexivity.
          - now exists r. }
        apply in_map_iff in Ha'. destruct Ha' as [[x v] [Ex Hx]].
        simpl in Ex. subst x. apply in_map_iff. exists (a', v). auto.
  - apply names_ok_cons in Hok. destruct Hok as [He Hes].
    rewrite get_files_dirs_cons. apply IHe; auto.
    cbn [scan_entry]. destruct (splitext n) as [no_ext e_ext].
    destruct (str_in (lower e_ext) [".flac"; ".mp3"]); auto.
  - apply names_ok_cons in Hok. destruct Hok as [He Hes].
    rewrite get_files_dirs_cons. apply IHe; auto.
Qed.

(** ** The calls of the stages *)

Section Calls.
Variable world : Type.
Variable FLAC_tags : string -> world -> result tag_dict.
Variable MP3_tags : string -> world -> result ID3.
Variable perform : action -> world -> result world.
Variable cfg : config.
Variable cr : CompResult.

Lemma calls_in_seq (c1 c2 : cmd world)
  (S1 S2 : list action -> option exn -> Prop) :
  calls_in c1 S1 -> calls_in c2 S2 -> calls_in (seq c1 c2) (staged S1 S2).
Proof.
  intros H1 H2 s. unfold seq. destruct (H1 s) as (t1 & E1 & P1).
  destruct (c1 s) as [s1 [e|]]; simpl in *.
  - exists t1. split; auto. exists t1, []. rewrite app_nil_r.
    split; auto. right. eauto.
  - destruct (H2 s1) as (t2 & E2 & P2).
    exists (t1 ++ t2). rewrite E2, E1, app_assoc. split; auto.
    exists t1, t2. auto.
Qed.

Lemma seq_call_ok (a : action) (c : cmd world) (s : state world) (w : world) :
  perform a (fst s) = Ok w ->
  seq (call perform a) c s = c (w, snd s ++ [a]).
Proof. intros H. unfold seq, call. now rewrite H. Qed.

Lemma seq_call_raise (a : action) (c : cmd world) (s : state world) (e : exn) :
  perform a (fst s) = Raise e ->
  seq (call perform a) c s = ((fst s, snd s ++ [a]), Some e).
Proof. intros H. unfold seq, call. now rewrite H. Qed.

Lemma planned_cons (a : action) (plan t : list action) (r : option exn) :
  planned plan t r -> planned (a :: plan) (a :: t) r.
Proof.
  intros [[rest P1] P2]. split.
  - exists rest. simpl. now rewrite P1.
  - intros Hr. now rewrite (P2 Hr).
Qed.

Lemma planned_stop (a : action) (plan : list action) (e : exn) :
  planned (a :: plan) [a] (Some e).
Proof. split; [now exists plan | discriminate]. Qed.

Lemma calls_in_for_planned {A : Type} (f : A -> action) (xs : list A) :
  calls_in (for_cmd (fun x => call perform (f x)) xs) (planned (map f xs)).
Proof.
  induction xs as [|x xs IH]; intros s; cbn [for_cmd map].
  - exists []. unfold skip. simpl. rewrite app_nil_r. split; auto.
    split; auto. now exists [].
  - destruct (perform (f x) (fst s)) as [w|e] eqn:Ep.
    + rewrite (@seq_call_ok (f x) _ s w Ep).
      destruct (IH (w, snd s ++ [f x])) as (t & E & P).
      cbn [snd] in E. exists (f x :: t). rewrite E, <- app_assoc. split; auto.
      now apply planned_cons.
    + rewrite (@seq_call_raise (f x) _ s e Ep). exists [f x]. split; auto.
      apply planned_stop.
Qed.

(** The body of the loop of [_copy_dirs]. *)
Lemma seq_makedirs (d : string) (c : cmd world) (s : state world) :
  let a := Makedirs (join (base_path_right cr) d) in
  let body := fun s0 : state world =>
                match call perform a s0 with
                | (s1, Some FileExistsError) => (s1, None)
                | r => r
                end in
  (exists w, seq body c s = c (w, snd s ++ [a])) \/
  (exists e, seq body c s = ((fst s, snd s ++ [a]), Some e)).
Proof.
  cbv zeta. unfold seq, call.
  destruct (perform (Makedirs (join (base_path_right cr) d)) (fst s)) as [w|e].
  - left. now exists w.
  - destruct e; try (right; eexists; reflexivity). left. now exists (fst s).
Qed.

Lemma calls_in_copy_dirs :
  calls_in (_copy_dirs perform cr) (planned (plan_copy_dirs cr)).
Proof.
  unfold _copy_dirs, plan_copy_dirs.
  induction (PyDict.keys (dirs_to_copy cr)) as [|d ds IH]; intros s;
    cbn [for_cmd map].
  - exists []. unfold skip. simpl. rewrite app_nil_r. split; auto.
    split; auto. now exists [].
  - destruct (seq_makedirs d
                (for_cmd
                   (fun d0 s0 =>
                      match call perform (Makedirs (join (base_path_right cr) d0)) s0 with
                      | (s1, Some FileExistsError) => (s1, None)
                      | r => r
                      end) ds) s) as [[w E]|[e E]]; cbv zeta in E; rewrite E.
    + destruct (IH (w, snd s ++ [Makedirs (join (base_path_right cr) d)]))
        as (t & Et & P).
      cbn [snd] in Et.
      exists (Makedirs (join (base_path_right cr) d) :: t).
      rewrite Et, <- app_assoc. split; auto. now apply planned_cons.
    + exists [Makedirs (join (base_path_right cr) d)]. split; auto.
      apply planned_stop.
Qed.

Lemma calls_in_for_only {A : Type} (P : action -> Prop) (body : A -> cmd world)
  (xs : list A) :
  (forall x, In x xs -> calls_in (body x) (only P)) ->
  calls_in (for_cmd body xs) (only P).
Proof.
  induction xs as [|x xs IH]; intros H s; simpl.
  - exists []. rewrite app_nil_r. split; auto. constructor.
  - unfold seq. destruct (H x (or_introl eq_refl) s) as (t1 & E1 & P1).
    destruct (body x s) as [s1 [e|]]; simpl in *.
    + exists t1. auto.
    + destruct (IH (fun y Hy => H y (or_intror Hy)) s1) as (t2 & E2 & P2).
      exists (t1 ++ t2). rewrite E2, E1, app_assoc. split; auto.
      apply Forall_app. auto.
Qed.

Lemma calls_in_none (P : action -> Prop) (s : state world) (e : option exn) :
  exists t, snd (fst (s, e)) = snd s ++ t /\ only P t (snd (s, e)).
Proof. exists []. simpl. rewrite app_nil_r. split; auto. constructor. Qed.

Lemma calls_in_call (P : action -> Prop) (a : action) (s : state world) :
  P a ->
  exists t, snd (fst (call perform a s)) = snd s ++ t /\
            only P t (snd (call perform a s)).
Proof.
  intros Ha. exists [a]. unfold call.
  destruct (perform a (fst s)); simpl; split; auto; constructor; auto.
Qed.

Lemma calls_in_music_changed_body (x : string) :
  In x (music_changed cr) ->
  calls_in (_copy_music_changed_body FLAC_tags MP3_tags perform cfg cr x)
    (only (music_changed_call cr)).
Proof.
  intros Hx s. unfold _copy_music_changed_body, eval, read, raise, PyDict.getitem.
  destruct (PyDict.get x (music_left cr)) as [ml|] eqn:El;
    [|apply calls_in_none].
  destruct (read_tags_left FLAC_tags MP3_tags cfg (ext ml)
              (join (base_path_left cr) (x ++ ext ml)) (fst s)) as [tags_left|];
    [|apply calls_in_none].
  destruct (PyDict.get x (music_right cr)) as [mr|] eqn:Er;
    [|apply calls_in_none].
  destruct (negb (String.eqb (ext mr) ".mp3")); [apply calls_in_none|].
  unfold eval.
  destruct (MP3_tags (join (base_path_right cr) (x ++ ext mr)) (fst s))
    as [music_thing_right|]; [|apply calls_in_none].
  destruct (id3_tags_as_dict cfg music_thing_right) as [tags_right|];
    [|apply calls_in_none].
  destruct (negb (tag_dict_eqb tags_left tags_right)).
  - destruct (copy_tag_dict_to_mp3 cfg music_thing_right tags_left) as [saved|];
      [|apply calls_in_none].
    apply calls_in_call. exists x, ml, mr. repeat split; auto. left. eauto.
  - destruct (String.eqb (lower (ext ml)) ".flac").
    + apply calls_in_call. exists x, ml, mr. repeat split; auto.
      right. left. eauto.
    + apply calls_in_call. exists x, ml, mr. repeat split; auto.
Qed.

Lemma calls_in_music_leftonly :
  calls_in (_copy_music_leftonly perform cr) (only (music_leftonly_call cr)).
Proof.
  unfold _copy_music_leftonly. apply calls_in_for_only.
  intros x Hx s. unfold eval, raise, PyDict.getitem.
  destruct (PyDict.get x (music_left cr)) as [ml|] eqn:El;
    [|apply calls_in_none].
  destruct (String.eqb (lower (ext ml)) ".flac").
  - apply calls_in_call. exists x, ml. repeat split; auto.
  - destruct (String.eqb (lower (ext ml)) ".mp3").
    + apply calls_in_call. exists x, ml. repeat split; auto.
    + apply calls_in_none.
Qed.

(** The stages of [synchronise], in their order. *)
Lemma calls_in_synchronise :
  calls_in (synchronise FLAC_tags MP3_tags perform cfg cr) (synchronise_stages cr).
Proof.
  unfold synchronise, synchronise_stages.
  apply calls_in_seq; [apply calls_in_copy_dirs|].
  apply calls_in_seq; [apply calls_in_for_planned|].
  apply calls_in_seq.
  { unfold _copy_music_changed. apply calls_in_for_only.
    apply calls_in_music_changed_body. }
  apply calls_in_seq; [apply calls_in_music_leftonly|].
  apply calls_in_seq; [apply calls_in_for_planned|].
  apply calls_in_seq; [apply calls_in_for_planned|].
  unfold _remove_dirs, plan_remove_dirs. apply calls_in_for_planned.
Qed.

(** A call of [os.rmdir] that raises ends the run with its exception;
    the directories after it are not tried. *)
Lemma rmdir_failure_fatal (d : string) (rest : list string) (s : state world)
  (e : exn) :
  perform (Rmdir (join (base_path_right cr) d)) (fst s) = Raise e ->
  for_cmd (fun d => call perform (Rmdir (join (base_path_right cr) d)))
    (d :: rest) s
  = ((fst s, snd s ++ [Rmdir (join (base_path_right cr) d)]), Some e).
Proof. intros H. cbn [for_cmd]. now apply seq_call_raise. Qed.
End Calls.

(** ** The order of the deletions *)

Lemma before_rev {A : Type} (l : list A) (x y : A) :
  before l x y -> before (rev l) y x.
Proof.
  intros (l1 & l2 & l3 & ->). exists (rev l3), (rev l2), (rev l1).
  rewrite rev_app_distr. simpl. rewrite rev_app_distr. simpl.
  now rewrite <- !app_assoc.
Qed.

Lemma before_map {A B : Type} (f : A -> B) (l : list A) (x y : A) :
  before l x y -> before (map f l) (f x) (f y).
Proof.
  intros (l1 & l2 & l3 & ->). exists (map f l1), (map f l2), (map f l3).
  rewrite map_app. simpl. now rewrite map_app.
Qed.

Lemma before_filter {A : Type} (p : A -> bool) (l : list A) (x y : A) :
  before l x y -> p x = true -> p y = true -> before (filter p l) x y.
Proof.
  intros (l1 & l2 & l3 & ->) Hx Hy.
  exists (filter p l1), (filter p l2), (filter p l3).
  rewrite filter_app. simpl. rewrite Hx, filter_app. simpl. now rewrite Hy.
Qed.

Lemma ancestors_first_before (l : list string) (d k : string) :
  ancestors_first l -> In k l -> beneath d k -> before l d k.
Proof.
  intros Hl Hk Hb. apply in_split in Hk. destruct Hk as (l1 & l2 & ->).
  pose proof (Hl l1 k l2 eq_refl d Hb) as Hd.
  apply in_split in Hd. destruct Hd as (a & b & ->).
  exists a, b, l2. now rewrite <- app_assoc.
Qed.

Lemma keys_filter {V : Type} (p : string -> bool) (d : PyDict.t V) :
  PyDict.keys (filter (fun kv => p (fst kv)) d) = filter p (PyDict.keys d).
Proof.
  unfold PyDict.keys. induction d as [|[k v] d IH]; simpl; auto.
  destruct (p k); simpl; now rewrite IH.
Qed.

Lemma NoDup_filter_keys {A : Type} (p : A -> bool) (l : list A) :
  NoDup l -> NoDup (filter p l).
Proof.
  intros H. induction H as [|x l Hx Hl IH]; simpl; [constructor|].
  destruct (p x); auto. constructor; auto.
  intros Hin. apply filter_In in Hin. tauto.
Qed.

(** On a dictionary the comprehension of [dict_minus] is a filter. *)
Lemma dict_minus_filter {V W : Type} (d : PyDict.t V) (other : PyDict.t W) :
  NoDup (PyDict.keys d) ->
  dict_minus d other = filter (fun kv => negb (PyDict.mem (fst kv) other)) d.
Proof.
  intros H. unfold dict_minus. apply of_items_nodup.
  change (map fst (filter (fun kv => negb (PyDict.mem (fst kv) other)) d))
    with (PyDict.keys (filter (fun kv => negb (PyDict.mem (fst kv) other)) d)).
  rewrite (keys_filter (fun k => negb (PyDict.mem k other)) d).
  now apply NoDup_filter_keys.
Qed.

Lemma keys_dict_minus {V W : Type} (d : PyDict.t V) (other : PyDict.t W) :
  NoDup (PyDict.keys d) ->
  PyDict.keys (dict_minus d other) =
  filter (fun k => negb (PyDict.mem k other)) (PyDict.keys d).
Proof.
  intros H. rewrite dict_minus_filter by auto.
  apply (keys_filter (fun k => negb (PyDict.mem k other)) d).
Qed.

(** The keys of the audio map of a scan are distinct. *)
Lemma scan_music_nodup (cfg : config) (es : list entry) (level : nat) :
  NoDup (PyDict.keys (music_files (get_files_dirs cfg es level))).
Proof.
  unfold get_files_dirs.
  assert (H : forall acc, NoDup (PyDict.keys (music_files acc)) ->
                NoDup (PyDict.keys (music_files
                  (fold_left (fun a e => scan_entry cfg level e a) es acc)))).
  { induction es as [|e es IH]; intros acc Hacc; simpl; auto.
    apply IH. destruct e as [n children|n m|n].
    - rewrite scan_entry_dir.
      destruct (str_in n (dirs_to_ignore cfg)); auto.
      cbn [music_files]. now apply NoDup_keys_update.
    - cbn [scan_entry]. destruct (splitext n) as [no_ext e_ext].
      destruct (str_in (lower e_ext) [".flac"; ".mp3"]); auto.
      cbn [music_files]. now apply NoDup_keys_set.
    - auto. }
  apply H. constructor.
Qed.

Lemma join_inj (a x y : string) :
  starts_with_char sep x = false -> starts_with_char sep y = false ->
  join a x = join a y -> x = y.
Proof.
  intros Hx Hy. unfold join. rewrite Hx, Hy.
  destruct (String.eqb a "" || ends_with_char sep a); intros E;
    apply append_inj_l in E; congruence.
Qed.

Section Loops.
Variable world : Type.
Variable perform : action -> world -> result world.

Lemma for_cmd_app {A : Type} (body : A -> cmd world) (l1 l2 : list A)
  (s : state world) :
  for_cmd body (l1 ++ l2) s = seq (for_cmd body l1) (for_cmd body l2) s.
Proof.
  revert s. induction l1 as [|x l1 IH]; intros s; simpl.
  - reflexivity.
  - unfold seq. destruct (body x s) as [s1 [e|]]; auto.
Qed.

(** A call of a loop of calls that raises ends the loop with its
    exception: the elements after it are not tried. *)
Lemma for_cmd_call_raise {A : Type} (f : A -> action) (l1 l2 : list A) (x : A)
  (s s1 : state world) (e : exn) :
  for_cmd (fun x => call perform (f x)) l1 s = (s1, None) ->
  perform (f x) (fst s1) = Raise e ->
  for_cmd (fun x => call perform (f x)) (l1 ++ x :: l2) s =
  ((fst s1, snd s1 ++ [f x]), Some e).
Proof.
  intros H1 Hx. rewrite for_cmd_app. unfold seq at 1. rewrite H1.
  cbn [for_cmd]. now apply seq_call_raise.
Qed.
End Loops.

(** ** The run of [synchronise] as a list of steps *)

(** ** The run as steps *)

Section RunSteps.
Variable world : Type.
Variable perform : action -> world -> result world.

Lemma run_steps_app (l1 l2 : list (step world)) (s : state world) :
  run_steps perform (l1 ++ l2) s =
  seq (run_steps perform l1) (run_steps perform l2) s.
Proof.
  revert s. induction l1 as [|[caught next] l1 IH]; intros s.
  - reflexivity.
  - unfold seq in *. cbn [app run_steps].
    destruct (next (fst s)) as [a|e]; [|reflexivity].
    destruct (perform a (fst s)) as [w|e].
    + apply IH.
    + destruct e; try reflexivity. destruct caught; [apply IH|reflexivity].
Qed.

(** A loop of calls is the run of its plan. *)
Lemma for_cmd_calls {A : Type} (f : A -> action) (xs : list A) (s : state world) :
  for_cmd (fun x => call perform (f x)) xs s =
  run_steps perform (map always (map f xs)) s.
Proof.
  revert s. induction xs as [|x xs IH]; intros s.
  - reflexivity.
  - cbn [for_cmd map run_steps always]. unfold seq, call.
    destruct (perform (f x) (fst s)) as [w|e].
    + apply IH.
    + now destruct e.
Qed.

(** A loop whose body is one step is the run of the steps. *)
Lemma for_cmd_steps {A : Type} (body : A -> cmd world)
  (next : A -> world -> result action) (xs : list A) :
  (forall x s, body x s = run_steps perform [(false, next x)] s) ->
  forall s, for_cmd body xs s =
            run_steps perform (map (fun x => (false, next x)) xs) s.
Proof.
  intros Hb. induction xs as [|x xs IH]; intros s.
  - reflexivity.
  - cbn [for_cmd map]. unfold seq. rewrite Hb.
    change ((false, next x) :: map (fun x0 => (false, next x0)) xs)
      with ([(false, next x)] ++ map (fun x0 => (false, next x0)) xs).
    rewrite run_steps_app. unfold seq.
    destruct (run_steps perform [(false, next x)] s) as [s1 [e|]]; auto.
Qed.
Lemma seq_run_steps (c1 c2 : cmd world) (l1 l2 : list (step world)) :
  (forall s, c1 s = run_steps perform l1 s) ->
  (forall s, c2 s = run_steps perform l2 s) ->
  forall s, seq c1 c2 s = run_steps perform (l1 ++ l2) s.
Proof.
  intros H1 H2 s. rewrite run_steps_app. unfold seq. rewrite H1.
  destruct (run_steps perform l1 s) as [s1 [e|]]; auto.
Qed.
End RunSteps.

Section SyncSteps.
Variable world : Type.
Variable FLAC_tags : string -> world -> result tag_dict.
Variable MP3_tags : string -> world -> result ID3.
Variable perform : action -> world -> result world.
Variable cfg : config.
Variable cr : CompResult.

Lemma copy_dirs_steps (s : state world) :
  _copy_dirs perform cr s =
  run_steps perform (map tolerant (plan_copy_dirs cr)) s.
Proof.
  unfold _copy_dirs, plan_copy_dirs. revert s.
  induction (PyDict.keys (dirs_to_copy cr)) as [|d ds IH]; intros s.
  - reflexivity.
  - cbn [for_cmd map run_steps tolerant]. unfold seq, call.
    destruct (perform (Makedirs (join (base_path_right cr) d)) (fst s)) as [w|e].
    + apply IH.
    + destruct e; try reflexivity. apply IH.
Qed.

Lemma music_changed_body_step (x : string) (s : state world) :
  _copy_music_changed_body FLAC_tags MP3_tags perform cfg cr x s =
  run_steps perform
    [(false, music_changed_step FLAC_tags MP3_tags cfg cr x)] s.
Proof.
  unfold _copy_music_changed_body, music_changed_step.
  cbn [run_steps]. unfold eval, read, raise, PyDict.getitem.
  destruct (PyDict.get x (music_left cr)) as [ml|]; [|reflexivity].
  cbn [bind].
  destruct (read_tags_left FLAC_tags MP3_tags cfg (ext ml)
              (join (base_path_left cr) (x ++ ext ml)) (fst s)) as [tags_left|];
    [|reflexivity].
  cbn [bind].
  destruct (PyDict.get x (music_right cr)) as [mr|]; [|reflexivity].
  cbn [bind].
  destruct (negb (String.eqb (ext mr) ".mp3")); [reflexivity|].
  unfold eval.
  destruct (MP3_tags (join (base_path_right cr) (x ++ ext mr)) (fst s))
    as [music_thing_right|]; [|reflexivity].
  cbn [bind].
  destruct (id3_tags_as_dict cfg music_thing_right) as [tags_right|];
    [|reflexivity].
  cbn [bind].
  destruct (negb (tag_dict_eqb tags_left tags_right)).
  - destruct (copy_tag_dict_to_mp3 cfg music_thing_right tags_left) as [saved|];
      [|reflexivity].
    cbn [bind]. unfold call.
    destruct (perform _ (fst s)) as [w|e]; [reflexivity|now destruct e].
  - destruct (String.eqb (lower (ext ml)) ".flac"); unfold call;
      destruct (perform _ (fst s)) as [w|e]; try reflexivity; now destruct e.
Qed.

Lemma music_leftonly_body_step (x : string) (s : state world) :
  eval (PyDict.getitem x (music_left cr))
    (fun ml =>
       let full_path_left := join (base_path_left cr) (x ++ ext ml) in
       let destination_path := join (base_path_right cr) (x ++ ".mp3") in
       if String.eqb (lower (ext ml)) ".flac" then
         call perform (FlacToMp3 full_path_left destination_path None)
       else if String.eqb (lower (ext ml)) ".mp3" then
         call perform (Copy2 full_path_left destination_path)
       else raise (Exception ("What is this thing? - " ++ x ++ ext ml))) s =
  run_steps perform [(false, music_leftonly_step cr x)] s.
Proof.
  unfold music_leftonly_step. cbn [run_steps].
  unfold eval, raise, PyDict.getitem.
  destruct (PyDict.get x (music_left cr)) as [ml|]; [|reflexivity].
  cbn [bind]. cbv zeta.
  destruct (String.eqb (lower (ext ml)) ".flac").
  - unfold call. destruct (perform _ (fst s)) as [w|e]; [reflexivity|now destruct e].
  - destruct (String.eqb (lower (ext ml)) ".mp3"); [|reflexivity].
    unfold call. destruct (perform _ (fst s)) as [w|e]; [reflexivity|now destruct e].
Qed.

(** [synchronise] is the run of the steps of the seven stages. *)
Lemma synchronise_steps (s : state world) :
  synchronise FLAC_tags MP3_tags perform cfg cr s =
  run_steps perform (sync_steps FLAC_tags MP3_tags cfg cr) s.
Proof.
  revert s. unfold synchronise, sync_steps.
  apply seq_run_steps; [apply copy_dirs_steps|].
  apply seq_run_steps.
  { intros s. unfold _copy_files, plan_copy_files. apply for_cmd_calls. }
  apply seq_run_steps.
  { unfold _copy_music_changed. apply for_cmd_steps.
    apply music_changed_body_step. }
  apply seq_run_steps.
  { unfold _copy_music_leftonly. apply for_cmd_steps.
    apply music_leftonly_body_step. }
  apply seq_run_steps.
  { intros s. unfold _remove_music, plan_remove_music. apply for_cmd_calls. }
  apply seq_run_steps.
  { intros s. unfold _remove_files, plan_remove_files. apply for_cmd_calls. }
  intros s. unfold _remove_dirs, plan_remove_dirs. apply for_cmd_calls.
Qed.
End SyncSteps.

(** ** The calls of a run, step by step *)

Section RunCalls.
Variable world : Type.
Variable perform : action -> world -> result world.

(** The calls of a run are the calls of the steps that begin the list,
    one call for each step. *)
Lemma run_steps_calls (steps : list (step world)) :
  forall s, exists t made rest,
    snd (fst (run_steps perform steps s)) = snd s ++ t /\
    steps = made ++ rest /\ Forall2 may_call made t.
Proof.
  induction steps as [|[caught next] steps IH]; intros s.
  - exists [], [], []. cbn. rewrite app_nil_r. auto.
  - cbn [run_steps].
    destruct (next (fst s)) as [a|e] eqn:En.
    + assert (Hm : may_call (caught, next) a) by (exists (fst s); exact En).
      assert (Hgo : forall s', snd s' = snd s ++ [a] ->
                exists t made rest,
                  snd (fst (run_steps perform steps s')) = snd s ++ t /\
                  (caught, next) :: steps = made ++ rest /\
                  Forall2 may_call made t).
      { intros s' Hs'. destruct (IH s') as (t & made & rest & Ht & Hst & Hf).
        exists (a :: t), ((caught, next) :: made), rest.
        rewrite Ht, Hs', <- app_assoc. split; [reflexivity|].
        split; [now rewrite Hst|]. constructor; auto. }
      assert (Hstop : forall e,
                exists t made rest,
                  snd (fst (((fst s, snd s ++ [a]), Some e) : state world * option exn))
                  = snd s ++ t /\
                  (caught, next) :: steps = made ++ rest /\
                  Forall2 may_call made t).
      { intros e. exists [a], [(caught, next)], steps. cbn.
        repeat split; auto. }
      destruct (perform a (fst s)) as [w|e].
      * apply Hgo. reflexivity.
      * destruct e; try apply Hstop.
        destruct caught; [apply Hgo; reflexivity | apply Hstop].
    + exists [], [], ((caught, next) :: steps). cbn. rewrite app_nil_r. auto.
Qed.

Lemma Forall2_always (q t : list action) :
  Forall2 may_call (map (@always world) q) t -> t = q.
Proof.
  revert t. induction q as [|a q IH]; intros t H; inversion H; subst; auto.
  destruct H2 as [w Hw]. cbn in Hw. inversion Hw; subst.
  f_equal. now apply IH.
Qed.

Lemma map_always_app (l : list action) (a b : list (step world)) :
  map (@always world) l = a ++ b ->
  exists la lb, l = la ++ lb /\ a = map always la /\ b = map always lb.
Proof.
  revert a. induction l as [|x l IH]; intros a H.
  - destruct a; [|discriminate]. destruct b; [|discriminate].
    exists [], []. auto.
  - destruct a as [|y a].
    + exists [], (x :: l). auto.
    + cbn in H. inversion H; subst. destruct (IH a H2) as (la & lb & -> & -> & ->).
      exists (x :: la), lb. auto.
Qed.

(** The calls of a run whose last steps are the calls of a plan: calls of
    the steps before, then calls that begin the plan. *)
Lemma run_steps_tail (pre : list (step world)) (plan : list action)
  (P : action -> Prop) :
  (forall st a, In st pre -> may_call st a -> P a) ->
  forall s, exists t1 q,
    snd (fst (run_steps perform (pre ++ map always plan) s)) = snd s ++ t1 ++ q /\
    Forall P t1 /\ begins q plan.
Proof.
  intros HP s.
  destruct (run_steps_calls (pre ++ map always plan) s)
    as (t & made & rest & Ht & Hst & Hf).
  apply app_eq_app in Hst. destruct Hst as [l [[E1 E2]|[E1 E2]]].
  - (* the run ended in the steps before the plan *)
    exists t, []. rewrite app_nil_r. split; auto. split; [|now exists plan].
    subst pre. clear Ht.
    assert (HP' : forall st a, In st made -> may_call st a -> P a).
    { intros st a Hin. apply HP. apply in_app_iff. auto. }
    clear HP. induction Hf as [|st a made t Hc Hf IH]; constructor.
    + apply (HP' st a); simpl; auto.
    + apply IH. intros st' a' Hin. apply HP'. now right.
  - (* the run went past the steps before the plan *)
    subst made. apply Forall2_app_inv_l in Hf.
    destruct Hf as (t1 & t2 & F1 & F2 & ->).
    apply map_always_app in E2.
    destruct E2 as (la & lb & -> & -> & ->).
    apply Forall2_always in F2. subst t2.
    exists t1, la. split; auto. split; [|now exists lb].
    clear Ht. induction F1 as [|st a pre t1 Hc F1 IH]; constructor.
    + apply (HP st a); simpl; auto.
    + apply IH. intros st' a' Hin. apply HP. now right.
Qed.
End RunCalls.

(** In the calls that begin a plan, a call comes after the calls that
    are before its one place in the plan. *)
Lemma begins_before {A : Type} (q plan : list A) (a b : A) (l1 l2 l3 : list A) :
  begins q plan -> plan = l1 ++ a :: l2 ++ b :: l3 ->
  ~ In b (l1 ++ a :: l2) -> In b q -> before q a b.
Proof.
  intros [rest E] Hp Hn Hin. rewrite Hp in E.
  assert (E' : (l1 ++ a :: l2) ++ b :: l3 = q ++ rest).
  { rewrite <- E, <- app_assoc. reflexivity. }
  apply app_eq_app in E'. destruct E' as [l [[E1 E2]|[E1 E2]]].
  - destruct l as [|x l].
    + exfalso. apply Hn. rewrite app_nil_r in E1. now rewrite E1.
    + cbn in E2. destruct rest as [|y rest]; [discriminate|].
      exfalso. apply Hn. rewrite E1. apply in_app_iff. now left.
  - destruct l as [|x l].
    + exfalso. apply Hn. rewrite app_nil_r in E1. now rewrite <- E1.
    + cbn in E2. inversion E2; subst x. subst q.
      exists l1, l2, l. now rewrite <- app_assoc.
Qed.

Lemma before_app_l {A : Type} (l0 l : list A) (a b : A) :
  before l a b -> before (l0 ++ l) a b.
Proof.
  intros (l1 & l2 & l3 & ->). exists (l0 ++ l1), l2, l3.
  now rewrite <- app_assoc.
Qed.

Section SyncCalls.
Variable world : Type.
Variable FLAC_tags : string -> world -> result tag_dict.
Variable MP3_tags : string -> world -> result ID3.
Variable perform : action -> world -> result world.
Variable cfg : config.
Variable cr : CompResult.

Lemma music_changed_step_calls (x : string) (w : world) (a : action) :
  music_changed_step FLAC_tags MP3_tags cfg cr x w = Ok a -> no_removal a.
Proof.
  unfold music_changed_step.
  destruct (PyDict.getitem x (music_left cr)) as [ml|]; cbn [bind];
    [|discriminate].
  destruct (read_tags_left FLAC_tags MP3_tags cfg (ext ml) _ w) as [tags_left|];
    cbn [bind]; [|discriminate].
  destruct (PyDict.getitem x (music_right cr)) as [mr|]; cbn [bind];
    [|discriminate].
  destruct (negb (String.eqb (ext mr) ".mp3")); [discriminate|].
  destruct (MP3_tags _ w) as [music_thing_right|]; cbn [bind]; [|discriminate].
  destruct (id3_tags_as_dict cfg music_thing_right) as [tags_right|];
    cbn [bind]; [|discriminate].
  destruct (negb (tag_dict_eqb tags_left tags_right)).
  - destruct (copy_tag_dict_to_mp3 cfg music_thing_right tags_left);
      cbn [bind]; [|discriminate].
    intros H. inversion H. exact I.
  - destruct (String.eqb (lower (ext ml)) ".flac");
      intros H; inversion H; exact I.
Qed.

Lemma music_leftonly_step_calls (x : string) (w : world) (a : action) :
  music_leftonly_step cr x w = Ok a -> no_removal a.
Proof.
  unfold music_leftonly_step.
  destruct (PyDict.getitem x (music_left cr)) as [ml|]; cbn [bind];
    [|discriminate].
  cbv zeta. destruct (String.eqb (lower (ext ml)) ".flac").
  - intros H. inversion H. exact I.
  - destruct (String.eqb (lower (ext ml)) ".mp3"); [|discriminate].
    intros H. inversion H. exact I.
Qed.

(** The steps of the stages that remove nothing, and the plan of the
    removals after them. *)
Lemma sync_steps_split :
  sync_steps FLAC_tags MP3_tags cfg cr =
  (map tolerant (plan_copy_dirs cr) ++
   map always (plan_copy_files cr) ++
   map (fun x => (false, music_changed_step FLAC_tags MP3_tags cfg cr x))
     (music_changed cr) ++
   map (fun x => (false, music_leftonly_step cr x)) (music_leftonly cr)) ++
  map always (plan_remove_music cr ++ plan_remove_files cr ++ plan_remove_dirs cr).
Proof.
  unfold sync_steps. rewrite !map_app, <- !app_assoc. reflexivity.
Qed.

(** The calls of a run: calls that remove nothing, then calls that begin
    the plan of the removals. *)
Lemma synchronise_calls (s : state world) :
  exists t1 q,
    snd (fst (synchronise FLAC_tags MP3_tags perform cfg cr s)) =
      snd s ++ t1 ++ q /\
    Forall no_removal t1 /\
    begins q (plan_remove_music cr ++ plan_remove_files cr ++ plan_remove_dirs cr).
Proof.
  rewrite synchronise_steps, sync_steps_split.
  apply run_steps_tail. intros st a Hin [w Hw].
  rewrite !in_app_iff in Hin. destruct Hin as [Hin|[Hin|[Hin|Hin]]];
    apply in_map_iff in Hin; destruct Hin as [y [<- Hy]]; cbn in Hw.
  - unfold plan_copy_dirs in Hy. apply in_map_iff in Hy.
    destruct Hy as [d [<- _]]. inversion Hw. exact I.
  - unfold plan_copy_files in Hy. apply in_map_iff in Hy.
    destruct Hy as [d [<- _]]. inversion Hw. exact I.
  - now apply music_changed_step_calls in Hw.
  - now apply music_leftonly_step_calls in Hw.
Qed.

(** A directory is removed after the calls that are before its call in
    the plan of the removals. *)
Lemma rmdir_after (s : state world) (t1 q : list action) (a : action)
  (p : string) :
  Forall no_removal t1 ->
  begins q (plan_remove_music cr ++ plan_remove_files cr ++ plan_remove_dirs cr) ->
  NoDup (plan_remove_dirs cr) ->
  In (Rmdir p) (t1 ++ q) ->
  (In a (plan_remove_music cr) \/ In a (plan_remove_files cr) \/
   before (plan_remove_dirs cr) a (Rmdir p)) ->
  In (Rmdir p) (plan_remove_dirs cr) ->
  before (t1 ++ q) a (Rmdir p).
Proof.
  intros H1 Hq Hnd Hin Ha Hp.
  assert (Hq' : In (Rmdir p) q).
  { apply in_app_iff in Hin. destruct Hin as [Hin|Hin]; auto.
    rewrite Forall_forall in H1. destruct (H1 _ Hin). }
  apply before_app_l.
  assert (Nm : ~ In (Rmdir p) (plan_remove_music cr)).
  { unfold plan_remove_music. intros X. apply in_map_iff in X.
    destruct X as [kv [X _]]. discriminate. }
  assert (Nf : ~ In (Rmdir p) (plan_remove_files cr)).
  { unfold plan_remove_files. intros X. apply in_map_iff in X.
    destruct X as [kv [X _]]. discriminate. }
  apply in_split in Hp. destruct Hp as (r1 & r2 & Er).
  assert (Nr : ~ In (Rmdir p) r1 /\ ~ In (Rmdir p) r2).
  { rewrite Er in Hnd. apply NoDup_remove_2 in Hnd.
    rewrite in_app_iff in Hnd. tauto. }
  destruct Ha as [Ha|[Ha|Ha]].
  - apply in_split in Ha. destruct Ha as (m1 & m2 & Em).
    apply (@begins_before action q _ a (Rmdir p) m1
             (m2 ++ plan_remove_files cr ++ r1) r2 Hq).
    + rewrite Em, Er. repeat (rewrite <- app_assoc || rewrite <- app_comm_cons).
      reflexivity.
    + rewrite Em in Nm. rewrite !in_app_iff in *. cbn in *.
      rewrite !in_app_iff in *. intuition discriminate.
    + exact Hq'.
  - apply in_split in Ha. destruct Ha as (f1 & f2 & Ef).
    apply (@begins_before action q _ a (Rmdir p) (plan_remove_music cr ++ f1)
             (f2 ++ r1) r2 Hq).
    + rewrite Ef, Er. repeat (rewrite <- app_assoc || rewrite <- app_comm_cons).
      reflexivity.
    + rewrite Ef in Nf. rewrite !in_app_iff in *. cbn in *.
      rewrite !in_app_iff in *. intuition discriminate.
    + exact Hq'.
  - destruct Ha as (l1 & l2 & l3 & El).
    assert (E : r1 = l1 ++ a :: l2 /\ r2 = l3).
    { rewrite El in Er.
      assert (E' : (l1 ++ a :: l2) ++ Rmdir p :: l3 = r1 ++ Rmdir p :: r2).
      { rewrite <- Er, <- app_assoc. reflexivity. }
      rewrite El in Hnd.
      assert (Hnd' : NoDup ((l1 ++ a :: l2) ++ Rmdir p :: l3)).
      { rewrite <- app_assoc. exact Hnd. }
      apply NoDup_remove_2 in Hnd'. rewrite in_app_iff in Hnd'.
      apply app_eq_app in E'. destruct E' as [l [[E1 E2]|[E1 E2]]].
      - destruct l as [|x l].
        + rewrite app_nil_r in E1. cbn in E2. inversion E2. auto.
        + cbn in E2. inversion E2; subst x. exfalso. apply Hnd'. left.
          rewrite E1. apply in_app_iff. right. now left.
      - destruct l as [|x l].
        + rewrite app_nil_r in E1. cbn in E2. inversion E2. auto.
        + cbn in E2. inversion E2; subst x. exfalso.
          destruct Nr as [Nr _]. apply Nr. rewrite E1.
          apply in_app_iff. right. now left. }
    destruct E as [E1 E2].
    apply (@begins_before action q _ a (Rmdir p)
             (plan_remove_music cr ++ plan_remove_files cr ++ l1) l2 l3 Hq).
    + rewrite El. repeat (rewrite <- app_assoc || rewrite <- app_comm_cons).
      reflexivity.
    + destruct Nr as [Nr _]. rewrite E1 in Nr. intros X.
      rewrite !in_app_iff in X. rewrite in_app_iff in Nr. tauto.
    + exact Hq'.
Qed.

(** A call of [os.rmdir] that raises ends the run with its exception. *)
Lemma synchronise_rmdir_fatal (pre post : list (step world)) (p : string)
  (s s1 : state world) (e : exn) :
  sync_steps FLAC_tags MP3_tags cfg cr = pre ++ always (Rmdir p) :: post ->
  run_steps perform pre s = (s1, None) ->
  perform (Rmdir p) (fst s1) = Raise e ->
  synchronise FLAC_tags MP3_tags perform cfg cr s =
  ((fst s1, snd s1 ++ [Rmdir p]), Some e).
Proof.
  intros E H1 Hp. rewrite synchronise_steps, E, run_steps_app.
  unfold seq. rewrite H1. cbn [run_steps always]. rewrite Hp.
  now destruct e.
Qed.

Lemma sync_steps_rmdir (d : string) :
  In d (PyDict.keys (dirs_to_delete cr)) ->
  exists pre post,
    sync_steps FLAC_tags MP3_tags cfg cr =
    pre ++ always (Rmdir (join (base_path_right cr) d)) :: post.
Proof.
  intros Hd. unfold sync_steps, plan_remove_dirs.
  apply in_rev in Hd. apply in_split in Hd. destruct Hd as (l1 & l2 & ->).
  rewrite !map_app. cbn [map]. rewrite !app_assoc.
  eexists. eexists. reflexivity.
Qed.
End SyncCalls.

(** C8. [synchronise] is the run of the steps of its seven stages in the
    order create directories, copy other files, audio files that changed,
    audio files of the left side only, delete audio files, delete other
    files, delete directories: a step is made only when the steps before
    it raised nothing, and an exception (but [FileExistsError] of
    [os.makedirs]) ends the run with the call that raised it as the last
    one.  This holds whatever the order in which the set of the other
    files to delete is walked.  For the comparison of two trees whose
    names are not empty and hold no separator: the directories are removed
    in the reverse of the order of [dirs_to_delete], each one once; in
    every run a call of [os.rmdir] for a directory to delete comes after
    the call that removes a directory, another file or an audio file of
    the right scan below it; and a call of [os.rmdir] that raises ends the
    run with that exception, the directories after it not being tried. *)
Theorem synchronise_order (world : Type)
  (FLAC_tags : string -> world -> result tag_dict)
  (MP3_tags : string -> world -> result ID3)
  (perform : action -> world -> result world)
  (cfg : config) (left right : string) (le re : list entry)
  (order : list string) :
  names_ok le = true -> names_ok re = true ->
  Permutation order (rest_to_delete (CompResult_init cfg left right le re)) ->
  let cr := with_rest_to_delete order (CompResult_init cfg left right le re) in
  (forall s, synchronise FLAC_tags MP3_tags perform cfg cr s =
             run_steps perform (sync_steps FLAC_tags MP3_tags cfg cr) s) /\
  plan_remove_dirs cr =
    map (fun d => Rmdir (join right d)) (rev (PyDict.keys (dirs_to_delete cr))) /\
  NoDup (plan_remove_dirs cr) /\
  (forall s, exists t,
      snd (fst (synchronise FLAC_tags MP3_tags perform cfg cr s)) = snd s ++ t /\
      forall d k,
        In d (PyDict.keys (dirs_to_delete cr)) -> beneath d k ->
        In (Rmdir (join right d)) t ->
        (In k (PyDict.keys (dirs_right cr)) ->
         before t (Rmdir (join right k)) (Rmdir (join right d))) /\
        (In k (PyDict.keys (rest_right cr)) ->
         before t (Remove (join right k)) (Rmdir (join right d))) /\
        (forall mr, PyDict.get k (music_right cr) = Some mr ->
                    before t (Remove (join right (k ++ ext mr)))
                      (Rmdir (join right d)))) /\
  (forall d, In d (PyDict.keys (dirs_to_delete cr)) ->
     exists pre post,
       sync_steps FLAC_tags MP3_tags cfg cr =
       pre ++ always (Rmdir (join right d)) :: post) /\
  (forall pre post p s s1 e,
      sync_steps FLAC_tags MP3_tags cfg cr = pre ++ always (Rmdir p) :: post ->
      run_steps perform pre s = (s1, None) ->
      perform (Rmdir p) (fst s1) = Raise e ->
      synchronise FLAC_tags MP3_tags perform cfg cr s =
      ((fst s1, snd s1 ++ [Rmdir p]), Some e)).
Proof.
  intros Hl Hr Hperm cr.
  set (cr0 := CompResult_init cfg left right le re) in *.
  destruct (CompResult_init_fields cfg left right le re)
    as (_ & Ebr & Eml & Erl & Edl & Emr & Err & Edr & _ & Ed & Ef & Em).
  fold cr0 in Ebr, Eml, Erl, Edl, Emr, Err, Edr, Ed, Ef, Em.
  assert (Cbr : base_path_right cr = right) by exact Ebr.
  assert (Cd : dirs_to_delete cr = dirs_to_delete cr0) by reflexivity.
  pose proof (scan_dirs_nodup cfg re 0) as Nd.
  assert (Kd : PyDict.keys (dirs_to_delete cr) =
               filter (fun k => negb (PyDict.mem k (dir_dict (get_files_dirs cfg le 0))))
                 (PyDict.keys (dir_dict (get_files_dirs cfg re 0)))).
  { rewrite Cd, Ed. now apply keys_dict_minus. }
  assert (Hstart : forall k, In k (PyDict.keys (dirs_to_delete cr)) ->
                             starts_with_char sep k = false).
  { intros k Hk. rewrite Kd in Hk. apply filter_In in Hk.
    apply (@scan_keys_start cfg re Hr 0 k). tauto. }
  assert (Hleft : forall d k,
             In d (PyDict.keys (dirs_to_delete cr)) -> beneath d k ->
             ~ In k (PyDict.keys (dir_dict (get_files_dirs cfg le 0))) /\
             ~ In k (PyDict.keys (music_files (get_files_dirs cfg le 0))) /\
             ~ In k (PyDict.keys (rest_files (get_files_dirs cfg le 0)))).
  { intros d k Hd Hb. rewrite Cd, Ed in Hd. apply In_keys_dict_minus in Hd.
    destruct Hd as [_ Hd].
    repeat split; intros Hk; apply Hd;
      apply (@scan_key_closure cfg le Hl 0 k d); auto. }
  assert (Hplan : plan_remove_dirs cr =
                  map (fun d => Rmdir (join right d))
                    (rev (PyDict.keys (dirs_to_delete cr)))).
  { unfold plan_remove_dirs. now rewrite Cbr. }
  assert (Hnd : NoDup (plan_remove_dirs cr)).
  { rewrite Hplan. apply NoDup_map_in.
    - intros x y Hx Hy E. apply in_rev in Hx. apply in_rev in Hy.
      inversion E as [E']. apply join_inj in E'; auto.
    - apply NoDup_rev. rewrite Kd. now apply NoDup_filter_keys. }
  (* the contents of a directory to delete, in the plans *)
  assert (Hcont : forall d k,
             In d (PyDict.keys (dirs_to_delete cr)) -> beneath d k ->
             (In k (PyDict.keys (dirs_right cr)) ->
              before (plan_remove_dirs cr) (Rmdir (join right k))
                (Rmdir (join right d))) /\
             (In k (PyDict.keys (rest_right cr)) ->
              In (Remove (join right k)) (plan_remove_files cr)) /\
             (forall mr, PyDict.get k (music_right cr) = Some mr ->
                In (Remove (join right (k ++ ext mr))) (plan_remove_music cr))).
  { intros d k Hd Hb. destruct (Hleft d k Hd Hb) as (Ld & Lm & Lr).
    split; [|split].
    - intros Hk. change (dirs_right cr) with (dirs_right cr0) in Hk.
      rewrite Edr in Hk. rewrite Hplan.
      apply (before_map (fun d0 => Rmdir (join right d0))).
      apply before_rev. rewrite Kd.
      apply before_filter.
      + apply ancestors_first_before; auto.
        apply (@scan_dirs_ancestors_first cfg re Hr 0 empty_scan).
        apply ancestors_first_nil.
      + rewrite Kd in Hd. apply filter_In in Hd. tauto.
      + apply negb_true_iff. now apply mem_false_keys.
    - intros Hk. change (rest_right cr) with (rest_right cr0) in Hk.
      rewrite Err in Hk. unfold plan_remove_files. rewrite Cbr.
      apply (in_map (fun f => Remove (join right f))).
      change (rest_to_delete cr) with order.
      apply (Permutation_in _ (Permutation_sym Hperm)).
      unfold _compare_files in Ef. inversion Ef as [[E1 E2]].
      rewrite E2. apply filter_In. split; auto.
      apply negb_true_iff. now apply mem_false_keys.
    - intros mr Hg. change (music_right cr) with (music_right cr0) in Hg.
      rewrite Emr in Hg. unfold plan_remove_music. rewrite Cbr.
      apply (in_map (fun kv => Remove (join right (fst kv ++ ext (snd kv))%string))
               (music_to_delete cr) (k, mr)).
      assert (E3 : music_to_delete cr =
                   dict_minus (music_files (get_files_dirs cfg re 0))
                     (music_files (get_files_dirs cfg le 0))).
      { change (music_to_delete cr) with (music_to_delete cr0).
        unfold _compare_music in Em.
        destruct (fold_left _ _ _) as [lo ch] in Em. now inversion Em. }
      rewrite E3, dict_minus_filter by apply scan_music_nodup.
      apply filter_In. split; [now apply get_Some_In|].
      cbn [fst]. apply negb_true_iff. now apply mem_false_keys. }
  split; [intros s; apply synchronise_steps|].
  split; [exact Hplan|]. split; [exact Hnd|]. split.
  { intros s.
    destruct (synchronise_calls FLAC_tags MP3_tags perform cfg cr s)
      as (t1 & q & Ht & H1 & Hq).
    exists (t1 ++ q). split; [exact Ht|].
    intros d k Hd Hb Hin. destruct (Hcont d k Hd Hb) as (Cdir & Cfile & Cmusic).
    assert (Hp : In (Rmdir (join right d)) (plan_remove_dirs cr)).
    { rewrite Hplan. apply (in_map (fun d0 => Rmdir (join right d0))).
      now apply -> in_rev. }
    split; [|split].
    - intros Hk. apply rmdir_after with (cr := cr) (s := s); auto.
    - intros Hk. apply rmdir_after with (cr := cr) (s := s); auto.
    - intros mr Hg. apply rmdir_after with (cr := cr) (s := s); auto. }
  split.
  { intros d Hd. rewrite <- Cbr. now apply sync_steps_rmdir. }
  intros pre post p s s1 e. apply synchronise_rmdir_fatal.
Qed.

Lemma synchronise_order_witness :
  let le := [EDir "Artist" [EFile "a.flac" 1]] in
  let re := [EDir "Artist" [EFile "a.mp3" 1];
             EDir "Old" [EDir "Album" [EFile "c.mp3" 2; EFile "notes.txt" 3];
                         EFile "cover.jpg" 4]] in
  let order := ["Old/cover.jpg"; "Old/Album/notes.txt"] in
  let cr := with_rest_to_delete order
              (CompResult_init default_config "left" "right" le re) in
  names_ok le = true /\ names_ok re = true /\
  Permutation order
    (rest_to_delete (CompResult_init default_config "left" "right" le re)) /\
  (forall s, synchronise no_tags no_frames quiet_perform default_config cr s =
             run_steps quiet_perform
               (sync_steps no_tags no_frames default_config cr) s) /\
  NoDup (plan_remove_dirs cr) /\
  (forall s, exists t,
      snd (fst (synchronise no_tags no_frames quiet_perform default_config cr s))
        = snd s ++ t /\
      forall d k,
        In d (PyDict.keys (dirs_to_delete cr)) -> beneath d k ->
        In (Rmdir (join "right" d)) t ->
        (In k (PyDict.keys (dirs_right cr)) ->
         before t (Rmdir (join "right" k)) (Rmdir (join "right" d))) /\
        (In k (PyDict.keys (rest_right cr)) ->
         before t (Remove (join "right" k)) (Rmdir (join "right" d))) /\
        (forall mr, PyDict.get k (music_right cr) = Some mr ->
                    before t (Remove (join "right" (k ++ ext mr)))
                      (Rmdir (join "right" d)))).
Proof.
  cbv zeta.
  assert (P : Permutation ["Old/cover.jpg"; "Old/Album/notes.txt"]
                (rest_to_delete
                   (CompResult_init default_config "left" "right"
                      [EDir "Artist" [EFile "a.flac" 1]]
                      [EDir "Artist" [EFile "a.mp3" 1];
                       EDir "Old" [EDir "Album" [EFile "c.mp3" 2;
                                                 EFile "notes.txt" 3];
                                   EFile "cover.jpg" 4]]))).
  { apply perm_swap. }
  destruct (@synchronise_order unit no_tags no_frames quiet_perform default_config
              "left" "right"
              [EDir "Artist" [EFile "a.flac" 1]]
              [EDir "Artist" [EFile "a.mp3" 1];
               EDir "Old" [EDir "Album" [EFile "c.mp3" 2; EFile "notes.txt" 3];
                           EFile "cover.jpg" 4]]
              ["Old/cover.jpg"; "Old/Album/notes.txt"]
              eq_refl eq_refl P)
    as (H1 & _ & H3 & H4 & _).
  split; [reflexivity|]. split; [reflexivity|]. split; [exact P|].
  split; [exact H1|]. split; [exact H3|exact H4].
Defined.

(** The run of the witness: the files are removed in the order given,
    then the directories, the inner one first. *)
Example synchronise_old_album :
  let le := [EDir "Artist" [EFile "a.flac" 1]] in
  let re := [EDir "Artist" [EFile "a.mp3" 1];
             EDir "Old" [EDir "Album" [EFile "c.mp3" 2; EFile "notes.txt" 3];
                         EFile "cover.jpg" 4]] in
  let cr := with_rest_to_delete ["Old/cover.jpg"; "Old/Album/notes.txt"]
              (CompResult_init default_config "left" "right" le re) in
  synchronise no_tags no_frames quiet_perform default_config cr (tt, []) =
  ((tt, [Remove "right/Old/Album/c.mp3"; Remove "right/Old/cover.jpg";
         Remove "right/Old/Album/notes.txt";
         Rmdir "right/Old/Album"; Rmdir "right/Old"]), None).
Proof. vm_compute. reflexivity. Qed.

(** A directory that is not empty when its turn comes: [os.rmdir] raises
    and the run ends there, the directory above is not tried. *)
Example rmdir_not_empty_stops :
  let le := [] in
  let re := [EDir "Old" [EDir "Album" []]] in
  let cr := CompResult_init default_config "left" "right" le re in
  synchronise no_tags_fs no_frames_fs fs_perform default_config cr
    (["right/Old"; "right/Old/Album"; "right/Old/Album/.hidden"], []) =
  ((["right/Old"; "right/Old/Album"; "right/Old/Album/.hidden"],
    [Rmdir "right/Old/Album"]), Some (OSError "Directory not empty")).
Proof. vm_compute. reflexivity. Qed.

(** ** Audio files that changed *)

(** X4. A key of [music_changed] has an entry on both sides: the two
    subscripts of the loop of [_copy_music_changed] raise no [KeyError]. *)
Lemma music_changed_entries (cfg : config) (left right : string)
  (le re : list entry) (x : string) :
  In x (music_changed (CompResult_init cfg left right le re)) ->
  exists ml mr,
    PyDict.get x (music_left (CompResult_init cfg left right le re)) = Some ml /\
    PyDict.get x (music_right (CompResult_init cfg left right le re)) = Some mr /\
    (last_mod ml > last_mod mr)%Z.
Proof.
  destruct (CompResult_init_fields cfg left right le re)
    as (_ & _ & Eml & _ & _ & Emr & _ & _ & _ & _ & _ & Em).
  cbv zeta in Eml, Emr, Em. rewrite Eml, Emr.
  rewrite compare_music_filter in Em. inversion Em as [[E1 E2 E3]].
  intros Hx. rewrite E2 in Hx. apply filter_In in Hx. destruct Hx as [_ Hx].
  unfold music_newer in Hx.
  destruct (PyDict.get x (music_files (get_files_dirs cfg re 0))) as [r|];
    [|discriminate].
  destruct (PyDict.get x (music_files (get_files_dirs cfg le 0))) as [l|];
    [|discriminate].
  exists l, r. repeat split. rewrite Z.gtb_ltb in Hx. apply Z.ltb_lt in Hx. lia.
Qed.

Lemma music_changed_entries_witness :
  exists ml mr,
    PyDict.get "a"
      (music_left (CompResult_init default_config "left" "right"
                     [EFile "a.flac" 5] [EFile "a.mp3" 1])) = Some ml /\
    PyDict.get "a"
      (music_right (CompResult_init default_config "left" "right"
                      [EFile "a.flac" 5] [EFile "a.mp3" 1])) = Some mr /\
    (last_mod ml > last_mod mr)%Z.
Proof.
  exact (@music_changed_entries default_config "left" "right"
           [EFile "a.flac" 5] [EFile "a.mp3" 1] "a" (or_introl eq_refl)).
Defined.

(** Scenario B: the tags differ, the only call saves tags. *)
Example scenario_B :
  let cr := CompResult_init default_config "left" "right"
              [EDir "Artist" [EDir "Album" [EFile "01 Track.flac" 2]]]
              [EDir "Artist" [EDir "Album" [EFile "01 Track.mp3" 1]]] in
  music_changed cr = ["Artist/Album/01 Track"] /\
  exists saved,
    synchronise titled no_frames quiet_perform default_config cr (tt, []) =
    ((tt, [SaveTags "right/Artist/Album/01 Track.mp3" saved]), None).
Proof. split; [reflexivity|]. eexists. vm_compute. reflexivity. Qed.

(** With equal tags the lossless file is encoded again. *)
Example equal_tags_encode :
  let cr := CompResult_init default_config "left" "right"
              [EFile "a.flac" 5] [EFile "a.mp3" 1] in
  synchronise no_tags no_frames quiet_perform default_config cr (tt, []) =
  ((tt, [FlacToMp3 "left/a.flac" "right/a.mp3" (Some [])]), None).
Proof. vm_compute. reflexivity. Qed.

(** With equal tags the compressed file is copied. *)
Example equal_tags_copy :
  let cr := CompResult_init default_config "left" "right"
              [EFile "a.mp3" 5] [EFile "a.mp3" 1] in
  synchronise no_tags no_frames quiet_perform default_config cr (tt, []) =
  ((tt, [Copy2 "left/a.mp3" "right/a.mp3"]), None).
Proof. vm_compute. reflexivity. Qed.

(** A right file whose extension is not exactly [.mp3] stops the run. *)
Example right_extension_upper :
  let cr := CompResult_init default_config "left" "right"
              [EFile "a.flac" 5] [EFile "a.MP3" 1] in
  synchronise no_tags no_frames quiet_perform default_config cr (tt, []) =
  ((tt, []), Some (AssertionError "Target file is not .mp3")).
Proof. vm_compute. reflexivity. Qed.

(** ** The collections of a comparison *)

(** The keys of the map of the other files of a scan are distinct. *)
Lemma scan_rest_nodup (cfg : config) (es : list entry) (level : nat) :
  NoDup (PyDict.keys (rest_files (get_files_dirs cfg es level))).
Proof.
  unfold get_files_dirs.
  assert (H : forall acc, NoDup (PyDict.keys (rest_files acc)) ->
                NoDup (PyDict.keys (rest_files
                  (fold_left (fun a e => scan_entry cfg level e a) es acc)))).
  { induction es as [|e es IH]; intros acc Hacc; simpl; auto.
    apply IH. destruct e as [n children|n m|n].
    - rewrite scan_entry_dir.
      destruct (str_in n (dirs_to_ignore cfg)); auto.
      cbn [rest_files]. now apply NoDup_keys_update.
    - cbn [scan_entry]. destruct (splitext n) as [no_ext e_ext].
      destruct (str_in (lower e_ext) [".flac"; ".mp3"]); auto.
      cbn [rest_files]. now apply NoDup_keys_set.
    - auto. }
  apply H. constructor.
Qed.

Lemma compare_files_lists (rest_left rest_right : PyDict.t Z) :
  _compare_files rest_left rest_right =
  (filter (file_differs rest_left rest_right) (PyDict.keys rest_left),
   filter (fun k => negb (PyDict.mem k rest_left)) (PyDict.keys rest_right)).
Proof.
  rewrite <- files_to_copy_filter. reflexivity.
Qed.

(** The collections of a comparison, as filters of the maps of the scans. *)
Lemma CompResult_init_filters (cfg : config) (left right : string)
  (le re : list entry) :
  let cr := CompResult_init cfg left right le re in
  let l := get_files_dirs cfg le 0 in
  let r := get_files_dirs cfg re 0 in
  rest_to_copy cr =
    filter (file_differs (rest_files l) (rest_files r)) (PyDict.keys (rest_files l)) /\
  rest_to_delete cr =
    filter (fun k => negb (PyDict.mem k (rest_files l))) (PyDict.keys (rest_files r)) /\
  music_leftonly cr =
    filter (fun x => negb (PyDict.mem x (music_files r))) (PyDict.keys (music_files l)) /\
  music_changed cr =
    filter (music_newer (music_files l) (music_files r)) (PyDict.keys (music_files l)) /\
  music_to_delete cr =
    filter (fun kv => negb (PyDict.mem (fst kv) (music_files l))) (music_files r) /\
  dirs_to_copy cr =
    filter (fun kv => negb (PyDict.mem (fst kv) (dir_dict r))) (dir_dict l) /\
  dirs_to_delete cr =
    filter (fun kv => negb (PyDict.mem (fst kv) (dir_dict l))) (dir_dict r).
Proof.
  cbv zeta.
  destruct (CompResult_init_fields cfg left right le re)
    as (_ & _ & _ & _ & _ & _ & _ & _ & Ec & Ed & Ef & Em).
  cbv zeta in Ec, Ed, Ef, Em.
  rewrite compare_files_lists in Ef. rewrite compare_music_filter in Em.
  inversion Ef as [[E1 E2]]. inversion Em as [[E3 E4 E5]].
  rewrite Ec, Ed, E5.
  rewrite !dict_minus_filter
    by (apply scan_music_nodup || apply scan_dirs_nodup).
  repeat split; assumption.
Qed.

(** X6. No key is in two collections of a comparison, and no key is twice in
    one: a file is not both copied and deleted, an audio file is handled by
    one stage only, a directory is not both created and removed. *)
Theorem collections_disjoint (cfg : config) (left right : string)
  (le re : list entry) :
  let cr := CompResult_init cfg left right le re in
  (forall k, In k (rest_to_copy cr) -> ~ In k (rest_to_delete cr)) /\
  (forall k, In k (music_leftonly cr) ->
             ~ In k (music_changed cr) /\
             ~ In k (PyDict.keys (music_to_delete cr))) /\
  (forall k, In k (music_changed cr) ->
             ~ In k (PyDict.keys (music_to_delete cr))) /\
  (forall k, In k (PyDict.keys (dirs_to_copy cr)) ->
             ~ In k (PyDict.keys (dirs_to_delete cr))) /\
  NoDup (rest_to_copy cr) /\ NoDup (rest_to_delete cr) /\
  NoDup (music_leftonly cr) /\ NoDup (music_changed cr) /\
  NoDup (PyDict.keys (music_to_delete cr)) /\
  NoDup (PyDict.keys (dirs_to_copy cr)) /\
  NoDup (PyDict.keys (dirs_to_delete cr)).
Proof.
  intros cr.
  destruct (CompResult_init_filters cfg left right le re)
    as (E1 & E2 & E3 & E4 & E5 & E6 & E7).
  fold cr in E1, E2, E3, E4, E5, E6, E7.
  rewrite E1, E2, E3, E4, E5, E6, E7.
  rewrite !(keys_filter (fun k => negb (PyDict.mem k _))).
  split.
  { intros k H0 H. apply filter_In in H0. apply filter_In in H.
    destruct H0 as [H0 _]. destruct H as [_ H].
    apply mem_In_keys in H0. rewrite H0 in H. discriminate. }
  split.
  { intros k H. split.
    - intros Hc. apply filter_In in H. apply filter_In in Hc.
      destruct H as [_ H]. destruct Hc as [_ Hc]. unfold music_newer in Hc.
      unfold PyDict.mem in H.
      destruct (PyDict.get k (music_files (get_files_dirs cfg re 0))); discriminate.
    - intros Hd. apply filter_In in H. apply filter_In in Hd.
      destruct H as [H _]. destruct Hd as [_ Hd].
      apply mem_In_keys in H. rewrite H in Hd. discriminate. }
  split.
  { intros k H Hd. apply filter_In in H. apply filter_In in Hd.
    destruct H as [H _]. destruct Hd as [_ Hd].
    apply mem_In_keys in H. rewrite H in Hd. discriminate. }
  split.
  { intros k H Hd. apply filter_In in H. apply filter_In in Hd.
    destruct H as [_ H]. destruct Hd as [Hd _].
    apply mem_In_keys in Hd. rewrite Hd in H. discriminate. }
  repeat split.
  - apply NoDup_filter_keys, scan_rest_nodup.
  - apply NoDup_filter_keys, scan_rest_nodup.
  - apply NoDup_filter_keys, scan_music_nodup.
  - apply NoDup_filter_keys, scan_music_nodup.
  - apply NoDup_filter_keys, scan_music_nodup.
  - apply NoDup_filter_keys, scan_dirs_nodup.
  - apply NoDup_filter_keys, scan_dirs_nodup.
Qed.

Lemma filter_none {A : Type} (f : A -> bool) (l : list A) :
  (forall x, In x l -> f x = false) -> filter f l = [].
Proof.
  induction l as [|a l IH]; intros H; simpl; auto.
  rewrite (H a) by (simpl; auto). apply IH. intros x Hx. apply H. simpl. auto.
Qed.

(** X7. A mirror that is up to date: the two scans have the same directories
    and the same other files with the same modification times, and every
    audio key of one side is a key of the other with a right file that is
    not older.  Then every collection of the comparison is empty and
    [synchronise] makes no call and raises nothing. *)
Theorem in_sync_no_action (world : Type)
  (FLAC_tags : string -> world -> result tag_dict)
  (MP3_tags : string -> world -> result ID3)
  (perform : action -> world -> result world)
  (cfg : config) (left right : string) (le re : list entry) :
  let l := get_files_dirs cfg le 0 in
  let r := get_files_dirs cfg re 0 in
  let cr := CompResult_init cfg left right le re in
  (forall k, PyDict.mem k (dir_dict l) = PyDict.mem k (dir_dict r)) ->
  (forall k, PyDict.get k (rest_files l) = PyDict.get k (rest_files r)) ->
  (forall k, match PyDict.get k (music_files l), PyDict.get k (music_files r) with
             | Some a, Some b => (last_mod a <= last_mod b)%Z
             | None, None => True
             | _, _ => False
             end) ->
  (rest_to_copy cr = [] /\ rest_to_delete cr = [] /\
   music_leftonly cr = [] /\ music_changed cr = [] /\
   music_to_delete cr = [] /\ dirs_to_copy cr = [] /\ dirs_to_delete cr = []) /\
  forall s, synchronise FLAC_tags MP3_tags perform cfg cr s = (s, None).
Proof.
  intros l r cr Hd Hf Hm.
  destruct (CompResult_init_filters cfg left right le re)
    as (E1 & E2 & E3 & E4 & E5 & E6 & E7).
  fold cr l r in E1, E2, E3, E4, E5, E6, E7.
  assert (Hmm : forall k, PyDict.mem k (music_files l) = PyDict.mem k (music_files r)).
  { intros k. specialize (Hm k). unfold PyDict.mem.
    destruct (PyDict.get k (music_files l)), (PyDict.get k (music_files r));
      tauto. }
  assert (Hfm : forall k, PyDict.mem k (rest_files l) = PyDict.mem k (rest_files r)).
  { intros k. unfold PyDict.mem. now rewrite Hf. }
  assert (H : rest_to_copy cr = [] /\ rest_to_delete cr = [] /\
              music_leftonly cr = [] /\ music_changed cr = [] /\
              music_to_delete cr = [] /\ dirs_to_copy cr = [] /\
              dirs_to_delete cr = []).
  { rewrite E1, E2, E3, E4, E5, E6, E7. repeat split; apply filter_none.
    - intros k Hk. unfold file_differs. rewrite <- Hf.
      destruct (PyDict.get k (rest_files l)) as [m|] eqn:E.
      + now rewrite Z.eqb_refl.
      + apply get_In_keys in Hk. contradiction.
    - intros k Hk. rewrite Hfm. apply mem_In_keys in Hk. now rewrite Hk.
    - intros k Hk. rewrite <- Hmm. apply mem_In_keys in Hk. now rewrite Hk.
    - intros k Hk. specialize (Hm k). unfold music_newer.
      destruct (PyDict.get k (music_files r)) as [b|]; auto.
      destruct (PyDict.get k (music_files l)) as [a|]; auto.
      rewrite Z.gtb_ltb. apply Z.ltb_ge. exact Hm.
    - intros [k v] Hk. cbn [fst]. rewrite Hmm.
      assert (Hin : In k (PyDict.keys (music_files r))).
      { unfold PyDict.keys. apply in_map_iff. now exists (k, v). }
      apply mem_In_keys in Hin. now rewrite Hin.
    - intros [k v] Hk. cbn [fst]. rewrite <- Hd.
      assert (Hin : In k (PyDict.keys (dir_dict l))).
      { unfold PyDict.keys. apply in_map_iff. now exists (k, v). }
      apply mem_In_keys in Hin. now rewrite Hin.
    - intros [k v] Hk. cbn [fst]. rewrite Hd.
      assert (Hin : In k (PyDict.keys (dir_dict r))).
      { unfold PyDict.keys. apply in_map_iff. now exists (k, v). }
      apply mem_In_keys in Hin. now rewrite Hin. }
  split; auto.
  destruct H as (H1 & H2 & H3 & H4 & H5 & H6 & H7).
  intros s. unfold synchronise, _copy_dirs, _copy_files, _copy_music_changed,
    _copy_music_leftonly, _remove_music, _remove_files, _remove_dirs.
  rewrite H1, H2, H3, H4, H5, H6, H7. reflexivity.
Qed.

Lemma in_sync_no_action_witness :
  let le := [EDir "Artist" [EFile "a.flac" 1; EFile "cover.jpg" 2]] in
  let re := [EDir "Artist" [EFile "a.mp3" 5; EFile "cover.jpg" 2]] in
  let cr := CompResult_init default_config "left" "right" le re in
  (rest_to_copy cr = [] /\ rest_to_delete cr = [] /\
   music_leftonly cr = [] /\ music_changed cr = [] /\
   music_to_delete cr = [] /\ dirs_to_copy cr = [] /\ dirs_to_delete cr = []) /\
  forall s, synchronise no_tags no_frames quiet_perform default_config cr s = (s, None).
Proof.
  apply (@in_sync_no_action unit no_tags no_frames quiet_perform default_config
           "left" "right"
           [EDir "Artist" [EFile "a.flac" 1; EFile "cover.jpg" 2]]
           [EDir "Artist" [EFile "a.mp3" 5; EFile "cover.jpg" 2]]).
  - intros k. reflexivity.
  - intros k. reflexivity.
  - intros k.
    change (music_files (get_files_dirs default_config
              [EDir "Artist" [EFile "a.flac" 1; EFile "cover.jpg" 2]] 0))
      with [("Artist/a", MusicInfo ".flac" 1)].
    change (music_files (get_files_dirs default_config
              [EDir "Artist" [EFile "a.mp3" 5; EFile "cover.jpg" 2]] 0))
      with [("Artist/a", MusicInfo ".mp3" 5)].
    simpl. destruct (String.eqb k "Artist/a"); simpl; [lia | exact I].
Defined.

(** ** The stages that copy *)

Lemma Forall_update {V : Type} (P : string * V -> Prop) (d2 d : PyDict.t V) :
  Forall P d -> Forall P d2 -> Forall P (PyDict.update d d2).
Proof.
  unfold PyDict.update. revert d.
  induction d2 as [|[k v] d2 IH]; intros d Hd H2; simpl; auto.
  inversion H2; subst. apply IH; auto. now apply Forall_set.
Qed.

Lemma Forall_of_items {V : Type} (P : string * V -> Prop) (l : list (string * V)) :
  Forall P l -> Forall P (PyDict.of_items l).
Proof. intros H. unfold PyDict.of_items. apply Forall_update; auto. Qed.

(** Every entry of the audio map of a scan has one of the two audio
    extensions, in any case of the letters. *)
Lemma scan_music_ext (cfg : config) (es : list entry) :
  forall level acc,
    Forall (fun kv => str_in (lower (ext (snd kv))) [".flac"; ".mp3"] = true)
      (music_files acc) ->
    Forall (fun kv => str_in (lower (ext (snd kv))) [".flac"; ".mp3"] = true)
      (music_files (fold_left (fun a e => scan_entry cfg level e a) es acc)).
Proof.
  induction es as [|n children es IHc IHe|n m es IHe|n es IHe] using entries_ind;
    intros level acc Hacc.
  - exact Hacc.
  - rewrite get_files_dirs_cons. apply IHe.
    rewrite scan_entry_dir. destruct (str_in n (dirs_to_ignore cfg)); auto.
    cbn [music_files]. apply Forall_update; auto.
    unfold join_keys. apply Forall_of_items. apply Forall_map.
    cbn [snd]. apply (IHc (S level) empty_scan). constructor.
  - rewrite get_files_dirs_cons. apply IHe.
    cbn [scan_entry]. destruct (splitext n) as [no_ext e_ext].
    destruct (str_in (lower e_ext) [".flac"; ".mp3"]) eqn:E; auto.
    cbn [music_files]. apply Forall_set; auto.
  - rewrite get_files_dirs_cons. apply IHe. exact Hacc.
Qed.

Lemma audio_ext_cases (e : string) :
  str_in (lower e) [".flac"; ".mp3"] = true ->
  lower e = ".flac" \/ lower e = ".mp3".
Proof.
  intros H. apply str_in_In in H. simpl in H. intuition.
Qed.

Section Stages.
Variable world : Type.
Variable perform : action -> world -> result world.

Lemma for_cmd_ext {A : Type} (body body' : A -> cmd world) (xs : list A) :
  (forall x, In x xs -> forall s, body x s = body' x s) ->
  forall s, for_cmd body xs s = for_cmd body' xs s.
Proof.
  induction xs as [|x xs IH]; intros H s; simpl; auto.
  unfold seq. rewrite (H x) by (simpl; auto).
  destruct (body' x s) as [s1 [e|]]; auto.
  apply IH. intros y Hy. apply H. simpl. auto.
Qed.

(** A loop of calls in a world where each of them succeeds. *)
Lemma for_cmd_calls_succeed {A : Type} (f : A -> action) (xs : list A) :
  (forall x w, In x xs -> exists w', perform (f x) w = Ok w') ->
  forall s, snd (for_cmd (fun x => call perform (f x)) xs s) = None /\
            snd (fst (for_cmd (fun x => call perform (f x)) xs s)) =
            snd s ++ map f xs.
Proof.
  induction xs as [|x xs IH]; intros H s; cbn [for_cmd map].
  - unfold skip. simpl. now rewrite app_nil_r.
  - destruct (H x (fst s) (or_introl eq_refl)) as [w' Hw].
    rewrite (@seq_call_ok world perform (f x) _ s w' Hw).
    destruct (IH (fun y w Hy => H y w (or_intror Hy)) (w', snd s ++ [f x]))
      as [I1 I2].
    split; auto. rewrite I2. cbn [snd]. now rewrite <- app_assoc.
Qed.
End Stages.

Lemma Forall2_map_in {A B : Type} (R : A -> B -> Prop) (g : A -> B) (xs : list A) :
  (forall x, In x xs -> R x (g x)) -> Forall2 R xs (map g xs).
Proof.
  induction xs as [|x xs IH]; intros H; simpl; constructor.
  - apply H. simpl. auto.
  - apply IH. intros y Hy. apply H. simpl. auto.
Qed.

(** A key of [music_leftonly] has an entry on the left, with an audio
    extension. *)
Lemma music_leftonly_entries (cfg : config) (left right : string)
  (le re : list entry) (x : string) :
  In x (music_leftonly (CompResult_init cfg left right le re)) ->
  exists ml,
    PyDict.get x (music_left (CompResult_init cfg left right le re)) = Some ml /\
    (lower (ext ml) = ".flac" \/ lower (ext ml) = ".mp3").
Proof.
  destruct (CompResult_init_filters cfg left right le re)
    as (_ & _ & E3 & _).
  destruct (CompResult_init_fields cfg left right le re)
    as (_ & _ & Eml & _).
  cbv zeta in E3, Eml. rewrite E3, Eml. intros Hx.
  apply filter_In in Hx. destruct Hx as [Hx _].
  destruct (PyDict.get x (music_files (get_files_dirs cfg le 0))) as [ml|] eqn:E.
  - exists ml. split; auto. apply audio_ext_cases.
    pose proof (@scan_music_ext cfg le 0 empty_scan (Forall_nil _)) as Hall.
    rewrite Forall_forall in Hall.
    apply (Hall (x, ml)). now apply get_Some_In.
  - apply get_In_keys in Hx. contradiction.
Qed.

(** X8. The stage of the audio files of the left side only makes one call for
    each key of [music_leftonly], in the order of the list: the encoder for
    a [.flac] file, a copy for an [.mp3] file, with the key and [.mp3] as
    the destination.  The stage raises no exception of its own: in a world
    where every call succeeds it makes all the calls and raises nothing. *)
Theorem copy_music_leftonly_calls (world : Type)
  (perform : action -> world -> result world)
  (cfg : config) (left right : string) (le re : list entry) :
  let cr := CompResult_init cfg left right le re in
  exists plan,
    Forall2 (leftonly_call cr) (music_leftonly cr) plan /\
    calls_in (_copy_music_leftonly perform cr) (planned plan) /\
    ((forall a w, exists w', perform a w = Ok w') ->
     forall s, snd (_copy_music_leftonly perform cr s) = None /\
               snd (fst (_copy_music_leftonly perform cr s)) = snd s ++ plan).
Proof.
  intros cr.
  set (g := fun x => match PyDict.get x (music_left cr) with
                     | Some ml => leftonly_action cr x ml
                     | None => Makedirs ""
                     end).
  assert (Hent : forall x, In x (music_leftonly cr) ->
                   exists ml, PyDict.get x (music_left cr) = Some ml /\
                              (lower (ext ml) = ".flac" \/ lower (ext ml) = ".mp3")).
  { intros x Hx. now apply music_leftonly_entries. }
  assert (Hbody : forall s,
             _copy_music_leftonly perform cr s =
             for_cmd (fun x => call perform (g x)) (music_leftonly cr) s).
  { unfold _copy_music_leftonly. apply for_cmd_ext. intros x Hx s.
    destruct (Hent x Hx) as (ml & Hg & Hext).
    unfold g, leftonly_action, PyDict.getitem. rewrite Hg. cbn [eval]. cbv zeta.
    destruct Hext as [E|E]; rewrite E; reflexivity. }
  exists (map g (music_leftonly cr)). split; [|split].
  - apply Forall2_map_in. intros x Hx. destruct (Hent x Hx) as (ml & Hg & Hext).
    exists ml. unfold g. rewrite Hg. auto.
  - intros s. rewrite Hbody. apply calls_in_for_planned.
  - intros Hok s. rewrite Hbody. apply for_cmd_calls_succeed.
    intros x w _. apply Hok.
Qed.

Lemma seq_makedirs_cases (world : Type) (perform : action -> world -> result world)
  (cr : CompResult) (d : string) (c : cmd world) (s : state world) :
  let a := Makedirs (join (base_path_right cr) d) in
  let body := fun s0 : state world =>
                match call perform a s0 with
                | (s1, Some FileExistsError) => (s1, None)
                | r => r
                end in
  seq body c s =
  match perform a (fst s) with
  | Ok w => c (w, snd s ++ [a])
  | Raise FileExistsError => c (fst s, snd s ++ [a])
  | Raise e => ((fst s, snd s ++ [a]), Some e)
  end.
Proof.
  cbv zeta. unfold seq, call.
  destruct (perform (Makedirs (join (base_path_right cr) d)) (fst s)) as [w|e];
    [reflexivity|destruct e; reflexivity].
Qed.

(** X9. [_copy_dirs] in a world where a call of [os.makedirs] either succeeds
    or finds the directory: the stage tries every directory of
    [dirs_to_copy] and raises nothing. *)
Theorem copy_dirs_existing_ok (world : Type)
  (perform : action -> world -> result world) (cr : CompResult)
  (s : state world) :
  (forall p w, (exists w', perform (Makedirs p) w = Ok w') \/
               perform (Makedirs p) w = Raise FileExistsError) ->
  snd (_copy_dirs perform cr s) = None /\
  snd (fst (_copy_dirs perform cr s)) = snd s ++ plan_copy_dirs cr.
Proof.
  intros H. unfold _copy_dirs, plan_copy_dirs. revert s.
  induction (PyDict.keys (dirs_to_copy cr)) as [|d ds IH]; intros s;
    cbn [for_cmd map].
  - unfold skip. simpl. now rewrite app_nil_r.
  - pose proof (seq_makedirs_cases perform cr d
                  (for_cmd
                     (fun d0 s0 =>
                        match call perform (Makedirs (join (base_path_right cr) d0)) s0 with
                        | (s1, Some FileExistsError) => (s1, None)
                        | r => r
                        end) ds) s) as E0.
    cbv zeta in E0. rewrite E0. clear E0.
    destruct (H (join (base_path_right cr) d) (fst s)) as [[w' E]|E]; rewrite E.
    + destruct (IH (w', snd s ++ [Makedirs (join (base_path_right cr) d)]))
        as [I1 I2].
      split; auto. rewrite I2. cbn [snd]. now rewrite <- app_assoc.
    + destruct (IH (fst s, snd s ++ [Makedirs (join (base_path_right cr) d)]))
        as [I1 I2].
      split; auto. rewrite I2. cbn [snd]. now rewrite <- app_assoc.
Qed.

Lemma copy_dirs_existing_ok_witness :
  let cr := CompResult_init default_config "left" "right"
              [EDir "Artist" [EDir "Album" []]] [] in
  snd (_copy_dirs dirs_exist cr (tt, [])) = None /\
  snd (fst (_copy_dirs dirs_exist cr (tt, []))) =
  [] ++ plan_copy_dirs cr.
Proof.
  exact (@copy_dirs_existing_ok unit dirs_exist
           (CompResult_init default_config "left" "right"
              [EDir "Artist" [EDir "Album" []]] [])
           (tt, [])
           (fun p w => or_intror eq_refl)).
Defined.

(** X10. For a left tree whose names are not empty and hold no separator: a
    directory above a directory to create is in the right scan or is
    created before it, and the directories above a file that the stages
    copy or encode to the right are in the right scan or are created by
    the first stage. *)
Theorem copy_dirs_parents_first (cfg : config) (left right : string)
  (le re : list entry) :
  names_ok le = true ->
  let cr := CompResult_init cfg left right le re in
  (forall d k,
      In k (PyDict.keys (dirs_to_copy cr)) -> beneath d k ->
      In d (PyDict.keys (dirs_right cr)) \/
      before (plan_copy_dirs cr) (Makedirs (join right d)) (Makedirs (join right k))) /\
  (forall d k,
      In k (rest_to_copy cr) \/ In k (music_leftonly cr) \/ In k (music_changed cr) ->
      beneath d k ->
      In d (PyDict.keys (dirs_right cr)) \/
      In (Makedirs (join right d)) (plan_copy_dirs cr)).
Proof.
  intros Hl cr.
  destruct (CompResult_init_filters cfg left right le re)
    as (E1 & _ & E3 & E4 & _ & E6 & _).
  destruct (CompResult_init_fields cfg left right le re)
    as (_ & Ebr & _ & _ & _ & _ & _ & Edr & _).
  fold cr in E1, E3, E4, E6, Ebr, Edr.
  assert (Kd : PyDict.keys (dirs_to_copy cr) =
               filter (fun k => negb (PyDict.mem k (dir_dict (get_files_dirs cfg re 0))))
                 (PyDict.keys (dir_dict (get_files_dirs cfg le 0)))).
  { rewrite E6. apply (keys_filter (fun k => negb (PyDict.mem k _))). }
  assert (Hdir : forall d,
             In d (PyDict.keys (dir_dict (get_files_dirs cfg le 0))) ->
             In d (PyDict.keys (dirs_right cr)) \/
             In d (PyDict.keys (dirs_to_copy cr))).
  { intros d Hd. rewrite Kd, Edr.
    destruct (PyDict.mem d (dir_dict (get_files_dirs cfg re 0))) eqn:E.
    - left. now apply mem_In_keys.
    - right. apply filter_In. split; auto. now rewrite E. }
  split.
  - intros d k Hk Hb. rewrite Kd in Hk. apply filter_In in Hk.
    destruct Hk as [Hk Hkn].
    assert (Hd : In d (PyDict.keys (dir_dict (get_files_dirs cfg le 0)))).
    { apply (@scan_key_closure cfg le Hl 0 k d); auto. }
    destruct (PyDict.mem d (dir_dict (get_files_dirs cfg re 0))) eqn:E.
    + left. rewrite Edr. now apply mem_In_keys.
    + right. unfold plan_copy_dirs. rewrite Ebr.
      apply (before_map (fun d0 => Makedirs (join right d0))).
      rewrite Kd. apply before_filter; auto.
      * apply ancestors_first_before; auto.
        apply (@scan_dirs_ancestors_first cfg le Hl 0 empty_scan).
        apply ancestors_first_nil.
      * now rewrite E.
  - intros d k Hk Hb.
    assert (Hd : In d (PyDict.keys (dir_dict (get_files_dirs cfg le 0)))).
    { apply (@scan_key_closure cfg le Hl 0 k d); auto.
      rewrite E1, E3, E4 in Hk.
      destruct Hk as [Hk|[Hk|Hk]]; apply filter_In in Hk; tauto. }
    destruct (Hdir d Hd) as [H|H]; auto.
    right. unfold plan_copy_dirs. rewrite Ebr.
    now apply (in_map (fun d0 => Makedirs (join right d0))).
Qed.

Lemma copy_dirs_parents_first_witness :
  let cr := CompResult_init default_config "left" "right"
              [EDir "Artist" [EDir "Album" [EFile "01.flac" 1; EFile "cover.jpg" 2]]]
              [EDir "Artist" []] in
  (forall d k,
      In k (PyDict.keys (dirs_to_copy cr)) -> beneath d k ->
      In d (PyDict.keys (dirs_right cr)) \/
      before (plan_copy_dirs cr) (Makedirs (join "right" d)) (Makedirs (join "right" k))) /\
  (forall d k,
      In k (rest_to_copy cr) \/ In k (music_leftonly cr) \/ In k (music_changed cr) ->
      beneath d k ->
      In d (PyDict.keys (dirs_right cr)) \/
      In (Makedirs (join "right" d)) (plan_copy_dirs cr)).
Proof.
  exact (@copy_dirs_parents_first default_config "left" "right"
           [EDir "Artist" [EDir "Album" [EFile "01.flac" 1; EFile "cover.jpg" 2]]]
           [EDir "Artist" []] eq_refl).
Defined.

(** X5. The assertion of [_copy_music_changed]: for a key with an entry on
    both sides whose left tags can be read, a right file whose extension is
    not [.mp3] letter for letter stops the run with [AssertionError] before
    the right file is read and before any call.  The scanner takes
    [.MP3] and [.flac] files of the right side as audio files, so such
    entries exist. *)
Theorem right_not_mp3_stops (world : Type)
  (FLAC_tags : string -> world -> result tag_dict)
  (MP3_tags : string -> world -> result ID3)
  (perform : action -> world -> result world)
  (cfg : config) (cr : CompResult) (x : string) (ml mr : music_info)
  (tags_left : tag_dict) (s : state world) :
  PyDict.get x (music_left cr) = Some ml ->
  PyDict.get x (music_right cr) = Some mr ->
  ext mr <> ".mp3" ->
  read_tags_left FLAC_tags MP3_tags cfg (ext ml)
    (join (base_path_left cr) (x ++ ext ml)) (fst s) = Ok tags_left ->
  _copy_music_changed_body FLAC_tags MP3_tags perform cfg cr x s =
  (s, Some (AssertionError "Target file is not .mp3")).
Proof.
  intros Hl Hr Hext Htl.
  unfold _copy_music_changed_body, PyDict.getitem. rewrite Hl. cbn [eval].
  cbv zeta. unfold read. rewrite Htl. cbn [eval]. rewrite Hr. cbn [eval].
  destruct (String.eqb_spec (ext mr) ".mp3") as [E|_]; [contradiction|].
  reflexivity.
Qed.

Lemma right_not_mp3_stops_witness :
  let cr := CompResult_init default_config "left" "right"
              [EFile "a.flac" 5] [EFile "a.MP3" 1] in
  In "a" (music_changed cr) /\
  _copy_music_changed_body no_tags no_frames quiet_perform default_config cr "a"
    (tt, []) =
  ((tt, []), Some (AssertionError "Target file is not .mp3")).
Proof.
  split; [now left|].
  exact (@right_not_mp3_stops unit no_tags no_frames quiet_perform default_config
           (CompResult_init default_config "left" "right"
              [EFile "a.flac" 5] [EFile "a.MP3" 1])
           "a" (MusicInfo ".flac" 5) (MusicInfo ".MP3" 1) [] (tt, [])
           eq_refl eq_refl
           (fun E : ".MP3" = ".mp3" => ltac:(discriminate E)) eq_refl).
Defined.

(** ** The keys of a scan and the files of the tree *)

Lemma append_empty_r (s : string) : (s ++ "")%string = s.
Proof. induction s as [|a s IH]; simpl; congruence. Qed.

(** [os.path.splitext] cuts a path in two: root and extension give the
    path back. *)
Lemma splitext_append (p : string) :
  (fst (splitext p) ++ snd (splitext p))%string = p.
Proof.
  unfold splitext. destruct (rfind "." p >? rfind sep p)%Z.
  - match goal with |- context [if ?b then _ else _] => destruct b end;
      cbn [fst snd].
    + apply take_drop.
    + apply append_empty_r.
  - cbn [fst snd]. apply append_empty_r.
Qed.

Lemma all_files_cons_dir (n : string) (children es : list entry) :
  all_files (EDir n children :: es) =
  map (join n) (all_files children) ++ all_files es.
Proof. reflexivity. Qed.

Lemma Forall_weaken {A : Type} (P Q : A -> Prop) (l : list A) :
  (forall x, P x -> Q x) -> Forall P l -> Forall Q l.
Proof. intros H F. induction F; constructor; auto. Qed.

(** The entries of the audio map: key and extension make the path of a
    file of the tree. *)
Lemma scan_music_paths (cfg : config) (es : list entry) :
  names_ok es = true ->
  forall level acc (F : list string),
    Forall (fun kv => In (fst kv ++ ext (snd kv))%string F /\
                      starts_with_char sep (fst kv ++ ext (snd kv)) = false /\
                      starts_with_char sep (fst kv) = false)
      (music_files acc) ->
    Forall (fun kv => In (fst kv ++ ext (snd kv))%string (F ++ all_files es) /\
                      starts_with_char sep (fst kv ++ ext (snd kv)) = false /\
                      starts_with_char sep (fst kv) = false)
      (music_files (fold_left (fun a e => scan_entry cfg level e a) es acc)).
Proof.
  induction es as [|n children es IHc IHe|n m es IHe|n es IHe] using entries_ind;
    intros Hok level acc F Hacc.
  - simpl. now rewrite app_nil_r.
  - apply names_ok_cons in Hok. destruct Hok as [He Hes].
    apply entry_ok_dir in He. destruct He as [Hn Hch].
    destruct (name_ok_spec n Hn) as [Hne Hns].
    rewrite get_files_dirs_cons, all_files_cons_dir, app_assoc.
    apply IHe; auto.
    assert (Hw : Forall
                   (fun kv => In (fst kv ++ ext (snd kv))%string
                                (F ++ map (join n) (all_files children)) /\
                              starts_with_char sep (fst kv ++ ext (snd kv)) = false /\
                              starts_with_char sep (fst kv) = false)
                   (music_files acc)).
    { eapply Forall_weaken; [|exact Hacc]. intros kv (A & B & C).
      repeat split; auto. apply in_app_iff. auto. }
    rewrite scan_entry_dir. destruct (str_in n (dirs_to_ignore cfg)); auto.
    cbn [music_files]. apply Forall_update; auto.
    unfold join_keys. apply Forall_of_items. apply Forall_map.
    pose proof (IHc Hch (S level) empty_scan [] (Forall_nil _)) as Hsub.
    eapply Forall_weaken; [|exact Hsub].
    intros [k v] (A & B & C). cbn [fst snd] in *.
    rewrite (join_ok n k Hn C).
    assert (E : ((n ++ String sep k) ++ ext v)%string = join n (k ++ ext v)).
    { rewrite (join_ok n (k ++ ext v) Hn B). now rewrite append_assoc. }
    repeat split.
    + rewrite E. apply in_app_iff. right. now apply in_map.
    + rewrite append_assoc. rewrite starts_append by auto.
      now apply no_sep_starts.
    + rewrite starts_append by auto. now apply no_sep_starts.
  - apply names_ok_cons in Hok. destruct Hok as [He Hes].
    apply entry_ok_name in He. cbn [entry_name] in He.
    destruct (name_ok_spec n He) as [Hne Hns].
    rewrite get_files_dirs_cons.
    change (all_files (EFile n m :: es)) with ([n] ++ all_files es).
    rewrite app_assoc. apply IHe; auto.
    assert (Hw : Forall
                   (fun kv => In (fst kv ++ ext (snd kv))%string (F ++ [n]) /\
                              starts_with_char sep (fst kv ++ ext (snd kv)) = false /\
                              starts_with_char sep (fst kv) = false)
                   (music_files acc)).
    { eapply Forall_weaken; [|exact Hacc]. intros kv (A & B & C).
      repeat split; auto. apply in_app_iff. auto. }
    cbn [scan_entry].
    pose proof (splitext_append n) as Ea.
    pose proof (splitext_no_sep n Hns) as Hf.
    destruct (splitext n) as [no_ext e_ext]. cbn [fst snd] in Ea, Hf.
    destruct (str_in (lower e_ext) [".flac"; ".mp3"]); auto.
    cbn [music_files]. apply Forall_set; auto. cbn [fst snd ext].
    rewrite Ea. repeat split.
    + apply in_app_iff. right. now left.
    + now apply no_sep_starts.
    + now apply no_sep_starts.
  - apply names_ok_cons in Hok. destruct Hok as [He Hes].
    rewrite get_files_dirs_cons.
    change (all_files (EOther n :: es)) with ([] ++ all_files es).
    apply IHe; auto.
Qed.

(** The keys of the map of the other files are paths of files of the
    tree. *)
Lemma scan_rest_paths (cfg : config) (es : list entry) :
  forall level k,
    In k (PyDict.keys (rest_files (get_files_dirs cfg es level))) ->
    In k (all_files es).
Proof.
  induction es as [|n children es IHc IHe|n m es IHe|n es IHe] using entries_ind;
    intros level k Hk; apply get_files_dirs_rest_keys in Hk;
    destruct Hk as (e & Hin & Hk).
  - destruct Hin.
  - rewrite all_files_cons_dir. apply in_app_iff. destruct Hin as [<-|Hin].
    + left. destruct Hk as (_ & k' & Hk' & ->). apply in_map. eauto.
    + right. apply (IHe level). apply get_files_dirs_rest_keys. eauto.
  - change (all_files (EFile n m :: es)) with (n :: all_files es).
    destruct Hin as [<-|Hin].
    + destruct Hk as [_ ->]. now left.
    + right. apply (IHe level). apply get_files_dirs_rest_keys. eauto.
  - change (all_files (EOther n :: es)) with (all_files es).
    destruct Hin as [<-|Hin]; [destruct Hk|].
    apply (IHe level). apply get_files_dirs_rest_keys. eauto.
Qed.

(** The keys of the directory map are paths of directories of the tree. *)
Lemma scan_dir_paths (cfg : config) (es : list entry) :
  forall level k,
    In k (PyDict.keys (dir_dict (get_files_dirs cfg es level))) ->
    exists n, In (k, n) (all_dirs es).
Proof.
  induction es as [|n children es IHc IHe|n m es IHe|n es IHe] using entries_ind;
    intros level k Hk; apply get_files_dirs_dir_keys in Hk;
    destruct Hk as (e & Hin & Hk).
  - destruct Hin.
  - rewrite all_dirs_cons_dir. destruct Hin as [<-|Hin].
    + destruct Hk as (_ & [->|(k' & Hk' & ->)]).
      * exists n. now left.
      * destruct (IHc (S level) k' Hk') as [n' Hn'].
        exists n'. right. apply in_app_iff. left.
        apply in_map_iff. now exists (k', n').
    + destruct (IHe level k) as [n' Hn'].
      * apply get_files_dirs_dir_keys. eauto.
      * exists n'. right. apply in_app_iff. now right.
  - change (all_dirs (EFile n m :: es)) with (all_dirs es).
    destruct Hin as [<-|Hin]; [destruct Hk|].
    apply (IHe level). apply get_files_dirs_dir_keys. eauto.
  - change (all_dirs (EOther n :: es)) with (all_dirs es).
    destruct Hin as [<-|Hin]; [destruct Hk|].
    apply (IHe level). apply get_files_dirs_dir_keys. eauto.
Qed.

Lemma scan_music_entry_path (cfg : config) (es : list entry) (k : string)
  (v : music_info) :
  names_ok es = true ->
  PyDict.get k (music_files (get_files_dirs cfg es 0)) = Some v ->
  In (k ++ ext v)%string (all_files es).
Proof.
  intros Hok Hg.
  pose proof (@scan_music_paths cfg es Hok 0 empty_scan [] (Forall_nil _)) as H.
  rewrite Forall_forall in H. apply get_Some_In in Hg.
  destruct (H (k, v) Hg) as [A _]. exact A.
Qed.

(** X11. For trees whose names are not empty and hold no separator, the paths
    of the calls are paths of the trees that were scanned: a file that is
    removed is a file of the right tree, a directory that is removed is a
    directory of the right tree, a file that is copied is a file of the
    left tree, and the key of an audio file with the extension of its
    entry is the path of a file of its side. *)
Theorem paths_are_scanned (cfg : config) (left right : string)
  (le re : list entry) :
  names_ok le = true -> names_ok re = true ->
  let cr := CompResult_init cfg left right le re in
  (forall a, In a (plan_remove_music cr) \/ In a (plan_remove_files cr) ->
             exists p, In p (all_files re) /\ a = Remove (join right p)) /\
  (forall a, In a (plan_remove_dirs cr) ->
             exists p n, In (p, n) (all_dirs re) /\ a = Rmdir (join right p)) /\
  (forall a, In a (plan_copy_files cr) ->
             exists p, In p (all_files le) /\
                       a = Copy2 (join left p) (join right p)) /\
  (forall x ml, PyDict.get x (music_left cr) = Some ml ->
                In (x ++ ext ml)%string (all_files le)) /\
  (forall x mr, PyDict.get x (music_right cr) = Some mr ->
                In (x ++ ext mr)%string (all_files re)).
Proof.
  intros Hl Hr cr.
  destruct (CompResult_init_filters cfg left right le re)
    as (E1 & E2 & _ & _ & E5 & _ & E7).
  destruct (CompResult_init_fields cfg left right le re)
    as (Ebl & Ebr & Eml & _ & _ & Emr & _).
  fold cr in E1, E2, E5, E7, Ebl, Ebr, Eml, Emr.
  split; [|split; [|split; [|split]]].
  - intros a [Ha|Ha].
    + unfold plan_remove_music in Ha. rewrite E5, Ebr in Ha.
      apply in_map_iff in Ha. destruct Ha as [[k v] [<- Hin]].
      apply filter_In in Hin. destruct Hin as [Hin _]. cbn [fst snd].
      exists (k ++ ext v)%string. split; auto.
      apply (@scan_music_entry_path cfg re k v Hr).
      apply In_get_Some; auto. apply scan_music_nodup.
    + unfold plan_remove_files in Ha. rewrite E2, Ebr in Ha.
      apply in_map_iff in Ha. destruct Ha as [k [<- Hin]].
      apply filter_In in Hin. destruct Hin as [Hin _].
      exists k. split; auto. now apply (@scan_rest_paths cfg re 0).
  - intros a Ha. unfold plan_remove_dirs in Ha. rewrite E7, Ebr in Ha.
    apply in_map_iff in Ha. destruct Ha as [k [<- Hin]].
    apply in_rev in Hin.
    rewrite (keys_filter (fun k => negb (PyDict.mem k _))) in Hin.
    apply filter_In in Hin. destruct Hin as [Hin _].
    destruct (@scan_dir_paths cfg re 0 k Hin) as [n Hn]. eauto.
  - intros a Ha. unfold plan_copy_files in Ha. rewrite E1, Ebl, Ebr in Ha.
    apply in_map_iff in Ha. destruct Ha as [k [<- Hin]].
    apply filter_In in Hin. destruct Hin as [Hin _].
    exists k. split; auto. now apply (@scan_rest_paths cfg le 0).
  - intros x ml Hg. rewrite Eml in Hg. now apply (@scan_music_entry_path cfg le).
  - intros x mr Hg. rewrite Emr in Hg. now apply (@scan_music_entry_path cfg re).
Qed.

Lemma paths_are_scanned_witness :
  let le := [EDir "Artist" [EFile "01.flac" 3; EFile "cover.jpg" 2]] in
  let re := [EDir "Artist" [EFile "01.mp3" 1; EFile "old.txt" 1];
             EDir "Gone" [EFile "x.MP3" 1]] in
  let cr := CompResult_init default_config "left" "right" le re in
  (forall a, In a (plan_remove_music cr) \/ In a (plan_remove_files cr) ->
             exists p, In p (all_files re) /\ a = Remove (join "right" p)) /\
  (forall a, In a (plan_remove_dirs cr) ->
             exists p n, In (p, n) (all_dirs re) /\ a = Rmdir (join "right" p)) /\
  (forall a, In a (plan_copy_files cr) ->
             exists p, In p (all_files le) /\
                       a = Copy2 (join "left" p) (join "right" p)) /\
  (forall x ml, PyDict.get x (music_left cr) = Some ml ->
                In (x ++ ext ml)%string (all_files le)) /\
  (forall x mr, PyDict.get x (music_right cr) = Some mr ->
                In (x ++ ext mr)%string (all_files re)).
Proof.
  exact (@paths_are_scanned default_config "left" "right"
           [EDir "Artist" [EFile "01.flac" 3; EFile "cover.jpg" 2]]
           [EDir "Artist" [EFile "01.mp3" 1; EFile "old.txt" 1];
            EDir "Gone" [EFile "x.MP3" 1]]
           eq_refl eq_refl).
Defined.

(** The value of a directory in the map of a scan: the level of the scan
    plus the number of separators of the key. *)
Lemma scan_dirs_level (cfg : config) (es : list entry) :
  names_ok es = true ->
  forall level acc,
    Forall (fun kv => snd kv = level + count_char sep (fst kv) /\
                      starts_with_char sep (fst kv) = false) (dir_dict acc) ->
    Forall (fun kv => snd kv = level + count_char sep (fst kv) /\
                      starts_with_char sep (fst kv) = false)
      (dir_dict (fold_left (fun a e => scan_entry cfg level e a) es acc)).
Proof.
  induction es as [|n children es IHc IHe|n m es IHe|n es IHe] using entries_ind;
    intros Hok level acc Hacc.
  - exact Hacc.
  - apply names_ok_cons in Hok. destruct Hok as [He Hes].
    apply entry_ok_dir in He. destruct He as [Hn Hch].
    destruct (name_ok_spec n Hn) as [Hne Hns].
    rewrite get_files_dirs_cons. apply IHe; auto.
    rewrite scan_entry_dir. destruct (str_in n (dirs_to_ignore cfg)); auto.
    cbn [dir_dict]. apply Forall_update.
    + apply Forall_set; auto. cbn [fst snd]. split.
      * apply contains_char_count in Hns. rewrite Hns. lia.
      * now apply no_sep_starts.
    + unfold join_keys. apply Forall_of_items. apply Forall_map.
      pose proof (IHc Hch (S level) empty_scan (Forall_nil _)) as Hsub.
      eapply Forall_weaken; [|exact Hsub].
      intros [k v] [A B]. cbn [fst snd] in *.
      rewrite (join_ok n k Hn B). split.
      * rewrite count_char_append. apply contains_char_count in Hns.
        rewrite Hns. subst v. simpl. lia.
      * rewrite starts_append by auto. now apply no_sep_starts.
  - apply names_ok_cons in Hok. destruct Hok as [He Hes].
    rewrite get_files_dirs_cons. apply IHe; auto.
    cbn [scan_entry]. destruct (splitext n) as [no_ext e_ext].
    destruct (str_in (lower e_ext) [".flac"; ".mp3"]); auto.
  - apply names_ok_cons in Hok. destruct Hok as [He Hes].
    rewrite get_files_dirs_cons. apply IHe; auto.
Qed.

(** X12. For a tree whose names are not empty and hold no separator, the
    value that [get_files_dirs] stores for a directory is its depth: the
    level of the call plus the number of separators of its key. *)
Theorem dir_level_is_depth (cfg : config) (es : list entry) (level : nat)
  (k : string) (n : nat) :
  names_ok es = true ->
  PyDict.get k (dir_dict (get_files_dirs cfg es level)) = Some n ->
  n = level + count_char sep k.
Proof.
  intros Hok Hg.
  pose proof (@scan_dirs_level cfg es Hok level empty_scan (Forall_nil _)) as H.
  rewrite Forall_forall in H. apply get_Some_In in Hg.
  destruct (H (k, n) Hg) as [A _]. exact A.
Qed.

Lemma dir_level_is_depth_witness : 2 = 0 + count_char sep "Artist/Album/CD1".
Proof.
  exact (@dir_level_is_depth default_config
           [EDir "Artist" [EDir "Album" [EDir "CD1" []; EDir "CD2" []]]]
           0 "Artist/Album/CD1" 2 eq_refl eq_refl).
Defined.

(** ** The normal form of the number fields *)

Lemma split_on_parts (c : ascii) (s x : string) :
  In x (split_on c s) -> contains_char c x = false.
Proof.
  revert x. induction s as [|a s IH]; intros x; simpl.
  - intros [<-|[]]. reflexivity.
  - destruct (Ascii.eqb a c) eqn:E.
    + intros [<-|H]; auto.
    + destruct (split_on c s) as [|h t] eqn:Es.
      * intros [<-|[]]. simpl. now rewrite E.
      * intros [<-|H].
        -- simpl. rewrite E. apply IH. now left.
        -- apply IH. now right.
Qed.

(** After one block of the dict branch, the first value of the number
    field holds no separator. *)
Lemma split_total_normal (number_key total_key : string) (d d' : tag_dict)
  (v : string) (vs : list string) :
  number_key <> total_key ->
  split_total number_key total_key d = Ok d' ->
  PyDict.get number_key d' = Some (v :: vs) ->
  contains_char sep v = false.
Proof.
  intros N. unfold split_total.
  destruct (PyDict.get number_key d) as [[|v0 vs0]|] eqn:Eg; try congruence.
  destruct (contains_char sep v0) eqn:Ec.
  - destruct (split_on sep v0) as [|a [|b [|c l]]] eqn:Es; try congruence.
    intros H Hg. inversion H; subst.
    rewrite get_set_other, get_set_same in Hg by congruence.
    inversion Hg; subst. apply (split_on_parts sep v0). rewrite Es. now left.
  - intros H Hg. inversion H; subst. congruence.
Qed.

(** A block of the dict branch does nothing to a dict whose number field
    is absent or has a first value without separator. *)
Lemma split_total_fixed (number_key total_key : string) (d : tag_dict) :
  (forall x, PyDict.get number_key d = Some x ->
             exists v vs, x = v :: vs /\ contains_char sep v = false) ->
  split_total number_key total_key d = Ok d.
Proof.
  intros H. unfold split_total.
  destruct (PyDict.get number_key d) as [x|]; auto.
  destruct (H x eq_refl) as (v & vs & -> & Hv). now rewrite Hv.
Qed.

Lemma split_total_value (number_key total_key : string) (d d' : tag_dict)
  (x : list string) :
  number_key <> total_key ->
  split_total number_key total_key d = Ok d' ->
  PyDict.get number_key d' = Some x ->
  exists v vs, x = v :: vs /\ contains_char sep v = false.
Proof.
  intros N Hs Hg. destruct x as [|v vs].
  - exfalso. unfold split_total in Hs.
    destruct (PyDict.get number_key d) as [[|v0 vs0]|] eqn:Eg; try congruence.
    destruct (contains_char sep v0).
    + destruct (split_on sep v0) as [|a [|b [|c l]]]; try congruence.
      inversion Hs; subst.
      rewrite get_set_other, get_set_same in Hg by congruence. discriminate.
    + inversion Hs; subst. congruence.
  - exists v, vs. split; auto. eapply split_total_normal; eauto.
Qed.

Lemma xx_total_correct_dict (d d' : tag_dict) :
  xx_total_correct (DictTags d) = Ok (DictTags d') ->
  exists d1,
    split_total "tracknumber" "tracktotal" d = Ok d1 /\
    split_total "discnumber" "disctotal" d1 = Ok d'.
Proof.
  cbn [xx_total_correct].
  destruct (split_total "tracknumber" "tracktotal" d) as [d1|] eqn:E1;
    cbn [bind]; [|discriminate].
  destruct (split_total "discnumber" "disctotal" d1) as [d2|] eqn:E2;
    cbn [bind]; [|discriminate].
  intros H. inversion H; subst. eauto.
Qed.

Lemma xx_total_correct_dict_values (d d' : tag_dict) :
  xx_total_correct (DictTags d) = Ok (DictTags d') ->
  (forall x, PyDict.get "tracknumber" d' = Some x ->
             exists v vs, x = v :: vs /\ contains_char sep v = false) /\
  (forall x, PyDict.get "discnumber" d' = Some x ->
             exists v vs, x = v :: vs /\ contains_char sep v = false).
Proof.
  intros H. destruct (xx_total_correct_dict d H) as (d1 & E1 & E2). split.
  - intros x Hx.
    rewrite (@split_total_get_other "discnumber" "disctotal" "tracknumber" d1 d')
      in Hx by (auto; discriminate).
    apply (@split_total_value "tracknumber" "tracktotal" d d1 x); auto. discriminate.
  - intros x Hx.
    apply (@split_total_value "discnumber" "disctotal" d1 d' x); auto. discriminate.
Qed.

Lemma id3_tags_as_dict_xx (cfg : config) (id3_tags : ID3) (d : tag_dict) :
  id3_tags_as_dict cfg id3_tags = Ok d ->
  exists d0 out,
    for_each (id3_tags_as_dict_step cfg id3_tags) (PyDict.keys id3_tags)
      (PyDict.empty, []) = Ok (d0, out) /\
    xx_total_correct (DictTags d0) = Ok (DictTags d).
Proof.
  unfold id3_tags_as_dict, id3_tags_as_dict_out.
  destruct (for_each (id3_tags_as_dict_step cfg id3_tags) (PyDict.keys id3_tags)
              (PyDict.empty, [])) as [[d0 out]|] eqn:E; cbn [bind]; [|discriminate].
  cbn [fst snd].
  destruct (xx_total_correct (DictTags d0)) as [r|] eqn:Ex; cbn [bind];
    [|discriminate].
  destruct r as [t|d2|]; cbn [as_dict bind]; try discriminate.
  intros H. inversion H; subst. eauto.
Qed.

Lemma forallb_false_In {A : Type} (f : A -> bool) (l : list A) (x : A) :
  In x l -> f x = false -> forallb f l = false.
Proof.
  intros Hin Hf. destruct (forallb f l) eqn:E; auto.
  rewrite forallb_forall in E. rewrite (E x Hin) in Hf. discriminate.
Qed.

Lemma contains_char_eqb_false (c : ascii) (v w : string) :
  contains_char c v = true -> contains_char c w = false -> String.eqb v w = false.
Proof.
  intros Hv Hw. destruct (String.eqb_spec v w); auto. subst. congruence.
Qed.

(** X13. The field dict of an mp3 file is in normal form: the first values of
    ['tracknumber'] and ['discnumber'] hold no separator.  The field dict
    of a FLAC file is compared as it is read; when its ['tracknumber'] or
    ['discnumber'] starts with a value that holds a separator, it differs
    from the field dict of every mp3 file. *)
Theorem number_fields_normal (cfg : config) (id3_tags : ID3) (d : tag_dict) :
  id3_tags_as_dict cfg id3_tags = Ok d ->
  (forall K v vs, K = "tracknumber" \/ K = "discnumber" ->
                  PyDict.get K d = Some (v :: vs) ->
                  contains_char sep v = false) /\
  (forall (td : tag_dict) K v vs,
      K = "tracknumber" \/ K = "discnumber" ->
      PyDict.get K td = Some (v :: vs) ->
      contains_char sep v = true ->
      tag_dict_eqb td d = false).
Proof.
  intros H. destruct (id3_tags_as_dict_xx cfg id3_tags H) as (d0 & out & _ & Hx).
  destruct (xx_total_correct_dict_values d0 Hx) as [Ht Hd].
  assert (Hn : forall K v vs, K = "tracknumber" \/ K = "discnumber" ->
                 PyDict.get K d = Some (v :: vs) -> contains_char sep v = false).
  { intros K v vs [-> | ->] Hg.
    - destruct (Ht _ Hg) as (v' & vs' & E & Hv). now inversion E; subst.
    - destruct (Hd _ Hg) as (v' & vs' & E & Hv). now inversion E; subst. }
  split; auto.
  intros td K v vs HK Hg Hv. unfold tag_dict_eqb.
  apply andb_false_iff. right.
  apply (forallb_false_In _ td (K, v :: vs)); [now apply get_Some_In|].
  cbn [fst snd]. destruct (PyDict.get K d) as [[|w ws]|] eqn:Eg; auto.
  cbn [list_string_eqb].
  rewrite (contains_char_eqb_false sep v w Hv (Hn K w ws HK Eg)). reflexivity.
Qed.

Lemma number_fields_normal_witness :
  (forall K v vs, K = "tracknumber" \/ K = "discnumber" ->
                  PyDict.get K [("tracknumber", ["3"]); ("tracktotal", ["14"])] =
                  Some (v :: vs) ->
                  contains_char sep v = false) /\
  (forall (td : tag_dict) K v vs,
      K = "tracknumber" \/ K = "discnumber" ->
      PyDict.get K td = Some (v :: vs) ->
      contains_char sep v = true ->
      tag_dict_eqb td [("tracknumber", ["3"]); ("tracktotal", ["14"])] = false).
Proof.
  exact (@number_fields_normal default_config [("TRCK", TRCK ["3/14"])]
           [("tracknumber", ["3"]); ("tracktotal", ["14"])] eq_refl).
Defined.

(** Scenario: a FLAC file with the track number [3/14] and its mp3 copy.
    The two field dicts differ, so a newer FLAC file has its tags copied
    and is not encoded again. *)
Example slash_number_tag_copy :
  let td : tag_dict := [("tracknumber", ["3/14"])] in
  exists saved d,
    copy_tag_dict_to_mp3 default_config [] td = Ok saved /\
    id3_tags_as_dict default_config saved = Ok d /\
    tag_dict_eqb td d = false.
Proof. do 2 eexists. repeat split; vm_compute; reflexivity. Qed.

(** One block of the merge: the result is a dict, it does not hold both
    frames, and the other keys are as before. *)
Lemma merge_total_facts (tk nk : string) (mk : list string -> frame) (a b : ID3) :
  NoDup (PyDict.keys a) -> nk <> tk ->
  (forall v, HashKey (mk v) = nk) ->
  merge_total tk nk mk a = Ok b ->
  NoDup (PyDict.keys b) /\
  (PyDict.get nk b = None \/ PyDict.get tk b = None) /\
  (forall k, k <> nk -> k <> tk -> PyDict.get k b = PyDict.get k a).
Proof.
  intros Ha Hne Hmk Hm. unfold merge_total in Hm.
  destruct (PyDict.mem tk a && PyDict.mem nk a) eqn:Eb.
  - apply andb_prop in Eb. destruct Eb as [Bt Bn].
    unfold PyDict.getitem in Hm.
    destruct (PyDict.get nk a) as [nf|]; cbn [bind] in Hm; [|discriminate].
    destruct (text0 nf) as [N|]; cbn [bind] in Hm; [|discriminate].
    destruct (PyDict.get tk a) as [tf|]; cbn [bind] in Hm; [|discriminate].
    destruct (text0 tf) as [T|]; cbn [bind] in Hm; [|discriminate].
    inversion Hm; subst b. clear Hm.
    unfold delall, add. rewrite Hmk.
    assert (Hmem : forall f, PyDict.mem tk (PyDict.set nk f a) = true).
    { intros f. apply mem_In_keys. apply In_keys_set. right. now apply mem_In_keys. }
    rewrite Hmem. split; [|split].
    + apply NoDup_keys_remove. now apply NoDup_keys_set.
    + right. apply get_remove_same. now apply NoDup_keys_set.
    + intros k K1 K2. rewrite get_remove_other by congruence.
      apply get_set_other. congruence.
  - inversion Hm; subst b. split; auto. split; auto.
    unfold PyDict.mem in Eb.
    destruct (PyDict.get tk a); auto. destruct (PyDict.get nk a); auto.
    discriminate Eb.
Qed.

(** X14. [xx_total_correct] applied to its own result changes nothing, for a
    field dict and for a container (as a dict, no key twice). *)
Theorem xx_total_correct_idempotent (t r : tag_thing) :
  match t with
  | ID3Tags tags => NoDup (PyDict.keys tags)
  | _ => True
  end ->
  xx_total_correct t = Ok r ->
  xx_total_correct r = Ok r.
Proof.
  destruct t as [tags|d|]; intros Hwf H.
  - cbn [xx_total_correct] in H.
    destruct (merge_total "TXXX:tracktotal" "TRCK" TRCK tags) as [t1|] eqn:E1;
      cbn [bind] in H; [|discriminate].
    destruct (merge_total "TXXX:disctotal" "TPOS" TPOS t1) as [t2|] eqn:E2;
      cbn [bind] in H; [|discriminate].
    inversion H; subst r. clear H. cbn [xx_total_correct].
    assert (D1 : "TRCK" <> "TXXX:tracktotal") by discriminate.
    assert (D2 : "TPOS" <> "TXXX:disctotal") by discriminate.
    destruct (@merge_total_facts "TXXX:tracktotal" "TRCK" TRCK tags t1 Hwf D1
                (fun v => eq_refl) E1)
      as (N1 & A1 & O1).
    destruct (@merge_total_facts "TXXX:disctotal" "TPOS" TPOS t1 t2 N1 D2
                (fun v => eq_refl) E2)
      as (N2 & A2 & O2).
    rewrite merge_total_not_both.
    + cbn [bind]. rewrite merge_total_not_both; auto.
    + rewrite !O2 by discriminate. exact A1.
  - destruct r as [t'|d'|].
    + cbn [xx_total_correct] in H.
      destruct (split_total "tracknumber" "tracktotal" d) as [d1|];
        cbn [bind] in H; [|discriminate].
      destruct (split_total "discnumber" "disctotal" d1); cbn [bind] in H;
        discriminate.
    + destruct (xx_total_correct_dict_values d H) as [Ht Hd].
      cbn [xx_total_correct].
      rewrite (split_total_fixed "tracknumber" "tracktotal" d' Ht). cbn [bind].
      rewrite (split_total_fixed "discnumber" "disctotal" d' Hd). reflexivity.
    + cbn [xx_total_correct] in H.
      destruct (split_total "tracknumber" "tracktotal" d) as [d1|];
        cbn [bind] in H; [|discriminate].
      destruct (split_total "discnumber" "disctotal" d1); cbn [bind] in H;
        discriminate.
  - discriminate.
Qed.

Lemma xx_total_correct_idempotent_witness :
  xx_total_correct
    (ID3Tags [("TRCK", TRCK ["3/14"]); ("TIT2", text_frame "TIT2" ["Song"])]) =
  Ok (ID3Tags [("TRCK", TRCK ["3/14"]); ("TIT2", text_frame "TIT2" ["Song"])]).
Proof.
  apply (@xx_total_correct_idempotent
           (ID3Tags [("TRCK", TRCK ["3"]); ("TXXX:tracktotal", TXXX "tracktotal" ["14"]);
                     ("TIT2", text_frame "TIT2" ["Song"])])
           (ID3Tags [("TRCK", TRCK ["3/14"]); ("TIT2", text_frame "TIT2" ["Song"])])).
  - cbn. repeat constructor; simpl; intuition discriminate.
  - reflexivity.
Defined.

(** ** What a tag copy leaves in the container *)

Lemma add_frames_other (cfg : config) (td : tag_dict) (k : string) :
  (forall name v f, In (name, v) td -> get_id3_frame cfg name v = Ok f ->
                    HashKey f <> k) ->
  forall tags tags1,
    add_frames cfg td tags = Ok tags1 ->
    PyDict.get k tags1 = PyDict.get k tags.
Proof.
  unfold add_frames. induction td as [|[n v] td IH]; intros Hk tags tags1; simpl.
  - intros H. now inversion H.
  - destruct (get_id3_frame cfg n v) as [f|] eqn:Ef; cbn [bind]; [|discriminate].
    intros H. rewrite (IH (fun name v0 f0 Hin => Hk name v0 f0 (or_intror Hin))
                         (add f tags) tags1 H).
    unfold add. apply get_set_other. apply (Hk n v f); auto. now left.
Qed.

Lemma merge_total_other (total_key number_key k : string)
  (mk : list string -> frame) (a b : ID3) :
  (forall v, HashKey (mk v) = number_key) ->
  merge_total total_key number_key mk a = Ok b ->
  k <> number_key -> k <> total_key ->
  PyDict.get k b = PyDict.get k a.
Proof.
  intros Hmk Hm K1 K2. unfold merge_total in Hm.
  destruct (PyDict.mem total_key a && PyDict.mem number_key a) eqn:Eb.
  - apply andb_prop in Eb. destruct Eb as [Bt Bn].
    unfold PyDict.getitem in Hm.
    destruct (PyDict.get number_key a) as [nf|]; cbn [bind] in Hm; [|discriminate].
    destruct (text0 nf) as [N|]; cbn [bind] in Hm; [|discriminate].
    destruct (PyDict.get total_key a) as [tf|]; cbn [bind] in Hm; [|discriminate].
    destruct (text0 tf) as [T|]; cbn [bind] in Hm; [|discriminate].
    inversion Hm; subst b. clear Hm. unfold delall, add. rewrite Hmk.
    assert (Hmem : forall f, PyDict.mem total_key (PyDict.set number_key f a) = true).
    { intros f. apply mem_In_keys. apply In_keys_set. right. now apply mem_In_keys. }
    rewrite Hmem. rewrite get_remove_other by congruence.
    apply get_set_other. congruence.
  - now inversion Hm.
Qed.

Lemma copy_tag_dict_to_mp3_steps (cfg : config) (tags saved : ID3) (td : tag_dict) :
  copy_tag_dict_to_mp3 cfg tags td = Ok saved ->
  exists tags1 tags2,
    add_frames cfg td tags = Ok tags1 /\
    merge_total "TXXX:tracktotal" "TRCK" TRCK tags1 = Ok tags2 /\
    merge_total "TXXX:disctotal" "TPOS" TPOS tags2 = Ok saved.
Proof.
  unfold copy_tag_dict_to_mp3.
  destruct (add_frames cfg td tags) as [tags1|]; cbn [bind]; [|discriminate].
  cbn [xx_total_correct].
  destruct (merge_total "TXXX:tracktotal" "TRCK" TRCK tags1) as [tags2|] eqn:E2;
    cbn [bind]; [|discriminate].
  destruct (merge_total "TXXX:disctotal" "TPOS" TPOS tags2) as [tags3|] eqn:E3;
    cbn [bind as_ID3]; [|discriminate].
  intros H. inversion H; subst. exists tags1, tags2. repeat split; assumption.
Qed.

Lemma copy_other_frames_get (cfg : config) (tags saved : ID3)
  (td : tag_dict) (k : string) :
  copy_tag_dict_to_mp3 cfg tags td = Ok saved ->
  ~ In k number_total_keys ->
  (forall name v f, In (name, v) td -> get_id3_frame cfg name v = Ok f ->
                    HashKey f <> k) ->
  PyDict.get k saved = PyDict.get k tags.
Proof.
  intros Hc Hk Hf.
  destruct (copy_tag_dict_to_mp3_steps cfg tags td Hc) as (t1 & t2 & E1 & E2 & E3).
  assert (N : k <> "TRCK" /\ k <> "TPOS" /\ k <> "TXXX:tracktotal" /\
              k <> "TXXX:disctotal").
  { unfold number_total_keys in Hk. simpl in Hk. intuition congruence. }
  destruct N as (N1 & N2 & N3 & N4).
  rewrite (@merge_total_other "TXXX:disctotal" "TPOS" k TPOS t2 saved
             (fun v => eq_refl) E3 N2 N4).
  rewrite (@merge_total_other "TXXX:tracktotal" "TRCK" k TRCK t1 t2
             (fun v => eq_refl) E2 N1 N3).
  apply (@add_frames_other cfg td k Hf tags t1 E1).
Qed.

(** X15. A tag copy adds and replaces frames and merges the totals; it removes
    no other frame.  A frame of the container under a key that is not the
    key of the frame of a field of the dict, and not one of the four keys
    of the merge, is in the saved container as it was. *)
Theorem copy_keeps_other_frames (cfg : config) (tags saved : ID3)
  (td : tag_dict) (k : string) :
  copy_tag_dict_to_mp3 cfg tags td = Ok saved ->
  ~ In k number_total_keys ->
  (forall name v f, In (name, v) td -> get_id3_frame cfg name v = Ok f ->
                    HashKey f <> k) ->
  PyDict.get k saved = PyDict.get k tags.
Proof.
  intros Hc Hk Hf. now apply (@copy_other_frames_get cfg tags saved td k).
Qed.

Lemma copy_keeps_other_frames_witness :
  PyDict.get "TCON"
    [("TCON", text_frame "TCON" ["Rock"]); ("TIT2", text_frame "TIT2" ["Song"])] =
  PyDict.get "TCON" [("TCON", text_frame "TCON" ["Rock"])].
Proof.
  apply (@copy_keeps_other_frames default_config
           [("TCON", text_frame "TCON" ["Rock"])]
           [("TCON", text_frame "TCON" ["Rock"]); ("TIT2", text_frame "TIT2" ["Song"])]
           [("title", ["Song"])] "TCON").
  - reflexivity.
  - simpl. intuition discriminate.
  - intros name v f [E|[]] Hf. inversion E; subst.
    vm_compute in Hf. inversion Hf; subst. vm_compute. discriminate.
Defined.

(** ** The loop of the conversion back, as a fold *)

Lemma id3_tags_as_dict_step_field (cfg : config) (id3_tags : ID3) (t : string)
  (f : frame) (d d' : tag_dict) (out out' : list warning) :
  PyDict.get t id3_tags = Some f ->
  id3_tags_as_dict_step cfg id3_tags t (d, out) = Ok (d', out') ->
  d' = put_field (field_of cfg f) d.
Proof.
  intros Hg. unfold id3_tags_as_dict_step, field_of, PyDict.getitem.
  rewrite Hg. cbn [bind].
  destruct (PyDict.get (FrameID f) (id3_to_vorbis_map cfg)) as [key|].
  - destruct (text f) as [val|].
    + intros H. now inversion H.
    + destruct (print_ignored t id3_tags); cbn [bind]; intros H;
        now inversion H.
  - destruct (str_in (FrameID f) (id3_frames_to_ignore cfg)).
    + intros H. now inversion H.
    + destruct (desc f) as [key|].
      * destruct (text f) as [val|].
        -- intros H. now inversion H.
        -- destruct (print_ignored t id3_tags); cbn [bind]; intros H;
             now inversion H.
      * destruct (print_ignored t id3_tags); cbn [bind]; intros H;
          now inversion H.
Qed.

Lemma for_each_fields (cfg : config) (id3_tags : ID3) (l : ID3) :
  (forall kv, In kv l -> PyDict.get (fst kv) id3_tags = Some (snd kv)) ->
  forall d out d' out',
    for_each (id3_tags_as_dict_step cfg id3_tags) (PyDict.keys l) (d, out) =
    Ok (d', out') ->
    d' = fields_of cfg l d.
Proof.
  unfold fields_of, PyDict.keys.
  induction l as [|[t f] l IH]; intros Hl d out d' out';
    cbn [for_each map fst fold_left].
  - intros H. now inversion H.
  - destruct (id3_tags_as_dict_step cfg id3_tags t (d, out)) as [[d1 out1]|] eqn:Es;
      cbn [bind]; [|discriminate].
    intros H. cbn [snd].
    rewrite (@id3_tags_as_dict_step_field cfg id3_tags t f d d1 out out1
               (Hl (t, f) (or_introl eq_refl)) Es) in H.
    apply (IH (fun kv Hin => Hl kv (or_intror Hin)) _ _ _ _ H).
Qed.

(** The dict that [id3_tags_as_dict] returns: the fields of the frames,
    put in the order of the container, then the split of the numbers. *)
Lemma id3_tags_as_dict_fields (cfg : config) (id3_tags : ID3) (d : tag_dict) :
  NoDup (PyDict.keys id3_tags) ->
  id3_tags_as_dict cfg id3_tags = Ok d ->
  xx_total_correct (DictTags (fields_of cfg id3_tags PyDict.empty)) =
  Ok (DictTags d).
Proof.
  intros Hnd H. destruct (id3_tags_as_dict_xx cfg id3_tags H) as (d0 & out & Hl & Hx).
  assert (Hall : forall kv, In kv id3_tags ->
                    PyDict.get (fst kv) id3_tags = Some (snd kv)).
  { intros [t f] Hin. now apply In_get_Some. }
  rewrite <- (@for_each_fields cfg id3_tags id3_tags Hall PyDict.empty [] d0 out Hl).
  exact Hx.
Qed.

Lemma put_field_keys (o : option (string * list string)) (d : tag_dict)
  (K : string) :
  In K (PyDict.keys d) -> In K (PyDict.keys (put_field o d)).
Proof.
  destruct o as [[k v]|]; simpl; auto. intros H. apply In_keys_set. auto.
Qed.

Lemma fields_of_keys (cfg : config) (l : ID3) :
  forall d K, In K (PyDict.keys d) -> In K (PyDict.keys (fields_of cfg l d)).
Proof.
  unfold fields_of. induction l as [|kv l IH]; intros d K H; simpl; auto.
  apply IH. now apply put_field_keys.
Qed.

(** A frame with a field puts the key of the field into the dict. *)
Lemma fields_of_has (cfg : config) (l : ID3) (t : string) (f : frame)
  (K : string) (v : list string) :
  In (t, f) l -> field_of cfg f = Some (K, v) ->
  forall d, In K (PyDict.keys (fields_of cfg l d)).
Proof.
  unfold fields_of. induction l as [|kv l IH]; intros Hin Hf d; simpl.
  - destruct Hin.
  - destruct Hin as [->|Hin].
    + cbn [snd]. rewrite Hf. cbn [put_field].
      apply (fields_of_keys cfg l). apply In_keys_set. auto.
    + apply IH; auto.
Qed.

(** Without a frame for the field, the key is as before. *)
Lemma fields_of_none (cfg : config) (l : ID3) (K : string) :
  (forall kv v, In kv l -> field_of cfg (snd kv) <> Some (K, v)) ->
  forall d, PyDict.get K (fields_of cfg l d) = PyDict.get K d.
Proof.
  unfold fields_of. induction l as [|kv l IH]; intros Hl d; simpl; auto.
  rewrite IH by (intros kv' v Hin; apply Hl; now right).
  destruct (field_of cfg (snd kv)) as [[k v]|] eqn:Ef; cbn [put_field]; auto.
  apply get_set_other. intros ->. apply (Hl kv v); auto. now left.
Qed.

(** With frames for the field that all hold one value, the field has
    that value. *)
Lemma fields_of_value (cfg : config) (l : ID3) (K : string) (v : list string) :
  (forall kv v', In kv l -> field_of cfg (snd kv) = Some (K, v') -> v' = v) ->
  forall d,
    (PyDict.get K d = Some v \/
     exists kv, In kv l /\ field_of cfg (snd kv) = Some (K, v)) ->
    PyDict.get K (fields_of cfg l d) = Some v.
Proof.
  unfold fields_of. induction l as [|kv l IH]; intros Hl d H; simpl.
  - destruct H as [H|[kv [[] _]]]. exact H.
  - apply IH.
    + intros kv' v' Hin. apply Hl. now right.
    + destruct (field_of cfg (snd kv)) as [[k w]|] eqn:Ef; cbn [put_field].
      * destruct (String.eqb_spec k K) as [->|N].
        -- left. rewrite get_set_same. f_equal. apply (Hl kv w); auto. now left.
        -- rewrite get_set_other by auto.
           destruct H as [H|[kv' [[<-|Hin] Hf]]]; auto.
           ++ rewrite Ef in Hf. inversion Hf; subst. contradiction.
           ++ right. eauto.
      * destruct H as [H|[kv' [[<-|Hin] Hf]]]; auto.
        -- congruence.
        -- right. eauto.
Qed.

Lemma add_frames_nodup (cfg : config) (td : tag_dict) :
  forall tags tags1,
    NoDup (PyDict.keys tags) -> add_frames cfg td tags = Ok tags1 ->
    NoDup (PyDict.keys tags1).
Proof.
  unfold add_frames. induction td as [|[n v] td IH]; intros tags tags1 Hnd;
    cbn [for_each fst snd].
  - intros H. inversion H; subst. exact Hnd.
  - destruct (get_id3_frame cfg n v) as [f|]; cbn [bind]; [|discriminate].
    apply IH. unfold add. now apply NoDup_keys_set.
Qed.

Lemma copy_tag_dict_to_mp3_nodup (cfg : config) (tags saved : ID3) (td : tag_dict) :
  NoDup (PyDict.keys tags) ->
  copy_tag_dict_to_mp3 cfg tags td = Ok saved ->
  NoDup (PyDict.keys saved).
Proof.
  intros Hnd Hc.
  destruct (copy_tag_dict_to_mp3_steps cfg tags td Hc) as (t1 & t2 & E1 & E2 & E3).
  pose proof (@add_frames_nodup cfg td tags t1 Hnd E1) as N1.
  assert (D1 : "TRCK" <> "TXXX:tracktotal") by discriminate.
  assert (D2 : "TPOS" <> "TXXX:disctotal") by discriminate.
  destruct (@merge_total_facts "TXXX:tracktotal" "TRCK" TRCK t1 t2 N1 D1
              (fun v => eq_refl) E2) as (N2 & _).
  destruct (@merge_total_facts "TXXX:disctotal" "TPOS" TPOS t2 saved N2 D2
              (fun v => eq_refl) E3) as (N3 & _).
  exact N3.
Qed.

Lemma split_total_keys (number_key total_key : string) (d d' : tag_dict)
  (K : string) :
  split_total number_key total_key d = Ok d' ->
  In K (PyDict.keys d) -> In K (PyDict.keys d').
Proof.
  unfold split_total.
  destruct (PyDict.get number_key d) as [[|v0 vs]|]; try congruence.
  destruct (contains_char sep v0); try congruence.
  destruct (split_on sep v0) as [|a [|b [|c l]]]; try congruence.
  intros H Hin. inversion H; subst. apply In_keys_set. right.
  apply In_keys_set. now right.
Qed.

Lemma xx_total_correct_dict_keys (d d' : tag_dict) (K : string) :
  xx_total_correct (DictTags d) = Ok (DictTags d') ->
  In K (PyDict.keys d) -> In K (PyDict.keys d').
Proof.
  intros H Hin. destruct (xx_total_correct_dict d H) as (d1 & E1 & E2).
  eapply split_total_keys; eauto. eapply split_total_keys; eauto.
Qed.

(** Two field dicts that compare equal have the same keys. *)
Lemma tag_dict_eqb_keys (td d : tag_dict) (K : string) :
  NoDup (PyDict.keys td) -> tag_dict_eqb td d = true ->
  In K (PyDict.keys d) -> In K (PyDict.keys td).
Proof.
  intros Hnd H. unfold tag_dict_eqb in H. apply andb_prop in H.
  destruct H as [Hlen Hall]. apply Nat.eqb_eq in Hlen.
  rewrite forallb_forall in Hall.
  assert (Hincl : incl (PyDict.keys td) (PyDict.keys d)).
  { intros k Hk. unfold PyDict.keys in Hk. apply in_map_iff in Hk.
    destruct Hk as [[k' v] [<- Hin]]. specialize (Hall _ Hin). cbn [fst snd] in *.
    apply get_In_keys. destruct (PyDict.get k' d); congruence. }
  apply (NoDup_length_incl Hnd); auto.
  unfold PyDict.keys. rewrite !length_map. lia.
Qed.

(** X16. A frame of the mp3 file that the source has no field for: the tag
    copy leaves it, the conversion back turns it into a field, and the two
    field dicts still differ after the copy. *)
Theorem stale_frame_keeps_difference (cfg : config) (tags saved : ID3)
  (td d : tag_dict) (k K : string) (f : frame) (v : list string) :
  NoDup (PyDict.keys tags) -> NoDup (PyDict.keys td) ->
  copy_tag_dict_to_mp3 cfg tags td = Ok saved ->
  id3_tags_as_dict cfg saved = Ok d ->
  PyDict.get k tags = Some f -> field_of cfg f = Some (K, v) ->
  ~ In k number_total_keys ->
  (forall name v f, In (name, v) td -> get_id3_frame cfg name v = Ok f ->
                    HashKey f <> k) ->
  PyDict.get K td = None ->
  PyDict.get k saved = Some f /\ In K (PyDict.keys d) /\
  tag_dict_eqb td d = false.
Proof.
  intros Hnt Hnd Hc Hd Hg Hf Hk Hother HK.
  assert (Hs : PyDict.get k saved = Some f).
  { rewrite <- Hg. apply (@copy_other_frames_get cfg tags saved td k); auto. }
  pose proof (@copy_tag_dict_to_mp3_nodup cfg tags saved td Hnt Hc) as Hns.
  pose proof (@id3_tags_as_dict_fields cfg saved d Hns Hd) as Hx.
  assert (Hin : In K (PyDict.keys d)).
  { apply (@xx_total_correct_dict_keys (fields_of cfg saved PyDict.empty) d K Hx).
    apply (@fields_of_has cfg saved k f K v); auto. now apply get_Some_In. }
  split; auto. split; auto.
  destruct (tag_dict_eqb td d) eqn:E; auto.
  exfalso. apply (proj1 (get_None_keys K td) HK).
  apply (@tag_dict_eqb_keys td d K Hnd E Hin).
Qed.

Lemma stale_frame_keeps_difference_witness :
  PyDict.get "TCON"
    [("TCON", text_frame "TCON" ["Rock"]); ("TIT2", text_frame "TIT2" ["Song"])] =
  Some (text_frame "TCON" ["Rock"]) /\
  In "genre" (PyDict.keys [("genre", ["Rock"]); ("title", ["Song"])]) /\
  tag_dict_eqb [("title", ["Song"])] [("genre", ["Rock"]); ("title", ["Song"])] = false.
Proof.
  apply (@stale_frame_keeps_difference default_config
           [("TCON", text_frame "TCON" ["Rock"])]
           [("TCON", text_frame "TCON" ["Rock"]); ("TIT2", text_frame "TIT2" ["Song"])]
           [("title", ["Song"])] [("genre", ["Rock"]); ("title", ["Song"])]
           "TCON" "genre" (text_frame "TCON" ["Rock"]) ["Rock"]).
  - repeat constructor. simpl. tauto.
  - repeat constructor. simpl. tauto.
  - reflexivity.
  - reflexivity.
  - reflexivity.
  - reflexivity.
  - simpl. intuition discriminate.
  - intros name v f [E|[]] Hf. inversion E; subst.
    vm_compute in Hf. inversion Hf; subst. vm_compute. discriminate.
  - reflexivity.
Defined.

(** ** The frame of a field and the field of a frame *)

Lemma NoDup_snd_inj {A B : Type} (l : list (A * B)) (a b : A) (i : B) :
  NoDup (map snd l) -> In (a, i) l -> In (b, i) l -> a = b.
Proof.
  induction l as [|[x y] l IH]; simpl; intros Hnd Ha Hb; [contradiction|].
  inversion Hnd as [|? ? Hy Hnd']; subst.
  destruct Ha as [Ea|Ha], Hb as [Eb|Hb].
  - congruence.
  - inversion Ea; subst. exfalso. apply Hy. apply in_map_iff. now exists (b, i).
  - inversion Eb; subst. exfalso. apply Hy. apply in_map_iff. now exists (a, i).
  - auto.
Qed.

Lemma mapping_injective_spec (cfg : config) :
  mapping_injective cfg = true ->
  NoDup (map snd (vorbis_to_id3_map cfg)) /\
  ~ In "TXXX" (map snd (vorbis_to_id3_map cfg)) /\
  str_in "TXXX" (id3_frames_to_ignore cfg) = false.
Proof.
  unfold mapping_injective. intros H.
  apply andb_prop in H. destruct H as [H H3].
  apply andb_prop in H. destruct H as [H1 H2].
  split; [now apply nodupb_NoDup|]. split.
  - intros Hin. apply str_in_In in Hin. rewrite Hin in H2. discriminate.
  - now destruct (str_in "TXXX" (id3_frames_to_ignore cfg)).
Qed.

(** In a table without a frame id for two fields, the reverse table
    gives the field of a frame id back. *)
Lemma reverse_map_get (cfg : config) (name i : string) :
  mapping_injective cfg = true ->
  PyDict.get name (vorbis_to_id3_map cfg) = Some i ->
  PyDict.get i (id3_to_vorbis_map cfg) = Some name.
Proof.
  intros Hinj Hg. destruct (mapping_injective_spec cfg Hinj) as (Hnd & _ & _).
  apply get_Some_In in Hg.
  pose proof (id3_to_vorbis_map_mem cfg i name Hg) as Hm. unfold PyDict.mem in Hm.
  destruct (PyDict.get i (id3_to_vorbis_map cfg)) as [name'|] eqn:E;
    [|discriminate].
  f_equal. apply id3_to_vorbis_map_In in E.
  apply (NoDup_snd_inj (vorbis_to_id3_map cfg) name' name i Hnd E Hg).
Qed.

Lemma reverse_map_TXXX (cfg : config) :
  mapping_injective cfg = true ->
  PyDict.get "TXXX" (id3_to_vorbis_map cfg) = None.
Proof.
  intros Hinj. destruct (mapping_injective_spec cfg Hinj) as (_ & Hx & _).
  destruct (PyDict.get "TXXX" (id3_to_vorbis_map cfg)) as [name|] eqn:E; auto.
  exfalso. apply Hx. apply id3_to_vorbis_map_In in E.
  apply in_map_iff. now exists (name, "TXXX").
Qed.

(** The text of the frame of a text frame class: the values as given,
    when the time stamps among them are written back as they are. *)
Lemma new_frame_text (i : string) (c : frame_class) (v : list string)
  (f : frame) :
  text_class c = true -> new_frame i c v = Ok f ->
  (forall stamp, c = TimeStampTextFrame stamp -> map stamp v = v) ->
  text f = Some v.
Proof.
  intros Hc Hn Hs. destruct c; try discriminate; cbn [new_frame] in Hn;
    inversion Hn; subst f; cbn [text]; auto.
  now rewrite (Hs stamp eq_refl).
Qed.

(** The conversion back gives the field of a frame that was made from
    it. *)
Lemma field_of_made (cfg : config) (name : string) (v : list string) (f : frame) :
  mapping_ok cfg = true -> mapping_injective cfg = true ->
  (forall i stamp, PyDict.get name (vorbis_to_id3_map cfg) = Some i ->
                   PyDict.get i (Frames cfg) = Some (TimeStampTextFrame stamp) ->
                   map stamp v = v) ->
  get_id3_frame cfg name v = Ok f ->
  field_of cfg f = Some (name, v).
Proof.
  intros Hok Hinj Hst Hg.
  destruct (PyDict.get name (vorbis_to_id3_map cfg)) as [i|] eqn:Hm.
  - destruct (@get_id3_frame_mapped cfg name i v Hok Hm)
      as (c & f' & Hc & Hcl & Hg' & Hnew & Hid & _).
    rewrite Hg in Hg'. inversion Hg'; subst f'. clear Hg'.
    unfold field_of. rewrite Hid, (reverse_map_get cfg name Hinj Hm).
    rewrite (@new_frame_text i c v f Hcl Hnew); auto.
    intros stamp ->. now apply (Hst i stamp).
  - unfold get_id3_frame in Hg. rewrite Hm in Hg.
    inversion Hg; subst f. unfold field_of. cbn [FrameID TXXX].
    rewrite (reverse_map_TXXX cfg Hinj).
    destruct (mapping_injective_spec cfg Hinj) as (_ & _ & Hi). rewrite Hi.
    reflexivity.
Qed.

Lemma take_append_length (a b : string) :
  take (String.length a) (a ++ b) = a.
Proof. induction a as [|x a IH]; simpl; [now destruct b|now rewrite IH]. Qed.

Lemma take_length (a : string) : take (String.length a) a = a.
Proof. induction a as [|x a IH]; simpl; [reflexivity|now rewrite IH]. Qed.

(** The frame id is the head of the hash key. *)
Lemma made_hash_head (cfg : config) (name : string) (v : list string) (f : frame) :
  mapping_ok cfg = true ->
  get_id3_frame cfg name v = Ok f ->
  FrameID f = take 4 (HashKey f).
Proof.
  intros Hok Hg.
  destruct (PyDict.get name (vorbis_to_id3_map cfg)) as [i|] eqn:Hm.
  - pose proof (mapping_ok_entry cfg name Hok Hm) as He.
    apply mapping_entry_ok_spec in He.
    destruct He as (_ & _ & _ & _ & Hl & c & Hf & Hc & _).
    destruct (@new_frame_text_class i c v Hc) as (f' & Hnew & Hid & _ & _ & Hk & _).
    unfold get_id3_frame in Hg. rewrite Hm, Hf, Hnew in Hg.
    inversion Hg; subst f'. rewrite Hid, <- Hl.
    destruct Hk as [-> | [-> | ->]].
    + now rewrite take_length.
    + now rewrite take_append_length.
    + now rewrite take_append_length.
  - unfold get_id3_frame in Hg. rewrite Hm in Hg.
    inversion Hg; subst f. reflexivity.
Qed.

(** Two fields have frames with two hash keys. *)
Lemma hash_key_injective (cfg : config) (n n' : string) (v v' : list string)
  (f f' : frame) :
  mapping_ok cfg = true -> mapping_injective cfg = true ->
  get_id3_frame cfg n v = Ok f -> get_id3_frame cfg n' v' = Ok f' ->
  HashKey f = HashKey f' -> n = n'.
Proof.
  intros Hok Hinj Hf Hf' E.
  assert (Eid : FrameID f = FrameID f').
  { rewrite (made_hash_head cfg n v Hok Hf), (made_hash_head cfg n' v' Hok Hf').
    now rewrite E. }
  destruct (mapping_injective_spec cfg Hinj) as (Hnd & Hx & _).
  destruct (PyDict.get n (vorbis_to_id3_map cfg)) as [i|] eqn:Hm;
    destruct (PyDict.get n' (vorbis_to_id3_map cfg)) as [i'|] eqn:Hm'.
  - destruct (@get_id3_frame_mapped cfg n i v Hok Hm)
      as (c & g & _ & _ & Hg & _ & Hid & _).
    destruct (@get_id3_frame_mapped cfg n' i' v' Hok Hm')
      as (c' & g' & _ & _ & Hg' & _ & Hid' & _).
    rewrite Hf in Hg. rewrite Hf' in Hg'.
    inversion Hg; subst g. inversion Hg'; subst g'.
    rewrite Hid, Hid' in Eid. subst i'.
    apply get_Some_In in Hm. apply get_Some_In in Hm'.
    apply (NoDup_snd_inj (vorbis_to_id3_map cfg) n n' i Hnd Hm Hm').
  - destruct (@get_id3_frame_mapped cfg n i v Hok Hm)
      as (c & g & _ & _ & Hg & _ & Hid & _).
    rewrite Hf in Hg. inversion Hg; subst g.
    unfold get_id3_frame in Hf'. rewrite Hm' in Hf'. inversion Hf'; subst f'.
    rewrite Hid in Eid. cbn [FrameID TXXX] in Eid. subst i.
    exfalso. apply Hx. apply get_Some_In in Hm.
    apply in_map_iff. now exists (n, "TXXX").
  - destruct (@get_id3_frame_mapped cfg n' i' v' Hok Hm')
      as (c' & g' & _ & _ & Hg' & _ & Hid' & _).
    rewrite Hf' in Hg'. inversion Hg'; subst g'.
    unfold get_id3_frame in Hf. rewrite Hm in Hf. inversion Hf; subst f.
    rewrite Hid' in Eid. cbn [FrameID TXXX] in Eid. subst i'.
    exfalso. apply Hx. apply get_Some_In in Hm'.
    apply in_map_iff. now exists (n', "TXXX").
  - unfold get_id3_frame in Hf, Hf'. rewrite Hm in Hf. rewrite Hm' in Hf'.
    inversion Hf; subst f. inversion Hf'; subst f'.
    cbn [TXXX HashKey] in E.
    apply (append_inj_l "TXXX:") in E. exact E.
Qed.

(** The hash key of the frame of a field does not depend on the value. *)
Lemma hash_key_of_field (cfg : config) (n : string) (v v' : list string)
  (f f' : frame) :
  mapping_ok cfg = true ->
  get_id3_frame cfg n v = Ok f -> get_id3_frame cfg n v' = Ok f' ->
  HashKey f = HashKey f'.
Proof.
  intros Hok. unfold get_id3_frame.
  destruct (PyDict.get n (vorbis_to_id3_map cfg)) as [i|] eqn:Hm.
  - pose proof (mapping_ok_entry cfg n Hok Hm) as He.
    apply mapping_entry_ok_spec in He.
    destruct He as (_ & _ & _ & _ & _ & c & Hf & Hc & _).
    rewrite Hf. destruct c; try discriminate; cbn [new_frame];
      intros H H'; inversion H; subst; inversion H'; subst; reflexivity.
  - intros H H'. inversion H; subst. inversion H'; subst. reflexivity.
Qed.

(** A frame of the ignore list whose id is not in the table has no
    field. *)
Lemma only_ignored_field (cfg : config) (tags : ID3) (kv : string * frame) :
  only_ignored cfg tags = true -> In kv tags -> field_of cfg (snd kv) = None.
Proof.
  unfold only_ignored. intros H Hin. apply andb_prop in H. destruct H as [_ H].
  rewrite forallb_forall in H. specialize (H kv Hin).
  apply andb_prop in H. destruct H as [H _].
  apply andb_prop in H. destruct H as [H1 H2]. unfold field_of.
  unfold PyDict.mem in H2.
  destruct (PyDict.get (FrameID (snd kv)) (id3_to_vorbis_map cfg)); [discriminate|].
  now rewrite H1.
Qed.

(** ** The entries of a container after a tag copy *)

Lemma add_frames_Forall (cfg : config) (td : tag_dict)
  (P : string * frame -> Prop) :
  (forall name v f, In (name, v) td -> get_id3_frame cfg name v = Ok f ->
                    P (HashKey f, f)) ->
  forall tags tags1,
    Forall P tags -> add_frames cfg td tags = Ok tags1 -> Forall P tags1.
Proof.
  unfold add_frames. induction td as [|[n v] td IH]; intros HP tags tags1 Hall;
    cbn [for_each fst snd].
  - intros H. inversion H; subst. exact Hall.
  - destruct (get_id3_frame cfg n v) as [f|] eqn:Hf; cbn [bind]; [|discriminate].
    apply IH.
    + intros name v0 f0 Hin. apply HP. now right.
    + unfold add. apply Forall_set; auto. apply (HP n v f); auto. now left.
Qed.

Lemma merge_total_Forall (P : string * frame -> Prop) (total_key number_key : string)
  (mk : list string -> frame) (tags tags2 : ID3) :
  (forall v, P (HashKey (mk v), mk v)) ->
  Forall P tags ->
  merge_total total_key number_key mk tags = Ok tags2 ->
  Forall P tags2.
Proof.
  intros Hmk Hinv. unfold merge_total.
  destruct (PyDict.mem total_key tags && PyDict.mem number_key tags).
  - destruct (PyDict.getitem number_key tags) as [nf|]; cbn [bind]; [|discriminate].
    destruct (text0 nf); cbn [bind]; [|discriminate].
    destruct (PyDict.getitem total_key tags) as [tf|]; cbn [bind]; [|discriminate].
    destruct (text0 tf); cbn [bind]; [|discriminate].
    intros H. inversion H; subst.
    apply Forall_delall. unfold add. apply Forall_set; auto.
  - intros H. inversion H; subst. auto.
Qed.

Lemma copy_made_from (cfg : config) (tags saved : ID3) (td : tag_dict) :
  copy_tag_dict_to_mp3 cfg tags td = Ok saved ->
  Forall (made_from cfg tags td) saved.
Proof.
  intros Hc.
  destruct (copy_tag_dict_to_mp3_steps cfg tags td Hc) as (t1 & t2 & E1 & E2 & E3).
  assert (H0 : Forall (made_from cfg tags td) tags).
  { apply Forall_forall. intros kv Hin. now left. }
  assert (H1 : Forall (made_from cfg tags td) t1).
  { apply (@add_frames_Forall cfg td (made_from cfg tags td)) with (tags := tags);
      auto.
    intros name v f Hin Hf. right. left. exists name, v. auto. }
  assert (H2 : Forall (made_from cfg tags td) t2).
  { apply (@merge_total_Forall (made_from cfg tags td)
             "TXXX:tracktotal" "TRCK" TRCK t1 t2); auto.
    intros v. right. right. left. now exists v. }
  apply (@merge_total_Forall (made_from cfg tags td)
           "TXXX:disctotal" "TPOS" TPOS t2 saved); auto.
  intros v. right. right. right. now exists v.
Qed.

(** The loop of the conversion back raises nothing when every frame has
    a field or is dropped by the ignore list. *)
Lemma loop_succeeds (cfg : config) (id3_tags : ID3) (l : ID3) :
  (forall kv, In kv l ->
     PyDict.get (fst kv) id3_tags = Some (snd kv) /\
     (field_of cfg (snd kv) <> None \/
      (PyDict.get (FrameID (snd kv)) (id3_to_vorbis_map cfg) = None /\
       str_in (FrameID (snd kv)) (id3_frames_to_ignore cfg) = true))) ->
  forall d out,
  exists d' out',
    for_each (id3_tags_as_dict_step cfg id3_tags) (PyDict.keys l) (d, out) =
    Ok (d', out').
Proof.
  unfold PyDict.keys.
  induction l as [|[t f] l IH]; intros Hl d out; cbn [for_each map fst].
  - eauto.
  - destruct (Hl (t, f) (or_introl eq_refl)) as [Hg Hf]. cbn [fst snd] in Hg, Hf.
    assert (Hs : exists d1 out1,
               id3_tags_as_dict_step cfg id3_tags t (d, out) = Ok (d1, out1)).
    { unfold id3_tags_as_dict_step, PyDict.getitem. rewrite Hg. cbn [bind].
      unfold field_of in Hf.
      destruct (PyDict.get (FrameID f) (id3_to_vorbis_map cfg)) as [key|].
      - destruct (text f) as [val|]; [eauto|].
        destruct Hf as [Hf|[Hf _]]; congruence.
      - destruct (str_in (FrameID f) (id3_frames_to_ignore cfg)); [eauto|].
        destruct (desc f) as [key|].
        + destruct (text f) as [val|]; [eauto|].
          destruct Hf as [Hf|[_ Hf]]; congruence.
        + destruct Hf as [Hf|[_ Hf]]; congruence. }
    destruct Hs as (d1 & out1 & Hs). rewrite Hs. cbn [bind].
    apply IH. intros kv Hin. apply Hl. now right.
Qed.

Lemma field_of_TRCK (cfg : config) (v : list string) :
  mapping_ok cfg = true ->
  field_of cfg (TRCK v) = Some ("tracknumber", v) /\
  field_of cfg (TPOS v) = Some ("discnumber", v).
Proof.
  intros Hok. destruct (id3_to_vorbis_map_number cfg Hok) as (R1 & R2 & _).
  unfold field_of. cbn [FrameID TRCK TPOS text]. now rewrite R1, R2.
Qed.

Section RoundTrip.
Variable cfg : config.
Hypothesis Hok : mapping_ok cfg = true.
Hypothesis Hinj : mapping_injective cfg = true.
Variables (tags saved : ID3) (td : tag_dict).
Hypothesis Hig : only_ignored cfg tags = true.
Hypothesis Hnd : NoDup (PyDict.keys td).
Hypothesis Hcopy : copy_tag_dict_to_mp3 cfg tags td = Ok saved.
Hypothesis Hnds : NoDup (PyDict.keys saved).
Hypothesis Hst : forall name v, In (name, v) td ->
  forall i stamp,
    PyDict.get name (vorbis_to_id3_map cfg) = Some i ->
    PyDict.get i (Frames cfg) = Some (TimeStampTextFrame stamp) ->
    map stamp v = v.

(** Every entry of the saved container has a field or is dropped. *)
Lemma saved_entries_convert (kv : string * frame) :
  In kv saved ->
  field_of cfg (snd kv) <> None \/
  (PyDict.get (FrameID (snd kv)) (id3_to_vorbis_map cfg) = None /\
   str_in (FrameID (snd kv)) (id3_frames_to_ignore cfg) = true).
Proof.
  intros Hin. pose proof (copy_made_from cfg tags td Hcopy) as Hall.
  rewrite Forall_forall in Hall.
  destruct (Hall kv Hin) as [H|[(name & v & Hin' & Hf & _)|[[v ->]|[v ->]]]].
  - right. unfold only_ignored in Hig. apply andb_prop in Hig.
    destruct Hig as [_ H0]. rewrite forallb_forall in H0. specialize (H0 kv H).
    apply andb_prop in H0. destruct H0 as [H0 _].
    apply andb_prop in H0. destruct H0 as [H1 H2]. split; auto.
    unfold PyDict.mem in H2.
    now destruct (PyDict.get (FrameID (snd kv)) (id3_to_vorbis_map cfg)).
  - left. rewrite (@field_of_made cfg name v _ Hok Hinj (Hst name v Hin') Hf).
    discriminate.
  - left. cbn [snd]. rewrite (proj1 (field_of_TRCK cfg v Hok)). discriminate.
  - left. cbn [snd]. rewrite (proj2 (field_of_TRCK cfg v Hok)). discriminate.
Qed.

(** The field [K] of the dict of the loop is the field of the frame under
    the hash key of the frame of [K]. *)
Lemma fields_of_saved (K : string) (fK : frame) :
  get_id3_frame cfg K [] = Ok fK ->
  PyDict.get K (fields_of cfg saved PyDict.empty) =
  match PyDict.get (HashKey fK) saved with
  | Some f => option_map snd (field_of cfg f)
  | None => None
  end.
Proof.
  intros HfK. pose proof (copy_made_from cfg tags td Hcopy) as Hall.
  rewrite Forall_forall in Hall.
  destruct (get_id3_frame_ok cfg K [] Hok)
    as (f0 & Hf0 & _ & Kt & Kp & _ & _ & _).
  rewrite HfK in Hf0. inversion Hf0; subst f0. clear Hf0.
  (* an entry with the field [K] is under the hash key *)
  assert (A : forall kv v', In kv saved -> field_of cfg (snd kv) = Some (K, v') ->
                            fst kv = HashKey fK).
  { intros kv v' Hin Hf.
    destruct (Hall kv Hin) as [H|[(name & v & Hin' & Hm & Hk)|[[v ->]|[v ->]]]].
    - rewrite (only_ignored_field cfg tags kv Hig H) in Hf. discriminate.
    - rewrite (@field_of_made cfg name v _ Hok Hinj (Hst name v Hin') Hm) in Hf.
      inversion Hf; subst. rewrite Hk.
      apply (hash_key_of_field cfg K v' [] Hok Hm HfK).
    - cbn [snd fst] in *. rewrite (proj1 (field_of_TRCK cfg v Hok)) in Hf.
      inversion Hf; subst. symmetry. now apply Kt.
    - cbn [snd fst] in *. rewrite (proj2 (field_of_TRCK cfg v Hok)) in Hf.
      inversion Hf; subst. symmetry. now apply Kp. }
  (* the entry under the hash key has the field [K] or none *)
  assert (B : forall f, In (HashKey fK, f) saved ->
                        field_of cfg f = None \/
                        exists v, field_of cfg f = Some (K, v)).
  { intros f Hin.
    destruct (Hall _ Hin) as [H|[(name & v & Hin' & Hm & Hk)|[E|E]]].
    - left. apply (only_ignored_field cfg tags (HashKey fK, f) Hig H).
    - right. exists v. cbn [fst snd] in *.
      rewrite (@field_of_made cfg name v _ Hok Hinj (Hst name v Hin') Hm).
      now rewrite (hash_key_injective cfg K name [] v Hok Hinj HfK Hm Hk).
    - right. destruct E as [v E]. inversion E as [[E1 E2]]. exists v.
      rewrite (proj1 (field_of_TRCK cfg v Hok)).
      now rewrite (proj1 Kt E1).
    - right. destruct E as [v E]. inversion E as [[E1 E2]]. exists v.
      rewrite (proj2 (field_of_TRCK cfg v Hok)).
      now rewrite (proj1 Kp E1). }
  destruct (PyDict.get (HashKey fK) saved) as [f|] eqn:Eg.
  - pose proof (@get_Some_In frame (HashKey fK) f saved Eg) as Hin.
    assert (U : forall kv v', In kv saved ->
                  field_of cfg (snd kv) = Some (K, v') -> kv = (HashKey fK, f)).
    { intros [t f'] v' Hin' Hf'. pose proof (A _ _ Hin' Hf') as Et.
      cbn [fst] in Et. subst t. f_equal.
      pose proof (@In_get_Some frame (HashKey fK) f' saved Hnds Hin') as Eg'. congruence. }
    destruct (B f Hin) as [En|[v Ev]].
    + rewrite En. cbn [option_map].
      rewrite fields_of_none; auto.
      intros kv v Hin' Hf'. pose proof (U kv v Hin' Hf') as E. subst kv.
      cbn [snd] in Hf'. congruence.
    + rewrite Ev. cbn [option_map snd].
      apply fields_of_value.
      * intros kv v' Hin' Hf'. pose proof (U kv v' Hin' Hf') as E. subst kv.
        cbn [snd] in Hf'. congruence.
      * right. exists (HashKey fK, f). auto.
  - rewrite fields_of_none; auto.
    intros kv v Hin' Hf'. pose proof (A kv v Hin' Hf') as Et.
    apply get_None_keys in Eg. apply Eg.
    unfold PyDict.keys. apply in_map_iff. exists kv. auto.
Qed.

(** The loop of the conversion back succeeds on the saved container. *)
Lemma saved_loop_succeeds :
  exists out,
    for_each (id3_tags_as_dict_step cfg saved) (PyDict.keys saved)
      (PyDict.empty, []) = Ok (fields_of cfg saved PyDict.empty, out).
Proof.
  assert (Hall : forall kv, In kv saved ->
                   PyDict.get (fst kv) saved = Some (snd kv)).
  { intros [t f] Hin. now apply In_get_Some. }
  destruct (@loop_succeeds cfg saved saved
              (fun kv Hin => conj (Hall kv Hin) (saved_entries_convert kv Hin))
              PyDict.empty []) as (d' & out' & Hl).
  exists out'.
  rewrite <- (@for_each_fields cfg saved saved Hall PyDict.empty [] d' out' Hl).
  exact Hl.
Qed.
End RoundTrip.

(** ** The way to frames and back *)

Lemma contains_char_append_sep (a b : string) :
  contains_char sep (a ++ String sep b) = true.
Proof. induction a as [|x a IH]; simpl; [reflexivity|]. rewrite IH. apply orb_true_r. Qed.

Lemma list_string_eqb_refl (l : list string) : list_string_eqb l l = true.
Proof. induction l as [|x l IH]; simpl; auto. now rewrite String.eqb_refl. Qed.

Lemma fields_of_nodup (cfg : config) (l : ID3) :
  forall d, NoDup (PyDict.keys d) -> NoDup (PyDict.keys (fields_of cfg l d)).
Proof.
  unfold fields_of. induction l as [|kv l IH]; intros d Hd; simpl; auto.
  apply IH. destruct (field_of cfg (snd kv)) as [[k v]|]; cbn [put_field]; auto.
  now apply NoDup_keys_set.
Qed.

Lemma split_total_nodup (number_key total_key : string) (d d' : tag_dict) :
  NoDup (PyDict.keys d) -> split_total number_key total_key d = Ok d' ->
  NoDup (PyDict.keys d').
Proof.
  intros Hd. unfold split_total.
  destruct (PyDict.get number_key d) as [[|v0 vs]|]; try congruence.
  destruct (contains_char sep v0); try congruence.
  destruct (split_on sep v0) as [|a [|b [|c l]]]; try congruence.
  intros H. inversion H; subst. now repeat apply NoDup_keys_set.
Qed.

(** Two dicts with the same lookups compare equal. *)
Lemma tag_dict_eqb_true (td d : tag_dict) :
  NoDup (PyDict.keys td) -> NoDup (PyDict.keys d) ->
  (forall K, PyDict.get K d = PyDict.get K td) ->
  tag_dict_eqb td d = true.
Proof.
  intros Ht Hd Hg. unfold tag_dict_eqb. apply andb_true_iff. split.
  - apply Nat.eqb_eq.
    assert (I1 : incl (PyDict.keys td) (PyDict.keys d)).
    { intros k Hk. apply get_In_keys. rewrite Hg. now apply get_In_keys. }
    assert (I2 : incl (PyDict.keys d) (PyDict.keys td)).
    { intros k Hk. apply get_In_keys. rewrite <- Hg. now apply get_In_keys. }
    pose proof (NoDup_incl_length Ht I1) as L1.
    pose proof (NoDup_incl_length Hd I2) as L2.
    unfold PyDict.keys in L1, L2. rewrite !length_map in L1, L2. lia.
  - apply forallb_forall. intros [k v] Hin. cbn [fst snd].
    rewrite Hg, (@In_get_Some (list string) k v td Ht Hin).
    apply list_string_eqb_refl.
Qed.

Section Pair.
Variable cfg : config.
Variables (saved tags1 : ID3) (td d0 : tag_dict).
Variables (nf tf nk tk : string) (mk mkt : list string -> frame).
Hypothesis Gn :
  PyDict.get nf d0 =
  match PyDict.get nk saved with
  | Some f => option_map snd (field_of cfg f)
  | None => None
  end.
Hypothesis Gt :
  PyDict.get tf d0 =
  match PyDict.get tk saved with
  | Some f => option_map snd (field_of cfg f)
  | None => None
  end.
Hypothesis Ln : PyDict.get nk tags1 = option_map mk (PyDict.get nf td).
Hypothesis Lt : PyDict.get tk tags1 = option_map mkt (PyDict.get tf td).
Hypothesis Hm : merged tk nk mk tags1 saved.
Hypothesis Fn : forall v, field_of cfg (mk v) = Some (nf, v).
Hypothesis Ft : forall v, field_of cfg (mkt v) = Some (tf, v).
Hypothesis Tn : forall x xs, text0 (mk (x :: xs)) = Ok x.
Hypothesis Tt : forall x xs, text0 (mkt (x :: xs)) = Ok x.
Hypothesis Hclean : numbers_clean td nf tf = true.

(** A number field and its total field, when they are clean, are in the
    dict after the split as they are in the source. *)
Lemma pair_round_trip :
  exists d1,
    split_total nf tf d0 = Ok d1 /\
    PyDict.get nf d1 = PyDict.get nf td /\
    PyDict.get tf d1 = PyDict.get tf td /\
    (forall K, K <> nf -> K <> tf -> PyDict.get K d1 = PyDict.get K d0).
Proof.
  unfold numbers_clean in Hclean. unfold merged in Hm. rewrite Ln, Lt in Hm.
  unfold split_total.
  destruct (PyDict.get nf td) as [[|n ns]|] eqn:En; cbn [option_map] in *.
  - destruct (PyDict.get tf td); discriminate.
  - destruct (PyDict.get tf td) as [[|m ms]|] eqn:Et; cbn [option_map] in *.
    + destruct ns; discriminate.
    + destruct ns as [|? ?]; [|discriminate]. destruct ms as [|? ?]; [|discriminate].
      apply andb_prop in Hclean. destruct Hclean as [Cn Cm].
      apply negb_true_iff in Cn. apply negb_true_iff in Cm.
      destruct Hm as (N & M & HN & HM & Sn & St).
      rewrite Tn in HN. rewrite Tt in HM.
      inversion HN; subst N. inversion HM; subst M.
      rewrite Sn, Fn in Gn. rewrite St in Gt. cbn [option_map snd] in Gn.
      rewrite Gn.
      change (n ++ "/" ++ m)%string with (n ++ String sep m)%string.
      rewrite contains_char_append_sep.
      pose proof (split_on_number_total n m Cn Cm) as Es. simpl in Es.
      change (n ++ String sep m)%string with (n ++ String "/" m)%string.
      rewrite Es.
      exists (PyDict.set tf [m] (PyDict.set nf [n] d0)). split; auto.
      split; [|split].
      * rewrite get_set_other by congruence. apply get_set_same.
      * apply get_set_same.
      * intros K K1 K2. rewrite !get_set_other by congruence. reflexivity.
    + assert (Cn : contains_char sep n = false).
      { destruct ns; now apply negb_true_iff in Hclean. }
      clear Hclean. rename Cn into Hclean.
      destruct Hm as [Sn St]. rewrite Sn, Fn in Gn. rewrite St in Gt.
      cbn [option_map snd] in Gn. rewrite Gn, Hclean.
      exists d0. repeat split; auto.
  - destruct Hm as [Sn St]. rewrite Sn in Gn. rewrite St in Gt. rewrite Gn.
    exists d0. repeat split; auto.
    destruct (PyDict.get tf td) as [v|]; cbn [option_map] in Gt; auto.
    rewrite Ft in Gt. exact Gt.
Qed.
End Pair.

(** For a field that is not a number or a total, the frame under the
    hash key of the field after the copy. *)
Lemma saved_lookup_other (cfg : config) (tags tags1 saved : ID3) (td : tag_dict)
  (K : string) (fK : frame) :
  mapping_ok cfg = true -> mapping_injective cfg = true ->
  NoDup (PyDict.keys td) -> NoDup (PyDict.keys tags) ->
  add_frames cfg td tags = Ok tags1 ->
  copy_tag_dict_to_mp3 cfg tags td = Ok saved ->
  ~ In K number_total_fields ->
  get_id3_frame cfg K [] = Ok fK ->
  match PyDict.get K td with
  | Some v => exists f, get_id3_frame cfg K v = Ok f /\
                        PyDict.get (HashKey fK) saved = Some f
  | None => PyDict.get (HashKey fK) saved = PyDict.get (HashKey fK) tags
  end.
Proof.
  intros Hok Hinj Hnd Hnt H1 Hc HK HfK.
  set (mk := fun v => match get_id3_frame cfg K v with
                      | Ok f => f
                      | Raise _ => fK
                      end).
  assert (Hkey : forall n v f,
             get_id3_frame cfg n v = Ok f ->
             (HashKey f = HashKey fK <-> n = K) /\ (n = K -> f = mk v)).
  { intros n v f Hf. split; [split|].
    - intros E. apply (hash_key_injective cfg n K v [] Hok Hinj Hf HfK E).
    - intros ->. apply (hash_key_of_field cfg K v [] Hok Hf HfK).
    - intros ->. unfold mk. now rewrite Hf. }
  destruct (@add_frames_lookup cfg Hok (HashKey fK) K mk Hkey td Hnd tags Hnt)
    as (t1 & E1 & _ & Hl).
  rewrite H1 in E1. inversion E1; subst t1. clear E1.
  destruct (copy_tag_dict_to_mp3_steps cfg tags td Hc) as (t1 & t2 & E1 & E2 & E3).
  rewrite H1 in E1. inversion E1; subst t1. clear E1.
  destruct (get_id3_frame_ok cfg K [] Hok)
    as (f0 & Hf0 & _ & Kt & Kp & Ktt & Kdt & _).
  rewrite HfK in Hf0. inversion Hf0; subst f0. clear Hf0.
  assert (N : HashKey fK <> "TRCK" /\ HashKey fK <> "TPOS" /\
              HashKey fK <> "TXXX:tracktotal" /\ HashKey fK <> "TXXX:disctotal").
  { unfold number_total_fields in HK. simpl in HK. intuition. }
  destruct N as (N1 & N2 & N3 & N4).
  assert (Es : PyDict.get (HashKey fK) saved = PyDict.get (HashKey fK) tags1).
  { rewrite (@merge_total_other "TXXX:disctotal" "TPOS" (HashKey fK) TPOS t2 saved
               (fun v => eq_refl) E3 N2 N4).
    apply (@merge_total_other "TXXX:tracktotal" "TRCK" (HashKey fK) TRCK tags1 t2
             (fun v => eq_refl) E2 N1 N3). }
  rewrite Es, Hl.
  destruct (PyDict.get K td) as [v|]; auto.
  destruct (get_id3_frame_ok cfg K v Hok) as (f & Hf & _).
  exists f. split; auto. unfold mk. now rewrite Hf.
Qed.

Lemma stamps_kept_spec (cfg : config) (td : tag_dict) :
  stamps_kept cfg td = true ->
  forall name v, In (name, v) td ->
  forall i stamp,
    PyDict.get name (vorbis_to_id3_map cfg) = Some i ->
    PyDict.get i (Frames cfg) = Some (TimeStampTextFrame stamp) ->
    map stamp v = v.
Proof.
  unfold stamps_kept. intros H name v Hin i stamp Hm Hf.
  rewrite forallb_forall in H. specialize (H (name, v) Hin).
  cbn [fst snd] in H. rewrite Hm, Hf in H. clear Hin Hm Hf.
  induction v as [|x v IH]; cbn [map]; auto.
  cbn [forallb] in H. apply andb_prop in H. destruct H as [Hx Hv].
  apply String.eqb_eq in Hx. rewrite Hx. f_equal. now apply IH.
Qed.

(** The number and total fields do not go to time stamp frames. *)
Lemma number_no_stamp (cfg : config) (name : string) (v : list string) :
  mapping_ok cfg = true -> In name number_total_fields ->
  forall i stamp,
    PyDict.get name (vorbis_to_id3_map cfg) = Some i ->
    PyDict.get i (Frames cfg) = Some (TimeStampTextFrame stamp) ->
    map stamp v = v.
Proof.
  intros Hok Hin i stamp Hm Hf. exfalso.
  pose proof (mapping_ok_entry cfg name Hok Hm) as He.
  apply mapping_entry_ok_spec in He.
  destruct He as (E1 & E2 & Nt & Nd & _ & c & Hc & _ & Hp).
  rewrite Hf in Hc. inversion Hc; subst c.
  simpl in Hin. destruct Hin as [<-|[<-|[<-|[<-|[]]]]]; try congruence.
  - assert (E : i = "TRCK") by now apply E1.
    specialize (Hp (or_introl E)). discriminate.
  - assert (E : i = "TPOS") by now apply E2.
    specialize (Hp (or_intror E)). discriminate.
Qed.



(** ** The paths that a run writes *)

Lemma planned_Forall (P : action -> Prop) (plan t : list action) (r : option exn) :
  Forall P plan -> planned plan t r -> Forall P t.
Proof.
  intros H [[rest E] _]. subst plan. apply Forall_app in H. tauto.
Qed.

Lemma only_Forall (P Q : action -> Prop) (t : list action) (r : option exn) :
  (forall a, Q a -> P a) -> only Q t r -> Forall P t.
Proof. intros H Ht. unfold only in Ht. eapply Forall_weaken; eauto. Qed.

Lemma staged_Forall (P : action -> Prop)
  (S1 S2 : list action -> option exn -> Prop) (t : list action) (r : option exn) :
  (forall t1 r1, S1 t1 r1 -> Forall P t1) ->
  (forall t2 r2, S2 t2 r2 -> Forall P t2) ->
  staged S1 S2 t r -> Forall P t.
Proof.
  intros H1 H2 (t1 & t2 & -> & [[A B]|(e & A & -> & _)]).
  - apply Forall_app. split; eauto.
  - rewrite app_nil_r. eauto.
Qed.

Lemma Forall_map_in {A B : Type} (P : B -> Prop) (f : A -> B) (l : list A) :
  (forall x, In x l -> P (f x)) -> Forall P (map f l).
Proof.
  intros H. apply Forall_forall. intros y Hy. apply in_map_iff in Hy.
  destruct Hy as [x [<- Hx]]. auto.
Qed.

Lemma starts_append_mp3 (x e : string) :
  starts_with_char sep x = false -> starts_with_char sep e = false ->
  starts_with_char sep (x ++ e) = false.
Proof. destruct x; simpl; auto. Qed.

(** X18. For trees whose names are not empty and hold no separator, every
    call of a run writes, creates or removes a path made of the right
    base path and a relative path: a key of a scan, or the key of an audio
    file with an extension.  No call writes a path of the left side. *)
Theorem synchronise_writes_right (world : Type)
  (FLAC_tags : string -> world -> result tag_dict)
  (MP3_tags : string -> world -> result ID3)
  (perform : action -> world -> result world)
  (cfg : config) (left right : string) (le re : list entry) (s : state world) :
  names_ok le = true -> names_ok re = true ->
  let cr := CompResult_init cfg left right le re in
  base_path_right cr = right /\
  exists t,
    snd (fst (synchronise FLAC_tags MP3_tags perform cfg cr s)) = snd s ++ t /\
    Forall (below_right cr) t.
Proof.
  intros Hl Hr cr.
  destruct (CompResult_init_filters cfg left right le re)
    as (E1 & E2 & E3 & E4 & E5 & E6 & E7).
  destruct (CompResult_init_fields cfg left right le re)
    as (_ & Ebr & Eml & _ & _ & Emr & _).
  fold cr in E1, E2, E3, E4, E5, E6, E7, Ebr, Eml, Emr.
  split; auto.
  destruct (@calls_in_synchronise world FLAC_tags MP3_tags perform cfg cr s)
    as (t & Et & St).
  exists t. split; auto.
  assert (Kl : forall k,
             In k (PyDict.keys (dir_dict (get_files_dirs cfg le 0))) \/
             In k (PyDict.keys (music_files (get_files_dirs cfg le 0))) \/
             In k (PyDict.keys (rest_files (get_files_dirs cfg le 0))) ->
             starts_with_char sep k = false).
  { intros k. apply (@scan_keys_start cfg le Hl 0 k). }
  assert (Kr : forall k,
             In k (PyDict.keys (dir_dict (get_files_dirs cfg re 0))) \/
             In k (PyDict.keys (music_files (get_files_dirs cfg re 0))) \/
             In k (PyDict.keys (rest_files (get_files_dirs cfg re 0))) ->
             starts_with_char sep k = false).
  { intros k. apply (@scan_keys_start cfg re Hr 0 k). }
  assert (Mr : forall k v, PyDict.get k (music_right cr) = Some v ->
                           starts_with_char sep (k ++ ext v) = false).
  { intros k v Hg. rewrite Emr in Hg. apply get_Some_In in Hg.
    pose proof (@scan_music_paths cfg re Hr 0 empty_scan [] (Forall_nil _)) as H.
    rewrite Forall_forall in H. destruct (H (k, v) Hg) as (_ & B & _). exact B. }
  assert (P1 : Forall (below_right cr) (plan_copy_dirs cr)).
  { unfold plan_copy_dirs. apply Forall_map_in. intros k Hk.
    exists k. split; auto. apply Kl. left. rewrite E6 in Hk.
    rewrite (keys_filter (fun k => negb (PyDict.mem k _))) in Hk.
    apply filter_In in Hk. tauto. }
  assert (P2 : Forall (below_right cr) (plan_copy_files cr)).
  { unfold plan_copy_files. apply Forall_map_in. intros k Hk.
    exists k. split; auto. apply Kl. right. right. rewrite E1 in Hk.
    apply filter_In in Hk. tauto. }
  assert (Q3 : forall a, music_changed_call cr a -> below_right cr a).
  { intros a (x & ml & mr & Hx & Hgl & Hgr & Ha). cbv zeta in Ha.
    exists (x ++ ext mr)%string. split; [now apply Mr|].
    destruct Ha as [[saved ->]|[[tg ->]| ->]]; reflexivity. }
  assert (Q4 : forall a, music_leftonly_call cr a -> below_right cr a).
  { intros a (x & ml & Hx & Hgl & Ha). cbv zeta in Ha.
    exists (x ++ ".mp3")%string. split.
    - apply starts_append_mp3; auto. apply Kl. right. left.
      rewrite E3 in Hx. apply filter_In in Hx. tauto.
    - destruct Ha as [-> | ->]; reflexivity. }
  assert (P5 : Forall (below_right cr) (plan_remove_music cr)).
  { unfold plan_remove_music. apply Forall_map_in. intros [k v] Hk.
    exists (k ++ ext v)%string. split; auto. apply Mr. rewrite Emr.
    rewrite E5 in Hk. apply filter_In in Hk. destruct Hk as [Hk _].
    apply In_get_Some; auto. apply scan_music_nodup. }
  assert (P6 : Forall (below_right cr) (plan_remove_files cr)).
  { unfold plan_remove_files. apply Forall_map_in. intros k Hk.
    exists k. split; auto. apply Kr. right. right. rewrite E2 in Hk.
    apply filter_In in Hk. tauto. }
  assert (P7 : Forall (below_right cr) (plan_remove_dirs cr)).
  { unfold plan_remove_dirs. apply Forall_map_in. intros k Hk.
    exists k. split; auto. apply Kr. left.
    apply in_rev in Hk. rewrite E7 in Hk.
    rewrite (keys_filter (fun k => negb (PyDict.mem k _))) in Hk.
    apply filter_In in Hk. tauto. }
  unfold synchronise_stages in St.
  eapply staged_Forall; [| |exact St].
  { intros t1 r1 H. eapply planned_Forall; [|exact H]; assumption. }
  clear St. intros t2 r2 St. eapply staged_Forall; [| |exact St].
  { intros t1 r1 H. eapply planned_Forall; [|exact H]; assumption. }
  clear St. intros t3 r3 St. eapply staged_Forall; [| |exact St].
  { intros t1 r1 H. eapply only_Forall; [|exact H]; assumption. }
  clear St. intros t4 r4 St. eapply staged_Forall; [| |exact St].
  { intros t1 r1 H. eapply only_Forall; [|exact H]; assumption. }
  clear St. intros t5 r5 St. eapply staged_Forall; [| |exact St].
  { intros t1 r1 H. eapply planned_Forall; [|exact H]; assumption. }
  clear St. intros t6 r6 St. eapply staged_Forall; [| |exact St].
  { intros t1 r1 H. eapply planned_Forall; [|exact H]; assumption. }
  intros t7 r7 H. eapply planned_Forall; [|exact H]; assumption.
Qed.

Lemma synchronise_writes_right_witness :
  let cr := CompResult_init default_config "left" "right"
              [EDir "Artist" [EFile "01.flac" 3; EFile "cover.jpg" 2]]
              [EDir "Gone" [EFile "x.mp3" 1]] in
  base_path_right cr = "right" /\
  exists t,
    snd (fst (synchronise no_tags no_frames quiet_perform default_config cr (tt, []))) =
    [] ++ t /\
    Forall (below_right cr) t.
Proof.
  exact (@synchronise_writes_right unit no_tags no_frames quiet_perform
           default_config "left" "right"
           [EDir "Artist" [EFile "01.flac" 3; EFile "cover.jpg" 2]]
           [EDir "Gone" [EFile "x.mp3" 1]] (tt, []) eq_refl eq_refl).
Defined.

(** ** An ignored directory in a directory that is removed *)

(** X19. For trees whose names are not empty and hold no separator: a
    directory [d] of the right scan that the left scan does not have is
    removed by the last stage, also when a directory [p] below it has an
    ignored name; [p] itself is not removed by any call of [os.rmdir], so
    a directory that is not empty is given to [os.rmdir]. *)
Theorem ignored_dir_in_removed_dir (cfg : config) (left right : string)
  (le re : list entry) (d p n : string) :
  names_ok re = true ->
  In (p, n) (all_dirs re) -> str_in n (dirs_to_ignore cfg) = true ->
  beneath d p ->
  let cr := CompResult_init cfg left right le re in
  In d (PyDict.keys (dirs_right cr)) -> ~ In d (PyDict.keys (dirs_left cr)) ->
  In (Rmdir (join right d)) (plan_remove_dirs cr) /\
  exists q, beneath d q /\ (exists m, In (q, m) (all_dirs re)) /\
            ~ In (Rmdir (join right q)) (plan_remove_dirs cr).
Proof.
  intros Hr Hin Hig Hb cr Hd Hnl.
  destruct (CompResult_init_fields cfg left right le re)
    as (_ & Ebr & _ & _ & Edl & _ & _ & Edr & _ & Ed & _).
  fold cr in Ebr, Edl, Edr, Ed.
  split.
  - unfold plan_remove_dirs. rewrite Ebr.
    apply (in_map (fun d0 => Rmdir (join right d0))). apply -> in_rev.
    rewrite Ed. apply In_keys_dict_minus. rewrite <- Edr, <- Edl. auto.
  - exists p. split; auto. split; [eauto|].
    destruct (all_dirs_spec re Hr p n Hin) as (Hend & Hn & Hs).
    destruct (name_ok_spec n Hn) as [_ Hns].
    unfold plan_remove_dirs. rewrite Ebr. intros H.
    apply in_map_iff in H. destruct H as [k [E Hk]].
    apply in_rev in Hk. rewrite Ed in Hk. apply In_keys_dict_minus in Hk.
    destruct Hk as [Hk _]. inversion E as [E'].
    apply join_inj in E'; auto.
    + subst k. exact (@scan_dir_not_ignored cfg re Hr 0 p n Hk Hns Hig Hend).
    + apply (@scan_keys_start cfg re Hr 0 k). auto.
Qed.

Lemma ignored_dir_in_removed_dir_witness :
  let cr := CompResult_init default_config "left" "right" []
              [EDir "Old" [EFile "a.mp3" 1; EDir "example-1" [EFile "cover.jpg" 1]]] in
  In (Rmdir (join "right" "Old")) (plan_remove_dirs cr) /\
  exists q, beneath "Old" q /\
            (exists m, In (q, m)
                         (all_dirs [EDir "Old" [EFile "a.mp3" 1;
                                                EDir "example-1" [EFile "cover.jpg" 1]]])) /\
            ~ In (Rmdir (join "right" q)) (plan_remove_dirs cr).
Proof.
  apply (@ignored_dir_in_removed_dir default_config "left" "right" []
           [EDir "Old" [EFile "a.mp3" 1; EDir "example-1" [EFile "cover.jpg" 1]]]
           "Old" "Old/example-1" "example-1").
  - reflexivity.
  - simpl. auto.
  - reflexivity.
  - now exists "example-1".
  - simpl. auto.
  - simpl. tauto.
Defined.

(** That run on a file system: the audio file is removed, then
    [os.rmdir] finds the ignored directory and the run ends with
    [OSError]. *)
Example ignored_dir_stops_run :
  let cr := CompResult_init default_config "left" "right" []
              [EDir "Old" [EFile "a.mp3" 1; EDir "example-1" [EFile "cover.jpg" 1]]] in
  synchronise no_tags_fs no_frames_fs fs_perform default_config cr
    (["right/Old"; "right/Old/a.mp3"; "right/Old/example-1";
      "right/Old/example-1/cover.jpg"], []) =
  ((["right/Old"; "right/Old/example-1"; "right/Old/example-1/cover.jpg"],
    [Remove "right/Old/a.mp3"; Rmdir "right/Old"]),
   Some (OSError "Directory not empty")).
Proof. vm_compute. reflexivity. Qed.

(** ** The scan does not depend on the order of the entries *)

Lemma option_ext {A : Type} (a b : option A) :
  (forall v, a = Some v <-> b = Some v) -> a = b.
Proof.
  intros H. destruct a as [x|].
  - symmetry. now apply H.
  - destruct b as [y|]; auto. now apply H.
Qed.

(** A lookup after [d.update(d2)]: in [d2] first, then in [d]. *)
Lemma get_update_split {V : Type} (k : string) (d2 d : PyDict.t V) :
  PyDict.get k (PyDict.update d d2) =
  match PyDict.get k (PyDict.of_items d2) with
  | Some v => Some v
  | None => PyDict.get k d
  end.
Proof.
  unfold PyDict.of_items, PyDict.update. revert d.
  induction d2 as [|[k0 v0] d2 IH]; intros d; cbn [fold_left fst snd].
  - reflexivity.
  - rewrite (IH (PyDict.set k0 v0 d)), (IH (PyDict.set k0 v0 PyDict.empty)).
    destruct (PyDict.get k (fold_left
                (fun acc kv => PyDict.set (fst kv) (snd kv) acc) d2 PyDict.empty)).
    + reflexivity.
    + rewrite !get_set. destruct (String.eqb k0 k); reflexivity.
Qed.

(** The three maps of a scan have distinct keys. *)
Lemma scan_nodup (cfg : config) (es : list entry) (level : nat) :
  NoDup (PyDict.keys (music_files (get_files_dirs cfg es level))) /\
  NoDup (PyDict.keys (rest_files (get_files_dirs cfg es level))).
Proof.
  unfold get_files_dirs.
  assert (H : forall acc,
            NoDup (PyDict.keys (music_files acc)) /\
            NoDup (PyDict.keys (rest_files acc)) ->
            NoDup (PyDict.keys (music_files
              (fold_left (fun a e => scan_entry cfg level e a) es acc))) /\
            NoDup (PyDict.keys (rest_files
              (fold_left (fun a e => scan_entry cfg level e a) es acc)))).
  { induction es as [|e es IH]; intros acc Hacc; simpl; auto.
    apply IH. destruct Hacc as [H1 H2]. destruct e as [n children|n m|n].
    - rewrite scan_entry_dir.
      destruct (str_in n (dirs_to_ignore cfg)); auto.
      cbn [music_files rest_files]. split; now apply NoDup_keys_update.
    - cbn [scan_entry]. destruct (splitext n) as [no_ext e_ext].
      destruct (str_in (lower e_ext) [".flac"; ".mp3"]);
        cbn [music_files rest_files]; split; auto; now apply NoDup_keys_set.
    - auto. }
  apply H. split; constructor.
Qed.

(** A lookup in a map whose keys got the prefix of a directory. *)
Lemma get_map_prefix {V : Type} (n : string) (sub : PyDict.t V) (K : string)
  (v : V) :
  PyDict.get K (map (fun xy => ((n ++ String sep (fst xy))%string, snd xy)) sub)
    = Some v <->
  exists k, K = (n ++ String sep k)%string /\ PyDict.get k sub = Some v.
Proof.
  induction sub as [|[k0 v0] sub IH]; cbn [map PyDict.get fst snd].
  - split; [discriminate|]. intros (k & _ & H). discriminate.
  - destruct (String.eqb_spec K (n ++ String sep k0)%string) as [E|N].
    + split.
      * intros H. exists k0. now rewrite String.eqb_refl.
      * intros (k & Ek & H). rewrite Ek in E. apply append_inj_l in E.
        inversion E; subst. now rewrite String.eqb_refl in H.
    + rewrite IH. split; intros (k & Ek & H); exists k; split; auto.
      * destruct (String.eqb_spec k k0); auto. subst. contradiction.
      * destruct (String.eqb_spec k k0); auto. subst. contradiction.
Qed.

Lemma join_keys_prefix {V : Type} (n : string) (sub : PyDict.t V) :
  name_ok n = true -> NoDup (PyDict.keys sub) ->
  (forall k, In k (PyDict.keys sub) -> starts_with_char sep k = false) ->
  join_keys n sub =
  map (fun xy => ((n ++ String sep (fst xy))%string, snd xy)) sub.
Proof.
  intros Hn Hnd Hst. unfold join_keys.
  assert (E : map (fun xy => (join n (fst xy), snd xy)) sub =
              map (fun xy => ((n ++ String sep (fst xy))%string, snd xy)) sub).
  { apply map_ext_in. intros [k v] Hin. cbn [fst snd]. f_equal.
    apply join_ok; auto. apply Hst. unfold PyDict.keys. apply in_map_iff.
    now exists (k, v). }
  rewrite E. apply of_items_nodup. rewrite map_map. cbn [fst].
  unfold PyDict.keys in Hnd.
  rewrite <- (map_map fst (fun k => (n ++ String sep k)%string)).
  apply NoDup_map_in; auto.
  intros x y _ _ Exy. apply append_inj_l in Exy. now inversion Exy.
Qed.

(** The sub-maps with the same lookups give the same lookups under the
    name of the directory. *)
Lemma join_keys_ext {V : Type} (n : string) (sub sub' : PyDict.t V) :
  name_ok n = true ->
  NoDup (PyDict.keys sub) -> NoDup (PyDict.keys sub') ->
  (forall k, In k (PyDict.keys sub) -> starts_with_char sep k = false) ->
  (forall k, In k (PyDict.keys sub') -> starts_with_char sep k = false) ->
  (forall k, PyDict.get k sub = PyDict.get k sub') ->
  forall K, PyDict.get K (PyDict.of_items (join_keys n sub)) =
            PyDict.get K (PyDict.of_items (join_keys n sub')).
Proof.
  intros Hn N1 N2 S1 S2 Hg K.
  assert (F : forall s : PyDict.t V,
            PyDict.of_items (join_keys n s) = join_keys n s).
  { intros s. unfold join_keys at 1. unfold join_keys.
    generalize (map (fun xy : string * V => (join n (fst xy), snd xy)) s).
    intros l. unfold PyDict.of_items.
    apply of_items_nodup.
    change (NoDup (PyDict.keys (PyDict.update PyDict.empty l))).
    apply NoDup_keys_update. constructor. }
  rewrite !F, !join_keys_prefix by auto.
  apply option_ext. intros v. rewrite !get_map_prefix.
  split; intros (k & -> & H); exists k; split; auto; congruence.
Qed.
(** What one entry adds, looked up before what was there. *)
Lemma scan_entry_get (cfg : config) (level : nat) (e : entry) (acc : scan)
  (k : string) :
  PyDict.get k (music_files (scan_entry cfg level e acc)) =
    match PyDict.get k (music_files (scan_entry cfg level e empty_scan)) with
    | Some v => Some v
    | None => PyDict.get k (music_files acc)
    end /\
  PyDict.get k (rest_files (scan_entry cfg level e acc)) =
    match PyDict.get k (rest_files (scan_entry cfg level e empty_scan)) with
    | Some v => Some v
    | None => PyDict.get k (rest_files acc)
    end /\
  PyDict.get k (dir_dict (scan_entry cfg level e acc)) =
    match PyDict.get k (dir_dict (scan_entry cfg level e empty_scan)) with
    | Some v => Some v
    | None => PyDict.get k (dir_dict acc)
    end.
Proof.
  destruct e as [n children|n m|n].
  - rewrite !scan_entry_dir. destruct (str_in n (dirs_to_ignore cfg)).
    + simpl. auto.
    + cbv zeta. cbn [music_files rest_files dir_dict empty_scan].
      repeat split.
      * rewrite (get_update_split k _ (music_files acc)),
          (get_update_split k _ PyDict.empty).
        now destruct (PyDict.get k (PyDict.of_items _)).
      * rewrite (get_update_split k _ (rest_files acc)),
          (get_update_split k _ PyDict.empty).
        now destruct (PyDict.get k (PyDict.of_items _)).
      * rewrite (get_update_split k _ (PyDict.set n level (dir_dict acc))),
          (get_update_split k _ (PyDict.set n level PyDict.empty)).
        destruct (PyDict.get k (PyDict.of_items _)); auto.
        rewrite !get_set. now destruct (String.eqb n k).
  - cbn [scan_entry]. destruct (splitext n) as [no_ext e_ext].
    destruct (str_in (lower e_ext) [".flac"; ".mp3"]);
      cbn [music_files rest_files dir_dict empty_scan]; repeat split;
      try reflexivity; rewrite !get_set;
      match goal with |- context [String.eqb ?a ?b] => now destruct (String.eqb a b) end.
  - simpl. auto.
Qed.

Lemma same_lookups_refl (a : scan) : same_lookups a a.
Proof. intros k. auto. Qed.

Lemma same_lookups_trans (a b c : scan) :
  same_lookups a b -> same_lookups b c -> same_lookups a c.
Proof.
  intros H1 H2 k. destruct (H1 k) as (A1 & A2 & A3).
  destruct (H2 k) as (B1 & B2 & B3). repeat split; congruence.
Qed.

(** One entry after scans with the same lookups. *)
Lemma scan_entry_ext (cfg : config) (level : nat) (e : entry) (acc acc' : scan) :
  same_lookups acc acc' ->
  same_lookups (scan_entry cfg level e acc) (scan_entry cfg level e acc').
Proof.
  intros H k. destruct (H k) as (H1 & H2 & H3).
  destruct (scan_entry_get cfg level e acc k) as (A1 & A2 & A3).
  destruct (scan_entry_get cfg level e acc' k) as (B1 & B2 & B3).
  rewrite A1, A2, A3, B1, B2, B3, H1, H2, H3. auto.
Qed.

Lemma fold_scan_ext (cfg : config) (level : nat) (es : list entry) :
  forall acc acc',
    same_lookups acc acc' ->
    same_lookups (fold_left (fun a e => scan_entry cfg level e a) es acc)
                 (fold_left (fun a e => scan_entry cfg level e a) es acc').
Proof.
  induction es as [|e es IH]; intros acc acc' H; cbn [fold_left]; auto.
  apply IH. now apply scan_entry_ext.
Qed.

(** A directory whose own scans have the same lookups. *)
Lemma scan_entry_dir_ext (cfg : config) (level : nat) (n : string)
  (children children' : list entry) (acc acc' : scan) :
  name_ok n = true -> names_ok children = true -> names_ok children' = true ->
  same_lookups (get_files_dirs cfg children (S level))
               (get_files_dirs cfg children' (S level)) ->
  same_lookups acc acc' ->
  same_lookups (scan_entry cfg level (EDir n children) acc)
               (scan_entry cfg level (EDir n children') acc').
Proof.
  intros Hn Hc Hc' Hsub Hacc k.
  destruct (Hacc k) as (H1 & H2 & H3).
  rewrite !scan_entry_dir. destruct (str_in n (dirs_to_ignore cfg)); auto.
  cbv zeta. cbn [music_files rest_files dir_dict].
  destruct (scan_nodup cfg children (S level)) as [Nm Nr].
  destruct (scan_nodup cfg children' (S level)) as [Nm' Nr'].
  pose proof (scan_dirs_nodup cfg children (S level)) as Nd.
  pose proof (scan_dirs_nodup cfg children' (S level)) as Nd'.
  pose proof (@scan_keys_start cfg children Hc (S level)) as St.
  pose proof (@scan_keys_start cfg children' Hc' (S level)) as St'.
  repeat split.
  - rewrite (get_update_split k _ (music_files acc)),
      (get_update_split k _ (music_files acc')), H1.
    rewrite (@join_keys_ext _ n _ (music_files (get_files_dirs cfg children' (S level))));
      auto.
    intros k0. apply (Hsub k0).
  - rewrite (get_update_split k _ (rest_files acc)),
      (get_update_split k _ (rest_files acc')), H2.
    rewrite (@join_keys_ext _ n _ (rest_files (get_files_dirs cfg children' (S level))));
      auto.
    intros k0. apply (Hsub k0).
  - rewrite (get_update_split k _ (PyDict.set n level (dir_dict acc))),
      (get_update_split k _ (PyDict.set n level (dir_dict acc'))).
    rewrite !get_set, H3.
    rewrite (@join_keys_ext _ n _ (dir_dict (get_files_dirs cfg children' (S level))));
      auto.
    intros k0. apply (Hsub k0).
Qed.
(** The keys that a directory adds start with its name. *)
Lemma dir_key_shape (cfg : config) (level : nat) (n : string)
  (children : list entry) (k : string) :
  entry_ok (EDir n children) = true ->
  dir_key_from cfg level (EDir n children) k \/
  music_key_from cfg level (EDir n children) k \/
  rest_key_from cfg level (EDir n children) k ->
  k = n \/ exists r, k = (n ++ String sep r)%string.
Proof.
  intros Hok H. apply entry_ok_dir in Hok. destruct Hok as [Hn Hch].
  apply dir_entry_keys in H. destruct H as [_ [->|(k' & Hk' & ->)]]; auto.
  right. exists k'. apply join_ok; auto.
  now apply (@scan_keys_start cfg children Hch (S level)).
Qed.

Lemma dir_file_key_shape (cfg : config) (level : nat) (n : string)
  (children : list entry) (k : string) :
  entry_ok (EDir n children) = true ->
  music_key_from cfg level (EDir n children) k \/
  rest_key_from cfg level (EDir n children) k ->
  contains_char sep k = true.
Proof.
  intros Hok H. apply entry_ok_dir in Hok. destruct Hok as [Hn Hch].
  assert (E : exists k', starts_with_char sep k' = false /\ k = join n k').
  { destruct H as [(_ & k' & Hk' & ->)|(_ & k' & Hk' & ->)]; exists k';
      split; auto; apply (@scan_keys_start cfg children Hch (S level)); auto. }
  destruct E as (k' & Hs & ->). rewrite join_ok by auto. apply no_sep_append.
Qed.

(** Two entries that add one key to one map have a tag in common. *)
Lemma key_from_tags (cfg : config) (level : nat) (e1 e2 : entry) (k : string) :
  entry_ok e1 = true -> entry_ok e2 = true ->
  (dir_key_from cfg level e1 k /\ dir_key_from cfg level e2 k) \/
  (music_key_from cfg level e1 k /\ music_key_from cfg level e2 k) \/
  (rest_key_from cfg level e1 k /\ rest_key_from cfg level e2 k) ->
  exists t, In t (entry_tag e1) /\ In t (entry_tag e2).
Proof.
  intros H1 H2 H.
  destruct e1 as [n1 c1|n1 m1|n1]; destruct e2 as [n2 c2|n2 m2|n2];
    try (simpl in H; tauto).
  - (* two directories *)
    assert (S1 : k = n1 \/ exists r, k = (n1 ++ String sep r)%string).
    { apply (@dir_key_shape cfg level n1 c1 k H1). tauto. }
    assert (S2 : k = n2 \/ exists r, k = (n2 ++ String sep r)%string).
    { apply (@dir_key_shape cfg level n2 c2 k H2). tauto. }
    apply entry_ok_dir in H1. destruct H1 as [Hn1 _].
    apply entry_ok_dir in H2. destruct H2 as [Hn2 _].
    destruct (name_ok_spec n1 Hn1) as [_ Hs1].
    destruct (name_ok_spec n2 Hn2) as [_ Hs2].
    assert (E : n1 = n2).
    { destruct S1 as [->|[r1 ->]]; destruct S2 as [E|[r2 E]].
      - exact E.
      - rewrite E, no_sep_append in Hs1. discriminate.
      - rewrite <- E, no_sep_append in Hs2. discriminate.
      - apply sep_split in E; auto. destruct E as [[E _]|[d' [E _]]]; auto.
        rewrite E, no_sep_append in Hs2. discriminate. }
    subst. exists (String "D" n2). simpl. auto.
  - (* a directory and a file *)
    exfalso.
    assert (Hk : contains_char sep k = true).
    { apply (@dir_file_key_shape cfg level n1 c1 k H1).
      destruct H as [[_ []]|[[H _]|[H _]]]; auto. }
    apply entry_ok_name in H2. simpl in H2.
    destruct (name_ok_spec n2 H2) as [_ Hs2].
    rewrite (@file_entry_keys cfg level n2 m2 k Hs2) in Hk; [discriminate|].
    destruct H as [[_ []]|[[_ H]|[_ H]]]; auto.
  - (* a file and a directory *)
    exfalso.
    assert (Hk : contains_char sep k = true).
    { apply (@dir_file_key_shape cfg level n2 c2 k H2).
      destruct H as [[[] _]|[[_ H]|[_ H]]]; auto. }
    apply entry_ok_name in H1. simpl in H1.
    destruct (name_ok_spec n1 H1) as [_ Hs1].
    rewrite (@file_entry_keys cfg level n1 m1 k Hs1) in Hk; [discriminate|].
    destruct H as [[[] _]|[[H _]|[H _]]]; auto.
  - (* two files *)
    simpl in H. simpl.
    destruct (splitext n1) as [a1 b1]. destruct (splitext n2) as [a2 b2].
    cbn [fst snd] in H.
    destruct H as [[[] _]|[[[E1 ->] [E2 E]]|[[E1 ->] [E2 E]]]].
    + rewrite E1, E2. subst. exists (String "M" a2). simpl. auto.
    + rewrite E1, E2. subst. exists (String "R" n2). simpl. auto.
Qed.

Lemma contrib_music_key (cfg : config) (level : nat) (e : entry) (k : string)
  (v : music_info) :
  PyDict.get k (music_files (scan_entry cfg level e empty_scan)) = Some v ->
  music_key_from cfg level e k.
Proof.
  intros H.
  assert (Hin : In k (PyDict.keys (music_files (scan_entry cfg level e empty_scan)))).
  { apply get_In_keys. congruence. }
  apply scan_entry_music_keys in Hin. destruct Hin as [[]|Hin]. exact Hin.
Qed.

Lemma contrib_rest_key (cfg : config) (level : nat) (e : entry) (k : string)
  (v : Z) :
  PyDict.get k (rest_files (scan_entry cfg level e empty_scan)) = Some v ->
  rest_key_from cfg level e k.
Proof.
  intros H.
  assert (Hin : In k (PyDict.keys (rest_files (scan_entry cfg level e empty_scan)))).
  { apply get_In_keys. congruence. }
  apply scan_entry_rest_keys in Hin. destruct Hin as [[]|Hin]. exact Hin.
Qed.

Lemma contrib_dir_key (cfg : config) (level : nat) (e : entry) (k : string)
  (v : nat) :
  PyDict.get k (dir_dict (scan_entry cfg level e empty_scan)) = Some v ->
  dir_key_from cfg level e k.
Proof.
  intros H.
  assert (Hin : In k (PyDict.keys (dir_dict (scan_entry cfg level e empty_scan)))).
  { apply get_In_keys. congruence. }
  apply scan_entry_dir_keys in Hin. destruct Hin as [[]|Hin]. exact Hin.
Qed.

(** Two entries without a common tag can be scanned in either order. *)
Lemma scan_entry_swap (cfg : config) (level : nat) (e1 e2 : entry)
  (acc acc' : scan) :
  entry_ok e1 = true -> entry_ok e2 = true ->
  (forall t, In t (entry_tag e1) -> In t (entry_tag e2) -> False) ->
  same_lookups acc acc' ->
  same_lookups (scan_entry cfg level e2 (scan_entry cfg level e1 acc))
               (scan_entry cfg level e1 (scan_entry cfg level e2 acc')).
Proof.
  intros H1 H2 Hd Hacc k. destruct (Hacc k) as (G1 & G2 & G3).
  destruct (scan_entry_get cfg level e2 (scan_entry cfg level e1 acc) k)
    as (A1 & A2 & A3).
  destruct (scan_entry_get cfg level e1 acc k) as (B1 & B2 & B3).
  destruct (scan_entry_get cfg level e1 (scan_entry cfg level e2 acc') k)
    as (C1 & C2 & C3).
  destruct (scan_entry_get cfg level e2 acc' k) as (D1 & D2 & D3).
  rewrite A1, A2, A3, B1, B2, B3, C1, C2, C3, D1, D2, D3, G1, G2, G3.
  clear A1 A2 A3 B1 B2 B3 C1 C2 C3 D1 D2 D3 G1 G2 G3.
  repeat split.
  - destruct (PyDict.get k (music_files (scan_entry cfg level e2 empty_scan)))
      as [v2|] eqn:E2;
      destruct (PyDict.get k (music_files (scan_entry cfg level e1 empty_scan)))
      as [v1|] eqn:E1; auto.
    exfalso. apply contrib_music_key in E1. apply contrib_music_key in E2.
    destruct (@key_from_tags cfg level e1 e2 k H1 H2) as (t & T1 & T2); eauto.
  - destruct (PyDict.get k (rest_files (scan_entry cfg level e2 empty_scan)))
      as [v2|] eqn:E2;
      destruct (PyDict.get k (rest_files (scan_entry cfg level e1 empty_scan)))
      as [v1|] eqn:E1; auto.
    exfalso. apply contrib_rest_key in E1. apply contrib_rest_key in E2.
    destruct (@key_from_tags cfg level e1 e2 k H1 H2) as (t & T1 & T2); eauto.
  - destruct (PyDict.get k (dir_dict (scan_entry cfg level e2 empty_scan)))
      as [v2|] eqn:E2;
      destruct (PyDict.get k (dir_dict (scan_entry cfg level e1 empty_scan)))
      as [v1|] eqn:E1; auto.
    exfalso. apply contrib_dir_key in E1. apply contrib_dir_key in E2.
    destruct (@key_from_tags cfg level e1 e2 k H1 H2) as (t & T1 & T2); eauto.
Qed.
Lemma NoDup_nodupb (l : list string) : NoDup l -> nodupb l = true.
Proof.
  induction 1 as [|x l Hx Hl IH]; simpl; auto.
  rewrite IH, andb_true_r. apply negb_true_iff.
  destruct (str_in x l) eqn:E; auto. apply str_in_In in E. contradiction.
Qed.

Lemma nodupb_Permutation (l l' : list string) :
  Permutation l l' -> nodupb l = true -> nodupb l' = true.
Proof.
  intros P H. apply NoDup_nodupb. apply (Permutation_NoDup P).
  now apply nodupb_NoDup.
Qed.

Lemma nodupb_app_disjoint (a b c : list string) (t : string) :
  nodupb (a ++ b ++ c) = true -> In t a -> In t b -> False.
Proof.
  intros H Ha Hb. apply nodupb_NoDup in H.
  induction a as [|x a IH]; [destruct Ha|].
  simpl in H. inversion H as [|? ? Hx Hn]; subst.
  destruct Ha as [->|Ha]; auto.
  apply Hx. apply in_app_iff. right. apply in_app_iff. now left.
Qed.

Lemma shuffled_tags (es es' : list entry) :
  shuffled es es' ->
  Permutation (flat_map entry_tag es) (flat_map entry_tag es').
Proof.
  induction 1 as [|n c c' es es' _ _ _ IH|n m es es' _ IH|n es es' _ IH
                  |e1 e2 es|es1 es2 es3 _ IH1 _ IH2]; cbn [flat_map].
  - constructor.
  - now apply Permutation_app_head.
  - now apply Permutation_app_head.
  - now apply Permutation_app_head.
  - apply Permutation_app_swap_app.
  - eapply perm_trans; eauto.
Qed.

Lemma shuffled_names_ok (es es' : list entry) :
  shuffled es es' -> names_ok es = true -> names_ok es' = true.
Proof.
  induction 1 as [|n c c' es es' _ IHc _ IH|n m es es' _ IH|n es es' _ IH
                  |e1 e2 es|es1 es2 es3 _ IH1 _ IH2]; intros H; auto.
  - apply names_ok_cons in H. destruct H as [He Hes].
    apply entry_ok_dir in He. destruct He as [Hn Hc].
    apply names_ok_cons. split; auto. apply entry_ok_dir. auto.
  - apply names_ok_cons in H. destruct H as [He Hes].
    apply names_ok_cons. auto.
  - apply names_ok_cons in H. destruct H as [He Hes].
    apply names_ok_cons. auto.
  - apply names_ok_cons in H. destruct H as [H1 H].
    apply names_ok_cons in H. destruct H as [H2 H].
    apply names_ok_cons. split; auto. apply names_ok_cons. auto.
Qed.

Lemma keys_distinct_cons (e : entry) (es : list entry) :
  keys_distinct (e :: es) = true ->
  keys_distinct_in e = true /\ keys_distinct es = true.
Proof.
  unfold keys_distinct. cbn [flat_map forallb]. intros H.
  apply andb_prop in H. destruct H as [H1 H2].
  apply andb_prop in H2. destruct H2 as [H2 H3]. split; auto.
  rewrite H3, andb_true_r. apply nodupb_NoDup in H1.
  apply NoDup_nodupb. now apply NoDup_app_remove_l in H1.
Qed.

Lemma shuffled_distinct_in (es es' : list entry) :
  shuffled es es' ->
  forallb keys_distinct_in es = true -> forallb keys_distinct_in es' = true.
Proof.
  induction 1 as [|n c c' es es' Hc IHc _ IH|n m es es' _ IH|n es es' _ IH
                  |e1 e2 es|es1 es2 es3 _ IH1 _ IH2]; intros H.
  - reflexivity.
  - cbn [forallb keys_distinct_in] in *.
    apply andb_prop in H. destruct H as [H1 H2].
    apply andb_prop in H1. destruct H1 as [H0 H1].
    rewrite (IH H2), (IHc H1), andb_true_r, andb_true_r.
    apply (nodupb_Permutation (shuffled_tags Hc) H0).
  - cbn [forallb] in *. apply andb_prop in H. destruct H as [H1 H2].
    now rewrite H1, (IH H2).
  - cbn [forallb] in *. apply andb_prop in H. destruct H as [H1 H2].
    now rewrite H1, (IH H2).
  - cbn [forallb] in *. apply andb_prop in H. destruct H as [H1 H2].
    apply andb_prop in H2. destruct H2 as [H2 H3]. now rewrite H1, H2, H3.
  - auto.
Qed.

Lemma shuffled_keys_distinct (es es' : list entry) :
  shuffled es es' -> keys_distinct es = true -> keys_distinct es' = true.
Proof.
  intros S H. unfold keys_distinct in *. apply andb_prop in H.
  destruct H as [H1 H2].
  rewrite (shuffled_distinct_in S H2), andb_true_r.
  apply (nodupb_Permutation (shuffled_tags S) H1).
Qed.

Lemma shuffled_fold (cfg : config) (es es' : list entry) :
  shuffled es es' ->
  forall level acc acc',
    names_ok es = true -> keys_distinct es = true ->
    same_lookups acc acc' ->
    same_lookups (fold_left (fun a e => scan_entry cfg level e a) es acc)
                 (fold_left (fun a e => scan_entry cfg level e a) es' acc').
Proof.
  induction 1 as [|n c c' es es' Hc IHc _ IH|n m es es' _ IH|n es es' _ IH
                  |e1 e2 es|es1 es2 es3 S1 IH1 _ IH2];
    intros level acc acc' Hok Hkd Hacc.
  - exact Hacc.
  - rewrite !get_files_dirs_cons.
    apply names_ok_cons in Hok. destruct Hok as [He Hes].
    apply keys_distinct_cons in Hkd. destruct Hkd as [Hd Hds].
    apply IH; auto.
    apply entry_ok_dir in He. destruct He as [Hn Hch].
    apply scan_entry_dir_ext; auto.
    + now apply (shuffled_names_ok Hc).
    + apply IHc; auto. apply same_lookups_refl.
  - rewrite !get_files_dirs_cons.
    apply names_ok_cons in Hok. destruct Hok as [He Hes].
    apply keys_distinct_cons in Hkd. destruct Hkd as [Hd Hds].
    apply IH; auto. now apply scan_entry_ext.
  - rewrite !get_files_dirs_cons.
    apply names_ok_cons in Hok. destruct Hok as [He Hes].
    apply keys_distinct_cons in Hkd. destruct Hkd as [Hd Hds].
    apply IH; auto.
  - rewrite !get_files_dirs_cons. apply fold_scan_ext.
    apply names_ok_cons in Hok. destruct Hok as [H1 Hok].
    apply names_ok_cons in Hok. destruct Hok as [H2 Hok].
    apply scan_entry_swap; auto.
    intros t T1 T2. unfold keys_distinct in Hkd. apply andb_prop in Hkd.
    destruct Hkd as [Hkd _]. cbn [flat_map] in Hkd.
    exact (@nodupb_app_disjoint _ _ _ t Hkd T1 T2).
  - apply same_lookups_trans
      with (fold_left (fun a e => scan_entry cfg level e a) es2 acc).
    + apply IH1; auto. apply same_lookups_refl.
    + apply IH2; auto.
      * now apply (shuffled_names_ok S1).
      * now apply (shuffled_keys_distinct S1).
Qed.

Lemma shuffled_refl (es : list entry) : shuffled es es.
Proof.
  induction es as [|n children es IHc IHe|n m es IHe|n es IHe] using entries_ind;
    constructor; auto.
Qed.

(** Any other order of the entries of the root is a shuffle. *)
Lemma Permutation_shuffled (es es' : list entry) :
  Permutation es es' -> shuffled es es'.
Proof.
  induction 1 as [|e es es' _ IH|e1 e2 es|es1 es2 es3 _ IH1 _ IH2].
  - constructor.
  - destruct e; constructor; auto. apply shuffled_refl.
  - apply shuffled_swap.
  - eapply shuffled_trans; eauto.
Qed.

(** X20. When no two audio files of a directory have one name without
    extension (and the names are those of a file system), the three maps
    of get_files_dirs hold the same value under every key whatever the
    order in which scandir yields the entries of each directory. *)
Theorem scan_order_independent (cfg : config) (es es' : list entry)
  (level : nat) :
  names_ok es = true -> keys_distinct es = true -> shuffled es es' ->
  same_lookups (get_files_dirs cfg es level) (get_files_dirs cfg es' level).
Proof.
  intros Hok Hkd S. unfold get_files_dirs.
  apply (shuffled_fold cfg S); auto. apply same_lookups_refl.
Qed.

Lemma scan_order_independent_witness :
  let es := [EDir "Album" [EFile "01.flac" 5; EFile "cover.jpg" 3];
             EFile "a.mp3" 1] in
  let es' := [EFile "a.mp3" 1;
              EDir "Album" [EFile "cover.jpg" 3; EFile "01.flac" 5]] in
  names_ok es = true /\ keys_distinct es = true /\ shuffled es es' /\
  same_lookups (get_files_dirs default_config es 0)
               (get_files_dirs default_config es' 0).
Proof.
  cbv zeta.
  assert (S : shuffled
            [EDir "Album" [EFile "01.flac" 5; EFile "cover.jpg" 3];
             EFile "a.mp3" 1]
            [EFile "a.mp3" 1;
             EDir "Album" [EFile "cover.jpg" 3; EFile "01.flac" 5]]).
  { eapply shuffled_trans; [|apply shuffled_swap].
    apply shuffled_dir; [apply shuffled_swap | apply shuffled_refl]. }
  split; [reflexivity|]. split; [reflexivity|]. split; [exact S|].
  apply (@scan_order_independent default_config _ _ 0); [reflexivity|reflexivity|exact S].
Defined.

(** With a.flac and a.mp3 in one directory the entry that comes last
    wins: the order of the entries decides what is compared. *)
Example same_stem_order_matters :
  PyDict.get "a" (music_files (get_files_dirs default_config
                                 [EFile "a.flac" 1; EFile "a.mp3" 2] 0))
    = Some (MusicInfo ".mp3" 2) /\
  PyDict.get "a" (music_files (get_files_dirs default_config
                                 [EFile "a.mp3" 2; EFile "a.flac" 1] 0))
    = Some (MusicInfo ".flac" 1) /\
  keys_distinct [EFile "a.flac" 1; EFile "a.mp3" 2] = false.
Proof. repeat split; reflexivity. Qed.

(** ** Audio files that changed: what is compared and what is saved *)



(** C1, the counterexample.  A lossless file whose track number is
    [3/14] and a right file whose frame holds [3/14] have the same
    canonical dict, and the run saves tags instead of encoding: the dict
    of the lossless file is compared as it is read.  What else the
    statement above asks for is needed as well: a right file [a.MP3] is a
    key of [music_changed] and stops the run; so does a right file that
    cannot be read; with a total frame without value in the right
    container, a frame id of the table that is no frame, or a total field
    without value in the dict of a left [.mp3] file, the conversion raises
    and nothing is saved; and with two fields of the table for one frame
    the saved frame is the one of the second field. *)
Lemma copy_music_changed_raw_dict :
  (let cr := CompResult_init default_config "left" "right"
               [EFile "a.flac" 5] [EFile "a.mp3" 1] in
   let raw := [("tracknumber", ["3/14"])] in
   let frames := [("TRCK", TRCK ["3/14"])] in
   music_changed cr = ["a"] /\
   canonical_fields raw = Ok [("tracknumber", ["3"]); ("tracktotal", ["14"])] /\
   id3_tags_as_dict default_config frames =
     Ok [("tracknumber", ["3"]); ("tracktotal", ["14"])] /\
   synchronise (tags_at [("left/a.flac", raw)]) (frames_at [("right/a.mp3", frames)])
     quiet_perform default_config cr (tt, []) =
   ((tt, [SaveTags "right/a.mp3" frames]), None)) /\
  (let cr := CompResult_init default_config "left" "right"
               [EFile "a.flac" 5] [EFile "a.MP3" 1] in
   music_changed cr = ["a"] /\
   synchronise no_tags no_frames quiet_perform default_config cr (tt, []) =
   ((tt, []), Some (AssertionError "Target file is not .mp3"))) /\
  (let cr := CompResult_init default_config "left" "right"
               [EFile "a.flac" 5] [EFile "a.mp3" 1] in
   synchronise titled (frames_at []) quiet_perform default_config cr (tt, []) =
   ((tt, []), Some (OSError "No such file or directory"))) /\
  (let cr := CompResult_init default_config "left" "right"
               [EFile "a.flac" 5] [EFile "a.mp3" 1] in
   synchronise (tags_at [("left/a.flac", [("tracknumber", ["3"])])])
     (frames_at [("right/a.mp3", [("TXXX:tracktotal", TXXX "tracktotal" [])])])
     quiet_perform default_config cr (tt, []) =
   ((tt, []), Some IndexError)) /\
  (let cr := CompResult_init config_bad_frame "left" "right"
               [EFile "a.flac" 5] [EFile "a.mp3" 1] in
   synchronise (tags_at [("left/a.flac", [("mood", ["calm"])])])
     (frames_at [("right/a.mp3", [])])
     quiet_perform config_bad_frame cr (tt, []) =
   ((tt, []),
    Some (AssertionError "'TMOOD' in vorbis_to_id3_map is not a valid frame type"))) /\
  (let cr := CompResult_init default_config "left" "right"
               [EFile "a.mp3" 5] [EFile "a.mp3" 1] in
   synchronise no_tags
     (frames_at [("left/a.mp3", [("TRCK", TRCK ["3"]);
                                 ("TXXX:tracktotal", TXXX "tracktotal" [])]);
                 ("right/a.mp3", [])])
     quiet_perform default_config cr (tt, []) =
   ((tt, []), Some IndexError)) /\
  (let cr := CompResult_init config_second_artist "left" "right"
               [EFile "a.flac" 5] [EFile "a.mp3" 1] in
   synchronise (tags_at [("left/a.flac", [("artist", ["A"]); ("performer", ["B"])])])
     (frames_at [("right/a.mp3", [])])
     quiet_perform config_second_artist cr (tt, []) =
   ((tt, [SaveTags "right/a.mp3" [("TPE1", text_frame "TPE1" ["B"])]]), None)).
Proof. repeat split; vm_compute; reflexivity. Qed.
